(* ===== verification/_CoqProject ===== *)
-Q . S2P
Prelude.v
GoStrings.v
Urls.v
Decimals.v
Gtid.v
Json.v
Etcd.v
DirTree.v
World.v
ServiceManager.v
Demo.v
Leader.v
Node.v
Election.v
ServerLoop.v
Threads.v
ServerProofs.v
AgentSpec.v
Cluster.v
Serving.v
Failover.v
Startup.v
Flags.v
Logging.v
Background.v
Typing.v
Lease.v
Http.v
Race.v
Postgres.v
Boot.v
Lifecycle.v
DistLock.v
Tool.v
Switch.v
Recovery.v
Conf.v
Handover.v
Checker.v
Partition.v
Chaos.v
