(* ===== verification/Prelude.v ===== *)
(** * Moha: the MySQL/PostgreSQL high-availability agent, verified

    Moha runs one agent beside each database of a group.  The agents elect a
    leader through etcd: the leader key holds the ID of the leader under a
    lease, the database of the leader accepts writes, and the others replicate
    from it.  Three command-line tools move the leadership by hand
    ([moctl/switch.go]), repair a former master ([moctl/recovery.go]) and write
    the configuration files ([moctl/conf.go]).  Around the agent there are a
    supervisor with its boot and tear-down processes ([cmd/], [supervise/]),
    and a checker that breaks a cluster on purpose and compares its databases
    ([checker/]).

    ** Conventions

    Go values are integers with the wrap-around written out, byte strings,
    records and [gmap]s; an error is a value of [error]; a call that returns
    [(value, error)] returns a sum.  Code outside [src/] (the database, the
    shell, files, YAML) is an argument of the definitions that use it, as the
    operations of a type class, with what the code relies on as the laws of a
    second class: [ServiceManager]/[ServiceManagerOk],
    [SQLServer]/[MySQLServerOk], [LocalFiles]/[LocalFilesOk], [ToolEnv],
    [CheckerEnv], [Host]/[HostOk], [EventFD]/[EventFDOk],
    [RangeOrder]/[RangeOrderOk] (the order in which Go ranges over a map),
    [ReplicationTyped].  Each law class has an instance on a concrete toy
    implementation, on which the theorems are applied.

    An agent is a program in a monad over a [world]: the memory of the process
    ([Server], [latestPos]), the store of etcd, the database, the clock, a
    trace of the effects that matter and an oracle.  Each call to etcd takes a
    tick of the oracle, which says what the other agents did to the store
    before the call, how long the call took and whether its answer was lost;
    the theorems quantify over all oracles.  The outcome of a program is a
    value, an exit of the process, a panic, or being blocked.

    A leader has three goroutines: the leader loop, the keep-alive loop and the
    lease monitor.  From the moment they are started a schedule says whose turn
    it is, call by call of the leader loop and case by case of the two
    [select]s ([race], [barrier]), and before each turn what the remaining
    goroutines (HTTP handlers, signal handler, heartbeat, binlog monitor) did
    to the memory, the database, etcd and the clock: a [disturbance].  A run of
    the leader loop takes a list of [round]s: the disturbances before an
    iteration, what the watcher delivers in it and its schedule.  The theorems
    quantify over all rounds, or over those whose disturbances keep a stated
    condition.  [Close] of the server is there whole, with
    [httpSrv.Shutdown(nil)], which panics while an HTTP request is being
    served; the oracle says when one is.

    The checker has several goroutines on one shared [Server].  A goroutine is
    a program in a monad of its own, and a schedule says before each access to
    the shared state what the others did: the IDs the poller handed over, the
    started goroutines that ran, the verdict of the chaos job; the theorems
    quantify over all schedules.

    ** The files

    - [Prelude]: machine integers, errors, tactics.  [GoStrings] and
      [Decimals]: [strings], [strconv] and [path].  [Json]: the JSON of the
      agents' records, printing and parsing.  [Urls]: [net/url],
      [pkg/types/urls.go] and [pkg/etcd/urls.go].
    - [Gtid]: GTID sets of [vendor/.../mysql_gtid.go] and
      [GetTxnIDFromGTIDStr] of [pkg/mysql/mysql.go].
    - [Etcd]: the store of etcd (keys with revisions, transactions, leases) and
      the client wrapper [pkg/etcd/etcd.go]; [DirTree]: its [List].
    - [World]: the state and effects of an agent.  [ServiceManager]: the
      interface of [agent/service_manager.go], [pkg/mysql/mysql.go] and the
      MySQL implementation; [Postgres]: the PostgreSQL one.  [Demo]: a
      concrete cluster for the examples.
    - [Leader]: [agent/leader.go], the leader key and the transactions on it,
      and [agent/cleaner.go].  [Lease]: the monitor of the lease.
    - [Node]: [agent/registry.go] and the registration of [agent/node.go],
      [agent/util.go].  [Election]: [agent/campaign.go].
    - [ServerLoop]: [agent/server.go] and [agent/single_point.go]: the leader
      loop, promotion, following, closing, single point mode, and the goroutines
      of a leader under a schedule.  [Threads]: how a property of the steps of
      these goroutines is one of the whole schedule.
    - [Startup]: the identity of a node and the connection to MySQL.
      [Flags]: package [flag], [agent/config.go] and [checker/config.go].
      [Logging]: [agent/logutil.go] and [pkg/log/log.go].  [Boot]: the start
      of the database in [Start], the connection to PostgreSQL,
      [pkg/systemcall] and the programs of [cmd/].
      [Background]: heartbeat and binlog monitor.  [Http]: [agent/http.go].
    - [Lifecycle]: a whole run of an agent, [NewServer] and [Start] of
      [agent/server.go] with the leader loop between its start and its end.
      [DistLock]: [pkg/etcd/locker.go] and the [clientv3/concurrency] package
      of etcd behind it, as the PostgreSQL manager uses them.
    - [ServerProofs], [AgentSpec], [Cluster], [Serving], [Failover],
      [Typing] (the numbers in etcd stay readable), [Race] (a change of master
      during a promotion): the theorems on the agent and on clusters of agents.
    - [Tool]: the surroundings of the tools; [Switch], [Recovery], [Conf]: the
      tools; [Handover]: what the agents leave in etcd and the tools find.
    - [Checker]: [checker/server.go], [checker/job.go] and the commands of
      [checker/agent_maniplate.go]; [Partition]: what the partitions cut;
      [Chaos]: [checker/chaos.go].

    ** The theorems

    - Mutual exclusion: [no_two_leaders] on the machine of all agents' requests,
      [Start_refines_machine] that a whole run of the code is made of its
      steps, [campaign_exclusive], [leader_stable], [deleteLeaderKey_own], and
      [office_exclusive] for a whole term of office, from the campaign to the
      end of the keep-alive loop, in every schedule; [lock_exclusive] for the distributed lock.
    - Progress: [failover_completes] (an undisturbed agent without a leader
      ends in office, with its lease renewed at every tick), [some_candidate_latest], [Lock_returns].
    - Writes: [writes_need_leadership] over the whole run of an agent,
      [serve_ends] on how such a run ends (normally, by exit 3 or by a panic), [loop_head_read_only],
      [Close_stops_writes], [ChangeMaster_stops_writes_first],
      [Start_read_only], [SetReadOnlyManually_spec], [shutdown_frees_leader];
      [monitor_exits_before_expiry] for a leader that etcd does not hear.
    - No lost transactions: [preWatch_decides], [later_log_closes], the
      specification of the election ([isLatestLog_spec], [single_point_unique],
      [collect_logs_spec]), [GetTxnID_spec].
    - Round trips between agents, tools and processes: [campaign_round_trip],
      [register_then_find], [List_reads_store], [recovery_finds_promotion],
      [switch_finds_leader], [NewURLsValue_round_trip], [boot_handshake].
    - Types, bounds, termination: [counters_readable] over the whole run,
      [generated_numbers_bounds], [preCampaign_returns],
      [NewMySQLServiceManager_returns], [start_database_ends].
    - The tools: [switch_changes_when_consistent], [checkConsistency_spec],
      [switch_gives_writes_back], [undo_after_backup], [getBinlogList_spec],
      [generated_group], [conf_never_overwrites].
    - Identity, configuration and background: [node_ID_stable],
      [agent_config_precedence], [heartbeat_silent_after_Close],
      [error_log_lines].
    - The checker: [registered_node_verified] (what a passed check has seen),
      [poller_tracks_leader], [partitions_cut_zone], [one_az_spares_master],
      [chaos_verdict], [checker_reaches_agent].
    - What the code does and should not: [Close_keeps_leader_key],
      [promotion_races_change_master] (on any store and database), and among the
      lemmas [Close_panics], [serve_hangs], [failed_resume_grants_writes],
      [failed_counts_agree], [ChangeMaster_panics],
      [SetReadWrite_after_ChangeMaster],
      [hostname_log_lost], [pg_SetReadOnly_ignores_edit],
      [pg_lsn_always_zero], [switch_retries_while_writable],
      [monitor_panic_closes], [server_ids_collide], [default_addr_rejected],
      [port_race], [tear_down_without_pid], [stopped_master_not_awaited],
      [unchanged_master_accepted], [pick_AZ_single], [initDB_loses_root],
      [expired_session_holds], [session_never_closed], [work_without_lock].

    ** Bounds

    Loops that wait for another party take a fuel argument or the list of what
    wakes them and end as [Blocked] when it runs out; the safety theorems hold
    for every fuel and every list, and the theorems that a loop returns say how
    much is enough: the failures left in the oracle for the retries
    ([preCampaign_returns]), the seconds to the deadline for the monitor
    ([monitor_exits_before_expiry]), the time limit in pauses for the connection
    and for the port ([NewMySQLServiceManager_returns], [start_database_ends]),
    the turns of the others for the lock ([Lock_returns]).  A schedule that ends
    before the main goroutine does lets that one run alone; one that ends at the
    barrier leaves the run [Blocked].  The waits of the checker take the number
    of their rounds.  Bounded loops of the source (the ten
    retries of [becomeSlave], the eleven reads of [await_master]) have exactly
    its bound.

    ** Not modelled

    - Metrics and version output; the TOML and YAML decoders; the file lock of
      [pkg/file] beyond its answer; the daemon of
      [cmd/mysql-agent-service-boot-daemon], which forks and waits.
    - Inside a promotion of PostgreSQL the lock is an operation of [PgHost]:
      the requests of [DistLock] are interleaved with the others' there, not
      with the statements of the promotion.
    - The supervisor in C, except how it reads the event descriptor and which
      exit statuses make it start the agent again.
    - [Start] of the checker as one program: its goroutines are modelled one by
      one, each against all schedules of the others.
    - In [net/url], texts outside [url_text] (escapes, user names, fragments,
      bracketed addresses).
    - The remaining goroutines of an agent act at the disturbances, each as a
      whole, and [Close] of another goroutine as a whole.  There are
      disturbances before every iteration and before every turn of a leader's
      goroutines; inside the other branches of an iteration (reading the leader,
      following, the election, single point mode) only etcd changes.
    - A keep-alive goroutine whose promotion failed is left when the iteration
      ends, after the main goroutine has closed its stop channel; what it may
      still do later, renew the lease and stop writes (or exit when that is
      refused), is not followed, except as a disturbance.
    - In etcd: compaction, watch streams (the answers of a watch are an
      argument), clock drift beyond the delays of [Lease]. *)

From stdpp Require Import gmap strings list fin_maps.
From Stdlib Require Import ZArith Lia.

#[global] Open Scope string_scope.
#[global] Open Scope list_scope.
#[global] Open Scope Z_scope.

(** Let [simpl] and [cbn] compute string concatenation again. *)
#[global] Arguments String.append !_ _ / : simpl nomatch.

(** ** Machine integers

    Go's fixed-width integers are integers with the wrap-around written out. *)

Definition two63 : Z := 9223372036854775808.
Definition two64 : Z := 18446744073709551616.

(** [uint64] arithmetic. *)
Definition u64 (z : Z) : Z := z mod two64.

(** [int64] (and [int] on the 64-bit targets the agent is built for). *)
Definition i64 (z : Z) : Z := (z + two63) mod two64 - two63.

Definition is_u64 (z : Z) : Prop := 0 <= z < two64.
Definition is_i64 (z : Z) : Prop := - two63 <= z < two63.

(** A run is known by its outcome: evaluate that, and keep the rest closed. *)
Lemma with_outcome {A B} (p : A * B) (a : A) : p.1 = a -> p = (a, p.2).
Proof. by destruct p; intros <-. Qed.

Lemma u64_small (z : Z) : is_u64 z -> u64 z = z.
Proof. apply Z.mod_small. Qed.

Lemma u64_range (z : Z) : is_u64 (u64 z).
Proof. apply Z.mod_pos_bound. reflexivity. Qed.

Lemma i64_small (z : Z) : is_i64 z -> i64 z = z.
Proof.
  unfold is_i64, i64, two63, two64. intros H.
  rewrite Z.mod_small; lia.
Qed.

Lemma u64_pred_pos (z : Z) : 0 < z < two64 -> u64 (z - 1) = z - 1.
Proof. intros H. apply u64_small. unfold is_u64, two64 in *. lia. Qed.

Lemma u64_pred_zero : u64 (0 - 1) = two64 - 1.
Proof. reflexivity. Qed.

Lemma u64_succ (z : Z) : is_u64 z -> z <> two64 - 1 -> u64 (z + 1) = z + 1.
Proof. unfold is_u64, two64. intros ??. apply u64_small. unfold is_u64, two64. lia. Qed.

(** ** Go errors

    A Go [error] is a value; [option error] is its nilable form.  Only what
    the sources test about an error is kept: [errors.IsNotValid],
    [errors.IsNotFound], [os.IsNotExist] and [driver.ErrBadConn] are the tests
    they make;
    [errors.Trace] and [errors.Annotate] keep the cause and are the identity
    on this type. *)
Inductive error : Type :=
| NotValidf                (* errors.NotValidf *)
| NotFoundf                (* errors.NotFoundf, errors.NewNotFound *)
| ErrBadConn               (* driver.ErrBadConn *)
| ErrCanceled              (* the context of the call is done *)
| ErrEtcd                  (* a request that etcd did not answer in time *)
| ErrLeaseNotFound         (* etcd: requested lease not found *)
| ErrSyntax                (* strconv.ErrSyntax *)
| ErrRange                 (* strconv.ErrRange *)
| ErrNotExist              (* os.IsNotExist holds *)
| Errorf (what : string).  (* errors.New, errors.Errorf, driver errors *)

#[global] Instance error_eq_dec : EqDecision error.
Proof. solve_decision. Defined.

Definition IsNotValid (e : error) : bool :=
  match e with NotValidf => true | _ => false end.
Definition IsNotFound (e : error) : bool :=
  match e with NotFoundf => true | _ => false end.

(** A pair [(value, error)] of Go where exactly one side matters. *)
Abbreviation result A := (A + error)%type (only parsing).

(** ** Automation shared by the components *)

Create HintDb moha.
#[export] Hint Resolve u64_range : moha.

(** Split the boolean tests of the code into the propositions they decide. *)
Ltac bool_to_prop :=
  repeat match goal with
  | H : (_ && _)%bool = true |- _ => apply andb_true_iff in H; destruct H
  | H : (_ || _)%bool = false |- _ => apply orb_false_iff in H; destruct H
  | H : negb _ = true |- _ => apply negb_true_iff in H
  | H : negb _ = false |- _ => apply negb_false_iff in H
  | H : (_ =? _) = true |- _ => apply Z.eqb_eq in H
  | H : (_ =? _) = false |- _ => apply Z.eqb_neq in H
  | H : (_ <? _) = true |- _ => apply Z.ltb_lt in H
  | H : (_ <? _) = false |- _ => apply Z.ltb_ge in H
  | H : (_ <=? _) = true |- _ => apply Z.leb_le in H
  | H : (_ <=? _) = false |- _ => apply Z.leb_gt in H
  | H : String.eqb _ _ = true |- _ => apply String.eqb_eq in H
  | H : String.eqb _ _ = false |- _ => apply String.eqb_neq in H
  | H : bool_decide _ = true |- _ => apply bool_decide_eq_true in H
  | H : bool_decide _ = false |- _ => apply bool_decide_eq_false in H
  end.

(** Follow the control flow of an unfolded definition. *)
Ltac break_match :=
  match goal with
  | |- context [match ?x with _ => _ end] =>
      lazymatch x with
      | context [match _ with _ => _ end] => fail
      | _ => destruct x eqn:?
      end
  end.

Ltac break_match_in H :=
  match type of H with
  | context [match ?x with _ => _ end] =>
      lazymatch x with
      | context [match _ with _ => _ end] => fail
      | _ => destruct x eqn:?
      end
  end.
