(* ===== verification/GoStrings.v ===== *)
(** * The parts of Go's [strings], [strconv] and [path] packages the agent uses

    Strings are byte strings.  Each function is the documented behaviour of
    the library function of the same name, restricted to the arguments the
    sources pass: [strings.Split] with a one-byte separator, base ten in
    [strconv], ASCII white space in [strings.TrimSpace].  The lemmas give the
    round trips the components rely on: split/join, format/parse and the
    injectivity of [path.Join] on ordinary path elements. *)

From stdpp Require Import gmap strings list.
From Stdlib Require Import ZArith Lia Ascii DecimalString DecimalN.
From S2P Require Import Prelude.


(** ** Package [strings] *)

(** [strings.Split(s, c)] for a separator of one byte. *)
Fixpoint Split (c : ascii) (s : string) : list string :=
  match s with
  | "" => [""]
  | String a s' =>
      if Ascii.eqb a c then "" :: Split c s'
      else match Split c s' with
           | [] => [String a ""]
           | h :: t => String a h :: t
           end
  end.

(** [strings.Join(l, sep)]. *)
Fixpoint Join (l : list string) (sep : string) : string :=
  match l with
  | [] => ""
  | [x] => x
  | x :: l' => x +:+ sep +:+ Join l' sep
  end.

(** [strings.HasPrefix], [strings.HasSuffix], [strings.TrimPrefix]. *)
Definition HasPrefix (s p : string) : bool := String.prefix p s.

Definition HasSuffix (s p : string) : bool :=
  (String.length p <=? String.length s)%nat &&
  String.eqb (String.substring (String.length s - String.length p) (String.length p) s) p.

Fixpoint drop_string (n : nat) (s : string) : string :=
  match n, s with
  | S n', String _ s' => drop_string n' s'
  | _, _ => s
  end.

Definition TrimPrefix (s p : string) : string :=
  if HasPrefix s p then drop_string (String.length p) s else s.

(** [strings.TrimLeft(s, cutset)]: drop the leading bytes that belong to the
    SET of bytes of the cutset. *)
Fixpoint in_cutset (c : ascii) (cutset : string) : bool :=
  match cutset with
  | "" => false
  | String a s' => Ascii.eqb a c || in_cutset c s'
  end.

Fixpoint TrimLeft (s cutset : string) : string :=
  match s with
  | "" => ""
  | String a s' => if in_cutset a cutset then TrimLeft s' cutset else s
  end.

Definition is_space (a : ascii) : bool :=
  let n := Ascii.nat_of_ascii a in
  ((n =? 32) || ((9 <=? n) && (n <=? 13)))%nat.

Fixpoint trim_left_space (s : string) : string :=
  match s with
  | String a s' => if is_space a then trim_left_space s' else s
  | "" => ""
  end.

Fixpoint trim_right_space (s : string) : string :=
  match s with
  | "" => ""
  | String a s' =>
      match trim_right_space s' with
      | "" => if is_space a then "" else String a ""
      | t => String a t
      end
  end.

(** [strings.TrimSpace]. *)
Definition TrimSpace (s : string) : string := trim_right_space (trim_left_space s).

(** [strings.Contains]. *)
Fixpoint Contains (s sub : string) : bool :=
  String.prefix sub s ||
  match s with
  | "" => false
  | String _ s' => Contains s' sub
  end.

(** [strings.Replace(s, c, "", -1)] for one byte. *)
Fixpoint remove_byte (c : ascii) (s : string) : string :=
  match s with
  | "" => ""
  | String a s' => if Ascii.eqb a c then remove_byte c s' else String a (remove_byte c s')
  end.

(** ** Package [strconv], base ten *)

(** [fmt.Sprint] and [strconv.FormatUint] of a non-negative integer. *)
Definition FormatUint (z : Z) : string := NilZero.string_of_uint (N.to_uint (Z.to_N z)).

(** [strconv.FormatInt], [strconv.Itoa]. *)
Definition FormatInt (z : Z) : string :=
  if z <? 0 then "-" +:+ FormatUint (- z) else FormatUint z.

(** A non-empty sequence of decimal digits. *)
Definition parse_digits (s : string) : option Z :=
  match NilZero.uint_of_string s with
  | Some d => Some (Z.of_N (N.of_uint d))
  | None => None
  end.

(** [strconv.ParseUint(s, 10, 64)]. *)
Definition ParseUint (s : string) : result Z :=
  match parse_digits s with
  | None => inr ErrSyntax
  | Some z => if z <? two64 then inl z else inr ErrRange
  end.

(** [strconv.ParseInt(s, 10, 64)] and, on 64-bit targets, [strconv.Atoi]:
    an optional sign, then digits, in the range of [int64]. *)
Definition ParseInt (s : string) : result Z :=
  let signed (neg : bool) (t : string) :=
    match parse_digits t with
    | None => inr ErrSyntax
    | Some z =>
        if neg then if z <=? two63 then inl (- z) else inr ErrRange
        else if z <? two63 then inl z else inr ErrRange
    end in
  match s with
  | String "-" t => signed true t
  | String "+" t => signed false t
  | _ => signed false s
  end.

Definition Atoi (s : string) : result Z := ParseInt s.

(** The two values Go really returns: the integer is 0 with [ErrSyntax], and
    the nearest bound with [ErrRange]; a caller that drops the error sees it. *)
Definition ParseInt_pair (s : string) : Z * option error :=
  match ParseInt s with
  | inl z => (z, None)
  | inr ErrRange =>
      (match s with String "-" _ => - two63 | _ => two63 - 1 end, Some ErrRange)
  | inr e => (0, Some e)
  end.

(** ** Package [path] *)

(** One element of [path.Clean], on the stack of the elements kept so far
    (innermost first). *)
Definition clean_elem (rooted : bool) (stk : list string) (e : string) : list string :=
  if String.eqb e "" || String.eqb e "." then stk
  else if String.eqb e ".." then
    match stk with
    | h :: t => if String.eqb h ".." then ".." :: stk else t
    | [] => if rooted then [] else [".."]
    end
  else e :: stk.

Definition is_rooted (p : string) : bool :=
  match p with String "/" _ => true | _ => false end.

Definition clean_stack (p : string) : list string :=
  foldl (clean_elem (is_rooted p)) [] (Split "/" p).

Definition render_path (rooted : bool) (elems : list string) : string :=
  let body := Join elems "/" in
  if rooted then "/" +:+ body
  else if String.eqb body "" then "." else body.

(** [path.Clean]. *)
Definition Clean (p : string) : string :=
  if String.eqb p "" then "." else render_path (is_rooted p) (reverse (clean_stack p)).

(** [path.Join]. *)
Fixpoint path_Join (elems : list string) : string :=
  match elems with
  | [] => ""
  | e :: l => if String.eqb e "" then path_Join l else Clean (Join (e :: l) "/")
  end.

(** ** Split and join *)

(** Byte [c] does not occur in [s]. *)
Fixpoint free_of (c : ascii) (s : string) : bool :=
  match s with
  | "" => true
  | String a s' => negb (Ascii.eqb a c) && free_of c s'
  end.

Lemma Split_not_nil (c : ascii) (s : string) : Split c s <> [].
Proof.
  destruct s as [|a s]; simpl; [done|].
  destruct (Ascii.eqb a c); [done|]. by destruct (Split c s).
Qed.

Lemma Split_free (c : ascii) (s : string) : free_of c s = true -> Split c s = [s].
Proof.
  induction s as [|a s IH]; simpl; [done|].
  intros H. bool_to_prop. rewrite H. by rewrite (IH H0).
Qed.

Lemma Split_app (c : ascii) (s t : string) :
  Split c (s +:+ String c t) = Split c s ++ Split c t.
Proof.
  induction s as [|a s IH]; simpl.
  - by rewrite Ascii.eqb_refl.
  - destruct (Ascii.eqb a c); [by rewrite IH|].
    rewrite IH. pose proof (Split_not_nil c s).
    by destruct (Split c s).
Qed.

Lemma Join_cons (x : string) (l : list string) (sep : string) :
  l <> [] -> Join (x :: l) sep = x +:+ sep +:+ Join l sep.
Proof. by destruct l. Qed.

(** [strings.Join] is a left inverse of [strings.Split]. *)
Lemma Join_Split (c : ascii) (s : string) : Join (Split c s) (String c "") = s.
Proof.
  induction s as [|a s IH]; [done|]. cbn [Split].
  pose proof (Split_not_nil c s) as Hne.
  destruct (Ascii.eqb a c) eqn:E.
  - apply Ascii.eqb_eq in E as ->. rewrite Join_cons by done. cbn. by rewrite IH.
  - destruct (Split c s) as [|h [|h2 t]]; [done| |]; cbn in IH |- *; f_equal; exact IH.
Qed.

(** ... and a right inverse on non-empty lists of strings without the separator. *)
Lemma Split_Join (c : ascii) (l : list string) :
  l <> [] -> Forall (fun s => free_of c s = true) l ->
  Split c (Join l (String c "")) = l.
Proof.
  intros Hne Hf. induction Hf as [|x l Hx Hl IH]; [done|].
  destruct (decide (l = [])) as [->|Hl0]; [by apply Split_free|].
  rewrite Join_cons by done. cbn. rewrite Split_app, IH by done.
  by rewrite Split_free.
Qed.

Lemma append_empty_r (s : string) : s +:+ "" = s.
Proof. induction s; simpl; congruence. Qed.

Lemma append_assoc (a b c : string) : a +:+ (b +:+ c) = (a +:+ b) +:+ c.
Proof. induction a; simpl; congruence. Qed.

Lemma append_inj_l (p s t : string) : p +:+ s = p +:+ t -> s = t.
Proof. induction p; simpl; [done|]. intros [=]; auto. Qed.

(** ** Prefixes *)

Lemma prefix_spec (p s : string) : String.prefix p s = true <-> exists t, s = p +:+ t.
Proof.
  revert s. induction p as [|a p IH]; intros s; simpl.
  - split; [by exists s|]. by destruct s.
  - destruct s as [|b s]; [split; [done|by intros [t Ht]]|].
    cbn. destruct (ascii_dec a b) as [->|Hab].
    + etransitivity; [apply IH|]. split; intros [t Ht]; exists t; simpl in *; congruence.
    + split; [done|]. intros [t Ht]. simpl in Ht. congruence.
Qed.

Lemma drop_string_app (p t : string) : drop_string (String.length p) (p +:+ t) = t.
Proof. induction p; simpl; auto. Qed.

Lemma TrimPrefix_app (p t : string) : TrimPrefix (p +:+ t) p = t.
Proof.
  unfold TrimPrefix, HasPrefix.
  replace (String.prefix p (p +:+ t)) with true.
  - apply drop_string_app.
  - symmetry. apply prefix_spec. eauto.
Qed.

(** ** Decimal round trips *)

Lemma N_to_uint_not_nil (n : N) : N.to_uint n <> Decimal.Nil.
Proof.
  intros H. pose proof (DecimalN.Unsigned.of_to n) as E. rewrite H in E.
  cbn in E. subst n. discriminate H.
Qed.

Lemma parse_digits_FormatUint (z : Z) : 0 <= z -> parse_digits (FormatUint z) = Some z.
Proof.
  intros Hz. unfold parse_digits, FormatUint.
  rewrite NilZero.usu.
  - rewrite DecimalN.Unsigned.of_to. f_equal. lia.
  - apply N_to_uint_not_nil.
Qed.

(** A formatted number is a non-empty run of digits: none of the bytes the
    callers use as separators occurs in it. *)
Definition is_digit (a : ascii) : bool :=
  let n := Ascii.nat_of_ascii a in ((48 <=? n) && (n <=? 57))%nat.

Fixpoint all_digits (s : string) : bool :=
  match s with
  | "" => true
  | String a s' => is_digit a && all_digits s'
  end.

Lemma all_digits_uint (d : Decimal.uint) : all_digits (NilEmpty.string_of_uint d) = true.
Proof. induction d; simpl; auto. Qed.

Lemma FormatUint_digits (z : Z) : all_digits (FormatUint z) = true.
Proof.
  unfold FormatUint, NilZero.string_of_uint.
  destruct (N.to_uint (Z.to_N z)) eqn:E; [reflexivity|rewrite <- E; apply all_digits_uint..].
Qed.

Lemma FormatUint_not_empty (z : Z) : FormatUint z <> "".
Proof.
  unfold FormatUint, NilZero.string_of_uint.
  by destruct (N.to_uint (Z.to_N z)).
Qed.

Lemma all_digits_free (c : ascii) (s : string) :
  is_digit c = false -> all_digits s = true -> free_of c s = true.
Proof.
  intros Hc. induction s as [|a s IH]; simpl; [done|].
  intros H. bool_to_prop. rewrite IH by done.
  destruct (Ascii.eqb a c) eqn:E; [|done].
  apply Ascii.eqb_eq in E as ->. congruence.
Qed.

(** [strconv.ParseUint] reads back what [fmt.Sprint] prints of a [uint64]. *)
Lemma ParseUint_FormatUint (z : Z) : is_u64 z -> ParseUint (FormatUint z) = inl z.
Proof.
  intros [H0 H1]. unfold ParseUint. rewrite parse_digits_FormatUint by done.
  apply Z.ltb_lt in H1. by rewrite H1.
Qed.

(** The first byte of a formatted number is a digit, so [ParseInt] takes its
    unsigned branch. *)
Lemma ParseInt_unsigned (s : string) :
  s <> "" -> all_digits s = true ->
  ParseInt s = match parse_digits s with
               | None => inr ErrSyntax
               | Some z => if z <? two63 then inl z else inr ErrRange
               end.
Proof.
  intros Hne Hd. destruct s as [|a s]; [done|]. 
  cbn [all_digits] in Hd. apply andb_true_iff in Hd as [Ha _].
  destruct a as [[] [] [] [] [] [] [] []]; first [discriminate Ha|reflexivity].
Qed.

(** [strconv.Atoi] reads back what [fmt.Sprint] prints, up to [2^63 - 1]; a
    larger [uint64] is out of its range. *)
Lemma Atoi_FormatUint (z : Z) :
  0 <= z -> Atoi (FormatUint z) = if z <? two63 then inl z else inr ErrRange.
Proof.
  intros Hz. unfold Atoi.
  rewrite ParseInt_unsigned by auto using FormatUint_not_empty, FormatUint_digits.
  by rewrite parse_digits_FormatUint.
Qed.

Lemma ParseInt_FormatInt (z : Z) : is_i64 z -> ParseInt (FormatInt z) = inl z.
Proof.
  intros [H0 H1]. unfold FormatInt. destruct (z <? 0) eqn:E; bool_to_prop.
  - cbn. rewrite parse_digits_FormatUint by lia.
    replace (- z <=? two63) with true by (symmetry; apply Z.leb_le; lia).
    f_equal. lia.
  - rewrite Atoi_FormatUint by lia.
    by apply Z.ltb_lt in H1 as ->.
Qed.

(** ** Paths *)

(** An ordinary path element: not empty, without a slash, neither [.] nor [..]. *)
Definition plain_elem (e : string) : bool :=
  negb (String.eqb e "") && free_of "/" e &&
  negb (String.eqb e ".") && negb (String.eqb e "..").

(** The elements [path.Clean] can leave on its stack. *)
Definition kept_elem (e : string) : bool := negb (String.eqb e "") && free_of "/" e.

Lemma plain_kept (e : string) : plain_elem e = true -> kept_elem e = true.
Proof. unfold plain_elem, kept_elem. by destruct (String.eqb e ""), (free_of "/" e). Qed.

Lemma clean_elem_plain (r : bool) (stk : list string) (e : string) :
  plain_elem e = true -> clean_elem r stk e = e :: stk.
Proof.
  unfold plain_elem, clean_elem.
  by destruct (String.eqb e ""), (free_of "/" e), (String.eqb e "."), (String.eqb e "..").
Qed.

Lemma foldl_plain (r : bool) (l stk : list string) :
  Forall (fun e => plain_elem e = true) l ->
  foldl (clean_elem r) stk l = reverse l ++ stk.
Proof.
  intros Hl. revert stk. induction Hl as [|e l He Hl IH]; intros stk; cbn [foldl]; [done|].
  by rewrite clean_elem_plain, IH, reverse_cons, <- app_assoc.
Qed.

Lemma Split_Forall_free (c : ascii) (s : string) :
  Forall (fun e => free_of c e = true) (Split c s).
Proof.
  induction s as [|a s IH]; cbn; [by repeat constructor|].
  destruct (Ascii.eqb a c) eqn:E; [by constructor|].
  destruct IH as [|h t Hh Ht]; constructor; cbn; rewrite ?E; auto.
Qed.

Lemma clean_stack_kept (r : bool) (l stk : list string) :
  Forall (fun e => free_of "/" e = true) l ->
  Forall (fun e => kept_elem e = true) stk ->
  Forall (fun e => kept_elem e = true) (foldl (clean_elem r) stk l).
Proof.
  intros Hl. revert stk. induction Hl as [|e l He Hl IH]; intros stk Hs; cbn; [done|].
  apply IH. unfold clean_elem.
  destruct (String.eqb e "") eqn:E1; [done|].
  destruct (String.eqb e "."); [done|]; cbn.
  destruct (String.eqb e "..").
  - destruct Hs as [|h t Hh Ht]; [by destruct r; repeat constructor|].
    destruct (String.eqb h ".."); repeat constructor; auto.
  - constructor; [|done]. unfold kept_elem. by rewrite E1, He.
Qed.

Lemma is_rooted_app (p q : string) : p <> "" -> is_rooted (p +:+ q) = is_rooted p.
Proof. destruct p as [|a p]; [done|]. by destruct a as [[] [] [] [] [] [] [] []]. Qed.

Lemma Join_kept_not_empty (l : list string) :
  l <> [] -> Forall (fun e => kept_elem e = true) l -> Join l "/" <> "".
Proof.
  intros Hne Hl. destruct Hl as [|x t Hx Ht]; [done|].
  destruct x as [|a x]; [done|]. by destruct t.
Qed.

Lemma kept_free (l : list string) :
  Forall (fun e => kept_elem e = true) l -> Forall (fun e => free_of "/" e = true) l.
Proof.
  intros Hl. eapply Forall_impl; [exact Hl|]. intros e. unfold kept_elem.
  by destruct (String.eqb e ""), (free_of "/" e).
Qed.

Lemma plain_Forall_kept (l : list string) :
  Forall (fun e => plain_elem e = true) l -> Forall (fun e => kept_elem e = true) l.
Proof. intros Hl. eapply Forall_impl; [exact Hl|]. apply plain_kept. Qed.

Lemma plain_not_rooted (l : list string) :
  Forall (fun e => plain_elem e = true) l -> is_rooted (Join l "/") = false.
Proof.
  intros Hl. destruct Hl as [|x t Hx Ht]; [done|].
  destruct x as [|a x]; [done|].
  assert (free_of "/" (String a x) = true) as Hf.
  { unfold plain_elem in Hx. by destruct (free_of "/" (String a x)). }
  cbn in Hf. destruct (Ascii.eqb a "/") eqn:E; [done|].
  destruct t; destruct a as [[] [] [] [] [] [] [] []]; done.
Qed.

(** [path.Join(root, key)] when [key] is a slash-separated list of ordinary
    elements: the elements of the cleaned root followed by those of the key. *)
Lemma path_Join_plain (root : string) (l : list string) :
  l <> [] -> Forall (fun e => plain_elem e = true) l ->
  path_Join [root; Join l "/"] =
  render_path (is_rooted root) (reverse (clean_stack root) ++ l).
Proof.
  intros Hne Hl.
  pose proof (Join_kept_not_empty l Hne (plain_Forall_kept l Hl)) as Hj.
  pose proof (kept_free l (plain_Forall_kept l Hl)) as Hf.
  assert (forall s, s <> "" -> String.eqb s "" = false) as Heqb by
    (intros; by apply String.eqb_neq).
  cbn [path_Join]. destruct (String.eqb root "") eqn:Er.
  - apply String.eqb_eq in Er as ->. rewrite (Heqb _ Hj). unfold Clean.
    cbn [Join]. rewrite (Heqb _ Hj). unfold clean_stack.
    rewrite plain_not_rooted, Split_Join, foldl_plain, app_nil_r, reverse_involutive by done.
    done.
  - apply String.eqb_neq in Er. rewrite Join_cons by done. cbn [Join].
    change ("/" +:+ Join l "/") with (String "/" (Join l "/")).
    unfold Clean. rewrite Heqb by (by destruct root).
    unfold clean_stack. rewrite is_rooted_app, Split_app, Split_Join by done.
    rewrite foldl_app, foldl_plain, reverse_app, reverse_involutive by done.
    done.
Qed.

Lemma render_path_inj (r : bool) (l1 l2 : list string) :
  l1 <> [] -> l2 <> [] ->
  Forall (fun e => kept_elem e = true) l1 -> Forall (fun e => kept_elem e = true) l2 ->
  render_path r l1 = render_path r l2 -> l1 = l2.
Proof.
  intros N1 N2 K1 K2 E. unfold render_path in E.
  pose proof (Join_kept_not_empty l1 N1 K1) as J1. apply String.eqb_neq in J1.
  pose proof (Join_kept_not_empty l2 N2 K2) as J2. apply String.eqb_neq in J2.
  rewrite J1, J2 in E.
  assert (Join l1 "/" = Join l2 "/") as Ej by (destruct r; [by apply append_inj_l in E|done]).
  rewrite <- (Split_Join "/" l1), <- (Split_Join "/" l2) by auto using kept_free.
  by rewrite Ej.
Qed.

(** Keys made of different lists of ordinary elements are different, whatever
    the root path is. *)
Lemma path_Join_inj (root : string) (l1 l2 : list string) :
  l1 <> [] -> l2 <> [] ->
  Forall (fun e => plain_elem e = true) l1 -> Forall (fun e => plain_elem e = true) l2 ->
  path_Join [root; Join l1 "/"] = path_Join [root; Join l2 "/"] -> l1 = l2.
Proof.
  intros N1 N2 P1 P2 E. rewrite !path_Join_plain in E by done.
  assert (Forall (fun e => kept_elem e = true) (reverse (clean_stack root))) as Hk.
  { apply Forall_reverse, clean_stack_kept; [apply Split_Forall_free|done]. }
  apply render_path_inj in E;
    [by apply app_inv_head in E| | |apply Forall_app; auto using plain_Forall_kept..].
  - by destruct (reverse _), l1.
  - by destruct (reverse _), l2.
Qed.

Lemma Join_app (l1 l2 : list string) (sep : string) :
  l1 <> [] -> l2 <> [] -> Join (l1 ++ l2) sep = Join l1 sep +:+ sep +:+ Join l2 sep.
Proof.
  intros H1 H2. induction l1 as [|x l1 IH]; [done|]. destruct l1 as [|y l1].
  - cbn [app]. by rewrite Join_cons.
  - change ((x :: y :: l1) ++ l2) with (x :: ((y :: l1) ++ l2)).
    rewrite !Join_cons, IH by done. by rewrite <- !append_assoc.
Qed.

(** A clean path made of ordinary elements is read back as those elements. *)
Lemma clean_stack_render (r : bool) (es : list string) :
  es <> [] -> Forall (fun e => plain_elem e = true) es ->
  is_rooted (render_path r es) = r /\ clean_stack (render_path r es) = reverse es.
Proof.
  intros Hne Hp. pose proof (Join_kept_not_empty es Hne (plain_Forall_kept es Hp)) as Hj.
  pose proof (kept_free es (plain_Forall_kept es Hp)) as Hf.
  apply String.eqb_neq in Hj. unfold clean_stack, render_path. rewrite Hj. destruct r.
  - split; [done|]. change ("/" +:+ Join es "/") with ("" +:+ String "/" (Join es "/")).
    rewrite Split_app, Split_Join by done. cbn. rewrite foldl_plain by done. by rewrite app_nil_r.
  - rewrite plain_not_rooted, Split_Join by done. split; [done|].
    rewrite foldl_plain by done. by rewrite app_nil_r.
Qed.

Lemma path_Join_render (r : bool) (es l : list string) :
  es <> [] -> Forall (fun e => plain_elem e = true) es ->
  l <> [] -> Forall (fun e => plain_elem e = true) l ->
  path_Join [render_path r es; Join l "/"] = render_path r es +:+ "/" +:+ Join l "/".
Proof.
  intros H1 P1 H2 P2. rewrite path_Join_plain by done.
  destruct (clean_stack_render r es H1 P1) as [-> ->]. rewrite reverse_involutive.
  pose proof (Join_kept_not_empty es H1 (plain_Forall_kept es P1)) as Hj.
  unfold render_path. rewrite Join_app by done. apply String.eqb_neq in Hj. rewrite Hj.
  destruct r; [by rewrite <- !append_assoc|]. by destruct (Join es "/").
Qed.

(** Under one root, a key is a prefix of another only if its own elements are. *)
Lemma path_Join_prefix (root : string) (l1 l2 : list string) :
  l1 <> [] -> l2 <> [] ->
  Forall (fun e => plain_elem e = true) l1 -> Forall (fun e => plain_elem e = true) l2 ->
  HasPrefix (path_Join [root; Join l2 "/"]) (path_Join [root; Join l1 "/"]) =
  HasPrefix (Join l2 "/") (Join l1 "/").
Proof.
  intros N1 N2 P1 P2. rewrite !path_Join_plain by done.
  assert (Hhead : exists h, forall l, l <> [] -> Forall (fun e => plain_elem e = true) l ->
            render_path (is_rooted root) (reverse (clean_stack root) ++ l) = h +:+ Join l "/").
  { assert (Hk : Forall (fun e => kept_elem e = true) (reverse (clean_stack root)))
      by (apply Forall_reverse, clean_stack_kept; [apply Split_Forall_free|done]).
    destruct (reverse (clean_stack root)) as [|x es].
    - exists (if is_rooted root then "/" else ""). intros l Hl Pl. unfold render_path. cbn [app].
      destruct (is_rooted root); [done|].
      pose proof (Join_kept_not_empty l Hl (plain_Forall_kept l Pl)) as Hj.
      apply String.eqb_neq in Hj. by rewrite Hj.
    - exists ((if is_rooted root then "/" else "") +:+ Join (x :: es) "/" +:+ "/").
      intros l Hl Pl. unfold render_path. rewrite Join_app by done.
      pose proof (Join_kept_not_empty (x :: es) ltac:(done) Hk) as Hj.
      destruct (is_rooted root); [by rewrite <- !append_assoc|].
      cbn [String.append]. destruct (Join (x :: es) "/"); [done|]. by rewrite <- !append_assoc. }
  destruct Hhead as [h Hh]. rewrite !Hh by done. unfold HasPrefix. clear Hh.
  induction h as [|a h IH]; cbn [String.append String.prefix]; [done|].
  destruct (ascii_dec a a); [exact IH|done].
Qed.

Lemma HasSuffix_byte (s : string) (c : ascii) :
  HasSuffix s (String c "") = true -> exists p, s = p +:+ String c "".
Proof.
  unfold HasSuffix. cbn [String.length]. induction s as [|a s IH]; [done|].
  cbn [String.length]. rewrite Nat.sub_succ, Nat.sub_0_r. intros H. bool_to_prop.
  destruct s as [|b s].
  - cbn in H0. exists "". injection H0 as ->. done.
  - cbn [String.length] in *. destruct IH as [p Hp].
    + apply andb_true_iff. split; [done|]. apply String.eqb_eq.
      rewrite Nat.sub_succ, Nat.sub_0_r. exact H0.
    + exists (String a p). cbn. by rewrite <- Hp.
Qed.

Lemma render_no_slash (r : bool) (es : list string) :
  es <> [] -> Forall (fun e => plain_elem e = true) es -> HasSuffix (render_path r es) "/" = false.
Proof.
  intros Hne Hp. destruct (HasSuffix (render_path r es) "/") eqn:E; [|done]. exfalso.
  apply HasSuffix_byte in E as [p Ep].
  pose proof (Join_kept_not_empty es Hne (plain_Forall_kept es Hp)) as Hj.
  apply String.eqb_neq in Hj. unfold render_path in Ep. rewrite Hj in Ep.
  assert (Hs : exists l, Split "/" (Join es "/") = l ++ [""]).
  { destruct r.
    - destruct p as [|a p]; cbn in Ep.
      + injection Ep as Ep. by rewrite Ep in Hj.
      + injection Ep as Ea Ep. exists (Split "/" p). rewrite Ep, Split_app. done.
    - exists (Split "/" p). rewrite Ep, Split_app. done. }
  destruct Hs as [l Hl]. rewrite Split_Join in Hl; [|done|by apply kept_free, plain_Forall_kept].
  rewrite Hl in Hp. apply Forall_app in Hp as [_ Hp]. by apply Forall_cons in Hp as [Hp _].
Qed.

(** Joining ordinary elements puts slashes between them and nothing else. *)
Lemma path_Join_elems (l : list string) :
  l <> [] -> Forall (fun e => plain_elem e = true) l -> path_Join l = Join l "/".
Proof.
  intros Hne Hp. destruct l as [|x l]; [done|]. cbn [path_Join].
  pose proof (Join_kept_not_empty (x :: l) Hne (plain_Forall_kept _ Hp)) as Hj.
  assert (Hx : String.eqb x "" = false).
  { apply Forall_cons in Hp as [Hx _]. destruct (String.eqb_spec x ""); [by subst|done]. }
  rewrite Hx. unfold Clean. apply String.eqb_neq in Hj. rewrite Hj.
  pose proof (clean_stack_render false (x :: l) Hne Hp) as [Hr Hs].
  assert (E : render_path false (x :: l) = Join (x :: l) "/") by (unfold render_path; by rewrite Hj).
  rewrite E in Hr, Hs. by rewrite Hr, Hs, reverse_involutive, E.
Qed.

Lemma FormatUint_plain (z : Z) : plain_elem (FormatUint z) = true.
Proof.
  pose proof (FormatUint_digits z) as Hd. pose proof (FormatUint_not_empty z) as Hn.
  unfold plain_elem. rewrite (all_digits_free "/" (FormatUint z)) by done.
  destruct (FormatUint z) as [|a s]; [done|]. cbn in Hd. bool_to_prop.
  destruct a as [[] [] [] [] [] [] [] []]; first [discriminate|reflexivity].
Qed.

(** ** Strings that are not numbers *)

Lemma uint_of_string_slash (s : string) : Contains s "/" = true -> NilEmpty.uint_of_string s = None.
Proof.
  induction s as [|a s IH]; [done|]. intros H. cbn [NilEmpty.uint_of_string].
  destruct (Contains s "/") eqn:E; [by rewrite (IH eq_refl)|].
  cbn [Contains String.prefix] in H. rewrite E, orb_false_r in H.
  destruct (ascii_dec "/" a) as [<-|Hne]; [by destruct (NilEmpty.uint_of_string s)|].
  by destruct (ascii_dec "/" a).
Qed.

(** A string with a slash in it is not a decimal number. *)
Lemma parse_digits_slash (s : string) : Contains s "/" = true -> parse_digits s = None.
Proof.
  destruct s as [|a s]; [done|]. intros H. unfold parse_digits, NilZero.uint_of_string.
  by rewrite (uint_of_string_slash _ H).
Qed.
