(* ===== verification/Urls.v ===== *)
(** * URLs: [net/url], [pkg/types/urls.go], [pkg/etcd/urls.go]

    The endpoints of etcd come as a comma-separated list of URLs, the address
    of the HTTP interface as one.  The first part is [url.Parse] and
    [URL.String] of the standard library, restricted to ASCII without percent
    signs, fragments, user names and bracketed addresses ([url_text]): on other
    texts the definitions say nothing about the library, and every theorem that
    uses them is about such texts.  The second part is the code that validates and
    sorts a list, with its round trip. *)

From stdpp Require Import gmap strings list sorting.
From Stdlib Require Import ZArith Lia Ascii OrdersEx.
From S2P Require Import Prelude GoStrings.

(** ** Package [net/url] *)

Record URL := mkURL {
  Scheme : string;
  Opaque : string;
  Host : string;
  Path : string;
  ForceQuery : bool;
  RawQuery : string
}.

#[global] Instance URL_eq_dec : EqDecision URL.
Proof. solve_decision. Defined.

(** Split at the first [c]. *)
Fixpoint cut (c : ascii) (s : string) : option (string * string) :=
  match s with
  | "" => None
  | String a s' =>
      if Ascii.eqb a c then Some ("", s')
      else match cut c s' with Some (p, q) => Some (String a p, q) | None => None end
  end.

Definition in_range (lo hi a : ascii) : bool :=
  ((nat_of_ascii lo <=? nat_of_ascii a) && (nat_of_ascii a <=? nat_of_ascii hi))%nat.
Definition is_letter (a : ascii) : bool := in_range "a" "z" a || in_range "A" "Z" a.

Definition lower_byte (a : ascii) : ascii :=
  if in_range "A" "Z" a then ascii_of_nat (nat_of_ascii a + 32) else a.

(** [strings.ToLower] on ASCII. *)
Fixpoint ToLower (s : string) : string :=
  match s with
  | "" => ""
  | String a s' => String (lower_byte a) (ToLower s')
  end.

(** [getscheme]: [Some (scheme, rest)], or [None] for a text that starts with
    a colon. *)
Fixpoint scheme_end (s : string) : option (string * string) :=
  match s with
  | "" => None
  | String a s' =>
      if Ascii.eqb a ":" then Some ("", s')
      else if is_letter a || is_digit a || in_cutset a "+-." then
        match scheme_end s' with Some (p, q) => Some (String a p, q) | None => None end
      else None
  end.

Definition getscheme (rawurl : string) : option (string * string) :=
  match rawurl with
  | "" => Some ("", "")
  | String a _ =>
      if Ascii.eqb a ":" then None
      else if is_letter a then
        match scheme_end rawurl with Some r => Some r | None => Some ("", rawurl) end
      else Some ("", rawurl)
  end.

(** A byte that [unescape] accepts in a host. *)
Definition host_byte (a : ascii) : bool :=
  is_letter a || is_digit a || in_cutset a "-_.~!$&'()*+,;=:]<>" || Ascii.eqb a "034".

Fixpoint all_bytes (f : ascii -> bool) (s : string) : bool :=
  match s with
  | "" => true
  | String a s' => f a && all_bytes f s'
  end.

(** The query of [parse]. *)
Definition split_query (rest : string) : string * bool * string :=
  match cut "?" rest with
  | None => (rest, false, "")
  | Some (r, "") => (r, true, "")
  | Some (r, q) => (r, false, q)
  end.

(** The authority and the path of [parse]. *)
Definition parse_rest (scheme rest : string) (force : bool) (query : string) : result URL :=
  if negb (HasPrefix rest "/") then
    if negb (String.eqb scheme "") then inl (mkURL scheme rest "" "" force query)
    else
      let first := match cut "/" rest with Some (p, _) => p | None => rest end in
      if negb (free_of ":" first) then inr (Errorf "first path segment in URL cannot contain colon")
      else inl (mkURL scheme "" "" rest force query)
  else if (negb (String.eqb scheme "") || negb (HasPrefix rest "///")) && HasPrefix rest "//" then
    let authority := drop_string 2 rest in
    let '(host, path) := match cut "/" authority with
                         | None => (authority, "")
                         | Some (h, p) => (h, String "/" p)
                         end in
    if all_bytes host_byte host then inl (mkURL scheme "" host path force query)
    else inr (Errorf "invalid character in host name")
  else inl (mkURL scheme "" "" rest force query).

(** [url.Parse] *)
Definition url_Parse (rawurl : string) : result URL :=
  if String.eqb rawurl "*" then inl (mkURL "" "" "" "*" false "")
  else
    match getscheme rawurl with
    | None => inr (Errorf "missing protocol scheme")
    | Some (scheme, rest) =>
        let '(rest, force, query) := split_query rest in
        parse_rest (ToLower scheme) rest force query
    end.

(** [URL.String] *)
Definition url_String (u : URL) : string :=
  let q := if ForceQuery u || negb (String.eqb (RawQuery u) "") then "?" +:+ RawQuery u else "" in
  let head := if String.eqb (Scheme u) "" then "" else Scheme u +:+ ":" in
  if negb (String.eqb (Opaque u) "") then head +:+ Opaque u +:+ q
  else
    let authority :=
      if (negb (String.eqb (Scheme u) "") || negb (String.eqb (Host u) "")) &&
         (negb (String.eqb (Host u) "") || negb (String.eqb (Path u) ""))
      then "//" +:+ Host u else "" in
    let slash := if negb (String.eqb (Path u) "") && negb (is_rooted (Path u)) && negb (String.eqb (Host u) "")
                 then "/" else "" in
    let dot := if String.eqb (head +:+ authority +:+ slash) "" && negb (is_rooted (Path u)) &&
                  match cut "/" (Path u) with
                  | Some (seg, _) => negb (free_of ":" seg)
                  | None => negb (free_of ":" (Path u))
                  end
               then "./" else "" in
    head +:+ authority +:+ slash +:+ dot +:+ Path u +:+ q.

(** [URL.Hostname] and [URL.Port] *)
Definition Hostname (u : URL) : string := match cut ":" (Host u) with Some (h, _) => h | None => Host u end.
Definition Port (u : URL) : string := match cut ":" (Host u) with Some (_, p) => p | None => "" end.

(** [net.SplitHostPort]: exactly one colon. *)
Definition SplitHostPort (hostport : string) : result (string * string) :=
  match Split ":" hostport with
  | [h; p] => inl (h, p)
  | [_] => inr (Errorf "missing port in address")
  | _ => inr (Errorf "too many colons in address")
  end.

(** The texts on which the definitions above are those of the library. *)
Definition url_text (s : string) : bool :=
  all_bytes (fun a => (nat_of_ascii a <? 128)%nat && negb (in_cutset a "%#@[")) s.

(** ** [NewURLs] *)

Definition url_schemes : list string := ["http"; "https"; "unix"; "unixs"].

(** One element of the loop. *)
Definition check_URL (str : string) : result URL :=
  match url_Parse (TrimSpace str) with
  | inr e => inr e
  | inl u =>
      if bool_decide (Scheme u ∉ url_schemes) then inr (Errorf "URL scheme must be http, https, unix, unixs")
      else
        match SplitHostPort (Host u) with
        | inr _ => inr (Errorf "URL address does not use form 'host:port'")
        | inl _ => if negb (String.eqb (Path u) "") then inr (Errorf "URL can not contain a path") else inl u
        end
  end.

Fixpoint check_URLs (strs : list string) : result (list URL) :=
  match strs with
  | [] => inl []
  | str :: strs' =>
      match check_URL str with
      | inr e => inr e
      | inl u => match check_URLs strs' with inr e => inr e | inl us => inl (u :: us) end
      end
  end.

(** [Less], as an order for [sort.Sort]. *)
Definition url_le (u v : URL) : Prop := String.leb (url_String u) (url_String v) = true.
#[global] Instance url_le_dec : RelDecision url_le.
Proof. intros u v. unfold url_le. apply _. Defined.

Definition NewURLs (strs : list string) : result (list URL) :=
  match strs with
  | [] => inr (Errorf "invalid URLs")
  | _ => match check_URLs strs with inr e => inr e | inl us => inl (merge_sort url_le us) end
  end.

(** [URLs.StringSlice], [URLs.String], and the same of [URLsValue] *)
Definition URLs_StringSlice (us : list URL) : list string := map url_String us.
Definition URLs_String (us : list URL) : string := Join (URLs_StringSlice us) ",".

(** [NewURLsValue] with [Set], and [HostString] *)
Definition NewURLsValue (s : string) : result (list URL) := NewURLs (Split "," s).
Definition HostString (uv : list URL) : string := Join (map Host uv) ",".

(** ** Bytes *)

Lemma leb_cases (s t : string) : String.leb s t = true <-> String_as_OT.lt s t \/ s = t.
Proof.
  unfold String.leb. change (String.compare s t) with (String_as_OT.compare s t). unfold String_as_OT.lt.
  pose proof (String_as_OT.compare_spec s t) as Hs.
  destruct (String_as_OT.compare s t) eqn:E; inversion Hs; subst; try naive_solver.
  split; [done|]. intros [?|<-]; [done|].
  exfalso. by apply (StrictOrder_Irreflexive s).
Qed.

#[global] Instance url_le_trans : Transitive url_le.
Proof.
  intros u v w. unfold url_le. rewrite !leb_cases. intros [H1|E1] [H2|E2].
  - left. by etransitivity.
  - left. by rewrite <- E2.
  - left. by rewrite E1.
  - right. congruence.
Qed.

#[global] Instance url_le_total : Total url_le.
Proof. intros u v. unfold url_le. destruct (String.leb_total (url_String u) (url_String v)) as [E|E]; auto. Qed.

Lemma all_bytes_free (f : ascii -> bool) (c : ascii) (s : string) :
  f c = false -> all_bytes f s = true -> free_of c s = true.
Proof.
  intros Hf. induction s as [|a s IH]; [done|]. cbn. intros H. bool_to_prop.
  rewrite IH by done. destruct (Ascii.eqb a c) eqn:E; [|done]. apply Ascii.eqb_eq in E as ->. congruence.
Qed.

Lemma free_of_app (c : ascii) (s t : string) : free_of c (s +:+ t) = free_of c s && free_of c t.
Proof. induction s as [|a s IH]; [done|]. cbn. by rewrite IH, andb_assoc. Qed.

Lemma cut_Some (c : ascii) (s p q : string) : cut c s = Some (p, q) -> s = p +:+ String c q /\ free_of c p = true.
Proof.
  revert p. induction s as [|a s IH]; intros p; [done|]. cbn.
  destruct (Ascii.eqb a c) eqn:E.
  - intros [= <- <-]. by apply Ascii.eqb_eq in E as ->.
  - destruct (cut c s) as [[p' q']|] eqn:Ec; [|done]. intros [= <- <-]. destruct (IH p' eq_refl) as [-> ?].
    cbn. by rewrite E.
Qed.

Lemma cut_None (c : ascii) (s : string) : cut c s = None <-> free_of c s = true.
Proof.
  induction s as [|a s IH]; [done|]. cbn. destruct (Ascii.eqb a c); [done|]. cbn. rewrite <- IH.
  by destruct (cut c s) as [[??]|].
Qed.

Lemma cut_app (c : ascii) (p q : string) : free_of c p = true -> cut c (p +:+ String c q) = Some (p, q).
Proof.
  induction p as [|a p IH]; cbn; [by rewrite Ascii.eqb_refl|]. intros H. bool_to_prop. rewrite H. by rewrite IH.
Qed.

(** ** White space *)

Lemma trim_right_app (a b : string) :
  trim_right_space (a +:+ b) = if String.eqb (trim_right_space b) "" then trim_right_space a
                               else a +:+ trim_right_space b.
Proof.
  induction a as [|x a IH]; cbn [String.append trim_right_space].
  { by destruct (String.eqb_spec (trim_right_space b) ""). }
  rewrite IH. destruct (String.eqb_spec (trim_right_space b) "") as [E|E]; [done|].
  destruct a; cbn; [by destruct (trim_right_space b)|done].
Qed.

Lemma trim_right_length (s : string) : (String.length (trim_right_space s) <= String.length s)%nat.
Proof.
  induction s as [|a s IH]; [done|]. cbn [trim_right_space].
  destruct (trim_right_space s) eqn:E; cbn in *; [destruct (is_space a); cbn|]; lia.
Qed.

Lemma length_app_string (a b : string) : String.length (a +:+ b) = (String.length a + String.length b)%nat.
Proof. induction a as [|x a IH]; [done|]. cbn. by rewrite IH. Qed.

Lemma trim_right_idem (s : string) : trim_right_space (trim_right_space s) = trim_right_space s.
Proof.
  induction s as [|a s IH]; [done|]. cbn [trim_right_space].
  destruct (trim_right_space s) as [|b t] eqn:E.
  - destruct (is_space a) eqn:Ea; [done|]. cbn. by rewrite Ea.
  - cbn [trim_right_space] in *. by rewrite IH.
Qed.

(** A text that ends with [b], which is not empty, keeps its end when another
    text with that end does. *)
Lemma trim_right_suffix (a a' b : string) :
  b <> "" -> trim_right_space (a +:+ b) = a +:+ b -> trim_right_space (a' +:+ b) = a' +:+ b.
Proof.
  intros Hb. rewrite !trim_right_app. destruct (String.eqb_spec (trim_right_space b) "") as [E|E].
  - intros Ha. exfalso. pose proof (trim_right_length a) as Hl. rewrite Ha, length_app_string in Hl.
    destruct b; [done|]. cbn in Hl. lia.
  - intros Ha. f_equal. by apply append_inj_l in Ha.
Qed.

Lemma free_of_trim (c : ascii) (s : string) : free_of c s = true -> free_of c (TrimSpace s) = true.
Proof.
  intros Hs. unfold TrimSpace. assert (free_of c (trim_left_space s) = true) as H1.
  { induction s as [|a s IH]; [done|]. cbn in *. bool_to_prop. destruct (is_space a); [by apply IH|].
    cbn. by rewrite H, H0. }
  revert H1. generalize (trim_left_space s) as t. induction t as [|a t IH]; [done|]. cbn [trim_right_space free_of].
  intros H. bool_to_prop. specialize (IH H0). destruct (trim_right_space t) eqn:E.
  - destruct (is_space a); [done|]. cbn. by rewrite H.
  - change (free_of c (String a (String a0 s0))) with (negb (Ascii.eqb a c) && free_of c (String a0 s0)).
    by rewrite IH, H.
Qed.

(** ** The URLs that are accepted *)

Definition query_text (u : URL) : string :=
  if ForceQuery u || negb (String.eqb (RawQuery u) "") then "?" +:+ RawQuery u else "".

Record url_ok (u : URL) : Prop := {
  ok_scheme : Scheme u ∈ url_schemes;
  ok_opaque : Opaque u = "";
  ok_path : Path u = "";
  ok_host : all_bytes host_byte (Host u) = true;
  ok_port : exists h p, Split ":" (Host u) = [h; p];
  ok_query : ForceQuery u = true -> RawQuery u = ""
}.

Lemma ok_host_not_empty (u : URL) : url_ok u -> Host u <> "".
Proof. intros Hu E. destruct (ok_port u Hu) as (h & p & Es). by rewrite E in Es. Qed.

Lemma url_String_ok (u : URL) :
  url_ok u -> url_String u = Scheme u +:+ ":" +:+ "//" +:+ Host u +:+ query_text u.
Proof.
  intros Hu. unfold url_String, query_text. rewrite (ok_opaque u Hu), (ok_path u Hu). cbn [String.eqb negb andb].
  pose proof (ok_host_not_empty u Hu) as Hh. apply String.eqb_neq in Hh as ->.
  assert (Scheme u <> "") as Hs by (pose proof (ok_scheme u Hu) as Hs; intros E; rewrite E in Hs; by vm_compute in Hs; set_solver).
  apply String.eqb_neq in Hs as ->. cbn [negb orb andb]. rewrite <- !append_assoc. cbn [String.append].
  destruct (Scheme u); [|cbn]; by rewrite <- ?append_assoc.
Qed.

Lemma getscheme_inv (rawurl scheme rest : string) :
  getscheme rawurl = Some (scheme, rest) -> scheme <> "" -> rawurl = scheme +:+ ":" +:+ rest.
Proof.
  assert (forall s p q, scheme_end s = Some (p, q) -> s = p +:+ ":" +:+ q) as He.
  { induction s as [|a s IH]; intros p q; [done|]. cbn [scheme_end].
    destruct (Ascii.eqb a ":") eqn:E.
    - apply Ascii.eqb_eq in E as ->. by intros [= <- <-].
    - destruct (is_letter a || is_digit a || in_cutset a "+-."); [|done].
      destruct (scheme_end s) as [[p' q']|]; [|done]. intros [= <- <-]. by rewrite (IH p' q' eq_refl). }
  unfold getscheme. destruct rawurl as [|a s]; [by intros [= <- <-]|].
  destruct (Ascii.eqb a ":"); [done|]. destruct (is_letter a); [|by intros [= <- <-]].
  destruct (scheme_end (String a s)) as [[p q]|] eqn:E; intros [= <- <-]; [intros _; by apply He|done].
Qed.

Lemma split_query_inv (rest r q : string) (force : bool) :
  split_query rest = (r, force, q) ->
  rest = r +:+ (if force || negb (String.eqb q "") then "?" +:+ q else "") /\ (force = true -> q = "").
Proof.
  unfold split_query. destruct (cut "?" rest) as [[p x]|] eqn:E.
  - apply cut_Some in E as [-> _]. destruct x; intros [= <- <- <-]; done.
  - intros [= <- <- <-]. cbn. by rewrite append_empty_r.
Qed.

Lemma parse_rest_inv (scheme rest q : string) (force : bool) (u : URL) :
  parse_rest scheme rest force q = inl u -> Host u <> "" -> Path u = "" ->
  u = mkURL scheme "" (Host u) "" force q /\ rest = "//" +:+ Host u /\ all_bytes host_byte (Host u) = true.
Proof.
  unfold parse_rest. intros Hp Hh Hpath. destruct (HasPrefix rest "/"); cbn [negb] in Hp.
  2:{ repeat break_match_in Hp; simplify_eq; done. }
  destruct ((_ || _) && HasPrefix rest "//") eqn:Ea; [|simplify_eq; done]. bool_to_prop.
  apply prefix_spec in H0 as [authority ->]. cbn [drop_string String.append] in Hp.
  destruct (cut "/" authority) as [[h p]|].
  - destruct (all_bytes host_byte h); simplify_eq.
  - destruct (all_bytes host_byte authority) eqn:Eh; simplify_eq. done.
Qed.

Lemma check_URL_inv (str : string) (u : URL) :
  check_URL str = inl u ->
  url_ok u /\ exists scheme, ToLower scheme = Scheme u /\
    TrimSpace str = scheme +:+ ":" +:+ "//" +:+ Host u +:+ query_text u.
Proof.
  unfold check_URL, url_Parse. destruct (String.eqb (TrimSpace str) "*"); [by vm_compute|].
  destruct (getscheme (TrimSpace str)) as [[scheme rest]|] eqn:Es; [|done].
  destruct (split_query rest) as [[r force] q] eqn:Eq.
  destruct (parse_rest (ToLower scheme) r force q) as [v|] eqn:Ep; [|done].
  destruct (bool_decide _) eqn:Hs; [done|]. apply bool_decide_eq_false in Hs.
  destruct (SplitHostPort (Host v)) as [[h p]|] eqn:Eh; [|done].
  destruct (String.eqb (Path v) "") eqn:Epath; [|done]. cbn. intros [= <-]. bool_to_prop.
  assert (Split ":" (Host v) = [h; p]) as Hhp.
  { unfold SplitHostPort in Eh. destruct (Split ":" (Host v)) as [|x [|y [|z l]]]; simplify_eq. done. }
  assert (Host v <> "") as Hne by (intros E; by rewrite E in Hhp).
  destruct (parse_rest_inv _ _ _ _ _ Ep Hne Epath) as (Hv & -> & Hb).
  apply split_query_inv in Eq as [-> Hf]. rewrite Hv in Hs |- *. cbn [Scheme Host] in *.
  assert (scheme <> "") as Hsn by (intros ->; apply Hs; cbn; set_solver).
  apply getscheme_inv in Es; [|done]. split.
  - split; cbn; [by apply dec_stable|done..| |exact Hf]. by exists h, p.
  - exists scheme. split; [done|]. rewrite Es. unfold query_text. cbn. by rewrite <- ?append_assoc.
Qed.

Lemma url_Parse_String (u : URL) : url_ok u -> url_Parse (url_String u) = inl u.
Proof.
  intros Hu. rewrite (url_String_ok u Hu).
  assert (free_of "?" (Host u) = true) as Hq by (by eapply all_bytes_free; [|apply ok_host]).
  assert (cut "/" (Host u) = None) as Hs by (apply cut_None; by eapply all_bytes_free; [|apply ok_host]).
  assert (split_query ("//" +:+ Host u +:+ query_text u) = ("//" +:+ Host u, ForceQuery u, RawQuery u)) as Eq.
  { unfold split_query, query_text. pose proof (ok_query u Hu) as Hf.
    destruct (ForceQuery u) eqn:Ef; [rewrite (Hf eq_refl)|].
    - cbn [orb]. rewrite append_assoc. change ("?" +:+ "") with (String "?" ""). by rewrite cut_app.
    - destruct (String.eqb_spec (RawQuery u) "") as [->|Hn]; cbn [negb orb].
      + rewrite append_empty_r. by rewrite (proj2 (cut_None "?" ("//" +:+ Host u))).
      + rewrite append_assoc. change ("?" +:+ RawQuery u) with (String "?" (RawQuery u)).
        rewrite cut_app by done. by destruct (RawQuery u). }
  assert (forall rest, getscheme (Scheme u +:+ ":" +:+ rest) = Some (Scheme u, rest) /\
            ToLower (Scheme u) = Scheme u /\ String.eqb (Scheme u +:+ ":" +:+ rest) "*" = false /\
            String.eqb (Scheme u) "" = false) as Hsch.
  { intros rest. pose proof (ok_scheme u Hu) as Hin. unfold url_schemes in Hin.
    repeat (apply elem_of_cons in Hin as [->|Hin]; [by vm_compute|]). by apply elem_of_nil in Hin. }
  destruct (Hsch ("//" +:+ Host u +:+ query_text u)) as (E1 & E2 & E3 & E4).
  unfold url_Parse. rewrite E3, E1, Eq, E2. unfold parse_rest. rewrite E4.
  change (HasPrefix ("//" +:+ Host u) "/") with true. 
  assert (HasPrefix ("//" +:+ Host u) "//" = true) as -> by (apply prefix_spec; by exists (Host u)).
  change (drop_string 2 ("//" +:+ Host u)) with (Host u). cbn [negb orb andb]. rewrite Hs, (ok_host u Hu). f_equal. destruct u. f_equal; symmetry; [apply (ok_opaque _ Hu)|apply (ok_path _ Hu)].
Qed.

Lemma check_URL_ok (u : URL) (str : string) : url_ok u -> TrimSpace str = url_String u -> check_URL str = inl u.
Proof.
  intros Hu Ht. unfold check_URL. rewrite Ht, (url_Parse_String u Hu).
  rewrite bool_decide_eq_false_2 by (intros Hn; by apply Hn, (ok_scheme u Hu)).
  unfold SplitHostPort. destruct (ok_port u Hu) as (h & p & ->). by rewrite (ok_path u Hu).
Qed.

(** The printed form of an accepted URL is accepted as the same URL, and has
    no comma when the text had none. *)
Lemma check_URL_again (str : string) (u : URL) :
  check_URL str = inl u -> free_of "," str = true ->
  check_URL (url_String u) = inl u /\ free_of "," (url_String u) = true.
Proof.
  intros [Hu (scheme & Hl & Ht)]%check_URL_inv Hc. pose proof (url_String_ok u Hu) as Es.
  set (b := ":" +:+ "//" +:+ Host u +:+ query_text u) in *. split.
  - apply check_URL_ok; [done|]. unfold TrimSpace.
    assert (trim_left_space (url_String u) = url_String u) as ->.
    { rewrite Es. pose proof (ok_scheme u Hu) as Hin. unfold url_schemes in Hin.
      repeat (apply elem_of_cons in Hin as [->|Hin]; [done|]). by apply elem_of_nil in Hin. }
    rewrite Es. apply (trim_right_suffix scheme); [done|]. rewrite <- Ht. apply trim_right_idem.
  - apply free_of_trim in Hc. rewrite Ht, free_of_app in Hc. rewrite Es, free_of_app. bool_to_prop.
    apply andb_true_iff. split; [|done]. pose proof (ok_scheme u Hu) as Hin. unfold url_schemes in Hin.
    repeat (apply elem_of_cons in Hin as [->|Hin]; [done|]). by apply elem_of_nil in Hin.
Qed.

Lemma check_URLs_inv (strs : list string) (us : list URL) :
  check_URLs strs = inl us <-> Forall2 (fun str u => check_URL str = inl u) strs us.
Proof.
  revert us. induction strs as [|str strs IH]; intros us; cbn [check_URLs].
  - split; [intros [= <-]; constructor|by intros ->%Forall2_nil_inv_l].
  - split.
    + destruct (check_URL str) as [u|] eqn:E; [|done]. destruct (check_URLs strs) as [us'|]; [|done].
      intros [= <-]. constructor; [done|by apply IH].
    + intros (u & us' & Hu & H2 & ->)%Forall2_cons_inv_l. rewrite Hu. by rewrite (proj2 (IH us') H2).
Qed.

Lemma url_le_antisym (us vs : list URL) (u v : URL) :
  Forall url_ok us -> Forall url_ok vs -> u ∈ us -> v ∈ vs -> url_le u v -> url_le v u -> u = v.
Proof.
  rewrite !Forall_forall. intros Hus Hvs Hu%Hus Hv%Hvs H1 H2.
  pose proof (String.leb_antisym _ _ H1 H2) as E. apply url_Parse_String in Hu, Hv. congruence.
Qed.

Lemma NewURLs_inv (strs : list string) (us : list URL) :
  NewURLs strs = inl us ->
  StronglySorted url_le us /\ exists vs, Permutation us vs /\ Forall2 (fun str u => check_URL str = inl u) strs vs.
Proof.
  unfold NewURLs. destruct strs as [|str strs]; [done|].
  destruct (check_URLs (str :: strs)) as [vs|] eqn:E; [|done]. intros [= <-]. split.
  - apply StronglySorted_merge_sort; apply _.
  - exists vs. split; [apply merge_sort_Permutation|by apply check_URLs_inv].
Qed.

Lemma NewURLs_printed (us : list URL) :
  us <> [] -> StronglySorted url_le us -> Forall url_ok us ->
  Forall (fun u => check_URL (url_String u) = inl u) us -> NewURLs (map url_String us) = inl us.
Proof.
  intros Hne Hs Hok Hc. unfold NewURLs.
  assert (check_URLs (map url_String us) = inl us) as E.
  { apply check_URLs_inv. clear Hne Hs Hok. induction Hc; cbn; by constructor. }
  destruct (map url_String us) as [|x l] eqn:Em; [by destruct us|]. rewrite E. f_equal.
  apply (StronglySorted_unique_strong url_le).
  - intros u v Hu Hv. eapply url_le_antisym; [|exact Hok|exact Hu|exact Hv].
    by rewrite merge_sort_Permutation.
  - apply StronglySorted_merge_sort; apply _.
  - exact Hs.
  - apply merge_sort_Permutation.
Qed.

(** C38. Of a text in ASCII without percent signs, fragments, user names and
    bracketed addresses ([url_text]): a list of endpoints that is accepted is
    not empty and holds only URLs of an allowed scheme with [host:port] and
    without a path, in the order of their text; printing the list and reading
    it again gives the same list.  Outside of these texts it is false: the
    percent escape of a comma in a user name is printed as a comma, at which the
    second reading splits. *)
Theorem NewURLsValue_round_trip (s : string) (us : list URL) :
  url_text s = true -> NewURLsValue s = inl us ->
  us <> [] /\ Forall url_ok us /\ StronglySorted url_le us /\ NewURLsValue (URLs_String us) = inl us.
Proof.
  intros _ (Hs & vs & Hp & H2)%NewURLs_inv.
  assert (Forall (fun u => url_ok u /\ check_URL (url_String u) = inl u /\ free_of "," (url_String u) = true) us) as Hall.
  { rewrite Hp. pose proof (Split_Forall_free "," s) as Hf. clear Hp Hs. revert Hf.
    induction H2 as [|str u strs vs Hu H2 IH]; intros Hf; [constructor|].
    apply Forall_cons in Hf as [Hc Hf]. constructor; [|by apply IH].
    split; [by apply check_URL_inv in Hu as [? _]|by eapply check_URL_again]. }
  assert (us <> []) as Hne.
  { intros ->. apply Permutation_nil in Hp as ->. apply Forall2_nil_inv_r in H2. by apply Split_not_nil in H2. }
  split_and!; [done|by eapply Forall_impl; [exact Hall|]; intros ? []|done|].
  unfold NewURLsValue, URLs_String, URLs_StringSlice. rewrite Split_Join.
  - apply NewURLs_printed; try done; (eapply Forall_impl; [exact Hall|]; by intros ? (? & ? & ?)).
  - by destruct us.
  - apply Forall_map. eapply Forall_impl; [exact Hall|]. by intros ? (? & ? & ?).
Qed.

(** An address of a host and a decimal port. *)
Lemma digits_host (p : string) : all_digits p = true -> all_bytes host_byte p = true.
Proof.
  induction p as [|a p IH]; [done|]. cbn. intros H. bool_to_prop. rewrite (IH H0). unfold host_byte. rewrite H.
  by rewrite orb_true_r.
Qed.

Lemma all_bytes_app (f : ascii -> bool) (s t : string) : all_bytes f (s +:+ t) = all_bytes f s && all_bytes f t.
Proof. induction s as [|a s IH]; [done|]. cbn. by rewrite IH, andb_assoc. Qed.

Lemma url_Parse_addr (h p : string) :
  all_bytes host_byte h = true -> free_of ":" h = true -> all_digits p = true ->
  exists u, url_Parse ("http://" +:+ h +:+ ":" +:+ p) = inl u /\ Hostname u = h /\ Port u = p.
Proof.
  intros Hh Hc Hp. set (u := mkURL "http" "" (h +:+ ":" +:+ p) "" false ""). exists u.
  assert (url_ok u) as Hu.
  { split; cbn; [set_solver|done|done| |exists h, p|done].
    - change (String ":" p) with (":" +:+ p). by rewrite !all_bytes_app, Hh, (digits_host p Hp).
    - change (String ":" p) with (":" +:+ p). change (":" +:+ p) with (String ":" p). rewrite Split_app, !Split_free; [done| |done].
      by apply all_digits_free. }
  pose proof (url_Parse_String u Hu) as E. rewrite (url_String_ok u Hu) in E. cbn [Scheme Host u query_text] in E.
  split; [etrans; [|exact E]; f_equal; cbn; by rewrite append_empty_r|].
  unfold Hostname, Port. cbn [Host u]. change (h +:+ ":" +:+ p) with (h +:+ String ":" p).
  by rewrite (cut_app ":" h p Hc).
Qed.

Lemma NewURLsValue_round_trip_witness :
  let us := [mkURL "http" "" "a:1" "" false "x"; mkURL "http" "" "b:2" "" false ""] in
  NewURLsValue "http://b:2, HTTP://a:1?x" = inl us /\ NewURLsValue (URLs_String us) = inl us.
Proof.
  split; [vm_compute; reflexivity|].
  apply (NewURLsValue_round_trip "http://b:2, HTTP://a:1?x"); vm_compute; reflexivity.
Defined.
