(* ===== verification/Decimals.v ===== *)
(** * Decimal strings by their digits

    The value of a run of decimal digits, its bounds by the number of digits,
    and what concatenation and leading zeros do to it.  The tools of [moctl/]
    build file names and server identifiers from such strings. *)

From stdpp Require Import strings list.
From Stdlib Require Import ZArith Lia Ascii DecimalString DecimalN.
From S2P Require Import Prelude GoStrings.

(** The value of the digits of [s] after a prefix of value [acc]. *)
Fixpoint dec_from (acc : Z) (s : string) : Z :=
  match s with
  | "" => acc
  | String a s' => dec_from (10 * acc + (Z.of_nat (nat_of_ascii a) - 48)) s'
  end.

Definition dec_value (s : string) : Z := dec_from 0 s.

(** Compute the value of the digit in the goal. *)
Ltac digit_value :=
  match goal with |- context [Z.of_nat (nat_of_ascii ?a) - 48] =>
    let v := eval vm_compute in (Z.of_nat (nat_of_ascii a) - 48) in
    change (Z.of_nat (nat_of_ascii a) - 48) with v
  end.

Lemma uint_acc_value (d : Decimal.uint) (acc : positive) :
  Z.pos (Pos.of_uint_acc d acc) = dec_from (Z.pos acc) (NilEmpty.string_of_uint d).
Proof.
  revert acc. induction d; intros acc; [done|..];
    cbn [Pos.of_uint_acc NilEmpty.string_of_uint dec_from]; rewrite IHd; f_equal; digit_value; lia.
Qed.

Lemma uint_value (d : Decimal.uint) :
  Z.of_N (N.of_uint d) = dec_value (NilEmpty.string_of_uint d).
Proof.
  unfold N.of_uint, dec_value. induction d; [done|exact IHd|..];
    cbn [Pos.of_uint NilEmpty.string_of_uint dec_from Z.of_N]; rewrite uint_acc_value; done.
Qed.

Lemma digit_uint (a : ascii) (d : Decimal.uint) :
  is_digit a = true -> exists e, uint_of_char a (Some d) = Some e.
Proof. destruct a as [[] [] [] [] [] [] [] []]; cbn; intros; try done; eauto. Qed.

Lemma digits_uint (s : string) :
  all_digits s = true -> exists d, NilEmpty.uint_of_string s = Some d.
Proof.
  induction s as [|a s IH]; cbn; [eauto|]. intros H. bool_to_prop.
  destruct IH as [d ->]; [done|]. by apply digit_uint.
Qed.

(** Any non-empty run of digits is read as its value. *)
Lemma parse_digits_value (s : string) :
  s <> "" -> all_digits s = true -> parse_digits s = Some (dec_value s).
Proof.
  intros Hne [d Hd]%digits_uint. unfold parse_digits, NilZero.uint_of_string.
  destruct s as [|a s]; [done|]. rewrite Hd. f_equal. rewrite uint_value.
  by rewrite (NilEmpty.sus _ _ Hd).
Qed.

(** ** Bounds *)

Lemma digit_range (a : ascii) : is_digit a = true -> 0 <= Z.of_nat (nat_of_ascii a) - 48 <= 9.
Proof.
  unfold is_digit. intros H. apply andb_true_iff in H as [H1 H2].
  apply Nat.leb_le in H1, H2. lia.
Qed.

Lemma dec_from_bounds (s : string) (acc : Z) :
  all_digits s = true ->
  acc * 10 ^ Z.of_nat (String.length s) <= dec_from acc s < (acc + 1) * 10 ^ Z.of_nat (String.length s).
Proof.
  revert acc. induction s as [|a s IH]; intros acc; cbn [all_digits dec_from String.length].
  { intros _. cbn. lia. }
  intros H. bool_to_prop. pose proof (digit_range a ltac:(done)).
  specialize (IH (10 * acc + (Z.of_nat (nat_of_ascii a) - 48)) ltac:(done)).
  rewrite Nat2Z.inj_succ, Z.pow_succ_r by lia.
  assert (0 < 10 ^ Z.of_nat (String.length s)) by (apply Z.pow_pos_nonneg; lia). nia.
Qed.

Lemma dec_value_lt (s : string) :
  all_digits s = true -> 0 <= dec_value s < 10 ^ Z.of_nat (String.length s).
Proof. intros H. pose proof (dec_from_bounds s 0 H). unfold dec_value. lia. Qed.

(** ** Concatenation *)

Lemma all_digits_app (s t : string) : all_digits (s +:+ t) = all_digits s && all_digits t.
Proof. induction s as [|a s IH]; cbn; [done|]. by rewrite IH, andb_assoc. Qed.

Lemma dec_from_app (s t : string) (acc : Z) : dec_from acc (s +:+ t) = dec_from (dec_from acc s) t.
Proof. revert acc. induction s as [|a s IH]; intros acc; cbn; [done|apply IH]. Qed.

Lemma dec_from_shift (s : string) (acc : Z) :
  dec_from acc s = acc * 10 ^ Z.of_nat (String.length s) + dec_value s.
Proof.
  unfold dec_value. revert acc. induction s as [|a s IH]; intros acc; cbn [dec_from String.length]; [cbn; lia|].
  rewrite IH, (IH (10 * 0 + _)), Nat2Z.inj_succ, Z.pow_succ_r by lia. lia.
Qed.

Lemma dec_value_app (s t : string) :
  dec_value (s +:+ t) = dec_value s * 10 ^ Z.of_nat (String.length t) + dec_value t.
Proof. unfold dec_value at 1. by rewrite dec_from_app, dec_from_shift. Qed.

(** ** Formatted numbers *)

Lemma FormatUint_value (z : Z) : 0 <= z -> dec_value (FormatUint z) = z.
Proof.
  intros Hz. pose proof (parse_digits_FormatUint z Hz) as E.
  rewrite parse_digits_value in E by auto using FormatUint_not_empty, FormatUint_digits. congruence.
Qed.

(** A formatted number has no leading zero. *)
Lemma FormatUint_head (z : Z) :
  0 < z -> exists a s, FormatUint z = String a s /\ 1 <= Z.of_nat (nat_of_ascii a) - 48.
Proof.
  intros Hz. unfold FormatUint, NilZero.string_of_uint.
  set (d := N.to_uint (Z.to_N z)).
  assert (Decimal.unorm d = d) as Hn.
  { unfold d. rewrite <- (DecimalN.Unsigned.to_of (N.to_uint (Z.to_N z))) at 1.
    by rewrite DecimalN.Unsigned.of_to. }
  assert (N.of_uint d = Z.to_N z) as Hv by apply DecimalN.Unsigned.of_to.
  clearbody d.
  assert (Hd0 : forall u, d <> Decimal.D0 u).
  { intros u Hu. rewrite Hu in Hn, Hv. unfold Decimal.unorm in Hn. cbn [Decimal.nzhead] in Hn.
    destruct (Decimal.nzhead u) eqn:Eu; try discriminate Hn.
    - injection Hn as <-. change (0%N = Z.to_N z) in Hv. lia.
    - by apply (DecimalFacts.nzhead_nonzero u u0). }
  destruct d; try done; [by destruct (Hd0 d)|..];
    do 2 eexists; (split; [reflexivity|digit_value; lia]).
Qed.

(** The number of digits of a number. *)
Lemma FormatUint_length (z : Z) (n : nat) :
  0 <= z -> (0 < n)%nat -> (String.length (FormatUint z) <= n)%nat <-> z < 10 ^ Z.of_nat n.
Proof.
  intros Hz Hn. pose proof (FormatUint_value z Hz) as Hv. pose proof (FormatUint_digits z) as Hd.
  split; intros H.
  - pose proof (dec_value_lt _ Hd). rewrite Hv in *.
    assert (10 ^ Z.of_nat (String.length (FormatUint z)) <= 10 ^ Z.of_nat n) by (apply Z.pow_le_mono_r; lia). lia.
  - destruct (Z.eq_dec z 0) as [->|]; [cbn; lia|].
    destruct (FormatUint_head z) as (a & s & E & Ha); [lia|]. rewrite E in *. cbn [String.length all_digits] in *.
    bool_to_prop. unfold dec_value in Hv. cbn [dec_from] in Hv.
    pose proof (dec_from_bounds s (10 * 0 + (Z.of_nat (nat_of_ascii a) - 48)) ltac:(done)).
    destruct (Nat.le_gt_cases (S (String.length s)) n) as [|Hgt]; [done|].
    assert (10 ^ Z.of_nat n <= 10 ^ Z.of_nat (String.length s)) by (apply Z.pow_le_mono_r; lia). nia.
Qed.

(** ** Leading zeros *)

Fixpoint zeros (n : nat) : string := match n with O => "" | S n' => String "0" (zeros n') end.

Lemma zeros_digits (n : nat) : all_digits (zeros n) = true.
Proof. by induction n. Qed.

Lemma zeros_value (n : nat) : dec_value (zeros n) = 0.
Proof. unfold dec_value. by induction n. Qed.

Lemma parse_digits_padded (n : nat) (z : Z) :
  0 <= z -> parse_digits (zeros n +:+ FormatUint z) = Some z.
Proof.
  intros Hz. rewrite parse_digits_value.
  - rewrite dec_value_app, zeros_value, FormatUint_value by done. f_equal.
  - destruct n; cbn; [apply FormatUint_not_empty|done].
  - by rewrite all_digits_app, zeros_digits, FormatUint_digits.
Qed.
