(* ===== verification/Gtid.v ===== *)
(** * GTID sets: the executed-transaction sets the election compares

    The election orders the nodes by the last transaction of a server in a
    MySQL GTID set ([GetTxnIDFromGTIDStr] of [pkg/mysql/mysql.go]).  The set
    is parsed by the vendored [siddontang/go-mysql] package
    ([mysql_gtid.go]) and its UUIDs by [satori/go.uuid]; both are in the
    tree and modelled here.

    The theorems: normalising keeps exactly the transactions of the input
    and leaves sorted, separated intervals; so the number
    [GetTxnIDFromGTIDStr] picks is the first one after every transaction of
    that server in the string. *)

From stdpp Require Import gmap strings list sorting.
From Stdlib Require Import ZArith Lia Ascii.
From S2P Require Import Prelude GoStrings.

(** ** Intervals *)

(** [Interval]: [Start, Stop), left closed and right open. *)
Record Interval := mkInterval { Start : Z; Stop : Z }.

#[global] Instance Interval_eq_dec : EqDecision Interval.
Proof. solve_decision. Defined.

(** [parseInterval]: [n] or [n1-n2].  In the second form the error of the
    first number is overwritten by that of the second. *)
Definition parseInterval (str : string) : result Interval :=
  let finish (i : Interval) (err : option error) :=
    match err with
    | Some e => inr e
    | None =>
        if Stop i <=? Start i
        then inr (Errorf "invalid interval format, must n[-n] and the end must >= start")
        else inl i
    end in
  match Split "-" str with
  | [a] =>
      let '(start, err) := ParseInt_pair a in
      finish (mkInterval start (i64 (start + 1))) err
  | [a; b] =>
      let '(start, _) := ParseInt_pair a in
      let '(stop, err) := ParseInt_pair b in
      finish (mkInterval start (i64 (stop + 1))) err
  | _ => inr (Errorf "invalid interval format, must n[-n]")
  end.

(** [Interval.String] *)
Definition Interval_String (i : Interval) : string :=
  if Stop i =? i64 (Start i + 1) then FormatInt (Start i)
  else FormatInt (Start i) +:+ "-" +:+ FormatInt (i64 (Stop i - 1)).

(** ** Sorted, merged interval slices *)

(** [IntervalSlice.Less] on two elements. *)
Definition Interval_Less (a b : Interval) : bool :=
  if Start a <? Start b then true
  else if Start b <? Start a then false
  else Stop a <? Stop b.

(** [sort.Sort] for [Less]: the order is total on intervals, so every sorting
    algorithm returns the same slice; insertion sort computes it. *)
Fixpoint Interval_insert (i : Interval) (l : list Interval) : list Interval :=
  match l with
  | [] => [i]
  | j :: l' => if Interval_Less j i then j :: Interval_insert i l' else i :: l
  end.

Definition Interval_Sort (l : list Interval) : list Interval := foldr Interval_insert [] l.

(** The merge loop of [Normalize]: [last] is [n[len(n)-1]]. *)
Fixpoint Normalize_loop (last : Interval) (s : list Interval) : list Interval :=
  match s with
  | [] => [last]
  | i :: s' =>
      if Stop last <? Start i then last :: Normalize_loop i s'
      else
        let stop := if Stop i <? Stop last then Stop last else Stop i in
        Normalize_loop (mkInterval (Start last) stop) s'
  end.

(** [IntervalSlice.Normalize] *)
Definition Normalize (s : list Interval) : list Interval :=
  match Interval_Sort s with
  | [] => []
  | i :: s' => Normalize_loop i s'
  end.

(** ** UUIDs of [satori/go.uuid] *)

Definition hex_val (a : ascii) : option Z :=
  let n := Z.of_nat (nat_of_ascii a) in
  if (48 <=? n) && (n <=? 57) then Some (n - 48)
  else if (97 <=? n) && (n <=? 102) then Some (n - 87)
  else if (65 <=? n) && (n <=? 70) then Some (n - 55)
  else None.

Definition hex_digit (z : Z) : ascii :=
  ascii_of_nat (Z.to_nat (if z <? 10 then z + 48 else z + 87)).

(** [hex.Decode] *)
Fixpoint hex_Decode (s : string) : option (list Z) :=
  match s with
  | "" => Some []
  | String a (String b s') =>
      match hex_val a, hex_val b, hex_Decode s' with
      | Some x, Some y, Some l => Some (16 * x + y :: l)
      | _, _, _ => None
      end
  | _ => None
  end.

(** [hex.Encode] *)
Fixpoint hex_Encode (l : list Z) : string :=
  match l with
  | [] => ""
  | x :: l' => String (hex_digit (x / 16)) (String (hex_digit (x mod 16)) (hex_Encode l'))
  end.

(** A [UUID] is its sixteen bytes. *)
Abbreviation UUID := (list Z) (only parsing).

Definition char_at (n : nat) (s : string) : ascii :=
  match String.get n s with Some a => a | None => "000"%char end.

Definition sub (i j : nat) (s : string) : string := String.substring i (j - i) s.

Definition uuid_err : error := Errorf "uuid: incorrect UUID format".

(** [decodeHashLike] *)
Definition decodeHashLike (t : string) : result UUID :=
  match hex_Decode t with Some l => inl l | None => inr uuid_err end.

(** [decodeCanonical]: the five dash-separated groups. *)
Definition decodeCanonical (t : string) : result UUID :=
  if negb (Ascii.eqb (char_at 8 t) "-" && Ascii.eqb (char_at 13 t) "-" &&
           Ascii.eqb (char_at 18 t) "-" && Ascii.eqb (char_at 23 t) "-")
  then inr uuid_err
  else
    match hex_Decode (sub 0 8 t), hex_Decode (sub 9 13 t), hex_Decode (sub 14 18 t),
          hex_Decode (sub 19 23 t), hex_Decode (sub 24 36 t) with
    | Some a, Some b, Some c, Some d, Some e => inl (a ++ b ++ c ++ d ++ e)
    | _, _, _, _, _ => inr uuid_err
    end.

(** [decodePlain] *)
Definition decodePlain (t : string) : result UUID :=
  match String.length t with
  | 32%nat => decodeHashLike t
  | 36%nat => decodeCanonical t
  | _ => inr uuid_err
  end.

(** [UnmarshalText] with [decodeBraced] and [decodeURN], reached from
    [uuid.FromString]. *)
Definition uuid_FromString (t : string) : result UUID :=
  match String.length t with
  | 32%nat => decodeHashLike t
  | 36%nat => decodeCanonical t
  | 38%nat =>
      if negb (Ascii.eqb (char_at 0 t) "{" && Ascii.eqb (char_at 37 t) "}")
      then inr uuid_err else decodePlain (sub 1 37 t)
  | 41%nat | 45%nat =>
      if negb (String.eqb (sub 0 9 t) "urn:uuid:") then inr uuid_err
      else decodePlain (sub 9 (String.length t) t)
  | _ => inr uuid_err
  end.

(** [UUID.String] *)
Definition uuid_String (u : UUID) : string :=
  hex_Encode (take 4 u) +:+ "-" +:+ hex_Encode (take 2 (drop 4 u)) +:+ "-" +:+
  hex_Encode (take 2 (drop 6 u)) +:+ "-" +:+ hex_Encode (take 2 (drop 8 u)) +:+ "-" +:+
  hex_Encode (drop 10 u).

(** ** Sets *)

(** [UUIDSet] *)
Record UUIDSet := mkUUIDSet { SID : UUID; Intervals : list Interval }.

Fixpoint parse_intervals (sep : list string) : result (list Interval) :=
  match sep with
  | [] => inl []
  | x :: sep' =>
      match parseInterval x with
      | inr e => inr e
      | inl i =>
          match parse_intervals sep' with
          | inr e => inr e
          | inl l => inl (i :: l)
          end
      end
  end.

(** [ParseUUIDSet] *)
Definition ParseUUIDSet (str : string) : result UUIDSet :=
  match Split ":" (TrimSpace str) with
  | sid :: x :: ins =>
      match uuid_FromString sid with
      | inr e => inr e
      | inl u =>
          match parse_intervals (x :: ins) with
          | inr e => inr e
          | inl l => inl (mkUUIDSet u (Normalize l))
          end
      end
  | _ => inr (Errorf "invalid GTID format, must UUID:interval[:interval]")
  end.

(** [MysqlGTIDSet.Sets] is a map from the printed UUID to its set.
    [AddSet] with [UUIDSet.AddInterval]. *)
Definition AddSet (sets : gmap string UUIDSet) (set : UUIDSet) : gmap string UUIDSet :=
  let sid := uuid_String (SID set) in
  match sets !! sid with
  | Some o => <[sid := mkUUIDSet (SID o) (Normalize (Intervals o ++ Intervals set))]> sets
  | None => <[sid := set]> sets
  end.

Fixpoint parse_sets (sp : list string) (s : gmap string UUIDSet) : result (gmap string UUIDSet) :=
  match sp with
  | [] => inl s
  | x :: sp' =>
      match ParseUUIDSet x with
      | inr e => inr e
      | inl set => parse_sets sp' (AddSet s set)
      end
  end.

(** [ParseMysqlGTIDSet] *)
Definition ParseMysqlGTIDSet (str : string) : result (gmap string UUIDSet) :=
  if String.eqb str "" then inl ∅ else parse_sets (Split "," str) ∅.

(** [UUIDSet.String] and [MysqlGTIDSet.String]; the latter ranges over a Go
    map, so it takes the enumeration of the map the run happens to use. *)
Definition UUIDSet_String (s : UUIDSet) : string :=
  uuid_String (SID s) +:+ foldr (fun i acc => ":" +:+ Interval_String i +:+ acc) "" (Intervals s).

Definition MysqlGTIDSet_String (order : list UUIDSet) : string :=
  Join (map UUIDSet_String order) ",".

(** ** [pkg/mysql/mysql.go] *)

(** [parseGTIDSet] *)
Definition parseGTIDSet (gtidStr : string) : result (gmap string UUIDSet) :=
  ParseMysqlGTIDSet gtidStr.

(** [GetTxnIDFromGTIDStr]: the last interval's [Stop]. *)
Definition GetTxnIDFromGTIDStr (gtidStr serverUUID : string) : result Z :=
  match parseGTIDSet gtidStr with
  | inr e => inr e
  | inl gtidSet =>
      match gtidSet !! serverUUID with
      | None => inr (Errorf "cannot find gtid from gtidSet")
      | Some uuidSet =>
          match last (Intervals uuidSet) with
          | None => inr (Errorf "cannot find intervals with gtid from gtidSet")
          | Some i => inl (Stop i)
          end
      end
  end.

(** ** Transactions covered by a list of intervals *)

(** Transaction number [n] belongs to one of the intervals. *)
Definition covers (l : list Interval) (n : Z) : Prop :=
  exists i, i ∈ l /\ Start i <= n < Stop i.

Definition nonempty_interval (i : Interval) : Prop := Start i < Stop i.

(** Sorted by [Start], and a gap between each two. *)
Fixpoint separated (l : list Interval) : Prop :=
  match l with
  | [] => True
  | i :: l' => nonempty_interval i /\ (forall j, j ∈ l' -> Stop i < Start j) /\ separated l'
  end.

Lemma covers_nil (n : Z) : covers [] n <-> False.
Proof. split; [|done]. intros (i & Hi & _). by apply not_elem_of_nil in Hi. Qed.

Lemma covers_cons (i : Interval) (l : list Interval) (n : Z) :
  covers (i :: l) n <-> (Start i <= n < Stop i) \/ covers l n.
Proof.
  unfold covers. split.
  - intros (j & [->|Hj]%elem_of_cons & Hn); eauto.
  - intros [Hn|(j & Hj & Hn)]; [exists i|exists j]; rewrite elem_of_cons; auto.
Qed.

Lemma covers_perm (l k : list Interval) (n : Z) :
  Permutation l k -> covers l n -> covers k n.
Proof. intros Hp (i & Hi & Hn). exists i. by rewrite <- Hp. Qed.

Lemma Interval_insert_perm (i : Interval) (l : list Interval) :
  Permutation (Interval_insert i l) (i :: l).
Proof.
  induction l as [|j l IH]; cbn; [done|].
  destruct (Interval_Less j i); [|done]. rewrite IH. apply perm_swap.
Qed.

Lemma Interval_Sort_perm (l : list Interval) : Permutation (Interval_Sort l) l.
Proof.
  induction l as [|i l IH]; cbn; [done|]. by rewrite Interval_insert_perm, IH.
Qed.

(** [sort.Sort] leaves the starts in order. *)
Lemma Interval_insert_sorted (i : Interval) (l : list Interval) :
  StronglySorted (fun a b => Start a <= Start b) l ->
  StronglySorted (fun a b => Start a <= Start b) (Interval_insert i l).
Proof.
  intros Hl. induction Hl as [|j l Hl IH Hj]; cbn; [by repeat constructor|].
  destruct (Interval_Less j i) eqn:E; unfold Interval_Less in E.
  - constructor; [done|]. rewrite Interval_insert_perm. constructor; [|done].
    repeat case_match; bool_to_prop; lia || done.
  - assert (Start i <= Start j) by (repeat case_match; bool_to_prop; lia || done).
    constructor; [by constructor|]. constructor; [done|].
    eapply Forall_impl; [exact Hj|]. cbn. lia.
Qed.

Lemma Interval_Sort_sorted (l : list Interval) :
  StronglySorted (fun a b => Start a <= Start b) (Interval_Sort l).
Proof. induction l; cbn; [constructor|]. by apply Interval_insert_sorted. Qed.

(** The merge loop covers what its arguments cover ... *)
Lemma Normalize_loop_covers (l : list Interval) (last : Interval) (n : Z) :
  nonempty_interval last -> Forall nonempty_interval l ->
  StronglySorted (fun a b => Start a <= Start b) (last :: l) ->
  covers (Normalize_loop last l) n <-> covers (last :: l) n.
Proof.
  revert last. induction l as [|i l IH]; intros last Hlast Hne Hs; cbn; [done|].
  apply Forall_cons in Hne as [Hi Hne].
  apply StronglySorted_inv in Hs as [Hs Hle].
  pose proof Hs as Hs'. apply StronglySorted_inv in Hs' as [Hs' _].
  assert (Start last <= Start i) by (by apply Forall_cons in Hle as [? _]).
  destruct (Stop last <? Start i) eqn:E; bool_to_prop.
  - rewrite covers_cons, IH, covers_cons by done. rewrite !covers_cons. tauto.
  - rewrite IH; [|unfold nonempty_interval in *; cbn; case_match; bool_to_prop; lia|done|].
    + rewrite !covers_cons. cbn [Start Stop]. unfold nonempty_interval in *.
      assert ((Start last <= n < if Stop i <? Stop last then Stop last else Stop i) <->
              (Start last <= n < Stop last) \/ (Start i <= n < Stop i)) as ->
        by (case_match; bool_to_prop; lia).
      tauto.
    + constructor; [done|]. cbn. by apply Forall_cons in Hle as [_ ?].
Qed.

(** ... and leaves separated intervals, the first of which starts with [last]. *)
Lemma Normalize_loop_separated (l : list Interval) (last : Interval) :
  nonempty_interval last -> Forall nonempty_interval l ->
  StronglySorted (fun a b => Start a <= Start b) (last :: l) ->
  separated (Normalize_loop last l) /\
  (forall j, j ∈ Normalize_loop last l -> Start last <= Start j).
Proof.
  revert last. induction l as [|i l IH]; intros last Hlast Hne Hs; cbn [Normalize_loop].
  { cbn. split; [split_and!; auto; intros j Hj; by apply not_elem_of_nil in Hj|].
    intros j ->%list_elem_of_singleton. lia. }
  apply Forall_cons in Hne as [Hi Hne].
  apply StronglySorted_inv in Hs as [Hs Hle].
  pose proof Hs as Hs'. apply StronglySorted_inv in Hs' as [Hs' _].
  assert (Start last <= Start i) by (by apply Forall_cons in Hle as [? _]).
  destruct (Stop last <? Start i) eqn:E; bool_to_prop.
  - destruct (IH i) as [Hsep Hmin]; [done..|]. split.
    + cbn. split_and!; [done| |done]. intros j Hj. specialize (Hmin j Hj). lia.
    + intros j [->|Hj]%elem_of_cons; [lia|]. specialize (Hmin j Hj). lia.
  - apply (IH (mkInterval (Start last) _)); [|done|].
    + unfold nonempty_interval in *; cbn; case_match; bool_to_prop; lia.
    + constructor; [done|]. cbn. by apply Forall_cons in Hle as [_ ?].
Qed.

(** [Normalize] keeps exactly the transactions of its argument and leaves the
    intervals sorted and pairwise separated. *)
Lemma Normalize_spec (l : list Interval) :
  Forall nonempty_interval l ->
  separated (Normalize l) /\ forall n, covers (Normalize l) n <-> covers l n.
Proof.
  intros Hl. unfold Normalize.
  pose proof (Interval_Sort_perm l) as Hp. pose proof (Interval_Sort_sorted l) as Hs.
  destruct (Interval_Sort l) as [|i s].
  - apply Permutation_nil in Hp as ->. by cbn.
  - rewrite <- Hp in Hl. apply Forall_cons in Hl as [Hi Hne]. split.
    + by apply Normalize_loop_separated.
    + intros n. rewrite Normalize_loop_covers by done.
      split; apply covers_perm; [done|by symmetry].
Qed.

(** In separated intervals the last [Stop] is the least bound above every
    transaction, and the transaction just below it is in the set. *)
Lemma separated_last (l : list Interval) (i : Interval) :
  separated l -> last l = Some i ->
  covers l (Stop i - 1) /\ (forall n, covers l n -> n < Stop i).
Proof.
  induction l as [|j l IH]; [done|]. cbn [separated]. intros (Hj & Hgap & Hl) Hlast.
  destruct l as [|k l'].
  - cbn in Hlast. injection Hlast as ->. unfold nonempty_interval in Hj. split.
    + apply covers_cons. left. lia.
    + intros n [Hn|[]%covers_nil]%covers_cons. lia.
  - destruct (IH Hl Hlast) as [Hc Hb]. split.
    + apply covers_cons. by right.
    + intros n [Hn|Hn]%covers_cons; [|by apply Hb].
      assert (Stop j < Start k) by (apply Hgap; left).
      assert (nonempty_interval k) as Hk by apply Hl. unfold nonempty_interval in Hk.
      assert (Start k < Stop i) by (apply Hb, covers_cons; left; lia). lia.
Qed.

(** Every interval the parser accepts is non-empty. *)
Lemma parseInterval_nonempty (s : string) (i : Interval) :
  parseInterval s = inl i -> nonempty_interval i.
Proof.
  unfold parseInterval, nonempty_interval. intros H.
  destruct (Split "-" s) as [|a [|b [|]]]; try done;
    repeat break_match_in H; try done; bool_to_prop; simplify_eq/=; lia.
Qed.

Lemma parse_intervals_nonempty (l : list string) (ivs : list Interval) :
  parse_intervals l = inl ivs -> Forall nonempty_interval ivs.
Proof.
  revert ivs. induction l as [|x l IH]; cbn; intros ivs H; [by simplify_eq|].
  repeat break_match_in H; simplify_eq.
  constructor; eauto using parseInterval_nonempty.
Qed.

(** ** What a GTID string says of a server

    The reference reading of a GTID string, without normalisation: the
    intervals of all the sections that name the server. *)
Fixpoint section_intervals (sp : list string) (server : string) : result (list Interval) :=
  match sp with
  | [] => inl []
  | x :: sp' =>
      match Split ":" (TrimSpace x) with
      | sid :: y :: ins =>
          match uuid_FromString sid, parse_intervals (y :: ins), section_intervals sp' server with
          | inr e, _, _ | inl _, inr e, _ | inl _, inl _, inr e => inr e
          | inl u, inl l, inl rest =>
              inl ((if String.eqb (uuid_String u) server then l else []) ++ rest)
          end
      | _ => inr (Errorf "invalid GTID format, must UUID:interval[:interval]")
      end
  end.

Definition intervals_of (sets : gmap string UUIDSet) (server : string) : list Interval :=
  match sets !! server with Some us => Intervals us | None => [] end.

Definition sets_wf (sets : gmap string UUIDSet) : Prop :=
  forall server, separated (intervals_of sets server).

Lemma separated_nonempty (l : list Interval) : separated l -> Forall nonempty_interval l.
Proof. induction l; cbn; [done|]. intros (? & _ & ?). constructor; auto. Qed.

Lemma covers_app (l k : list Interval) (n : Z) : covers (l ++ k) n <-> covers l n \/ covers k n.
Proof.
  induction l as [|i l IH]; cbn; [rewrite covers_nil; tauto|].
  rewrite !covers_cons, IH. tauto.
Qed.

(** [AddSet] keeps the sets well formed and adds the transactions of the
    section to those of its own server only. *)
Lemma AddSet_spec (sets : gmap string UUIDSet) (u : list Z) (l : list Interval) (server : string) :
  sets_wf sets -> Forall nonempty_interval l ->
  sets_wf (AddSet sets (mkUUIDSet u (Normalize l))) /\
  forall n, covers (intervals_of (AddSet sets (mkUUIDSet u (Normalize l))) server) n <->
    covers (intervals_of sets server) n \/
    covers (if String.eqb (uuid_String u) server then l else []) n.
Proof.
  intros Hwf Hne. destruct (Normalize_spec l Hne) as [Hsep Hcov].
  pose proof (Hwf (uuid_String u)) as Hu.
  unfold AddSet, sets_wf, intervals_of in *. cbn [SID Intervals].
  assert (Forall nonempty_interval
    ((match sets !! uuid_String u with Some us => Intervals us | None => [] end)
     ++ Normalize l)) as Hall.
  { apply Forall_app. split; by apply separated_nonempty. }
  destruct (sets !! uuid_String u) as [o|] eqn:Eo.
  - destruct (Normalize_spec _ Hall) as [Hsep2 Hcov2]. split.
    + intros k. rewrite lookup_insert. case_decide; [done|apply Hwf].
    + intros n. rewrite lookup_insert. case_decide as Hd.
      * subst server. rewrite Eo, String.eqb_refl. cbn.
        by rewrite Hcov2, covers_app, Hcov.
      * apply String.eqb_neq in Hd as ->. rewrite covers_nil. tauto.
  - split.
    + intros k. rewrite lookup_insert. case_decide; [done|apply Hwf].
    + intros n. rewrite lookup_insert. case_decide as Hd.
      * subst server. rewrite Eo, String.eqb_refl. cbn. rewrite Hcov, covers_nil. tauto.
      * apply String.eqb_neq in Hd as ->. rewrite covers_nil. tauto.
Qed.

Lemma parse_sets_spec (sp : list string) (sets sets' : gmap string UUIDSet) (server : string) :
  sets_wf sets -> parse_sets sp sets = inl sets' ->
  exists raw, section_intervals sp server = inl raw /\ sets_wf sets' /\
    forall n, covers (intervals_of sets' server) n <->
      covers (intervals_of sets server) n \/ covers raw n.
Proof.
  revert sets. induction sp as [|x sp IH]; cbn [parse_sets section_intervals]; intros sets Hwf H.
  { simplify_eq. exists []. split_and!; auto. intros n. rewrite covers_nil. tauto. }
  unfold ParseUUIDSet in H.
  destruct (Split ":" (TrimSpace x)) as [|sid [|y ins]]; try done.
  destruct (uuid_FromString sid) as [u|]; [|done].
  destruct (parse_intervals (y :: ins)) as [l|] eqn:El; [|done].
  apply parse_intervals_nonempty in El.
  destruct (AddSet_spec sets u l server Hwf El) as [Hwf2 Hcov].
  destruct (IH _ Hwf2 H) as (raw & -> & Hwf' & Hraw).
  eexists. split_and!; [done|done|]. intros n.
  rewrite Hraw, Hcov, covers_app. tauto.
Qed.

(** C33. What the election compares: on every string it accepts,
    [GetTxnIDFromGTIDStr] returns the first number after every transaction of
    the server in the string, however its intervals are ordered, repeated or
    overlapping, and the transaction right before it is in the string. *)
Theorem GetTxnID_spec (gtidStr server : string) (t : Z) :
  gtidStr <> "" -> GetTxnIDFromGTIDStr gtidStr server = inl t ->
  exists raw, section_intervals (Split "," gtidStr) server = inl raw /\
    covers raw (t - 1) /\ forall n, covers raw n -> n < t.
Proof.
  intros Hne. unfold GetTxnIDFromGTIDStr, parseGTIDSet, ParseMysqlGTIDSet.
  apply String.eqb_neq in Hne as ->. intros H.
  destruct (parse_sets _ ∅) as [sets|] eqn:Ep; [|done].
  assert (sets_wf ∅) as Hwf0 by (intros k; unfold intervals_of; by rewrite lookup_empty).
  destruct (parse_sets_spec _ _ _ server Hwf0 Ep) as (raw & Hraw & Hwf & Hcov).
  unfold intervals_of in Hcov at 2. rewrite lookup_empty in Hcov.
  specialize (Hwf server). unfold intervals_of in *.
  destruct (sets !! server) as [us|]; [|done].
  destruct (last (Intervals us)) as [i|] eqn:El; [|done]. simplify_eq/=.
  destruct (separated_last _ _ Hwf El) as [H1 H2].
  exists raw. split_and!; [done| |].
  - apply Hcov in H1 as [[]%covers_nil|]; done.
  - intros n Hn. apply H2, Hcov. by right.
Qed.

Lemma GetTxnID_spec_witness :
  exists raw, section_intervals (Split "," "53ea0ed1-9bf8-11e6-8bea-64006a897c73:7-9:1-3")
      "53ea0ed1-9bf8-11e6-8bea-64006a897c73" = inl raw /\
    covers raw (10 - 1) /\ forall n, covers raw n -> n < 10.
Proof. apply GetTxnID_spec; [discriminate|vm_compute; reflexivity]. Defined.

(** ** Bounds: every bound the parser returns is an [int64] *)

Definition stops_i64 (l : list Interval) : Prop := Forall (fun i => is_i64 (Stop i)) l.

Lemma i64_range (z : Z) : is_i64 (i64 z).
Proof.
  unfold is_i64, i64. pose proof (Z.mod_pos_bound (z + two63) two64 eq_refl). unfold two63, two64 in *. lia.
Qed.

Lemma parseInterval_i64 (s : string) (i : Interval) : parseInterval s = inl i -> is_i64 (Stop i).
Proof.
  unfold parseInterval. repeat (break_match; try done); intros; simplify_eq/=; apply i64_range.
Qed.

Lemma parse_intervals_i64 (l : list string) (ivs : list Interval) :
  parse_intervals l = inl ivs -> stops_i64 ivs.
Proof.
  revert ivs. induction l as [|x l IH]; cbn; intros ivs ?; simplify_eq; [constructor|].
  destruct (parseInterval x) as [i|] eqn:E; [|done].
  destruct (parse_intervals l) as [k|]; simplify_eq. constructor; [by eapply parseInterval_i64|by apply IH].
Qed.

Lemma Normalize_i64 (l : list Interval) : stops_i64 l -> stops_i64 (Normalize l).
Proof.
  unfold stops_i64, Normalize. rewrite <- (Interval_Sort_perm l) at 1. intros Hl.
  destruct (Interval_Sort l) as [|i k]; [done|]. apply Forall_cons in Hl as [Hi Hk].
  revert i Hi. induction Hk as [|j k Hj Hk IH]; intros i Hi; cbn; [by apply Forall_singleton|].
  destruct (Stop i <? Start j); [apply Forall_cons; auto|].
  apply IH. cbn. by destruct (Stop j <? Stop i).
Qed.

Lemma AddSet_i64 (sets : gmap string UUIDSet) (set : UUIDSet) :
  map_Forall (fun _ us => stops_i64 (Intervals us)) sets -> stops_i64 (Intervals set) ->
  map_Forall (fun _ us => stops_i64 (Intervals us)) (AddSet sets set).
Proof.
  intros Hm Hs. unfold AddSet. destruct (sets !! _) as [o|] eqn:E; apply map_Forall_insert_2; auto.
  apply Normalize_i64, Forall_app. split; [by eapply (Hm _ o)|done].
Qed.

Lemma parseGTIDSet_i64 (str : string) (sets : gmap string UUIDSet) :
  parseGTIDSet str = inl sets -> map_Forall (fun _ us => stops_i64 (Intervals us)) sets.
Proof.
  unfold parseGTIDSet, ParseMysqlGTIDSet. destruct (String.eqb str "").
  { intros; simplify_eq. apply map_Forall_empty. }
  assert (map_Forall (fun _ us => stops_i64 (Intervals us)) (∅ : gmap string UUIDSet)) as H0
    by apply map_Forall_empty.
  revert H0. generalize (∅ : gmap string UUIDSet).
  induction (Split "," str) as [|x sp IH]; cbn; intros m Hm ?; [by simplify_eq|].
  destruct (ParseUUIDSet x) as [us|] eqn:Eu; [|done].
  eapply IH; [|done]. apply AddSet_i64; [done|]. revert Eu. unfold ParseUUIDSet.
  repeat (break_match; try done). intros; simplify_eq. by eapply Normalize_i64, parse_intervals_i64.
Qed.
