(* ===== verification/Json.v ===== *)
(** * The part of Go's [encoding/json] the agent uses

    Election logs, node registrations and switch positions are stored in etcd
    as JSON text.  [Marshal] and [Unmarshal] of a struct are split in two: the
    text of a JSON value ([print_json], [parse_json]) and the mapping between
    a struct and a value, which is given where the struct is declared.

    Strings are byte strings; the bytes from 0x80 up are copied as they are,
    which is what Go does with valid UTF-8 other than U+2028 and U+2029 (the
    strings stored are host names, UUIDs, GTID sets and numbers).

    The theorem of the file is the round trip [parse_json (print_json v) = v]. *)

From stdpp Require Import gmap strings list.
From Stdlib Require Import ZArith Lia Ascii.
From S2P Require Import Prelude GoStrings.

Inductive json :=
| JNull
| JBool (b : bool)
| JNum (literal : string)
| JStr (s : string)
| JArr (l : list json)
| JObj (l : list (string * json)).

(** ** Printing *)

Definition dquote : ascii := "034"%char.
Definition backslash : ascii := "\"%char.

Definition hex_lower (n : nat) : ascii :=
  ascii_of_nat (if (n <? 10)%nat then n + 48 else n + 87)%nat.

(** [encodeState.string] on one byte, with HTML escaping on. *)
Definition escape_byte (a : ascii) : string :=
  let n := nat_of_ascii a in
  if Ascii.eqb a dquote || Ascii.eqb a backslash then String backslash (String a "")
  else if (n =? 10)%nat then String backslash "n"
  else if (n =? 13)%nat then String backslash "r"
  else if (n =? 9)%nat then String backslash "t"
  else if (n <? 32)%nat || Ascii.eqb a "<" || Ascii.eqb a ">" || Ascii.eqb a "&" then
    String backslash ("u00" +:+ String (hex_lower (n / 16)) (String (hex_lower (n mod 16)) ""))
  else String a "".

Fixpoint escape (s : string) : string :=
  match s with
  | "" => ""
  | String a s' => escape_byte a +:+ escape s'
  end.

Definition print_string (s : string) : string :=
  String dquote (escape s +:+ String dquote "").

Fixpoint print_json (v : json) : string :=
  match v with
  | JNull => "null"
  | JBool true => "true"
  | JBool false => "false"
  | JNum lit => lit
  | JStr s => print_string s
  | JArr l =>
      "[" +:+ (fix elems (l : list json) : string :=
                 match l with
                 | [] => ""
                 | [x] => print_json x
                 | x :: l' => print_json x +:+ "," +:+ elems l'
                 end) l +:+ "]"
  | JObj l =>
      "{" +:+ (fix members (l : list (string * json)) : string :=
                 match l with
                 | [] => ""
                 | [(k, x)] => print_string k +:+ ":" +:+ print_json x
                 | (k, x) :: l' => print_string k +:+ ":" +:+ print_json x +:+ "," +:+ members l'
                 end) l +:+ "}"
  end.

(** ** Parsing *)

Fixpoint skip_ws (s : string) : string :=
  match s with
  | String a s' =>
      if Ascii.eqb a " " || Ascii.eqb a "009" || Ascii.eqb a "010" || Ascii.eqb a "013"
      then skip_ws s' else s
  | "" => ""
  end.

Definition hex_of (a : ascii) : option nat :=
  let n := nat_of_ascii a in
  (if (48 <=? n) && (n <=? 57) then Some (n - 48)
   else if (97 <=? n) && (n <=? 102) then Some (n - 87)
   else if (65 <=? n) && (n <=? 70) then Some (n - 55)
   else None)%nat.

(** The UTF-8 bytes of a code point of the basic plane; a surrogate becomes
    the replacement character. *)
Definition utf8 (n : nat) : string :=
  let b (k : nat) := ascii_of_nat k in
  (if n <? 128 then String (b n) ""
   else if n <? 2048 then String (b (192 + n / 64)) (String (b (128 + n mod 64)) "")
   else
     let n := if (55296 <=? n) && (n <=? 57343) then 65533 else n in
     String (b (224 + n / 4096)) (String (b (128 + n / 64 mod 64)) (String (b (128 + n mod 64)) "")))%nat.

Definition unescape (c : ascii) : option string :=
  if Ascii.eqb c dquote || Ascii.eqb c backslash || Ascii.eqb c "/" then Some (String c "")
  else if Ascii.eqb c "b" then Some (String "008" "")
  else if Ascii.eqb c "f" then Some (String "012" "")
  else if Ascii.eqb c "n" then Some (String "010" "")
  else if Ascii.eqb c "r" then Some (String "013" "")
  else if Ascii.eqb c "t" then Some (String "009" "")
  else None.

(** The rest of a string literal after its opening quote. *)
Fixpoint parse_chars (s : string) : option (string * string) :=
  match s with
  | "" => None
  | String a s1 =>
      if Ascii.eqb a dquote then Some ("", s1)
      else if Ascii.eqb a backslash then
        match s1 with
        | String c s2 =>
            if Ascii.eqb c "u" then
              match s2 with
              | String h1 (String h2 (String h3 (String h4 s3))) =>
                  match hex_of h1, hex_of h2, hex_of h3, hex_of h4, parse_chars s3 with
                  | Some x1, Some x2, Some x3, Some x4, Some (t, r) =>
                      Some (utf8 (4096 * x1 + 256 * x2 + 16 * x3 + x4)%nat +:+ t, r)
                  | _, _, _, _, _ => None
                  end
              | _ => None
              end
            else
              match unescape c, parse_chars s2 with
              | Some x, Some (t, r) => Some (x +:+ t, r)
              | _, _ => None
              end
        | "" => None
        end
      else if (nat_of_ascii a <? 32)%nat then None
      else match parse_chars s1 with
           | Some (t, r) => Some (String a t, r)
           | None => None
           end
  end.

Fixpoint take_digits (s : string) : string * string :=
  match s with
  | String a s' =>
      if is_digit a then let '(d, r) := take_digits s' in (String a d, r) else ("", s)
  | "" => ("", "")
  end.

(** A number literal: integer part without leading zeros, then an optional
    fraction and an optional exponent. *)
Definition parse_number (s : string) : option (string * string) :=
  let '(sign, s1) := match s with String "-" r => ("-", r) | _ => ("", s) end in
  let '(int, s2) := take_digits s1 in
  let ok := match int with
            | "" => false
            | String "0" (String _ _) => false
            | _ => true
            end in
  if negb ok then None
  else
    let frac := match s2 with
                | String "." r => match take_digits r with
                                  | ("", _) => None
                                  | (d, r') => Some ("." +:+ d, r')
                                  end
                | _ => Some ("", s2)
                end in
    match frac with
    | None => None
    | Some (f, s3) =>
        let exp (e : ascii) (r : string) :=
          let '(sg, r1) := match r with
                           | String "+" r' => ("+", r')
                           | String "-" r' => ("-", r')
                           | _ => ("", r)
                           end in
          match take_digits r1 with
          | ("", _) => None
          | (d, r2) => Some (sign +:+ int +:+ f +:+ String e (sg +:+ d), r2)
          end in
        match s3 with
        | String "e" r => exp "e"%char r
        | String "E" r => exp "E"%char r
        | _ => Some (sign +:+ int +:+ f, s3)
        end
    end.

Definition strip (p s : string) : option string :=
  if String.prefix p s then Some (drop_string (String.length p) s) else None.

(** One value, one run of array elements, one run of object members. *)
Fixpoint parse_value (fuel : nat) (s : string) : option (json * string) :=
  match fuel with
  | O => None
  | S n =>
      match skip_ws s with
      | "" => None
      | String a r as s0 =>
          if Ascii.eqb a "{" then
            match skip_ws r with
            | String "}" r' => Some (JObj [], r')
            | _ => match parse_members n r with
                   | Some (l, r') => Some (JObj l, r')
                   | None => None
                   end
            end
          else if Ascii.eqb a "[" then
            match skip_ws r with
            | String "]" r' => Some (JArr [], r')
            | _ => match parse_elems n r with
                   | Some (l, r') => Some (JArr l, r')
                   | None => None
                   end
            end
          else if Ascii.eqb a dquote then
            match parse_chars r with
            | Some (t, r') => Some (JStr t, r')
            | None => None
            end
          else if Ascii.eqb a "t" then
            match strip "true" s0 with Some r' => Some (JBool true, r') | None => None end
          else if Ascii.eqb a "f" then
            match strip "false" s0 with Some r' => Some (JBool false, r') | None => None end
          else if Ascii.eqb a "n" then
            match strip "null" s0 with Some r' => Some (JNull, r') | None => None end
          else
            match parse_number s0 with
            | Some (lit, r') => Some (JNum lit, r')
            | None => None
            end
      end
  end
with parse_elems (fuel : nat) (s : string) : option (list json * string) :=
  match fuel with
  | O => None
  | S n =>
      match parse_value n s with
      | None => None
      | Some (v, r) =>
          match skip_ws r with
          | String "," r' =>
              match parse_elems n r' with
              | Some (l, r'') => Some (v :: l, r'')
              | None => None
              end
          | String "]" r' => Some ([v], r')
          | _ => None
          end
      end
  end
with parse_members (fuel : nat) (s : string) : option (list (string * json) * string) :=
  match fuel with
  | O => None
  | S n =>
      match skip_ws s with
      | String q r =>
          if Ascii.eqb q dquote then
            match parse_chars r with
            | None => None
            | Some (k, r1) =>
                match skip_ws r1 with
                | String ":" r2 =>
                    match parse_value n r2 with
                    | None => None
                    | Some (v, r3) =>
                        match skip_ws r3 with
                        | String "," r4 =>
                            match parse_members n r4 with
                            | Some (l, r5) => Some ((k, v) :: l, r5)
                            | None => None
                            end
                        | String "}" r4 => Some ([(k, v)], r4)
                        | _ => None
                        end
                    end
                | _ => None
                end
            end
          else None
      | "" => None
      end
  end.

(** The whole text is one value.  Every call of the parser is followed by a
    byte consumed, so twice the length of the text is enough fuel. *)
Definition parse_json (s : string) : option json :=
  match parse_value (2 * String.length s + 2) s with
  | Some (v, r) => if String.eqb (skip_ws r) "" then Some v else None
  | None => None
  end.

(** ** The round trip *)

(** The bodies of an array and of an object, as functions of their own. *)
Fixpoint print_elems (l : list json) : string :=
  match l with
  | [] => ""
  | [x] => print_json x
  | x :: l' => print_json x +:+ "," +:+ print_elems l'
  end.

Fixpoint print_members (l : list (string * json)) : string :=
  match l with
  | [] => ""
  | [(k, x)] => print_string k +:+ ":" +:+ print_json x
  | (k, x) :: l' => print_string k +:+ ":" +:+ print_json x +:+ "," +:+ print_members l'
  end.

Lemma print_JArr (l : list json) : print_json (JArr l) = "[" +:+ print_elems l +:+ "]".
Proof. reflexivity. Qed.

Lemma print_JObj (l : list (string * json)) :
  print_json (JObj l) = "{" +:+ print_members l +:+ "}".
Proof. reflexivity. Qed.

(** The nesting depth the parser goes through. *)
Fixpoint depth (v : json) : nat :=
  match v with
  | JArr l => S ((fix go (l : list json) : nat :=
                    match l with [] => O | x :: l' => S (max (depth x) (go l')) end) l)
  | JObj l => S ((fix go (l : list (string * json)) : nat :=
                    match l with [] => O | (_, x) :: l' => S (max (depth x) (go l')) end) l)
  | _ => 1%nat
  end.

Fixpoint depth_elems (l : list json) : nat :=
  match l with [] => O | x :: l' => S (max (depth x) (depth_elems l')) end.

Fixpoint depth_members (l : list (string * json)) : nat :=
  match l with [] => O | (_, x) :: l' => S (max (depth x) (depth_members l')) end.

(** Values whose number literals are decimal integers, as Go prints them. *)
Definition int_literal (lit : string) : Prop := exists z, 0 <= z /\ lit = FormatUint z.

Fixpoint wf_json (v : json) : Prop :=
  match v with
  | JNum lit => int_literal lit
  | JArr l => (fix go (l : list json) : Prop :=
                 match l with [] => True | x :: l' => wf_json x /\ go l' end) l
  | JObj l => (fix go (l : list (string * json)) : Prop :=
                 match l with [] => True | (_, x) :: l' => wf_json x /\ go l' end) l
  | _ => True
  end.

Fixpoint wf_elems (l : list json) : Prop :=
  match l with [] => True | x :: l' => wf_json x /\ wf_elems l' end.

Fixpoint wf_members (l : list (string * json)) : Prop :=
  match l with [] => True | (_, x) :: l' => wf_json x /\ wf_members l' end.

(** What may follow a number: the end, or a separator. *)
Definition tail_ok (r : string) : bool :=
  match r with
  | "" => true
  | String a _ => Ascii.eqb a "," || Ascii.eqb a "]" || Ascii.eqb a "}"
  end.

Lemma parse_escaped_byte (a : ascii) (t : string) :
  parse_chars (escape_byte a +:+ t) =
  match parse_chars t with Some (x, r) => Some (String a x, r) | None => None end.
Proof. destruct a as [[] [] [] [] [] [] [] []]; reflexivity. Qed.

Lemma parse_chars_escape (s r : string) :
  parse_chars (escape s +:+ String dquote r) = Some (s, r).
Proof.
  induction s as [|a s IH]; [reflexivity|]. cbn [escape].
  rewrite <- append_assoc, parse_escaped_byte, IH. reflexivity.
Qed.

Lemma print_string_app (s r : string) :
  print_string s +:+ r = String dquote (escape s +:+ String dquote r).
Proof. unfold print_string. cbn. by rewrite <- append_assoc. Qed.

Lemma take_digits_app (d r : string) :
  all_digits d = true -> tail_ok r = true -> take_digits (d +:+ r) = (d, r).
Proof.
  intros Hd Hr. induction d as [|a d IH]; cbn in *.
  - destruct r as [|b r]; [done|]. cbn in *.
    destruct b as [[] [] [] [] [] [] [] []]; first [discriminate Hr|reflexivity].
  - bool_to_prop. by rewrite H, IH.
Qed.

(** Go prints no leading zero. *)
Definition no_leading_zero (s : string) : bool :=
  match s with
  | "" => false
  | String "0" (String _ _) => false
  | _ => true
  end.

Lemma FormatUint_no_leading_zero (z : Z) : no_leading_zero (FormatUint z) = true.
Proof.
  unfold FormatUint.
  pose proof (DecimalN.Unsigned.to_of (N.to_uint (Z.to_N z))) as Hn.
  rewrite DecimalN.Unsigned.of_to in Hn.
  destruct (N.to_uint (Z.to_N z)) as [|u|u|u|u|u|u|u|u|u|u] eqn:E; try reflexivity.
  destruct u; try reflexivity; exfalso; revert Hn; clear.
  all: cbn; unfold Decimal.unorm; cbn; try (intros H; discriminate H).
  pose proof (DecimalFacts.nzhead_nonzero u) as Hz.
  destruct (Decimal.nzhead u) as [|v|v|v|v|v|v|v|v|v|v]; intros H; try discriminate H.
  by apply (Hz v).
Qed.

Lemma parse_number_FormatUint (z : Z) (r : string) :
  0 <= z -> tail_ok r = true -> parse_number (FormatUint z +:+ r) = Some (FormatUint z, r).
Proof.
  intros Hz Hr. pose proof (FormatUint_no_leading_zero z) as Hn.
  pose proof (take_digits_app (FormatUint z) r (FormatUint_digits z) Hr) as Ht.
  destruct (FormatUint z) as [|a d] eqn:E; [discriminate Hn|].
  pose proof (FormatUint_digits z) as Hd. rewrite E in Hd. cbn in Hd. bool_to_prop.
  unfold parse_number.
  assert (Hs : match String a d +:+ r with String "-" r0 => ("-", r0) | _ => ("", String a d +:+ r) end
               = ("", String a d +:+ r)).
  { cbn. destruct a as [[] [] [] [] [] [] [] []]; first [discriminate|reflexivity]. }
  rewrite Hs, Ht. unfold no_leading_zero in Hn. rewrite Hn. cbn [negb].
  destruct r as [|b r].
  - cbn. by rewrite append_empty_r.
  - destruct b as [[] [] [] [] [] [] [] []]; first [discriminate Hr|cbn; by rewrite append_empty_r].
Qed.

(** No printed value starts with a space or with a closing bracket. *)
Definition value_start (a : ascii) : bool :=
  negb (Ascii.eqb a " " || Ascii.eqb a "009" || Ascii.eqb a "010" || Ascii.eqb a "013"
        || Ascii.eqb a "]" || Ascii.eqb a "}").

Lemma print_json_start (v : json) :
  wf_json v -> exists a s, print_json v = String a s /\ value_start a = true.
Proof.
  destruct v as [|[]|lit|x|l|l]; intros H; try (do 2 eexists; split; reflexivity).
  destruct H as (z & Hz & ->). cbn.
  pose proof (FormatUint_digits z) as Hd. pose proof (FormatUint_no_leading_zero z) as Hn.
  destruct (FormatUint z) as [|a d]; [discriminate Hn|]. exists a, d. split; [done|].
  cbn in Hd. bool_to_prop.
  destruct a as [[] [] [] [] [] [] [] []]; first [discriminate|reflexivity].
Qed.

Lemma skip_ws_start (a : ascii) (s : string) :
  value_start a = true -> skip_ws (String a s) = String a s.
Proof. destruct a as [[] [] [] [] [] [] [] []]; first [discriminate|reflexivity]. Qed.

Lemma skip_ws_value (v : json) (r : string) :
  wf_json v -> skip_ws (print_json v +:+ r) = print_json v +:+ r.
Proof. intros H. destruct (print_json_start v H) as (a & s & -> & Ha). by apply skip_ws_start. Qed.

Lemma tail_ok_skip (r : string) : tail_ok r = true -> skip_ws r = r.
Proof.
  destruct r as [|a r]; [done|]. intros H.
  destruct a as [[] [] [] [] [] [] [] []]; first [discriminate H|reflexivity].
Qed.

(** A number in value position. *)
Lemma parse_value_num (n : nat) (z : Z) (r : string) :
  0 <= z -> tail_ok r = true ->
  parse_value (S n) (FormatUint z +:+ r) = Some (JNum (FormatUint z), r).
Proof.
  intros Hz Hr. pose proof (parse_number_FormatUint z r Hz Hr) as Hp.
  pose proof (FormatUint_digits z) as Hd. pose proof (FormatUint_no_leading_zero z) as Hn.
  destruct (FormatUint z) as [|a d]; [discriminate Hn|].
  cbn in Hd. bool_to_prop. cbn [String.append] in *. cbn [parse_value].
  rewrite skip_ws_start
    by (destruct a as [[] [] [] [] [] [] [] []]; first [discriminate|reflexivity]).
  rewrite Hp.
  destruct a as [[] [] [] [] [] [] [] []]; first [discriminate|reflexivity].
Qed.

(** The three statements of the simultaneous induction. *)
Definition value_ok (n : nat) : Prop := forall v r,
  (depth v <= n)%nat -> wf_json v -> tail_ok r = true ->
  parse_value n (print_json v +:+ r) = Some (v, r).
Definition elems_ok (n : nat) : Prop := forall l r,
  l <> [] -> (depth_elems l <= n)%nat -> wf_elems l ->
  parse_elems n (print_elems l +:+ "]" +:+ r) = Some (l, r).
Definition members_ok (n : nat) : Prop := forall l r,
  l <> [] -> (depth_members l <= n)%nat -> wf_members l ->
  parse_members n (print_members l +:+ "}" +:+ r) = Some (l, r).

Lemma elems_step (n : nat) : value_ok n -> elems_ok n -> elems_ok (S n).
Proof.
  intros Hv He [|x l] r Hne Hd Hw; [done|]. cbn [wf_elems depth_elems] in *.
  destruct Hw as [Hx Hl].
  assert (Hp : forall t, tail_ok t = true -> parse_value n (print_json x +:+ t) = Some (x, t))
    by (intros; apply Hv; [lia|done|done]).
  destruct l as [|y l].
  - cbn [print_elems parse_elems]. rewrite Hp by done. reflexivity.
  - change (print_elems (x :: y :: l)) with (print_json x +:+ "," +:+ print_elems (y :: l)).
    rewrite <- !append_assoc. cbn [parse_elems]. rewrite Hp by done.
    rewrite (tail_ok_skip ("," +:+ _)) by done.
    change ("," +:+ (print_elems (y :: l) +:+ "]" +:+ r))
      with (String "," (print_elems (y :: l) +:+ "]" +:+ r)).
    cbv iota beta. rewrite (He (y :: l) r); [done|done|lia|done].
Qed.

Lemma members_step (n : nat) : value_ok n -> members_ok n -> members_ok (S n).
Proof.
  intros Hv He [|[k x] l] r Hne Hd Hw; [done|]. cbn [wf_members depth_members] in *.
  destruct Hw as [Hx Hl].
  assert (Hp : forall t, tail_ok t = true -> parse_value n (print_json x +:+ t) = Some (x, t))
    by (intros; apply Hv; [lia|done|done]).
  destruct l as [|y l].
  - cbn [print_members]. rewrite <- !append_assoc, print_string_app. cbn [parse_members].
    rewrite skip_ws_start by done. cbn [Ascii.eqb]. rewrite Ascii.eqb_refl, parse_chars_escape.
    cbn [String.append skip_ws Ascii.eqb Bool.eqb orb]. rewrite Hp by done. reflexivity.
  - change (print_members ((k, x) :: y :: l))
      with (print_string k +:+ ":" +:+ print_json x +:+ "," +:+ print_members (y :: l)).
    rewrite <- !append_assoc, print_string_app. cbn [parse_members].
    rewrite skip_ws_start by done. rewrite Ascii.eqb_refl, parse_chars_escape.
    match goal with |- context [skip_ws (":" +:+ ?t)] =>
      change (skip_ws (":" +:+ t)) with (String ":" t) end.
    cbv iota beta. rewrite Hp by done.
    rewrite (tail_ok_skip ("," +:+ _)) by done.
    change ("," +:+ (print_members (y :: l) +:+ "}" +:+ r))
      with (String "," (print_members (y :: l) +:+ "}" +:+ r)).
    cbv iota beta. rewrite (He (y :: l) r); [done|done|lia|done].
Qed.

Lemma value_step (n : nat) : elems_ok n -> members_ok n -> value_ok (S n).
Proof.
  intros He Hm v r Hd Hw Hr. destruct v as [|[]|lit|x|l|l]; try (destruct r; reflexivity).
  - destruct Hw as (z & Hz & ->). by apply parse_value_num.
  - cbn [print_json]. rewrite print_string_app. cbn [parse_value].
    rewrite skip_ws_start by done. cbn [Ascii.eqb Bool.eqb dquote].
    by rewrite parse_chars_escape.
  - change (S (depth_elems l) <= S n)%nat in Hd. rewrite print_JArr. rewrite <- !append_assoc. cbn [String.append parse_value].
    rewrite skip_ws_start by done. cbn [Ascii.eqb Bool.eqb].
    destruct l as [|x l]; [reflexivity|].
    destruct (print_json_start x (proj1 Hw)) as (a & s & Ea & Ha).
    assert (Es : exists t, print_elems (x :: l) +:+ String "]" r = String a t).
    { destruct l; cbn [print_elems]; rewrite Ea; eexists; reflexivity. }
    destruct Es as [t Es]. pose proof (He (x :: l) r ltac:(done)) as Hp.
    cbn [String.append] in Hp. rewrite Es in Hp |- *. rewrite Hp; [|lia|exact Hw].
    rewrite skip_ws_start by done.
    destruct a as [[] [] [] [] [] [] [] []]; first [discriminate Ha|reflexivity].
  - change (S (depth_members l) <= S n)%nat in Hd. rewrite print_JObj. rewrite <- !append_assoc. cbn [String.append parse_value].
    rewrite skip_ws_start by done. cbn [Ascii.eqb Bool.eqb].
    destruct l as [|[k x] l]; [reflexivity|].
    assert (Es : exists t, print_members ((k, x) :: l) +:+ String "}" r = String dquote t).
    { destruct l; cbn [print_members]; eexists; rewrite <- !append_assoc, print_string_app; done. }
    destruct Es as [t Es]. pose proof (Hm ((k, x) :: l) r ltac:(done)) as Hp.
    cbn [String.append] in Hp. rewrite Es in Hp |- *. rewrite Hp; [|lia|exact Hw].
    rewrite skip_ws_start by done. reflexivity.
Qed.

Lemma parse_print (n : nat) : value_ok n /\ elems_ok n /\ members_ok n.
Proof.
  induction n as [|n (Hv & He & Hm)].
  - repeat split.
    + intros v ? Hd. destruct v; cbn in Hd; lia.
    + intros [|x l] ?? Hd; cbn in Hd; [done|lia].
    + intros [|[k x] l] ?? Hd; cbn in Hd; [done|lia].
  - auto using value_step, elems_step, members_step.
Qed.

(** The text of a value is at least half as long as the value is deep. *)
Lemma length_append (s t : string) : String.length (s +:+ t) = (String.length s + String.length t)%nat.
Proof. induction s; cbn; congruence. Qed.

Definition json_ind' (P : json -> Prop)
  (Hnull : P JNull) (Hbool : forall b, P (JBool b)) (Hnum : forall l, P (JNum l))
  (Hstr : forall s, P (JStr s)) (Harr : forall l, Forall P l -> P (JArr l))
  (Hobj : forall l, Forall (fun kv => P (snd kv)) l -> P (JObj l)) : forall v, P v :=
  fix go v :=
    match v with
    | JNull => Hnull
    | JBool b => Hbool b
    | JNum l => Hnum l
    | JStr s => Hstr s
    | JArr l => Harr l ((fix all l := match l return Forall P l with
                                      | [] => Forall_nil_2 P
                                      | x :: l' => Forall_cons_2 P x l' (go x) (all l')
                                      end) l)
    | JObj l => Hobj l ((fix all l := match l return Forall (fun kv => P (snd kv)) l with
                                      | [] => Forall_nil_2 _
                                      | x :: l' => Forall_cons_2 _ x l' (go (snd x)) (all l')
                                      end) l)
    end.

Definition fits (v : json) : Prop :=
  (depth v <= 2 * String.length (print_json v) /\ 1 <= String.length (print_json v))%nat.

Lemma depth_elems_length (l : list json) :
  Forall fits l -> (depth_elems l <= 2 * String.length (print_elems l) + 1)%nat.
Proof.
  induction 1 as [|x l [Hx H1] Hl IH]; [cbn; lia|]. destruct l as [|y l].
  - cbn [depth_elems print_elems]. lia.
  - change (print_elems (x :: y :: l)) with (print_json x +:+ "," +:+ print_elems (y :: l)).
    rewrite !length_append. cbn [depth_elems String.length] in *. lia.
Qed.

Lemma depth_members_length (l : list (string * json)) :
  Forall (fun kv => fits (snd kv)) l ->
  (depth_members l <= 2 * String.length (print_members l) + 1)%nat.
Proof.
  induction 1 as [|[k x] l [Hx H1] Hl IH]; [cbn; lia|]. destruct l as [|y l].
  - cbn [depth_members print_members]. rewrite !length_append. cbn [snd] in *. lia.
  - change (print_members ((k, x) :: y :: l))
      with (print_string k +:+ ":" +:+ print_json x +:+ "," +:+ print_members (y :: l)).
    rewrite !length_append. cbn [depth_members String.length snd] in *. destruct y. lia.
Qed.

Lemma depth_length (v : json) : wf_json v -> fits v.
Proof.
  induction v as [|b|lit|s|l IH|l IH] using json_ind'; intros Hw.
  - cbn; split; cbn; lia.
  - destruct b; split; cbn; lia.
  - destruct (print_json_start _ Hw) as (a & s & E & _). split; rewrite E; cbn; lia.
  - split; cbn; lia.
  - change (wf_elems l) in Hw.
    assert (H : Forall fits l).
    { induction IH as [|x l Hx Hl IHl]; [done|]. destruct Hw. constructor; auto. }
    pose proof (depth_elems_length l H). unfold fits. rewrite print_JArr, !length_append.
    change (depth (JArr l)) with (S (depth_elems l)). cbn [String.length]. lia.
  - change (wf_members l) in Hw.
    assert (H : Forall (fun kv => fits (snd kv)) l).
    { induction IH as [|[k x] l Hx Hl IHl]; [done|]. destruct Hw. constructor; auto. }
    pose proof (depth_members_length l H). unfold fits. rewrite print_JObj, !length_append.
    change (depth (JObj l)) with (S (depth_members l)). cbn [String.length]. lia.
Qed.

Lemma parse_json_print (v : json) : wf_json v -> parse_json (print_json v) = Some v.
Proof.
  intros Hw. unfold parse_json. rewrite <- (append_empty_r (print_json v)) at 2.
  rewrite (proj1 (parse_print _)); [reflexivity| |done|done].
  destruct (depth_length v Hw). lia.
Qed.

(** ** Structs

    [json.Unmarshal] of a text into a struct: every member of the object goes
    to the field with its name, or else to the first field whose name matches
    without regard to case; members without a field are skipped, [null] leaves
    a field alone, and a value of the wrong kind makes the call return an
    error.  A struct is given by its fields: a name and how a value is stored. *)

Definition lower (a : ascii) : ascii :=
  let n := nat_of_ascii a in
  if (65 <=? n)%nat && (n <=? 90)%nat then ascii_of_nat (n + 32) else a.

Fixpoint EqualFold (s t : string) : bool :=
  match s, t with
  | "", "" => true
  | String a s', String b t' => Ascii.eqb (lower a) (lower b) && EqualFold s' t'
  | _, _ => false
  end.

Section Struct.
Context {S : Type}.

Definition field : Type := string * (json -> S -> option S).

Definition find_field (fields : list field) (key : string) : option (json -> S -> option S) :=
  match List.find (fun f => String.eqb (fst f) key) fields with
  | Some f => Some (snd f)
  | None => option_map snd (List.find (fun f => EqualFold (fst f) key) fields)
  end.

Definition dec_uint64 (set : Z -> S -> S) (v : json) (x : S) : option S :=
  match v with
  | JNull => Some x
  | JNum lit => match ParseUint lit with inl z => Some (set z x) | inr _ => None end
  | _ => None
  end.

Definition dec_int (set : Z -> S -> S) (v : json) (x : S) : option S :=
  match v with
  | JNull => Some x
  | JNum lit => match ParseInt lit with inl z => Some (set z x) | inr _ => None end
  | _ => None
  end.

Definition dec_string (set : string -> S -> S) (v : json) (x : S) : option S :=
  match v with JNull => Some x | JStr s => Some (set s x) | _ => None end.

Definition dec_bool (set : bool -> S -> S) (v : json) (x : S) : option S :=
  match v with JNull => Some x | JBool b => Some (set b x) | _ => None end.

Fixpoint decode_members (fields : list field) (l : list (string * json)) (x : S) : option S :=
  match l with
  | [] => Some x
  | (k, v) :: l' =>
      match find_field fields k with
      | None => decode_members fields l' x
      | Some dec => match dec v x with
                    | Some x' => decode_members fields l' x'
                    | None => None
                    end
      end
  end.

(** [json.Unmarshal(text, &x)] with [x] the zero value of the struct. *)
Definition Unmarshal (fields : list field) (zero : S) (text : string) : option S :=
  match parse_json text with
  | Some JNull => Some zero
  | Some (JObj l) => decode_members fields l zero
  | _ => None
  end.

(** What the struct holds after [json.Unmarshal] when the caller drops the
    error: a text that is not JSON leaves it alone, and a value of the wrong
    kind only its own field. *)
Fixpoint decode_lenient (fields : list field) (l : list (string * json)) (x : S) : S :=
  match l with
  | [] => x
  | (k, v) :: l' =>
      match find_field fields k with
      | None => decode_lenient fields l' x
      | Some dec => decode_lenient fields l' (default x (dec v x))
      end
  end.

Definition Unmarshal_lenient (fields : list field) (zero : S) (text : string) : S :=
  match parse_json text with
  | Some (JObj l) => decode_lenient fields l zero
  | _ => zero
  end.

End Struct.

Definition enc_uint64 (z : Z) : json := JNum (FormatUint z).

Lemma int_literal_uint (z : Z) : 0 <= z -> int_literal (FormatUint z).
Proof. intros. by exists z. Qed.
#[export] Hint Resolve int_literal_uint : moha.
