(* ===== verification/Etcd.v ===== *)
(** * The etcd key-value store and the agent's client of it

    [Module Mvcc] is the state machine of the vendored etcd server that
    the agent's requests reach: [mvcc/kvstore_txn.go] (revisions, puts,
    deletes), [etcdserver/apply.go] (compare, transaction) and
    [lease/lessor.go] (grant, revoke).  A request is applied atomically: raft
    serialises the writes.  [Module Client] is [pkg/etcd/etcd.go], the
    wrapper that puts every key under the root path of the cluster.

    The lemmas give what the components rely on: which keys an operation can
    change, when a comparison holds, that revisions grow, and that the keys
    of a lease disappear together. *)

From stdpp Require Import gmap strings list sorting.
From Stdlib Require Import ZArith Lia Ascii.
From S2P Require Import Prelude GoStrings.

Module Mvcc.

(** ** State *)

(** [mvccpb.KeyValue]; the key is the key of the map. [Lease] is 0 ([NoLease])
    when the key is not attached to a lease. *)
Record KeyValue := mkKV {
  Value : string;
  CreateRevision : Z;
  ModRevision : Z;
  Version : Z;
  Lease : Z
}.

#[global] Instance KeyValue_eq_dec : EqDecision KeyValue.
Proof. solve_decision. Defined.

(** The live keys, the current revision, the TTL of each granted lease, and
    the next identifier the server's generator gives. *)
Record Store := mkStore {
  kvs : gmap string KeyValue;
  currentRev : Z;
  leases : gmap Z Z;
  nextLease : Z
}.

(** ** Requests *)

(** The comparisons the agent makes: [Compare(Value(k), "=", v)] and
    [Compare(CreateRevision(k), "=", n)]. *)
Inductive Cmp :=
| CmpValue (key value : string)
| CmpCreateRevision (key : string) (rev : Z).

(** [OpGet], [OpPut] (with its lease, 0 without [WithLease]), [OpDelete] and
    [OpDelete] with [WithPrefix]. *)
Inductive Op :=
| OpGet (key : string)
| OpPut (key value : string) (lease : Z)
| OpDelete (key : string)
| OpDeletePrefix (key : string).

(** [ResponseRange] holds at most one key for a single-key get. *)
Inductive Response :=
| ResponseRange (kv : option (string * KeyValue))
| ResponsePut
| ResponseDeleteRange (deleted : Z).

Record TxnRequest := mkTxn { Compare : list Cmp; Success : list Op }.

Record TxnResponse := mkTxnResp { Succeeded : bool; Responses : list Response }.

(** ** Applying a request *)

(** [applyCompare] and [compareKV]: a missing key fails a value comparison and
    has revision 0 in a revision comparison. *)
Definition applyCompare (m : gmap string KeyValue) (c : Cmp) : bool :=
  match c with
  | CmpValue k v =>
      match m !! k with
      | None => false
      | Some kv => String.eqb (Value kv) v
      end
  | CmpCreateRevision k r =>
      match m !! k with
      | None => 0 =? r
      | Some kv => CreateRevision kv =? r
      end
  end.

Definition applyCompares (m : gmap string KeyValue) (cs : list Cmp) : bool :=
  forallb (applyCompare m) cs.

(** [storeTxnWrite.put] in a transaction that began at revision [beginRev]. *)
Definition tw_put (beginRev : Z) (k v : string) (lease : Z)
    (m : gmap string KeyValue) : gmap string KeyValue :=
  let rev := beginRev + 1 in
  let '(c, ver) := match m !! k with
                   | Some kv => (CreateRevision kv, Version kv)
                   | None => (rev, 0)
                   end in
  <[k := mkKV v c rev (ver + 1) lease]> m.

(** The keys of a range [key, prefix end): those that start with the prefix. *)
Definition prefix_range (p : string) (m : gmap string KeyValue) : gmap string KeyValue :=
  filter (fun kv => HasPrefix kv.1 p = true) m.

(** [storeTxnWrite.deleteRange] on one key, and on the keys with a prefix. *)
Definition tw_delete (k : string) (m : gmap string KeyValue) : Z * gmap string KeyValue :=
  match m !! k with Some _ => (1, delete k m) | None => (0, m) end.

Definition tw_deletePrefix (p : string) (m : gmap string KeyValue) : Z * gmap string KeyValue :=
  (Z.of_nat (size (prefix_range p m)), filter (fun kv => HasPrefix kv.1 p = false) m).

(** One operation of [applyTxn], with the number of changes it makes. *)
Definition applyOp (beginRev : Z) (op : Op) (m : gmap string KeyValue)
    : Response * Z * gmap string KeyValue :=
  match op with
  | OpGet k => (ResponseRange (match m !! k with Some kv => Some (k, kv) | None => None end), 0, m)
  | OpPut k v l => (ResponsePut, 1, tw_put beginRev k v l m)
  | OpDelete k => let '(n, m') := tw_delete k m in (ResponseDeleteRange n, n, m')
  | OpDeletePrefix p => let '(n, m') := tw_deletePrefix p m in (ResponseDeleteRange n, n, m')
  end.

(** [applyTxn] *)
Fixpoint applyOps (beginRev : Z) (ops : list Op) (m : gmap string KeyValue)
    : list Response * Z * gmap string KeyValue :=
  match ops with
  | [] => ([], 0, m)
  | op :: ops' =>
      let '(r, n, m1) := applyOp beginRev op m in
      let '(rs, n', m2) := applyOps beginRev ops' m1 in
      (r :: rs, n + n', m2)
  end.

(** [checkRequestPut]: a put names an existing lease. *)
Definition checkPut (st : Store) (op : Op) : bool :=
  match op with
  | OpPut _ _ l => (l =? 0) || bool_decide (is_Some (leases st !! l))
  | _ => true
  end.

(** [storeTxnWrite.End]: the revision grows when the transaction changed something. *)
Definition tw_End (st : Store) (changes : Z) (m : gmap string KeyValue) : Store :=
  mkStore m (if changes =? 0 then currentRev st else currentRev st + 1) (leases st) (nextLease st).

(** [applierV3backend.Txn]; the agent's transactions have no [Else] part. *)
Definition Txn (rt : TxnRequest) (st : Store) : result TxnResponse * Store :=
  let path := applyCompares (kvs st) (Compare rt) in
  let ops := if path then Success rt else [] in
  if negb (forallb (checkPut st) ops) then (inr ErrLeaseNotFound, st)
  else
    let '(rs, changes, m) := applyOps (currentRev st) ops (kvs st) in
    (inl (mkTxnResp path rs), tw_End st changes m).

(** [applierV3backend.Put] and [DeleteRange] outside a transaction. *)
Definition Put (k v : string) (lease : Z) (st : Store) : result unit * Store :=
  if negb (checkPut st (OpPut k v lease)) then (inr ErrLeaseNotFound, st)
  else (inl tt, tw_End st 1 (tw_put (currentRev st) k v lease (kvs st))).

Definition DeleteRange (op : Op) (st : Store) : Store :=
  let '(_, n, m) := applyOp (currentRev st) op (kvs st) in tw_End st n m.

(** [EtcdServer.LeaseGrant] with [lessor.Grant]: the generator gives positive
    identifiers that are not in use. *)
Definition MaxLeaseTTL : Z := 9000000000.

Definition Grant (ttl : Z) (st : Store) : result Z * Store :=
  if MaxLeaseTTL <? ttl then (inr (Errorf "too large lease TTL"), st)
  else
    let id := nextLease st in
    (inl id, mkStore (kvs st) (currentRev st) (<[id := ttl]> (leases st)) (id + 1)).

(** [lessor.Renew] of an unexpired lease; an expired one is being revoked and
    answers [ErrLeaseNotFound]. *)
Definition Renew (id : Z) (st : Store) : result Z * Store :=
  match leases st !! id with
  | None => (inr ErrLeaseNotFound, st)
  | Some ttl => (inl ttl, st)
  end.

(** [lessor.Revoke], also run when a lease expires: its keys are deleted in
    one transaction. *)
Definition attached (id : Z) (m : gmap string KeyValue) : gmap string KeyValue :=
  filter (fun kv => Lease kv.2 = id) m.

Definition Revoke (id : Z) (st : Store) : result unit * Store :=
  match leases st !! id with
  | None => (inr ErrLeaseNotFound, st)
  | Some _ =>
      let changes := Z.of_nat (size (attached id (kvs st))) in
      let st1 := tw_End st changes (filter (fun kv => Lease kv.2 <> id) (kvs st)) in
      (inl tt, mkStore (kvs st1) (currentRev st1) (delete id (leases st1)) (nextLease st1))
  end.

(** ** Which keys an operation changes *)

Definition touches (op : Op) (k : string) : bool :=
  match op with
  | OpGet _ => false
  | OpPut k' _ _ | OpDelete k' => String.eqb k' k
  | OpDeletePrefix p => HasPrefix k p
  end.

Lemma tw_put_lookup_ne (b : Z) (k k' v : string) (l : Z) (m : gmap string KeyValue) :
  k <> k' -> tw_put b k v l m !! k' = m !! k'.
Proof. intros. unfold tw_put. by destruct (m !! k); rewrite lookup_insert_ne. Qed.

Lemma tw_put_lookup (b : Z) (k v : string) (l : Z) (m : gmap string KeyValue) :
  exists kv, tw_put b k v l m !! k = Some kv /\ Value kv = v /\ Lease kv = l /\
    ModRevision kv = b + 1 /\
    CreateRevision kv = match m !! k with Some kv0 => CreateRevision kv0 | None => b + 1 end.
Proof. unfold tw_put. destruct (m !! k); rewrite lookup_insert_eq; eauto 8. Qed.

Lemma applyOp_untouched (b : Z) (op : Op) (m : gmap string KeyValue) (k : string) :
  touches op k = false -> (applyOp b op m).2 !! k = m !! k.
Proof.
  destruct op; cbn; intros H; bool_to_prop; [done| | |].
  - by apply tw_put_lookup_ne.
  - unfold tw_delete. destruct (m !! key); cbn; [|done]. by rewrite lookup_delete_ne.
  - apply option_eq. intros kv. rewrite map_lookup_filter_Some. cbn. tauto.
Qed.

Lemma applyOps_untouched (b : Z) (ops : list Op) (m : gmap string KeyValue) (k : string) :
  Forall (fun op => touches op k = false) ops -> (applyOps b ops m).2 !! k = m !! k.
Proof.
  intros H. revert m. induction H as [|op ops Hop _ IH]; intros m; cbn; [done|].
  destruct (applyOp b op m) as [[r n] m1] eqn:E1.
  specialize (IH m1). destruct (applyOps b ops m1) as [[rs n'] m2]. cbn in *.
  rewrite IH. pose proof (applyOp_untouched b op m k Hop) as Hu. by rewrite E1 in Hu.
Qed.

Lemma applyOps_app (b : Z) (l1 l2 : list Op) (m : gmap string KeyValue) :
  (applyOps b (l1 ++ l2) m).2 = (applyOps b l2 (applyOps b l1 m).2).2.
Proof.
  revert m. induction l1 as [|op l1 IH]; intros m; cbn; [done|].
  destruct (applyOp b op m) as [[r n] m1]. specialize (IH m1).
  destruct (applyOps b (l1 ++ l2) m1) as [[? ?] ?].
  by destruct (applyOps b l1 m1) as [[? ?] ?].
Qed.

(** A key that one put of the list writes, and no later operation touches. *)
Lemma applyOps_put (b : Z) (l1 l2 : list Op) (k v : string) (l : Z) (m : gmap string KeyValue) :
  Forall (fun op => touches op k = false) l2 ->
  exists kv, (applyOps b (l1 ++ OpPut k v l :: l2) m).2 !! k = Some kv /\
    Value kv = v /\ Lease kv = l /\ ModRevision kv = b + 1.
Proof.
  intros H. rewrite applyOps_app. set (m1 := (applyOps b l1 m).2).
  pose proof (applyOps_untouched b l2 (tw_put b k v l m1) k H) as Hu.
  destruct (tw_put_lookup b k v l m1) as (kv & Hkv & ? & ? & ? & ?).
  exists kv. cbn. destruct (applyOps b l2 (tw_put b k v l m1)) as [[? ?] m2].
  cbn in *. rewrite Hu. auto.
Qed.

Definition put_key (op : Op) : option string :=
  match op with OpPut k _ _ => Some k | _ => None end.

(** A list of puts with distinct keys writes every one of them. *)
Lemma applyOps_puts (b : Z) (ops : list Op) (k v : string) (l : Z) (m : gmap string KeyValue) :
  Forall (fun op => is_Some (put_key op)) ops -> NoDup (map put_key ops) ->
  OpPut k v l ∈ ops ->
  exists kv, (applyOps b ops m).2 !! k = Some kv /\ Value kv = v /\ Lease kv = l /\
    ModRevision kv = b + 1.
Proof.
  intros Hp Hnd (l1 & l2 & ->)%list_elem_of_split. apply applyOps_put.
  rewrite map_app in Hnd. apply NoDup_app in Hnd as (_ & _ & Hnd).
  cbn in Hnd. apply NoDup_cons in Hnd as [Hnotin _].
  apply Forall_app in Hp as [_ Hp]. apply Forall_cons in Hp as [_ Hp].
  apply Forall_forall. intros op Hop. rewrite Forall_forall in Hp.
  destruct (Hp op Hop) as [k' Hk']. destruct op; try done. cbn in *.
  apply String.eqb_neq. intros ->. apply Hnotin.
  apply list_elem_of_fmap. by exists (OpPut k value lease).
Qed.

(** Gets read the map and leave it alone. *)
Definition range_of (m : gmap string KeyValue) (k : string) : Response :=
  ResponseRange (match m !! k with Some kv => Some (k, kv) | None => None end).

Lemma applyOps_gets (b : Z) (ks : list string) (m : gmap string KeyValue) :
  applyOps b (map OpGet ks) m = (map (range_of m) ks, 0, m).
Proof. induction ks as [|k ks IH]; cbn; [done|]. by rewrite IH. Qed.

Lemma Txn_gets (ks : list string) (st : Store) :
  Txn (mkTxn [] (map OpGet ks)) st = (inl (mkTxnResp true (map (range_of (kvs st)) ks)), st).
Proof.
  unfold Txn. cbn. replace (forallb _ _) with true.
  - cbn. rewrite applyOps_gets. cbn. by destruct st.
  - symmetry. induction ks; cbn; auto.
Qed.

(** ** Well-formed stores *)

Definition kv_wf (st : Store) (kv : KeyValue) : Prop :=
  1 <= CreateRevision kv <= ModRevision kv /\ ModRevision kv <= currentRev st /\
  1 <= Version kv /\ (Lease kv = 0 \/ is_Some (leases st !! Lease kv)).

Definition store_wf (st : Store) : Prop :=
  0 <= currentRev st /\ 1 <= nextLease st /\
  (forall k kv, kvs st !! k = Some kv -> kv_wf st kv) /\
  (forall id ttl, leases st !! id = Some ttl -> 1 <= id < nextLease st).

(** The same condition on a map, with the revision and the leases beside it. *)
Definition map_wf (rev : Z) (ls : gmap Z Z) (m : gmap string KeyValue) : Prop :=
  forall k kv, m !! k = Some kv -> kv_wf (mkStore m rev ls 0) kv.

Lemma applyOp_wf (b : Z) (ls : gmap Z Z) (op : Op) (m : gmap string KeyValue) :
  0 <= b -> map_wf (b + 1) ls m ->
  match op with OpPut _ _ l => l = 0 \/ is_Some (ls !! l) | _ => True end ->
  map_wf (b + 1) ls (applyOp b op m).2.
Proof.
  intros Hb Hm Hl k kv. destruct op; cbn; intros Hk.
  - by apply Hm in Hk.
  - unfold tw_put in Hk. destruct (m !! key) as [kv0|] eqn:E.
    + apply lookup_insert_Some in Hk as [[<- <-]|[_ Hk]]; [|by apply Hm in Hk].
      destruct (Hm _ _ E) as (? & ? & ? & ?). repeat split; cbn in *; auto; lia.
    + apply lookup_insert_Some in Hk as [[<- <-]|[_ Hk]]; [|by apply Hm in Hk].
      repeat split; cbn in *; auto; lia.
  - unfold tw_delete in Hk. destruct (m !! key); cbn in Hk; [|by apply Hm in Hk].
    apply lookup_delete_Some in Hk as [_ Hk]. by apply Hm in Hk.
  - apply map_lookup_filter_Some in Hk as [Hk _]. by apply Hm in Hk.
Qed.

Lemma applyOps_wf (b : Z) (ls : gmap Z Z) (ops : list Op) (m : gmap string KeyValue) :
  0 <= b -> map_wf (b + 1) ls m ->
  Forall (fun op => match op with OpPut _ _ l => l = 0 \/ is_Some (ls !! l) | _ => True end) ops ->
  map_wf (b + 1) ls (applyOps b ops m).2.
Proof.
  intros Hb Hm Hops. revert m Hm. induction Hops as [|op ops Hop _ IH]; intros m Hm; cbn; [done|].
  pose proof (applyOp_wf b ls op m Hb Hm Hop) as H1.
  destruct (applyOp b op m) as [[r n] m1]. specialize (IH m1 H1).
  by destruct (applyOps b ops m1) as [[? ?] ?].
Qed.

(** No change means the same keys. *)
Lemma applyOps_changes (b : Z) (ops : list Op) (m : gmap string KeyValue) :
  0 <= (applyOps b ops m).1.2 /\
  ((applyOps b ops m).1.2 = 0 -> (applyOps b ops m).2 = m).
Proof.
  revert m. induction ops as [|op ops IH]; intros m; cbn; [done|].
  assert (0 <= (applyOp b op m).1.2 /\ ((applyOp b op m).1.2 = 0 -> (applyOp b op m).2 = m)) as H1.
  { destruct op; cbn; [done|lia|unfold tw_delete; destruct (m !! key); cbn; [lia|done]|].
    split; [lia|]. intros H0. apply map_filter_id. intros k x Hx. cbn.
    destruct (HasPrefix k key) eqn:E; [|done].
    assert (prefix_range key m = ∅) as He by (apply map_size_empty_iff; lia).
    exfalso. eapply (map_filter_empty_not_lookup (fun kv => HasPrefix kv.1 key = true) m k x); eauto. }
  destruct (applyOp b op m) as [[r n] m1]. specialize (IH m1).
  destruct (applyOps b ops m1) as [[? ?] ?]. cbn in *.
  split; [lia|]. intros H0. destruct H1 as [? H1], IH as [? IH]. rewrite IH by lia. apply H1. lia.
Qed.

Lemma tw_End_wf (st : Store) (n : Z) (m : gmap string KeyValue) :
  store_wf st -> 0 <= n -> (n = 0 -> m = kvs st) ->
  map_wf (currentRev st + 1) (leases st) m -> store_wf (tw_End st n m).
Proof.
  intros (Hr & Hn & Hk & Hl) Hpos H0 Hm. unfold tw_End.
  destruct (n =? 0) eqn:E; bool_to_prop.
  - rewrite (H0 E). split_and!; cbn; auto.
  - split_and!; cbn; auto; lia.
Qed.

Lemma map_wf_store (st : Store) :
  store_wf st -> map_wf (currentRev st + 1) (leases st) (kvs st).
Proof.
  intros (Hr & Hn & Hk & Hl) k kv H. destruct (Hk k kv H) as (? & ? & ? & ?).
  repeat split; cbn; auto; lia.
Qed.

Lemma checkPut_spec (st : Store) (ops : list Op) :
  forallb (checkPut st) ops = true ->
  Forall (fun op => match op with
                    | OpPut _ _ l => l = 0 \/ is_Some (leases st !! l)
                    | _ => True end) ops.
Proof.
  intros H. apply Forall_forall. intros op Hop.
  rewrite forallb_forall in H. specialize (H op). rewrite <- list_elem_of_In in H.
  specialize (H Hop). destruct op; try done. cbn in H.
  apply orb_true_iff in H as [H|H]; bool_to_prop; auto.
Qed.

Lemma Txn_wf (rt : TxnRequest) (st : Store) : store_wf st -> store_wf (Txn rt st).2.
Proof.
  intros Hst. unfold Txn.
  destruct (forallb (checkPut st) _) eqn:E; cbn; [|done].
  apply checkPut_spec in E.
  match goal with |- context [applyOps _ ?o _] => set (ops := o) in *; clearbody ops end.
  pose proof (applyOps_changes (currentRev st) ops (kvs st)) as [Hn H0].
  pose proof (applyOps_wf (currentRev st) (leases st) ops (kvs st)
                (proj1 Hst) (map_wf_store st Hst) E) as Hm.
  destruct (applyOps _ ops _) as [[rs n] m]. cbn in *. by apply tw_End_wf.
Qed.

Lemma Put_wf (k v : string) (l : Z) (st : Store) : store_wf st -> store_wf (Put k v l st).2.
Proof.
  intros Hst. unfold Put. destruct (checkPut st (OpPut k v l)) eqn:E; cbn [negb snd]; [|done].
  apply tw_End_wf; [done|lia|done|].
  apply (applyOp_wf _ _ (OpPut k v l)); [apply Hst|by apply map_wf_store|].
  cbn in E. apply orb_true_iff in E as [E|E]; bool_to_prop; auto.
Qed.

Lemma DeleteRange_wf (op : Op) (st : Store) :
  match op with OpPut _ _ _ => False | _ => True end ->
  store_wf st -> store_wf (DeleteRange op st).
Proof.
  intros Hop Hst. unfold DeleteRange.
  pose proof (applyOps_changes (currentRev st) [op] (kvs st)) as [Hn H0].
  pose proof (applyOp_wf (currentRev st) (leases st) op (kvs st)
                (proj1 Hst) (map_wf_store st Hst)) as Hm.
  cbn in Hn, H0. destruct (applyOp _ op _) as [[r n] m]. cbn in *.
  rewrite Z.add_0_r in Hn, H0.
  apply tw_End_wf; auto. apply Hm. by destruct op.
Qed.

Lemma Grant_wf (ttl : Z) (st : Store) : store_wf st -> store_wf (Grant ttl st).2.
Proof.
  intros (Hr & Hn & Hk & Hl). unfold Grant. destruct (MaxLeaseTTL <? ttl); cbn; [done|].
  split_and!; cbn; [done|lia| |].
  - intros k kv H. destruct (Hk k kv H) as (? & ? & ? & Hlease).
    repeat split; cbn; auto; [lia..|]. destruct Hlease as [|Hs]; [auto|right].
    rewrite lookup_insert. by case_decide.
  - intros id t H. apply lookup_insert_Some in H as [[<- _]|[_ H]]; [lia|].
    specialize (Hl id t H). lia.
Qed.

Lemma Revoke_wf (id : Z) (st : Store) : store_wf st -> store_wf (Revoke id st).2.
Proof.
  intros Hst. unfold Revoke. destruct (leases st !! id) eqn:E; cbn; [|done].
  destruct Hst as (Hr & Hn & Hk & Hl).
  split_and!; cbn; [case_match; lia|done| |].
  - intros k kv H. apply map_lookup_filter_Some in H as [H Hne]. cbn in Hne.
    destruct (Hk k kv H) as (? & ? & ? & Hlease).
    repeat split; cbn; auto; [lia|lia|case_match; lia|].
    destruct Hlease as [|Hs]; [auto|right]. by rewrite lookup_delete_ne.
  - intros i t H. apply lookup_delete_Some in H as [_ H]. eauto.
Qed.

(** In a well-formed store, "the create revision is 0" says that the key is
    absent: the test every campaign makes. *)
Lemma create_revision_zero (st : Store) (k : string) :
  store_wf st -> applyCompare (kvs st) (CmpCreateRevision k 0) = true <-> kvs st !! k = None.
Proof.
  intros (_ & _ & Hk & _). cbn. destruct (kvs st !! k) as [kv|] eqn:E; [|done].
  destruct (Hk k kv E) as (? & _). split; [|done]. intros H0. bool_to_prop. lia.
Qed.

(** A transaction whose comparison fails reads and writes nothing. *)
Lemma Txn_failed (rt : TxnRequest) (st : Store) :
  applyCompares (kvs st) (Compare rt) = false ->
  Txn rt st = (inl (mkTxnResp false []), st).
Proof. intros H. unfold Txn. rewrite H. cbn. by destruct st. Qed.

Lemma Txn_succeeded (rt : TxnRequest) (st : Store) :
  applyCompares (kvs st) (Compare rt) = true ->
  forallb (checkPut st) (Success rt) = true ->
  (Txn rt st).1 = inl (mkTxnResp true (applyOps (currentRev st) (Success rt) (kvs st)).1.1) /\
  kvs (Txn rt st).2 = (applyOps (currentRev st) (Success rt) (kvs st)).2 /\
  leases (Txn rt st).2 = leases st /\ nextLease (Txn rt st).2 = nextLease st.
Proof.
  intros H1 H2. unfold Txn. rewrite H1, H2. cbn.
  by destruct (applyOps _ _ _) as [[? ?] ?].
Qed.

(** The two answers of a transaction and what they say. *)
Lemma Txn_true (rt : TxnRequest) (st st' : Store) (rs : list Response) :
  Txn rt st = (inl (mkTxnResp true rs), st') ->
  applyCompares (kvs st) (Compare rt) = true /\ forallb (checkPut st) (Success rt) = true.
Proof.
  unfold Txn. destruct (applyCompares (kvs st) (Compare rt)); intros E.
  - destruct (forallb (checkPut st) (Success rt)); [done|discriminate E].
  - cbn in E. discriminate E.
Qed.

Lemma Txn_false (rt : TxnRequest) (st st' : Store) (rs : list Response) :
  Txn rt st = (inl (mkTxnResp false rs), st') ->
  applyCompares (kvs st) (Compare rt) = false /\ st' = st.
Proof.
  intros E. destruct (applyCompares (kvs st) (Compare rt)) eqn:Hc.
  - unfold Txn in E. rewrite Hc in E. destruct (forallb _ _); [|discriminate E]. cbn in E.
    destruct (applyOps _ _ _) as [[? ?] ?]. discriminate E.
  - rewrite (Txn_failed rt st Hc) in E. by injection E as _ ->.
Qed.

(** Transactions, puts and deletes leave the leases alone. *)
Lemma Txn_leases (rt : TxnRequest) (st : Store) :
  leases (Txn rt st).2 = leases st /\ nextLease (Txn rt st).2 = nextLease st.
Proof.
  unfold Txn. destruct (negb _); [done|]. by destruct (applyOps _ _ _) as [[? ?] ?].
Qed.

Lemma Put_leases (k v : string) (l : Z) (st : Store) :
  leases (Put k v l st).2 = leases st /\ nextLease (Put k v l st).2 = nextLease st.
Proof. unfold Put. by destruct (negb _). Qed.

Lemma DeleteRange_leases (op : Op) (st : Store) :
  leases (DeleteRange op st) = leases st /\ nextLease (DeleteRange op st) = nextLease st.
Proof. unfold DeleteRange. by destruct (applyOp _ _ _) as [[? ?] ?]. Qed.

(** The expiry of a lease deletes its keys and no others. *)
Lemma Revoke_lookup (id : Z) (st : Store) (k : string) :
  is_Some (leases st !! id) ->
  kvs (Revoke id st).2 !! k =
  match kvs st !! k with
  | Some kv => if Lease kv =? id then None else Some kv
  | None => None
  end.
Proof.
  intros [ttl E]. unfold Revoke. rewrite E. cbn.
  apply option_eq. intros kv. rewrite map_lookup_filter_Some. cbn.
  destruct (kvs st !! k) as [kv'|]; [|naive_solver].
  destruct (Lease kv' =? id) eqn:E2; bool_to_prop; naive_solver.
Qed.

(** ** Ranges in order *)

(** The keys of a range request come in ascending order. *)
Definition key_le (a b : string * KeyValue) : Prop := String.leb a.1 b.1 = true.
#[global] Instance key_le_dec : RelDecision key_le.
Proof. intros a b. unfold key_le. apply _. Defined.

Definition range_prefix (p : string) (m : gmap string KeyValue) : list (string * KeyValue) :=
  merge_sort key_le (map_to_list (prefix_range p m)).

Lemma range_prefix_perm (p : string) (m : gmap string KeyValue) :
  Permutation (range_prefix p m) (map_to_list (prefix_range p m)).
Proof. apply merge_sort_Permutation. Qed.

End Mvcc.

#[export] Hint Resolve Mvcc.Txn_wf Mvcc.Put_wf Mvcc.Grant_wf Mvcc.Revoke_wf : moha.

(** * The client wrapper, [pkg/etcd/etcd.go] *)

Module Client.
Import Mvcc.

(** [keyWithPrefix] and [Client.KeyWithRootPath]; a client is its root path. *)
Definition keyWithPrefix (prefix key : string) : string := path_Join [prefix; key].

Definition KeyWithRootPath (rootPath key : string) : string := keyWithPrefix rootPath key.

(** The prefix [PrefixGet] and [MultiGet] take off the keys of the answer. *)
Definition trim_root (rootPath k : string) : string :=
  let prefix := if HasSuffix rootPath "/" then rootPath else rootPath +:+ "/" in
  TrimPrefix k prefix.

(** [Client.Put], with [WithLease] when [lease] is not 0. *)
Definition Put (rootPath k val : string) (lease : Z) (st : Store) : result unit * Store :=
  Mvcc.Put (KeyWithRootPath rootPath k) val lease st.

(** [Client.Get] *)
Definition Get (rootPath key : string) (st : Store) : result (string * KeyValue) :=
  match kvs st !! KeyWithRootPath rootPath key with
  | None => inr NotFoundf
  | Some kv => inl (Value kv, kv)
  end.

(** [Client.PrefixGet]: the keys that start with the prefix, relative to the root. *)
Definition PrefixGet (rootPath prefix : string) (st : Store) : gmap string string :=
  let key := KeyWithRootPath rootPath prefix in
  list_to_map (map (fun '(k, kv) => (trim_root rootPath k, Value kv))
                   (map_to_list (prefix_range key (kvs st)))).

(** [Client.MultiGet] *)
Definition MultiGet (rootPath : string) (keys : list string) (st : Store) : gmap string string :=
  foldl (fun values k =>
           let key := KeyWithRootPath rootPath k in
           match kvs st !! key with
           | None => values
           | Some kv => <[trim_root rootPath key := Value kv]> values
           end) ∅ keys.

(** [Client.Delete] *)
Definition Delete (rootPath key : string) (withPrefixMatch : bool) (st : Store) : Store :=
  let key := KeyWithRootPath rootPath key in
  DeleteRange (if withPrefixMatch then OpDeletePrefix key else OpDelete key) st.

(** A delete leaves every key alone that it does not name. *)
Lemma DeleteRange_untouched (op : Op) (st : Store) (k : string) :
  touches op k = false -> kvs (DeleteRange op st) !! k = kvs st !! k.
Proof.
  intros H. unfold DeleteRange. pose proof (applyOp_untouched (currentRev st) op (kvs st) k H) as E.
  by destruct (applyOp (currentRev st) op (kvs st)) as [[? ?] ?].
Qed.

Lemma Put_untouched (k k' v : string) (l : Z) (st : Store) :
  k <> k' -> kvs (Mvcc.Put k v l st).2 !! k' = kvs st !! k'.
Proof.
  intros Hne. unfold Mvcc.Put. destruct (checkPut st (OpPut k v l)); cbn [negb snd]; [|done].
  by apply tw_put_lookup_ne.
Qed.

(** ** Keys *)

(** A client key made of ordinary path elements. *)
Definition elems_key (l : list string) : string := Join l "/".

Lemma KeyWithRootPath_inj (root : string) (l1 l2 : list string) :
  l1 <> [] -> l2 <> [] ->
  Forall (fun e => plain_elem e = true) l1 -> Forall (fun e => plain_elem e = true) l2 ->
  KeyWithRootPath root (elems_key l1) = KeyWithRootPath root (elems_key l2) -> l1 = l2.
Proof. apply path_Join_inj. Qed.

End Client.
