(* ===== verification/DirTree.v ===== *)
(** * The directory tree of [Client.List] in [pkg/etcd/etcd.go]

    [List] reads the keys below a directory and hangs their values into a trie
    of path elements.  Go's tree is linked by pointers and [parseToDirTree]
    returns the leaf for [List] to write; the tree has no sharing (every child
    is allocated where it is linked), so it is a value here and the write is
    passed down as [upd].  The theorem: the tree is the store, read by path. *)

From stdpp Require Import gmap strings list.
From Stdlib Require Import ZArith Lia Ascii.
From S2P Require Import Prelude GoStrings Etcd.
Import Mvcc Client.

Module DirTree.

(** [Node]; a nil [Children] map reads as an empty one. *)
Inductive Node := mkNode { Value : string; Children : gmap string Node }.

(** [new(Node)] *)
Definition new_Node : Node := mkNode "" ∅.

(** The walk of [parseToDirTree] along the path elements. *)
Fixpoint walk (pathDirs : list string) (upd : Node -> Node) (current : Node) : Node :=
  match pathDirs with
  | [] => upd current
  | dir :: rest =>
      let next := default new_Node (Children current !! dir) in
      mkNode (Value current) (<[dir := walk rest upd next]> (Children current))
  end.

Definition parseToDirTree (root : Node) (path : string) (upd : Node -> Node) : Node :=
  walk (Split "/" path) upd root.

(** [leafNode.Value = kv.Value] *)
Definition set_Value (v : string) (n : Node) : Node := mkNode v (Children n).

(** [key[length:]] *)
Definition suffix (length : nat) (key : string) : string :=
  String.substring length (String.length key - length) key.

(** The loop of [List]. *)
Definition hang (length : nat) (root : Node) (kv : string * KeyValue) : Node :=
  if (String.length kv.1 <=? length)%nat then root
  else parseToDirTree root (suffix length kv.1) (set_Value (Mvcc.Value kv.2)).

(** The directory whose keys [List] reads. *)
Definition list_dir (rootPath key : string) : string :=
  let key := KeyWithRootPath rootPath key in
  if HasSuffix key "/" then key else key +:+ "/".

(** [Client.List], on an answered read. *)
Definition List (rootPath key : string) (st : Store) : Node :=
  let key := list_dir rootPath key in
  foldl (hang (String.length key)) new_Node (range_prefix key (kvs st)).

(** Reading the tree by path elements. *)
Fixpoint find (pathDirs : list string) (n : Node) : string :=
  match pathDirs with
  | [] => Value n
  | dir :: rest => find rest (default new_Node (Children n !! dir))
  end.

(** ** Theorems *)

Lemma find_new (p : list string) : find p new_Node = "".
Proof. induction p as [|d p IH]; cbn; [done|]. by rewrite lookup_empty. Qed.

Lemma find_walk (p q : list string) (v : string) (n : Node) :
  find q (walk p (set_Value v) n) = if decide (p = q) then v else find q n.
Proof.
  revert q n. induction p as [|d p IH]; intros q n; cbn [walk].
  - destruct q; cbn [find]; [by rewrite decide_True|]. by rewrite decide_False.
  - destruct q as [|e q]; cbn [find Children Value]; [by rewrite decide_False|].
    rewrite lookup_insert. case_decide as Hd.
    + subst e. cbn [from_option id]. rewrite IH.
      destruct (decide (p = q)) as [-> | Hne]; [by rewrite decide_True|].
      rewrite decide_False by congruence. done.
    + rewrite decide_False by congruence. done.
Qed.

Lemma Split_inj (c : ascii) (s t : string) : Split c s = Split c t -> s = t.
Proof. intros E. rewrite <- (Join_Split c s), <- (Join_Split c t). by rewrite E. Qed.

Lemma length_string_app (p s : string) :
  String.length (p +:+ s) = (String.length p + String.length s)%nat.
Proof. induction p as [|a p IH]; cbn; [done|by rewrite IH]. Qed.

Lemma substring_app (p s : string) :
  String.substring (String.length p) (String.length (p +:+ s) - String.length p) (p +:+ s) = s.
Proof.
  rewrite length_string_app. replace (_ + _ - _)%nat with (String.length s) by lia.
  induction p as [|a p IH]; cbn; [|done]. induction s as [|b s IHs]; cbn; [done|by rewrite IHs].
Qed.

Lemma suffix_app (p s : string) : suffix (String.length p) (p +:+ s) = s.
Proof. apply substring_app. Qed.

Lemma hang_find (dir s : string) (n : Node) (kv : string * KeyValue) :
  s <> "" -> String.prefix dir kv.1 = true ->
  find (Split "/" s) (hang (String.length dir) n kv) =
  if decide (kv.1 = dir +:+ s) then Mvcc.Value kv.2 else find (Split "/" s) n.
Proof.
  intros Hs (r & Hk)%prefix_spec. unfold hang. rewrite Hk, length_string_app.
  destruct (decide (r = "")) as [-> | Hr].
  { rewrite (proj2 (Nat.leb_le _ _)) by (cbn; lia). rewrite decide_False; [done|].
    intros Heq. by simplify_eq. }
  rewrite (proj2 (Nat.leb_gt _ _)) by (destruct r; [done|cbn; lia]).
  unfold parseToDirTree. rewrite suffix_app, find_walk.
  destruct (decide (r = s)) as [-> | Hne]; [by rewrite !decide_True|].
  rewrite !decide_False; [done|intros Heq; by simplify_eq|intros ?%Split_inj; done].
Qed.

Lemma foldl_hang (dir s : string) (l : list (string * KeyValue)) (n : Node) :
  s <> "" -> Forall (fun kv => String.prefix dir kv.1 = true) l -> NoDup l.*1 ->
  find (Split "/" s) (foldl (hang (String.length dir)) n l) =
  match (list_to_map l : gmap string KeyValue) !! (dir +:+ s) with
  | Some kv => Mvcc.Value kv
  | None => find (Split "/" s) n
  end.
Proof.
  intros Hs. revert n. induction l as [|[k kv] l IH]; intros n Hp Hnd; cbn; [by rewrite lookup_empty|].
  apply Forall_cons in Hp as [Hk Hp]. apply NoDup_cons in Hnd as [Hni Hnd].
  rewrite IH, hang_find by done. rewrite lookup_insert. cbn [fst snd].
  case_decide; [|done]. subst k. by rewrite (not_elem_of_list_to_map_1 _ _ Hni).
Qed.

(** The tree of [List] is the store, read by path: below the directory, the
    node at the elements of a relative path holds the value of that key, and
    nothing where there is no such key. *)
Theorem List_reads_store (rootPath key s : string) (st : Store) :
  s <> "" ->
  find (Split "/" s) (List rootPath key st) =
  match kvs st !! (list_dir rootPath key +:+ s) with
  | Some kv => Mvcc.Value kv
  | None => ""
  end.
Proof.
  intros Hs. unfold List. pose proof (range_prefix_perm (list_dir rootPath key) (kvs st)) as Hperm.
  assert (NoDup (range_prefix (list_dir rootPath key) (kvs st)).*1) as Hnd.
  { rewrite Hperm. apply NoDup_fst_map_to_list. }
  rewrite foldl_hang; [|done| |done].
  - rewrite find_new. rewrite (list_to_map_proper _ _ Hnd Hperm), list_to_map_to_list.
    unfold prefix_range. rewrite map_lookup_filter.
    destruct (kvs st !! _) as [kv|]; cbn; [|done]. rewrite option_guard_True; [done|].
    apply prefix_spec. by exists s.
  - apply Forall_forall. intros [k kv]. rewrite Hperm, elem_of_map_to_list.
    intros [_ Hp]%map_lookup_filter_Some. done.
Qed.

Lemma List_reads_store_witness :
  find ["a"; "b"] (List "/root" "x" (mkStore {["/root/x/a/b" := mkKV "v" 1 1 1 0]} 2 ∅ 1)) = "v".
Proof. exact (List_reads_store "/root" "x" "a/b" _ ltac:(discriminate)). Defined.

End DirTree.
