(* ===== verification/World.v ===== *)
(** * The world an agent runs in

    The agent is a Go process that shares memory between its goroutines,
    calls etcd and a database service, sleeps, and can exit or panic.  A
    function of the agent is a computation [M D A]: it takes the world and
    returns an outcome and the new world.  The world holds

    - the memory of the process: the fields of [agent.Server] and the
      package variable [latestPos];
    - the etcd store, shared with the other agents of the cluster;
    - the database service behind the [ServiceManager], of any type [D];
    - the clock, in nanoseconds;
    - the oracle, which says for each call to etcd what the rest of the world
      does to the store before it, how long the call takes, whether the answer
      comes back, and whether an HTTP request is being served; when the oracle
      is exhausted calls are undisturbed;
    - the trace of the effects, newest first.

    Theorems quantify over the oracle, so they hold for every interleaving
    with the other agents at the granularity of etcd requests and for every
    pattern of lost and refused requests. *)

From stdpp Require Import gmap strings list.
From Stdlib Require Import ZArith Lia.
From S2P Require Import Prelude GoStrings Etcd.
Import Mvcc.

(** ** Data of the agent *)

(** A Go channel used as a stop signal; closing a nil or closed one panics. *)
Inductive chan := ChNil | ChOpen | ChClosed.

(** [agent.Position], the binlog position of the service. *)
Record Position := mkPosition {
  File : string;
  Pos : string;
  GTID : string;
  UUID : string;
  EndTxnID : Z;
  SlaveIORunning : bool;
  SlaveSQLRunning : bool;
  SecondsBehindMaster : Z
}.

Definition set_File (v : string) (s : Position) : Position :=
    mkPosition v (Pos s) (GTID s) (UUID s) (EndTxnID s) (SlaveIORunning s) (SlaveSQLRunning s)
    (SecondsBehindMaster s).
Definition set_Pos (v : string) (s : Position) : Position :=
    mkPosition (File s) v (GTID s) (UUID s) (EndTxnID s) (SlaveIORunning s) (SlaveSQLRunning s)
    (SecondsBehindMaster s).
Definition set_GTID (v : string) (s : Position) : Position :=
    mkPosition (File s) (Pos s) v (UUID s) (EndTxnID s) (SlaveIORunning s) (SlaveSQLRunning s)
    (SecondsBehindMaster s).
Definition set_UUID (v : string) (s : Position) : Position :=
    mkPosition (File s) (Pos s) (GTID s) v (EndTxnID s) (SlaveIORunning s) (SlaveSQLRunning s)
    (SecondsBehindMaster s).
Definition set_EndTxnID (v : Z) (s : Position) : Position :=
    mkPosition (File s) (Pos s) (GTID s) (UUID s) v (SlaveIORunning s) (SlaveSQLRunning s)
    (SecondsBehindMaster s).
Definition set_SlaveIORunning (v : bool) (s : Position) : Position :=
    mkPosition (File s) (Pos s) (GTID s) (UUID s) (EndTxnID s) v (SlaveSQLRunning s)
    (SecondsBehindMaster s).
Definition set_SlaveSQLRunning (v : bool) (s : Position) : Position :=
    mkPosition (File s) (Pos s) (GTID s) (UUID s) (EndTxnID s) (SlaveIORunning s) v
    (SecondsBehindMaster s).
Definition set_SecondsBehindMaster (v : Z) (s : Position) : Position :=
    mkPosition (File s) (Pos s) (GTID s) (UUID s) (EndTxnID s) (SlaveIORunning s)
    (SlaveSQLRunning s) v.

Definition zero_Position : Position := mkPosition "" "" "" "" 0 false false 0.

(** [latestPos] as [init] leaves it: far behind any master. *)
Definition init_latestPos : Position := set_SecondsBehindMaster 1073741824 zero_Position.

(** [agent.Server], the mutable part; [ctxDone] says that [s.cancel] has run.
    The configuration and the node, which never change, are arguments of the
    functions. *)
Record Server := mkServer {
  isLeader : bool;
  onlyFollow : bool;
  isSinglePointMaster : bool;
  leaseExpireTS : Z;
  isClosed : bool;
  leaderStopCh : chan;
  shutdownCh : chan;
  registerStopCh : chan;
  term : Z;
  lastUUID : string;
  lastGTID : string;
  lastTxnID : Z;
  uuid : string;
  ctxDone : bool
}.

Definition set_isLeader (v : bool) (s : Server) : Server :=
    mkServer v (onlyFollow s) (isSinglePointMaster s) (leaseExpireTS s) (isClosed s)
    (leaderStopCh s) (shutdownCh s) (registerStopCh s) (term s) (lastUUID s) (lastGTID s)
    (lastTxnID s) (uuid s) (ctxDone s).
Definition set_onlyFollow (v : bool) (s : Server) : Server :=
    mkServer (isLeader s) v (isSinglePointMaster s) (leaseExpireTS s) (isClosed s) (leaderStopCh
    s) (shutdownCh s) (registerStopCh s) (term s) (lastUUID s) (lastGTID s) (lastTxnID s) (uuid
    s) (ctxDone s).
Definition set_isSinglePointMaster (v : bool) (s : Server) : Server :=
    mkServer (isLeader s) (onlyFollow s) v (leaseExpireTS s) (isClosed s) (leaderStopCh s)
    (shutdownCh s) (registerStopCh s) (term s) (lastUUID s) (lastGTID s) (lastTxnID s) (uuid s)
    (ctxDone s).
Definition set_leaseExpireTS (v : Z) (s : Server) : Server :=
    mkServer (isLeader s) (onlyFollow s) (isSinglePointMaster s) v (isClosed s) (leaderStopCh s)
    (shutdownCh s) (registerStopCh s) (term s) (lastUUID s) (lastGTID s) (lastTxnID s) (uuid s)
    (ctxDone s).
Definition set_isClosed (v : bool) (s : Server) : Server :=
    mkServer (isLeader s) (onlyFollow s) (isSinglePointMaster s) (leaseExpireTS s) v
    (leaderStopCh s) (shutdownCh s) (registerStopCh s) (term s) (lastUUID s) (lastGTID s)
    (lastTxnID s) (uuid s) (ctxDone s).
Definition set_leaderStopCh (v : chan) (s : Server) : Server :=
    mkServer (isLeader s) (onlyFollow s) (isSinglePointMaster s) (leaseExpireTS s) (isClosed s)
    v (shutdownCh s) (registerStopCh s) (term s) (lastUUID s) (lastGTID s) (lastTxnID s) (uuid
    s) (ctxDone s).
Definition set_shutdownCh (v : chan) (s : Server) : Server :=
    mkServer (isLeader s) (onlyFollow s) (isSinglePointMaster s) (leaseExpireTS s) (isClosed s)
    (leaderStopCh s) v (registerStopCh s) (term s) (lastUUID s) (lastGTID s) (lastTxnID s) (uuid
    s) (ctxDone s).
Definition set_registerStopCh (v : chan) (s : Server) : Server :=
    mkServer (isLeader s) (onlyFollow s) (isSinglePointMaster s) (leaseExpireTS s) (isClosed s)
    (leaderStopCh s) (shutdownCh s) v (term s) (lastUUID s) (lastGTID s) (lastTxnID s) (uuid s)
    (ctxDone s).
Definition set_term (v : Z) (s : Server) : Server :=
    mkServer (isLeader s) (onlyFollow s) (isSinglePointMaster s) (leaseExpireTS s) (isClosed s)
    (leaderStopCh s) (shutdownCh s) (registerStopCh s) v (lastUUID s) (lastGTID s) (lastTxnID s)
    (uuid s) (ctxDone s).
Definition set_lastUUID (v : string) (s : Server) : Server :=
    mkServer (isLeader s) (onlyFollow s) (isSinglePointMaster s) (leaseExpireTS s) (isClosed s)
    (leaderStopCh s) (shutdownCh s) (registerStopCh s) (term s) v (lastGTID s) (lastTxnID s)
    (uuid s) (ctxDone s).
Definition set_lastGTID (v : string) (s : Server) : Server :=
    mkServer (isLeader s) (onlyFollow s) (isSinglePointMaster s) (leaseExpireTS s) (isClosed s)
    (leaderStopCh s) (shutdownCh s) (registerStopCh s) (term s) (lastUUID s) v (lastTxnID s)
    (uuid s) (ctxDone s).
Definition set_lastTxnID (v : Z) (s : Server) : Server :=
    mkServer (isLeader s) (onlyFollow s) (isSinglePointMaster s) (leaseExpireTS s) (isClosed s)
    (leaderStopCh s) (shutdownCh s) (registerStopCh s) (term s) (lastUUID s) (lastGTID s) v
    (uuid s) (ctxDone s).
Definition set_uuid (v : string) (s : Server) : Server :=
    mkServer (isLeader s) (onlyFollow s) (isSinglePointMaster s) (leaseExpireTS s) (isClosed s)
    (leaderStopCh s) (shutdownCh s) (registerStopCh s) (term s) (lastUUID s) (lastGTID s)
    (lastTxnID s) v (ctxDone s).
Definition set_ctxDone (v : bool) (s : Server) : Server :=
    mkServer (isLeader s) (onlyFollow s) (isSinglePointMaster s) (leaseExpireTS s) (isClosed s)
    (leaderStopCh s) (shutdownCh s) (registerStopCh s) (term s) (lastUUID s) (lastGTID s)
    (lastTxnID s) (uuid s) v.

(** The server [NewServer] returns: zero values, and open channels where it
    makes one ([registerStopCh] is made by [NewEtcdRegistry]). *)
Definition new_Server : Server :=
  mkServer false false false 0 false ChNil ChOpen ChOpen 0 "" "" 0 "" false.

(** [agent.Config], the fields the modelled code reads.  Durations are in
    nanoseconds, [LeaderLeaseTTL], [ShutdownThreshold] and [RegisterTTL] in
    seconds. *)
Record Config := mkConfig {
  ClusterName : string;
  LeaderLeaseTTL : Z;
  ShutdownThreshold : Z;
  DataDir : string;
  NodeID : string;
  OnlyFollow : bool;
  EtcdRootPath : string;
  EtcdUsername : string;
  RegisterTTL : Z;
  ServiceType : string;
  InternalServiceHost : string;
  ExternalServiceHost : string;
  CampaignWaitTime : Z
}.

Definition Millisecond : Z := 1000000.
Definition Second : Z := 1000 * Millisecond.

(** ** Effects *)

(** What the oracle says of one call to etcd: what the others do to the store
    first, how long the call takes, what becomes of it, and whether a
    connection of the HTTP server is in use at that moment.  A [Lost] answer
    means that etcd applied the request and the caller saw an error. *)
Inductive reply := Answered | Lost | Refused.

Record tick := mkTick { t_env : Store -> Store; t_delay : Z; t_reply : reply; t_busy : bool }.

Definition tick_ok : tick := mkTick id 0 Answered false.

(** The effects the theorems speak of, with what the agent saw of them.
    [EKeepAlive] is a request to renew the lease, [EAliveEnd] the end of the goroutine that keeps the lease alive. *)
Inductive event :=
| ETxn (rt : TxnRequest) (succeeded : option bool)
| ESetReadOnly (err : option error)
| ESetReadWrite (err : option error)
| EPromoteToMaster (err : option error)
| ERedirectMaster (host port : string) (err : option error)
| ESleep (d : Z)
| EKeepAlive (lease : Z) (renewed : bool)
| EAliveEnd.

Section World.
Context {D : Type}.

Record world := mkWorld {
  srv : Server;
  latestPos : Position;
  etcd : Store;
  svc : D;
  now : Z;
  oracle : list tick;
  trace : list event
}.

(** [Exited c] is [os.Exit(c)]; [Blocked] is a goroutine that still waits
    when the fuel of its loop is used up, or that waits for ever. *)
Inductive outcome (A : Type) := Ret (a : A) | Exited (code : Z) | Panicked | Blocked.
Arguments Ret {A} a.
Arguments Exited {A} code.
Arguments Panicked {A}.
Arguments Blocked {A}.

Definition M (A : Type) : Type := world -> outcome A * world.

Definition ret {A} (a : A) : M A := fun w => (Ret a, w).

Definition bind {A B} (m : M A) (k : A -> M B) : M B :=
  fun w => match m w with
           | (Ret a, w') => k a w'
           | (Exited c, w') => (Exited c, w')
           | (Panicked, w') => (Panicked, w')
           | (Blocked, w') => (Blocked, w')
           end.

(** [os.Exit], [panic], and waiting for ever. *)
Definition exit {A} (c : Z) : M A := fun w => (Exited c, w).
Definition panic {A} : M A := fun w => (Panicked, w).
Definition block {A} : M A := fun w => (Blocked, w).

(** [defer d ()] around [m]: [d] runs when [m] returns and when it panics, not
    when the process exits. *)
Definition deferred {A} (d : M unit) (m : M A) : M A :=
  fun w => match m w with
           | (Ret a, w') => bind d (fun _ => ret a) w'
           | (Panicked, w') => bind d (fun _ => panic) w'
           | r => r
           end.

(** [defer func() { recover() ... }()]: a panic of [m] ends in [h]. *)
Definition recovered {A} (h : M A) (m : M A) : M A :=
  fun w => match m w with (Panicked, w') => h w' | r => r end.

(** Memory. *)
Definition gets {A} (f : Server -> A) : M A := fun w => (Ret (f (srv w)), w).
Definition get_latestPos : M Position := fun w => (Ret (latestPos w), w).

Definition with_srv (f : Server -> Server) (w : world) : world :=
  mkWorld (f (srv w)) (latestPos w) (etcd w) (svc w) (now w) (oracle w) (trace w).
Definition with_latestPos (f : Position -> Position) (w : world) : world :=
  mkWorld (srv w) (f (latestPos w)) (etcd w) (svc w) (now w) (oracle w) (trace w).
Definition with_etcd (st : Store) (w : world) : world :=
  mkWorld (srv w) (latestPos w) st (svc w) (now w) (oracle w) (trace w).
Definition with_svc (d : D) (w : world) : world :=
  mkWorld (srv w) (latestPos w) (etcd w) d (now w) (oracle w) (trace w).
Definition with_event (e : event) (w : world) : world :=
  mkWorld (srv w) (latestPos w) (etcd w) (svc w) (now w) (oracle w) (e :: trace w).

Definition modify (f : Server -> Server) : M unit := fun w => (Ret tt, with_srv f w).
Definition modify_latestPos (f : Position -> Position) : M unit :=
  fun w => (Ret tt, with_latestPos f w).

(** [close(ch)] on a channel field. *)
Definition close_chan (get : Server -> chan) (set : chan -> Server -> Server) : M unit :=
  fun w => match get (srv w) with
           | ChOpen => (Ret tt, with_srv (set ChClosed) w)
           | _ => (Panicked, w)
           end.

(** [time.Sleep]. *)
Definition sleep (d : Z) : M unit :=
  fun w => (Ret tt, mkWorld (srv w) (latestPos w) (etcd w) (svc w) (now w + d) (oracle w)
                            (ESleep d :: trace w)).

Definition log_event (e : event) : M unit := fun w => (Ret tt, with_event e w).

(** A call to the service, and the same call recorded in the trace. *)
Definition svc_call {A} (f : D -> A * D) : M A :=
  fun w => let '(a, d) := f (svc w) in (Ret a, with_svc d w).

(** The world at the moment etcd handles the next request: the others have
    acted and time has passed. *)
Definition arrive (t : tick) (rest : list tick) (w : world) : world :=
  mkWorld (srv w) (latestPos w) (t_env t (etcd w)) (svc w) (now w + t_delay t) rest (trace w).

(** The tick the next call consumes. *)
Definition next_tick (w : world) : tick :=
  match oracle w with [] => tick_ok | t :: _ => t end.

Definition arrival (w : world) : world := arrive (next_tick w) (tail (oracle w)) w.

(** A call to etcd with a context derived from [s.ctx]: it fails when the
    context is done, and otherwise as the oracle says. *)
Definition etcd_call {A} (f : Store -> result A * Store) : M (result A) :=
  fun w =>
    let w1 := arrival w in
    if ctxDone (srv w) then (Ret (inr ErrCanceled), w1)
    else
      let '(r, st) := f (etcd w1) in
      match t_reply (next_tick w) with
      | Answered => (Ret r, with_etcd st w1)
      | Lost => (Ret (inr ErrEtcd), with_etcd st w1)
      | Refused => (Ret (inr ErrEtcd), w1)
      end.

(** [httpSrv.Shutdown(nil)]: with all connections idle it returns; otherwise it
    waits on the nil context, which panics. *)
Definition http_Shutdown : M unit :=
  fun w => if t_busy (next_tick w) then (Panicked, arrival w) else (Ret tt, arrival w).

End World.

Arguments world : clear implicits.
Arguments M : clear implicits.
Arguments Ret {A} a.
Arguments Exited {A} code.
Arguments Panicked {A}.
Arguments Blocked {A}.

(** ** Notations *)

Declare Scope go_scope.
Delimit Scope go_scope with go.
#[global] Open Scope go_scope.

Notation "'let!' x ':=' m 'in' k" := (bind m (fun x => k))
  (at level 200, x pattern, m at level 100, k at level 200, right associativity,
   format "'[v' 'let!'  x  ':='  m  'in' '/' k ']'") : go_scope.
Notation "'do!' m 'in' k" := (bind m (fun _ => k))
  (at level 200, m at level 100, k at level 200, right associativity,
   format "'[v' 'do!'  m  'in' '/' k ']'") : go_scope.

(** ** Loops that wait for an answer

    [x, err := f(); for err != nil { time.Sleep(d); x, err = f() }].  The loop
    of the code is unbounded; [fuel] bounds the number of retries, and the
    loop is [Blocked] when it is used up.  [retry_returns] gives a fuel that
    is always enough when only the oracle makes [f] fail. *)
Section Retry.
Context {D : Type}.

Fixpoint retry {A} (fuel : nat) (d : Z) (f : M D (result A)) : M D A :=
  let! r := f in
  match r with
  | inl a => ret a
  | inr _ => match fuel with
             | O => block
             | S n => do! sleep d in retry n d f
             end
  end.

(** The same loop on a call that returns an error only. *)
Fixpoint retry_err (fuel : nat) (d : Z) (f : M D (option error)) : M D unit :=
  let! e := f in
  match e with
  | None => ret tt
  | Some _ => match fuel with
              | O => block
              | S n => do! sleep d in retry_err n d f
              end
  end.

End Retry.

(** ** Reasoning about computations

    [keeps R m]: whatever the outcome, the world after [m] is related by the
    preorder [R] to the world before.  [ends m Q w]: the outcome and the world
    after satisfy [Q].  The rules follow the structure of the code, so that
    the proof of a function applies the rule of each call it makes. *)
Section Rules.
Context {D : Type}.
Implicit Types (w : world D).

Definition keeps (R : relation (world D)) {A} (m : M D A) : Prop :=
  forall w, R w (snd (m w)).

Definition ends {A} (m : M D A) (Q : outcome A -> world D -> Prop) (w : world D) : Prop :=
  Q (fst (m w)) (snd (m w)).

(** Conditions on the returned value; the other outcomes are free. *)
Definition on_ret {A} (Q : A -> world D -> Prop) (o : outcome A) (w : world D) : Prop :=
  match o with Ret a => Q a w | _ => True end.

Lemma ends_bind {A B} (m : M D A) (k : A -> M D B) (Q : outcome B -> world D -> Prop) w :
  ends m (fun o w' => match o with
                      | Ret a => ends (k a) Q w'
                      | Exited c => Q (Exited c) w'
                      | Panicked => Q Panicked w'
                      | Blocked => Q Blocked w'
                      end) w ->
  ends (bind m k) Q w.
Proof. unfold ends, bind. by destruct (m w) as [[] w']. Qed.

Lemma ends_mono {A} (m : M D A) (P Q : outcome A -> world D -> Prop) w :
  ends m P w -> (forall o w', P o w' -> Q o w') -> ends m Q w.
Proof. unfold ends. auto. Qed.

Context (R : relation (world D)) `{!PreOrder R}.

Lemma keeps_ret {A} (a : A) : keeps R (ret a).
Proof. intros w. reflexivity. Qed.

Lemma keeps_exit {A} (c : Z) : keeps R (A := A) (exit c).
Proof. intros w. reflexivity. Qed.

Lemma keeps_panic {A} : keeps R (A := A) panic.
Proof. intros w. reflexivity. Qed.

Lemma keeps_block {A} : keeps R (A := A) block.
Proof. intros w. reflexivity. Qed.

Lemma keeps_gets {A} (f : Server -> A) : keeps R (gets f).
Proof. intros w. reflexivity. Qed.

Lemma keeps_get_latestPos : keeps R get_latestPos.
Proof. intros w. reflexivity. Qed.

Lemma keeps_bind {A B} (m : M D A) (k : A -> M D B) :
  keeps R m -> (forall a, keeps R (k a)) -> keeps R (bind m k).
Proof.
  intros Hm Hk w. specialize (Hm w). unfold bind.
  destruct (m w) as [[a| | |] w'] eqn:E; cbn in *; [|done..].
  etrans; [exact Hm|apply Hk].
Qed.

Lemma keeps_deferred {A} (d : M D unit) (m : M D A) :
  keeps R d -> keeps R m -> keeps R (deferred d m).
Proof.
  intros Hd Hm w. specialize (Hm w). unfold deferred.
  destruct (m w) as [[a| | |] w'] eqn:E; cbn in *; [|done| |done].
  - etrans; [exact Hm|]. apply keeps_bind; [done|]. intros _. apply keeps_ret.
  - etrans; [exact Hm|]. apply keeps_bind; [done|]. intros _. apply keeps_panic.
Qed.

Lemma keeps_recovered {A} (h m : M D A) :
  keeps R h -> keeps R m -> keeps R (recovered h m).
Proof.
  intros Hd Hm w. specialize (Hm w). unfold recovered.
  destruct (m w) as [[a| | |] w'] eqn:E; cbn in *; try done.
  etrans; [exact Hm|apply Hd].
Qed.

Lemma keeps_retry {A} (fuel : nat) (d : Z) (f : M D (result A)) :
  keeps R (sleep d) -> keeps R f -> keeps R (retry fuel d f).
Proof.
  intros Hs Hf. induction fuel as [|n IH]; cbn; apply keeps_bind; [done| |done|];
    intros [a|e]; auto using keeps_ret, keeps_block, keeps_bind.
Qed.

Lemma keeps_retry_err (fuel : nat) (d : Z) (f : M D (option error)) :
  keeps R (sleep d) -> keeps R f -> keeps R (retry_err fuel d f).
Proof.
  intros Hs Hf. induction fuel as [|n IH]; cbn; apply keeps_bind; [done| |done|];
    intros [e|]; auto using keeps_ret, keeps_block, keeps_bind.
Qed.

End Rules.

(** The rules, tried in the order of the program text. *)
Ltac keeps_step :=
  lazymatch goal with
  | |- keeps _ (bind _ _) => apply keeps_bind; [exact _| |intros ?]
  | |- keeps _ (ret _) => apply keeps_ret; exact _
  | |- keeps _ (exit _) => apply keeps_exit; exact _
  | |- keeps _ panic => apply keeps_panic; exact _
  | |- keeps _ block => apply keeps_block; exact _
  | |- keeps _ (gets _) => apply keeps_gets; exact _
  | |- keeps _ get_latestPos => apply keeps_get_latestPos; exact _
  | |- keeps _ (deferred _ _) => apply keeps_deferred; [exact _| |]
  | |- keeps _ (recovered _ _) => apply keeps_recovered; [exact _| |]
  | |- keeps _ (retry _ _ _) => apply keeps_retry; [exact _| |]
  | |- keeps _ (retry_err _ _ _) => apply keeps_retry_err; [exact _| |]
  | |- keeps _ (match ?x with _ => _ end) => destruct x
  end.

(** ** When a retry loop returns *)
Section RetryReturns.
Context {D : Type}.

(** A call that fails only while the oracle has ticks left: each failure uses
    up at least one. *)
Definition fails_by_oracle {A} (f : M D (result A)) : Prop :=
  forall w, ctxDone (srv w) = false ->
  exists r w', f w = (Ret r, w') /\ ctxDone (srv w') = false /\
    match r with inl _ => True | inr _ => (length (oracle w') < length (oracle w))%nat end.

Lemma retry_returns {A} (fuel : nat) (d : Z) (f : M D (result A)) (w : world D) :
  fails_by_oracle f -> ctxDone (srv w) = false -> (length (oracle w) <= fuel)%nat ->
  exists a w', retry fuel d f w = (Ret a, w') /\ ctxDone (srv w') = false /\
    exists w0, f w0 = (Ret (inl a), w') /\ ctxDone (srv w0) = false.
Proof.
  intros Hf. revert w. induction fuel as [|n IH]; intros w Hc Hl; cbn; unfold bind;
    destruct (Hf w Hc) as ([a|e] & w' & E & Hc' & Hlt); rewrite E; cbn.
  - eauto 8.
  - lia.
  - eauto 8.
  - apply IH; cbn; [done|lia].
Qed.

End RetryReturns.

(** ** Calls to etcd *)
Section EtcdCall.
Context {D : Type}.
Implicit Types (w : world D).

(** An answer that is not an error was given by the store the request met. *)
Lemma etcd_call_inl {A} (f : Store -> result A * Store) w (a : A) (w' : world D) :
  etcd_call f w = (Ret (inl a), w') ->
  ctxDone (srv w) = false /\ f (etcd (arrival w)) = (inl a, etcd w') /\
  w' = with_etcd (etcd w') (arrival w).
Proof.
  unfold etcd_call. intros E. destruct (ctxDone (srv w)) eqn:Hc; [discriminate E|].
  destruct (f (etcd (arrival w))) as [r st] eqn:Ef.
  destruct (t_reply (next_tick w)); try discriminate E.
  injection E as -> <-. cbn. auto.
Qed.

(** Every call returns; the store afterwards is the one the request met or
    the one it made. *)
Lemma etcd_call_ret {A} (f : Store -> result A * Store) w :
  exists r st, etcd_call f w = (Ret r, with_etcd st (arrival w)) /\
    (st = etcd (arrival w) \/ ctxDone (srv w) = false /\ st = snd (f (etcd (arrival w)))).
Proof.
  unfold etcd_call. destruct (ctxDone (srv w)) eqn:Hc.
  { exists (inr ErrCanceled), (etcd (arrival w)). auto. }
  destruct (f (etcd (arrival w))) as [r st] eqn:Ef.
  destruct (t_reply (next_tick w)); cbn [snd].
  - eauto 8.
  - eauto 8.
  - exists (inr ErrEtcd), (etcd (arrival w)). auto.
Qed.

(** With the oracle exhausted a call is undisturbed. *)
Lemma etcd_call_quiet {A} (f : Store -> result A * Store) w :
  oracle w = [] -> ctxDone (srv w) = false ->
  etcd_call f w = (Ret (fst (f (etcd w))), with_etcd (snd (f (etcd w))) (arrival w)) /\
  etcd (arrival w) = etcd w.
Proof.
  intros Ho Hc. unfold etcd_call, arrival, next_tick. rewrite Ho, Hc. cbn.
  by destruct (f (etcd w)).
Qed.

(** A condition the others keep, and the conditions on the oracle that say so. *)
Definition tick_keeps (I : Store -> Prop) (t : tick) : Prop :=
  forall st, I st -> I (t_env t st).

Lemma arrival_keeps (I : Store -> Prop) w :
  Forall (tick_keeps I) (oracle w) -> I (etcd w) ->
  I (etcd (arrival w)) /\ Forall (tick_keeps I) (oracle (arrival w)).
Proof.
  unfold arrival, next_tick. destruct (oracle w) as [|t o] eqn:E; cbn; intros Ho HI; [done|].
  apply Forall_cons in Ho as [Ht Ho]. auto.
Qed.

(** A condition on the store that the others keep is kept by a computation
    whose own requests keep it. *)
Definition store_inv (I : Store -> Prop) : relation (world D) := fun w w' =>
  I (etcd w) /\ Forall (tick_keeps I) (oracle w) ->
  I (etcd w') /\ Forall (tick_keeps I) (oracle w').

#[global] Instance store_inv_preorder (I : Store -> Prop) : PreOrder (store_inv I).
Proof. split; [intros w H; exact H|intros a b c H1 H2 H; auto]. Qed.

Lemma keeps_etcd_call (I : Store -> Prop) {A} (f : Store -> result A * Store) :
  (forall st, I st -> I (snd (f st))) -> keeps (store_inv I) (etcd_call f).
Proof.
  intros Hf w [HI Ho]. destruct (arrival_keeps I w Ho HI) as [HI' Ho'].
  destruct (etcd_call_ret f w) as (r & st & -> & [->|[_ ->]]); cbn; auto.
Qed.

Lemma keeps_Shutdown (I : Store -> Prop) : keeps (D := D) (store_inv I) http_Shutdown.
Proof.
  intros w [HI Ho]. unfold http_Shutdown. by destruct (t_busy (next_tick w)); apply arrival_keeps.
Qed.

Lemma keeps_store_inv (I : Store -> Prop) {A} (m : M D A) :
  (forall w, etcd (snd (m w)) = etcd w /\ oracle (snd (m w)) = oracle w) ->
  keeps (store_inv I) m.
Proof. intros Hm w H. by destruct (Hm w) as [-> ->]. Qed.

Lemma keeps_svc_call_store (I : Store -> Prop) {A} (f : D -> A * D) :
  keeps (store_inv I) (svc_call f).
Proof. apply keeps_store_inv. intros w. unfold svc_call. by destruct (f (svc w)). Qed.

End EtcdCall.

(** ** The trace grows *)
Section Trace.
Context {D : Type}.

(** The events a computation adds all satisfy [P]. *)
Definition adds (P : event -> Prop) : relation (world D) := fun w w' =>
  exists new, trace w' = new ++ trace w /\ Forall P new.

#[global] Instance adds_preorder (P : event -> Prop) : PreOrder (adds P).
Proof.
  split.
  - intros w. exists []. by split.
  - intros a b c (n1 & E1 & H1) (n2 & E2 & H2). exists (n2 ++ n1).
    rewrite E2, E1. split; [by rewrite app_assoc|by apply Forall_app].
Qed.

Lemma adds_none (P : event -> Prop) (w w' : world D) : trace w' = trace w -> adds P w w'.
Proof. intros E. exists []. by split. Qed.

Lemma adds_one (P : event -> Prop) (w w' : world D) (e : event) :
  trace w' = e :: trace w -> P e -> adds P w w'.
Proof. intros E He. exists [e]. split; [done|by repeat constructor]. Qed.

Lemma adds_etcd_call (P : event -> Prop) {A} (f : Store -> result A * Store) :
  keeps (adds P) (etcd_call (D := D) f).
Proof. intros w. destruct (etcd_call_ret f w) as (r & st & -> & _). by apply adds_none. Qed.

Lemma adds_svc_call (P : event -> Prop) {A} (f : D -> A * D) : keeps (adds P) (svc_call f).
Proof. intros w. unfold svc_call. destruct (f (svc w)). by apply adds_none. Qed.

Lemma adds_log_event (P : event -> Prop) (e : event) : P e -> keeps (adds P) (log_event (D := D) e).
Proof. intros He w. by apply (adds_one P w _ e). Qed.

Lemma adds_sleep (P : event -> Prop) (d : Z) :
  (forall d, P (ESleep d)) -> keeps (adds P) (sleep (D := D) d).
Proof. intros Hs w. by apply (adds_one P w _ (ESleep d)). Qed.

Lemma adds_modify (P : event -> Prop) (f : Server -> Server) : keeps (adds P) (modify (D := D) f).
Proof. intros w. by apply adds_none. Qed.

Lemma adds_modify_latestPos (P : event -> Prop) (f : Position -> Position) :
  keeps (adds P) (modify_latestPos (D := D) f).
Proof. intros w. by apply adds_none. Qed.

Lemma adds_Shutdown (P : event -> Prop) : keeps (adds P) (http_Shutdown (D := D)).
Proof. intros w. unfold http_Shutdown. by destruct (t_busy (next_tick w)); apply adds_none. Qed.

Lemma adds_close_chan (P : event -> Prop) (g : Server -> chan) (set : chan -> Server -> Server) :
  keeps (adds P) (close_chan (D := D) g set).
Proof. intros w. unfold close_chan. destruct (g (srv w)); by apply adds_none. Qed.

End Trace.

#[export] Hint Resolve adds_etcd_call adds_svc_call adds_log_event adds_sleep adds_modify
  adds_modify_latestPos adds_close_chan adds_Shutdown : moha.
