(* ===== verification/ServiceManager.v ===== *)
(** * The [ServiceManager] interface and its MySQL implementation

    [agent/service_manager.go] declares the interface through which the agent
    drives a database and implements it for MySQL over the statements of
    [pkg/mysql/mysql.go].

    - [ServiceManager] is the interface; [ServiceManagerOk] are the promises
      the agent's safety rests on: a successful [SetReadOnly] stops writes,
      and nothing but [SetReadWrite] (or the rollback of a manual read-only
      request) lets them start.
    - [SQLServer] is a connection to a MySQL server, which is not code of this
      repository: its two operations are parameters, and [MySQLServerOk] is
      the documented behaviour of the statements the agent sends.
    - [MySQL] is the implementation; its instance of [ServiceManagerOk]
      discharges the promises from [MySQLServerOk]. *)

From stdpp Require Import gmap strings list.
From Stdlib Require Import ZArith Lia.
From S2P Require Import Prelude GoStrings Gtid World.

(** ** The interface

    An operation takes the state of the service and returns its answer and the
    new state.  [option (result A)] is the answer of an operation that can
    panic: [None] is the panic.  The replication information is (master UUID,
    executed GTID set, end transaction id); on an error Go returns zero
    values with it. *)
Class ServiceManager (D : Type) := {
  IsReadOnly : D -> bool;
  SetReadOnly : D -> option error * D;
  SetReadWrite : D -> option error * D;
  PromoteToMaster : D -> option error * D;
  RedirectMaster : string -> string -> D -> option error * D;
  SetReadOnlyManually : D -> (bool * option error) * D;
  LoadSlaveStatusFromDB : Position -> D -> result Position * D;
  LoadMasterStatusFromDB : D -> option (result Position) * D;
  LoadReplicationInfoOfMaster : D -> option (result (string * string * Z)) * D;
  LoadReplicationInfoOfSlave : D -> result (string * string * Z) * D;
  GetServerUUID : D -> result string * D;
  Close_service : D -> option error * D
}.

(** What the agent relies on.  [accepts_writes] is whether clients can write. *)
Class ServiceManagerOk (D : Type) `{ServiceManager D} := {
  accepts_writes : D -> bool;
  SetReadOnly_ok (d d' : D) :
    SetReadOnly d = (None, d') -> accepts_writes d' = false /\ IsReadOnly d' = true;
  SetReadOnly_quiet (d d' : D) (e : option error) :
    SetReadOnly d = (e, d') -> accepts_writes d' = true -> accepts_writes d = true;
  SetReadWrite_ok (d d' : D) : SetReadWrite d = (None, d') -> IsReadOnly d' = false;
  PromoteToMaster_quiet (d d' : D) (e : option error) :
    PromoteToMaster d = (e, d') -> accepts_writes d' = true -> accepts_writes d = true;
  RedirectMaster_quiet (h p : string) (d d' : D) (e : option error) :
    RedirectMaster h p d = (e, d') -> accepts_writes d' = true -> accepts_writes d = true;
  LoadSlaveStatus_quiet (pos : Position) (d d' : D) (r : result Position) :
    LoadSlaveStatusFromDB pos d = (r, d') -> accepts_writes d' = true -> accepts_writes d = true;
  LoadMasterInfo_quiet (d d' : D) (r : option (result (string * string * Z))) :
    LoadReplicationInfoOfMaster d = (r, d') -> accepts_writes d' = true -> accepts_writes d = true;
  LoadSlaveInfo_quiet (d d' : D) (r : result (string * string * Z)) :
    LoadReplicationInfoOfSlave d = (r, d') -> accepts_writes d' = true -> accepts_writes d = true;
  GetServerUUID_calm (d d' : D) (r : result string) :
    GetServerUUID d = (r, d') -> accepts_writes d' = true -> accepts_writes d = true;
  Close_service_quiet (d d' : D) (e : option error) :
    Close_service d = (e, d') -> accepts_writes d' = true -> accepts_writes d = true
}.

(** ** A connection to a SQL server *)

(** The rows of a query: column names, the cells (NULL is [None]), and the
    error [rows.Err()] reports after them. *)
Record Rows := mkRows {
  Columns : list string;
  Data : list (list (option string));
  RowsErr : option error
}.

Class SQLServer (Q : Type) := {
  Exec : string -> Q -> option error * Q;
  Query : string -> Q -> result Rows * Q;
  Close_db : Q -> option error * Q
}.

(** The statements that change what a MySQL server lets clients write, as the
    reference manual documents them: [super_read_only = 1] blocks the writes
    of every client, a failed statement changes nothing, and no other
    statement of the agent enables writes. *)
Class MySQLServerOk (Q : Type) `{SQLServer Q} := {
  sql_writable : Q -> bool;
  super_read_only_on (q q' : Q) :
    Exec "SET GLOBAL super_read_only = 1;" q = (None, q') -> sql_writable q' = false;
  exec_quiet (stmt : string) (q q' : Q) (e : option error) :
    stmt = "SET GLOBAL super_read_only = 1;" \/ stmt = "SET GLOBAL read_only = 1;" \/
    stmt = "STOP SLAVE;" \/ stmt = "START SLAVE;" \/ HasPrefix stmt "CHANGE MASTER TO" = true ->
    Exec stmt q = (e, q') -> sql_writable q' = true -> sql_writable q = true;
  query_quiet (stmt : string) (q q' : Q) (r : result Rows) :
    Query stmt q = (r, q') -> sql_writable q' = sql_writable q;
  close_quiet (q q' : Q) (e : option error) :
    Close_db q = (e, q') -> sql_writable q' = sql_writable q
}.

(** ** [pkg/mysql/mysql.go] *)
Module Mysql.
Section Mysql.
Context {Q : Type} `{SQLServer Q}.

(** [CloseDB], [Select1] *)
Definition CloseDB (db : Q) : option error * Q := Close_db db.

Definition Select1 (db : Q) : option error * Q :=
  match Query "SELECT 1;" db with
  | (inl _, db') => (None, db')
  | (inr e, db') => (Some e, db')
  end.

(** Scanning a cell into a [string]: NULL is an error. *)
Definition scan_string (c : option string) : result string :=
  match c with
  | Some s => inl s
  | None => inr (Errorf "sql: Scan error: converting driver.Value type <nil> to a string")
  end.

(** Scanning a cell into an unsigned integer of [bits] bits. *)
Definition scan_uint (max : Z) (c : option string) : result Z :=
  match c with
  | None => inr (Errorf "sql: Scan error: converting driver.Value type <nil>")
  | Some s =>
      match ParseUint s with
      | inr e => inr e
      | inl z => if z <? max then inl z else inr ErrRange
      end
  end.

Definition scan_arity : error := Errorf "sql: wrong number of destination arguments in Scan".

(** [GetServerUUID] *)
Fixpoint scan_uuid_rows (rows : list (list (option string))) (masterUUID : string)
    : result string :=
  match rows with
  | [] => inl masterUUID
  | [c] :: rest =>
      match scan_string c with
      | inr e => inr e
      | inl u => scan_uuid_rows rest u
      end
  | _ :: _ => inr scan_arity
  end.

Definition GetServerUUID (db : Q) : result string * Q :=
  match Query "SELECT @@server_uuid;" db with
  | (inr e, db') => (inr e, db')
  | (inl rows, db') =>
      (match scan_uuid_rows (Data rows) "" with
       | inr e => inr e
       | inl u => match RowsErr rows with Some e => inr e | None => inl u end
       end, db')
  end.

(** [GetSlaveStatus]: the first row as a map from column to text; NULL and a
    missing row give the empty text. *)
Fixpoint zip_row (columns : list string) (row : list (option string))
    (m : gmap string string) : gmap string string :=
  match columns with
  | [] => m
  | c :: cs =>
      let '(cell, row') := match row with [] => (None, []) | x :: r => (x, r) end in
      zip_row cs row' (<[c := default "" cell]> m)
  end.

Definition GetSlaveStatus (db : Q) : result (gmap string string) * Q :=
  match Query "SHOW SLAVE STATUS " db with
  | (inr e, db') => (inr e, db')
  | (inl rows, db') =>
      (inl (zip_row (Columns rows) (match Data rows with [] => [] | r :: _ => r end) ∅), db')
  end.

(** [rSet[column]] of a Go map with string values. *)
Definition column (rSet : gmap string string) (c : string) : string := default "" (rSet !! c).

(** [GetMasterStatus]: file, position, and the executed set; the set is a nil
    pointer ([None]) when the statement returned no row. *)
Record BinlogPos := mkBinlogPos { Name : string; Offset : Z }.

Fixpoint scan_master_rows (ncols : nat) (rows : list (list (option string)))
    (gtid : string) (pos : BinlogPos) (gs : option (gmap string UUIDSet))
    : result (BinlogPos * option (gmap string UUIDSet)) :=
  match rows with
  | [] => inl (pos, gs)
  | row :: rest =>
      let scanned :=
        match bool_decide (ncols = 5%nat), row with
        | true, [name; p; _; _; g] =>
            match scan_string name, scan_uint 4294967296 p, scan_string g with
            | inl n, inl z, inl g => inl (n, z, g)
            | inr e, _, _ | inl _, inr e, _ | inl _, inl _, inr e => inr e
            end
        | false, [name; p; _; _] =>
            match scan_string name, scan_uint 4294967296 p with
            | inl n, inl z => inl (n, z, gtid)
            | inr e, _ | inl _, inr e => inr e
            end
        | _, _ => inr scan_arity
        end in
      match scanned with
      | inr e => inr e
      | inl (n, z, g) =>
          match parseGTIDSet g with
          | inr e => inr e
          | inl s => scan_master_rows ncols rest g (mkBinlogPos n z) (Some s)
          end
      end
  end.

Definition GetMasterStatus (db : Q) : result (BinlogPos * option (gmap string UUIDSet)) * Q :=
  match Query "SHOW MASTER STATUS" db with
  | (inr e, db') => (inr e, db')
  | (inl rows, db') =>
      (match scan_master_rows (length (Columns rows)) (Data rows) "" (mkBinlogPos "" 0) None with
       | inr e => inr e
       | inl r => match RowsErr rows with Some e => inr e | None => inl r end
       end, db')
  end.

(** [SetReadOnly] *)
Definition SetReadOnly (db : Q) : option error * Q :=
  match Exec "SET GLOBAL super_read_only = 1;" db with
  | (Some e, db') => (Some e, db')
  | (None, db') => Exec "SET GLOBAL read_only = 1;" db'
  end.

(** [SetReadWrite] *)
Definition SetReadWrite (db : Q) : option error * Q :=
  match Exec "SET GLOBAL read_only = 0;" db with
  | (Some e, db') => (Some e, db')
  | (None, db') => Exec "SET GLOBAL super_read_only = 0;" db'
  end.

(** [PromoteToMaster] *)
Definition PromoteToMaster (db : Q) : option error * Q := Exec "STOP SLAVE;" db.

(** The statement of [RedirectMaster]. *)
Definition changeMasterSQL (user password host port : string) : string :=
  "CHANGE MASTER TO
        master_user='" +:+ user +:+ "',master_host='" +:+ host +:+ "', MASTER_PORT=" +:+ port +:+
  ", master_password='" +:+ password +:+ "', MASTER_AUTO_POSITION = 1;".

(** [RedirectMaster]: the three statements are always sent; only the error of
    the last is returned. *)
Definition RedirectMaster (user password host port : string) (db : Q) : option error * Q :=
  let '(_, db1) := Exec "STOP SLAVE;" db in
  let '(_, db2) := Exec (changeMasterSQL user password host port) db1 in
  Exec "START SLAVE;" db2.

(** [GetRunningDDLCount]: a failed scan leaves the count at 0. *)
Definition GetRunningDDLCount (db : Q) : result Z * Q :=
  match Query "SELECT COUNT(0) FROM INFORMATION_SCHEMA.PROCESSLIST WHERE USER NOT IN ('root', 'replication', 'system user') AND INFO LIKE 'ALTER%'" db with
  | (inr e, db') => (inr e, db')
  | (inl rows, db') =>
      (inl (match Data rows with
            | [Some s] :: _ => match ParseInt s with inl z => z | inr _ => 0 end
            | _ => 0
            end), db')
  end.

(** [GetRunningProcesses]: a failed scan leaves the pid empty. *)
Definition GetRunningProcesses (db : Q) : result (list string) * Q :=
  match Query "SELECT id FROM INFORMATION_SCHEMA.PROCESSLIST where USER NOT IN ('root', 'replication', 'system user')" db with
  | (inr e, db') => (inr e, db')
  | (inl rows, db') =>
      (inl (map (fun row => match row with [Some pid] => pid | _ => "" end) (Data rows)), db')
  end.

(** [KillProcess], [WaitCatchMaster] *)
Definition KillProcess (db : Q) (pid : string) : option error * Q := Exec ("kill " +:+ pid) db.

Definition WaitCatchMaster (db : Q) (gtid : string) : option error * Q :=
  Exec ("SELECT WAIT_UNTIL_SQL_THREAD_AFTER_GTIDS('" +:+ gtid +:+ "')") db.

End Mysql.
End Mysql.

(** ** [mysqlServiceManager] of [agent/service_manager.go] *)
Module MySQL.
Section MySQL.
Context {Q : Type} `{SQLServer Q}.

Record mysqlServiceManager := mkMySQL {
  db : Q;
  mysqlNet : string;
  replicationUser : string;
  replicationPassword : string;
  readonly : bool
}.

Definition with_db (q : Q) (m : mysqlServiceManager) : mysqlServiceManager :=
  mkMySQL q (mysqlNet m) (replicationUser m) (replicationPassword m) (readonly m).
Definition with_readonly (b : bool) (m : mysqlServiceManager) : mysqlServiceManager :=
  mkMySQL (db m) (mysqlNet m) (replicationUser m) (replicationPassword m) b.

Definition IsReadOnly (m : mysqlServiceManager) : bool := readonly m.

Definition SetReadOnly (m : mysqlServiceManager) : option error * mysqlServiceManager :=
  match Mysql.SetReadOnly (db m) with
  | (Some e, q) => (Some e, with_db q m)
  | (None, q) => (None, with_readonly true (with_db q m))
  end.

Definition SetReadWrite (m : mysqlServiceManager) : option error * mysqlServiceManager :=
  match Mysql.SetReadWrite (db m) with
  | (Some e, q) => (Some e, with_db q m)
  | (None, q) => (None, with_readonly false (with_db q m))
  end.

Definition PromoteToMaster (m : mysqlServiceManager) : option error * mysqlServiceManager :=
  let '(e, q) := Mysql.PromoteToMaster (db m) in (e, with_db q m).

Definition RedirectMaster (masterHost masterPort : string) (m : mysqlServiceManager)
    : option error * mysqlServiceManager :=
  let '(e, q) := Mysql.RedirectMaster (replicationUser m) (replicationPassword m)
                   masterHost masterPort (db m) in
  (e, with_db q m).

(** [rollbackReadOnly]; [errors.Wrap] keeps the error of the rollback. *)
Definition rollbackReadOnly (readonlyErr : error) (m : mysqlServiceManager)
    : error * mysqlServiceManager :=
  match SetReadWrite m with
  | (Some anotherErr, m') => (anotherErr, m')
  | (None, m') => (readonlyErr, m')
  end.

(** [SetReadOnlyManually]: refuse while a DDL runs, before and after. *)
Definition SetReadOnlyManually (m : mysqlServiceManager)
    : (bool * option error) * mysqlServiceManager :=
  let roll (e : error) (m : mysqlServiceManager) :=
    let '(e', m') := rollbackReadOnly e m in ((false, Some e'), m') in
  let '(r1, q1) := Mysql.GetRunningDDLCount (db m) in
  let m1 := with_db q1 m in
  match r1 with
  | inr e => ((false, Some e), m1)
  | inl ddl =>
      if negb (ddl =? 0)
      then ((false, Some (Errorf "has running ddl before setting readonly")), m1)
      else
        match SetReadOnly m1 with
        | (Some e, m2) => roll e m2
        | (None, m2) =>
            let '(r2, q3) := Mysql.GetRunningDDLCount (db m2) in
            let m3 := with_db q3 m2 in
            match r2 with
            | inr e => roll e m3
            | inl ddl2 =>
                if negb (ddl2 =? 0)
                then roll (Errorf "has running ddl after setting readonly") m3
                else ((true, None), m3)
            end
        end
  end.

Definition Close_service (m : mysqlServiceManager) : option error * mysqlServiceManager :=
  let '(e, q) := Mysql.CloseDB (db m) in (e, with_db q m).

(** The text of the executed set; the map is enumerated in some order. *)
Definition gtid_text (gs : gmap string UUIDSet) : string :=
  MysqlGTIDSet_String (map snd (map_to_list gs)).

(** [LoadMasterStatusFromDB]: [gtidSet.String()] panics on the nil set. *)
Definition LoadMasterStatusFromDB (m : mysqlServiceManager)
    : option (result Position) * mysqlServiceManager :=
  let '(r, q1) := Mysql.GetMasterStatus (db m) in
  let m1 := with_db q1 m in
  match r with
  | inr e => (Some (inr e), m1)
  | inl (_, None) => (None, m1)
  | inl (pos, Some gs) =>
      let gtid := gtid_text gs in
      let '(u, q2) := Mysql.GetServerUUID q1 in
      let m2 := with_db q2 m in
      match u with
      | inr _ => (Some (inr (Errorf "fail to get server UUID")), m2)
      | inl uuid =>
          match GetTxnIDFromGTIDStr gtid uuid with
          | inr _ => (Some (inr (Errorf "error when GetTxnIDFromGTIDStr")), m2)
          | inl endTxnID =>
              (Some (inl (mkPosition (Mysql.Name pos) (FormatUint (Mysql.Offset pos)) gtid uuid
                            (u64 endTxnID) false false 0)), m2)
          end
      end
  end.

(** [LoadSlaveStatusFromDB]; the package variable [latestPos] is an argument. *)
Definition LoadSlaveStatusFromDB (latestPos : Position) (m : mysqlServiceManager)
    : result Position * mysqlServiceManager :=
  let '(r, q1) := Mysql.GetSlaveStatus (db m) in
  let m1 := with_db q1 m in
  match r with
  | inr e => (inr e, m1)
  | inl rSet =>
      let col := Mysql.column rSet in
      if String.eqb (col "Relay_Master_Log_File") ""
      then (inr (Errorf "do not have Relay_Master_Log_File"), m1)
      else
        let sbm :=
          if String.eqb (col "Seconds_Behind_Master") "" then 0
          else match Atoi (col "Seconds_Behind_Master") with
               | inr _ => SecondsBehindMaster latestPos
               | inl z => z
               end in
        let pos := mkPosition (col "Relay_Master_Log_File") (col "Exec_Master_Log_Pos")
                     (col "Executed_Gtid_Set") (UUID latestPos) 0
                     (String.eqb (col "Slave_IO_Running") "Yes")
                     (String.eqb (col "Slave_SQL_Running") "Yes") sbm in
        if String.eqb (col "Master_UUID") "" then (inl pos, m1)
        else
          match GetTxnIDFromGTIDStr (col "Executed_Gtid_Set") (col "Master_UUID") with
          | inr _ => (inr (Errorf "error when GetTxnIDFromGTIDStr"), m1)
          | inl endTxnID => (inl (set_EndTxnID (u64 endTxnID) pos), m1)
          end
  end.

Definition LoadReplicationInfoOfSlave (m : mysqlServiceManager)
    : result (string * string * Z) * mysqlServiceManager :=
  let '(r, q1) := Mysql.GetSlaveStatus (db m) in
  let m1 := with_db q1 m in
  match r with
  | inr e => (inr e, m1)
  | inl rSet =>
      let col := Mysql.column rSet in
      if String.eqb (col "Master_UUID") ""
      then (inr (Errorf "do not have Master_UUID, this node is not a former slave"), m1)
      else
        match GetTxnIDFromGTIDStr (col "Executed_Gtid_Set") (col "Master_UUID") with
        | inr e => (inr e, m1)
        | inl endTxnID => (inl (col "Master_UUID", col "Executed_Gtid_Set", u64 endTxnID), m1)
        end
  end.

Definition LoadReplicationInfoOfMaster (m : mysqlServiceManager)
    : option (result (string * string * Z)) * mysqlServiceManager :=
  let '(r, q1) := Mysql.GetMasterStatus (db m) in
  let m1 := with_db q1 m in
  match r with
  | inr e => (Some (inr e), m1)
  | inl (_, gs) =>
      let '(u, q2) := Mysql.GetServerUUID q1 in
      let m2 := with_db q2 m in
      match u with
      | inr e => (Some (inr e), m2)
      | inl uuid =>
          match gs with
          | None => (None, m2)
          | Some gs =>
              match GetTxnIDFromGTIDStr (gtid_text gs) uuid with
              | inr e => (Some (inr e), m2)
              | inl endTxnID => (Some (inl (uuid, gtid_text gs, u64 endTxnID)), m2)
              end
          end
      end
  end.

Definition GetServerUUID (m : mysqlServiceManager) : result string * mysqlServiceManager :=
  let '(r, q) := Mysql.GetServerUUID (db m) in (r, with_db q m).

#[global] Instance mysql_ServiceManager : ServiceManager mysqlServiceManager := {|
  ServiceManager.IsReadOnly := IsReadOnly;
  ServiceManager.SetReadOnly := SetReadOnly;
  ServiceManager.SetReadWrite := SetReadWrite;
  ServiceManager.PromoteToMaster := PromoteToMaster;
  ServiceManager.RedirectMaster := RedirectMaster;
  ServiceManager.SetReadOnlyManually := SetReadOnlyManually;
  ServiceManager.LoadSlaveStatusFromDB := LoadSlaveStatusFromDB;
  ServiceManager.LoadMasterStatusFromDB := LoadMasterStatusFromDB;
  ServiceManager.LoadReplicationInfoOfMaster := LoadReplicationInfoOfMaster;
  ServiceManager.LoadReplicationInfoOfSlave := LoadReplicationInfoOfSlave;
  ServiceManager.GetServerUUID := GetServerUUID;
  ServiceManager.Close_service := Close_service
|}.

End MySQL.
Arguments mysqlServiceManager : clear implicits.
End MySQL.

(** ** The promises hold for MySQL *)
Module MySQLProofs.
Import MySQL.
Section MySQLProofs.
Context {Q : Type} `{MySQLServerOk Q}.

Lemma Mysql_SetReadOnly_ok (q q' : Q) : Mysql.SetReadOnly q = (None, q') -> sql_writable q' = false.
Proof.
  unfold Mysql.SetReadOnly.
  destruct (Exec "SET GLOBAL super_read_only = 1;" q) as [[e|] q1] eqn:E1; [done|].
  intros E2. apply super_read_only_on in E1.
  destruct (sql_writable q') eqn:Ew; [|done].
  eapply exec_quiet in E2; [|auto|done]. congruence.
Qed.

Lemma Mysql_SetReadOnly_quiet (q q' : Q) (e : option error) :
  Mysql.SetReadOnly q = (e, q') -> sql_writable q' = true -> sql_writable q = true.
Proof.
  unfold Mysql.SetReadOnly.
  destruct (Exec "SET GLOBAL super_read_only = 1;" q) as [[e1|] q1] eqn:E1; intros E2 Hw; simplify_eq.
  - eapply exec_quiet; [left; done|eassumption..].
  - eapply exec_quiet in E2; [|auto|done]. eapply exec_quiet; [left; done|eassumption..].
Qed.

Lemma Mysql_RedirectMaster_quiet (u pw h p : string) (q q' : Q) (e : option error) :
  Mysql.RedirectMaster u pw h p q = (e, q') -> sql_writable q' = true -> sql_writable q = true.
Proof.
  unfold Mysql.RedirectMaster.
  destruct (Exec "STOP SLAVE;" q) as [e1 q1] eqn:E1.
  destruct (Exec (Mysql.changeMasterSQL u pw h p) q1) as [e2 q2] eqn:E2. intros E3 Hw.
  eapply exec_quiet in E3; [|auto 10|done].
  eapply exec_quiet in E2; [|by do 4 right|done].
  eapply exec_quiet in E1; [done|auto 10|done].
Qed.

Lemma query_fst_quiet {A} (f : result Rows -> A) (stmt : string) (q q' : Q) (a : A) :
  (let '(r, q1) := Query stmt q in (f r, q1)) = (a, q') -> sql_writable q' = sql_writable q.
Proof. destruct (Query stmt q) as [r q1] eqn:E. intros [= _ <-]. by eapply query_quiet. Qed.

Lemma GetSlaveStatus_quiet (q q' : Q) (r : result (gmap string string)) :
  Mysql.GetSlaveStatus q = (r, q') -> sql_writable q' = sql_writable q.
Proof.
  unfold Mysql.GetSlaveStatus. destruct (Query _ q) as [[rows|e] q1] eqn:E;
    intros [= _ <-]; by eapply query_quiet.
Qed.

Lemma GetServerUUID_quiet (q q' : Q) (r : result string) :
  Mysql.GetServerUUID q = (r, q') -> sql_writable q' = sql_writable q.
Proof.
  unfold Mysql.GetServerUUID. destruct (Query _ q) as [[rows|e] q1] eqn:E;
    intros [= _ <-]; by eapply query_quiet.
Qed.

Lemma GetMasterStatus_quiet (q q' : Q) r :
  Mysql.GetMasterStatus q = (r, q') -> sql_writable q' = sql_writable q.
Proof.
  unfold Mysql.GetMasterStatus. destruct (Query _ q) as [[rows|e] q1] eqn:E;
    intros [= _ <-]; by eapply query_quiet.
Qed.

Lemma GetRunningDDLCount_quiet (q q' : Q) (r : result Z) :
  Mysql.GetRunningDDLCount q = (r, q') -> sql_writable q' = sql_writable q.
Proof.
  unfold Mysql.GetRunningDDLCount. destruct (Query _ q) as [[rows|e] q1] eqn:E;
    intros [= _ <-]; by eapply query_quiet.
Qed.

#[global] Instance mysql_ServiceManagerOk : ServiceManagerOk (mysqlServiceManager Q).
Proof.
  refine {| accepts_writes m := sql_writable (db m) |}; cbn.
  - intros d d'. unfold SetReadOnly. destruct (Mysql.SetReadOnly (db d)) as [[e|] q] eqn:E; [done|].
    intros [= <-]. cbn. eauto using Mysql_SetReadOnly_ok.
  - intros d d' e. unfold SetReadOnly.
    destruct (Mysql.SetReadOnly (db d)) as [[e1|] q] eqn:E; intros [= _ <-]; cbn;
      eauto using Mysql_SetReadOnly_quiet.
  - intros d d'. unfold SetReadWrite.
    destruct (Mysql.SetReadWrite (db d)) as [[e1|] q] eqn:E; [done|]. by intros [= <-].
  - intros d d' e. unfold PromoteToMaster, Mysql.PromoteToMaster.
    destruct (Exec "STOP SLAVE;" (db d)) as [e1 q] eqn:E. intros [= _ <-]; cbn.
    eapply exec_quiet; [|exact E]. auto 10.
  - intros h p d d' e. unfold RedirectMaster.
    destruct (Mysql.RedirectMaster _ _ _ _ (db d)) as [e1 q] eqn:E. intros [= _ <-]; cbn.
    eauto using Mysql_RedirectMaster_quiet.
  - intros pos d d' r. unfold LoadSlaveStatusFromDB.
    destruct (Mysql.GetSlaveStatus (db d)) as [r1 q] eqn:E. apply GetSlaveStatus_quiet in E.
    intros Hd. repeat break_match_in Hd; simplify_eq; cbn; congruence.
  - intros d d' r. unfold LoadReplicationInfoOfMaster.
    destruct (Mysql.GetMasterStatus (db d)) as [r1 q1] eqn:E1. apply GetMasterStatus_quiet in E1.
    destruct (Mysql.GetServerUUID q1) as [r2 q2] eqn:E2. apply GetServerUUID_quiet in E2.
    intros Hd. repeat break_match_in Hd; simplify_eq; cbn; congruence.
  - intros d d' r. unfold LoadReplicationInfoOfSlave.
    destruct (Mysql.GetSlaveStatus (db d)) as [r1 q] eqn:E. apply GetSlaveStatus_quiet in E.
    intros Hd. repeat break_match_in Hd; simplify_eq; cbn; congruence.
  - intros d d' r. unfold GetServerUUID.
    destruct (Mysql.GetServerUUID (db d)) as [r1 q] eqn:E. apply GetServerUUID_quiet in E.
    intros [= _ <-]. cbn. congruence.
  - intros d d' e. unfold Close_service, Mysql.CloseDB.
    destruct (Close_db (db d)) as [e1 q] eqn:E. apply close_quiet in E.
    intros [= _ <-]. cbn. congruence.
Defined.

(** The manager [m2] in which the manual write stop of [m] is taken back: writes
    could not be stopped, or they were and then a DDL was running or could not
    be counted. *)
Inductive taken_back (m : mysqlServiceManager Q) : mysqlServiceManager Q -> Prop :=
| back_not_stopped (q1 : Q) (e : error) (m2 : mysqlServiceManager Q) :
    Mysql.GetRunningDDLCount (db m) = (inl 0, q1) -> SetReadOnly (with_db q1 m) = (Some e, m2) -> taken_back m m2
| back_running (q1 q3 : Q) (m1 : mysqlServiceManager Q) (r : result Z) :
    Mysql.GetRunningDDLCount (db m) = (inl 0, q1) -> SetReadOnly (with_db q1 m) = (None, m1) ->
    Mysql.GetRunningDDLCount (db m1) = (r, q3) -> r <> inl 0 -> taken_back m (with_db q3 m1).

(** How taking back ends: the service is marked writable, or it was not to be
    had, and then the flag stays as it was and that error is reported. *)
Definition back_ends (m2 m' : mysqlServiceManager Q) (e : error) : Prop :=
  match SetReadWrite m2 with
  | (None, m3) => m' = m3 /\ IsReadOnly m' = false
  | (Some e', m3) => m' = m3 /\ e = e' /\ IsReadOnly m' = IsReadOnly m2
  end.

Lemma SetReadWrite_flag (m m' : mysqlServiceManager Q) (r : option error) :
  SetReadWrite m = (r, m') -> IsReadOnly m' = match r with None => false | Some _ => IsReadOnly m end.
Proof.
  unfold SetReadWrite. destruct (Mysql.SetReadWrite (db m)) as [[e|] q]; by intros [= <- <-].
Qed.

Lemma rollback_ends (e0 e : error) (m2 m' : mysqlServiceManager Q) :
  rollbackReadOnly e0 m2 = (e, m') -> back_ends m2 m' e.
Proof.
  unfold rollbackReadOnly, back_ends. destruct (SetReadWrite m2) as [[e'|] m3] eqn:E; intros [= <- <-];
    apply SetReadWrite_flag in E; auto.
Qed.

(** C23. The manual write stop of MySQL.  A success means that writes are
    stopped, the service is marked read-only and no DDL was running once they
    were.  A failure carries an error.  Either a DDL was running before, or
    could not be counted, and nothing was changed; or writes could not be
    stopped, or a DDL was running afterwards, and the stop was taken back: the
    service is marked writable again, or, if it refused that too, it stays
    marked as it was (read-only, where the stop had succeeded) and its refusal
    is the error reported. *)
Theorem SetReadOnlyManually_spec (m m' : mysqlServiceManager Q) (ok : bool) (err : option error) :
  SetReadOnlyManually m = ((ok, err), m') ->
  (ok = true /\ err = None /\ sql_writable (db m') = false /\ IsReadOnly m' = true /\
   exists q, sql_writable q = false /\ Mysql.GetRunningDDLCount q = (inl 0, db m')) \/
  (ok = false /\ exists e, err = Some e /\
   (((Mysql.GetRunningDDLCount (db m)).1 <> inl 0 /\
     sql_writable (db m') = sql_writable (db m) /\ IsReadOnly m' = IsReadOnly m) \/
    exists m2, taken_back m m2 /\ back_ends m2 m' e)).
Proof.
  unfold SetReadOnlyManually.
  assert (Hroll : forall e0 m2, taken_back m m2 -> (let '(e', m') := rollbackReadOnly e0 m2 in ((false, Some e'), m')) =
      ((ok, err), m') -> ok = false /\ exists e, err = Some e /\ exists m2, taken_back m m2 /\ back_ends m2 m' e).
  { intros e0 m2 Hb. destruct (rollbackReadOnly e0 m2) as [e m4] eqn:E. intros [= <- <- <-]. apply rollback_ends in E. eauto 6. }
  destruct (Mysql.GetRunningDDLCount (db m)) as [r1 q1] eqn:E1. pose proof (GetRunningDDLCount_quiet _ _ _ E1) as Hq1.
  destruct r1 as [ddl|e]; [|intros [= <- <- <-]; right; split; [done|]; eexists; split; [done|left]; auto].
  destruct (Z.eqb_spec ddl 0) as [->|Hne]; cbn [negb].
  2:{ intros [= <- <- <-]. right. split; [done|]. eexists. split; [done|left]. cbn. split; [congruence|auto]. }
  destruct (SetReadOnly (with_db q1 m)) as [[e|] m1] eqn:E2.
  { intros (-> & e' & -> & Hm)%Hroll; [|by eapply back_not_stopped]. right. eauto. }
  assert (sql_writable (db m1) = false /\ IsReadOnly m1 = true) as [Hw Hro].
  { revert E2. unfold SetReadOnly. destruct (Mysql.SetReadOnly (db (with_db q1 m))) as [[e|] q2] eqn:E; [done|].
    apply Mysql_SetReadOnly_ok in E. by intros [= <-]. }
  destruct (Mysql.GetRunningDDLCount (db m1)) as [[ddl2|e] q3] eqn:E3.
  - destruct (Z.eqb_spec ddl2 0) as [->|Hne]; cbn [negb].
    + intros [= <- <- <-]. left. split_and!; try done; [|by exists (db m1)]. apply GetRunningDDLCount_quiet in E3. cbn. congruence.
    + intros (-> & e' & -> & Hm)%Hroll; [right; eauto|]. eapply back_running; [exact E1|exact E2|exact E3|congruence].
  - intros (-> & e' & -> & Hm)%Hroll; [right; eauto|]. by eapply back_running.
Qed.

End MySQLProofs.
End MySQLProofs.

(** ** A small MySQL server

    A concrete [SQLServer] that satisfies [MySQLServerOk]: the two read-only
    variables, the answers it gives to the queries, and how many of its next
    statements fail.  Witnesses run the model on it. *)
Module ToyMySQL.

Record server := mkToy {
  super_read_only : bool;
  failing : nat;
  slave_status : gmap string string;
  master_gtid : string;
  server_uuid : string
}.

Definition toy_err : error := Errorf "toy: statement refused".

Definition toy_Exec (stmt : string) (q : server) : option error * server :=
  match failing q with
  | S n => (Some toy_err, mkToy (super_read_only q) n (slave_status q) (master_gtid q) (server_uuid q))
  | O =>
      let sro := if String.eqb stmt "SET GLOBAL super_read_only = 1;" then true
                 else if String.eqb stmt "SET GLOBAL super_read_only = 0;" then false
                 else if String.eqb stmt "SET GLOBAL read_only = 0;" then false
                 else super_read_only q in
      (None, mkToy sro O (slave_status q) (master_gtid q) (server_uuid q))
  end.

Definition toy_Query (stmt : string) (q : server) : result Rows * server :=
  (inl (if String.eqb stmt "SHOW SLAVE STATUS "
        then let l := map_to_list (slave_status q) in
             mkRows (map fst l) [map (fun p => Some (snd p)) l] None
        else if String.eqb stmt "SHOW MASTER STATUS"
        then mkRows ["File"; "Position"; "Binlog_Do_DB"; "Binlog_Ignore_DB"; "Executed_Gtid_Set"]
                    (if String.eqb (master_gtid q) "" then []
                     else [[Some "mysql-bin.000001"; Some "154"; None; None; Some (master_gtid q)]]) None
        else if String.eqb stmt "SELECT @@server_uuid;"
        then mkRows ["@@server_uuid"] [[Some (server_uuid q)]] None
        else mkRows ["1"] [[Some "0"]] None), q).

#[global] Instance toy_SQLServer : SQLServer server := {|
  Exec := toy_Exec;
  Query := toy_Query;
  Close_db q := (None, q)
|}.

#[global] Instance toy_MySQLServerOk : MySQLServerOk server.
Proof.
  refine {| sql_writable q := negb (super_read_only q) |}; cbn.
  - intros q q'. unfold toy_Exec. destruct (failing q); [|done]. by intros [= <-].
  - intros stmt q q' e Hs. unfold toy_Exec. destruct (failing q); intros [= _ <-]; cbn; [|done].
    intros Hw. bool_to_prop. apply negb_true_iff.
    destruct Hs as [->|[->|[->|[->|Hp]]]]; try done.
    destruct (String.eqb stmt "SET GLOBAL super_read_only = 0;") eqn:E2.
    { apply String.eqb_eq in E2 as ->. done. }
    destruct (String.eqb stmt "SET GLOBAL read_only = 0;") eqn:E3.
    { apply String.eqb_eq in E3 as ->. done. }
    by destruct (String.eqb stmt "SET GLOBAL super_read_only = 1;").
  - intros stmt q q' r. unfold toy_Query. by intros [= _ <-].
  - intros q q' e. by intros [= _ <-].
Defined.

Definition toy_manager : MySQL.mysqlServiceManager server :=
  MySQL.mkMySQL (mkToy false 0 ∅ "" "") "" "repl" "secret" false.

Lemma SetReadOnlyManually_witness :
  exists q, sql_writable q = false /\
    Mysql.GetRunningDDLCount q = (inl 0, MySQL.db (MySQL.SetReadOnlyManually toy_manager).2).
Proof.
  destruct (MySQLProofs.SetReadOnlyManually_spec toy_manager (MySQL.SetReadOnlyManually toy_manager).2 true None)
    as [(_ & _ & _ & _ & H) | (H & _)]; [vm_compute; reflexivity|exact H|discriminate H].
Defined.

End ToyMySQL.
