(* ===== verification/Demo.v ===== *)
(** * A small concrete cluster, on which the theorems are instantiated

    Three agents of one cluster, a MySQL server that obeys [MySQLServerOk]
    and an empty etcd store. *)

From stdpp Require Import gmap strings list.
From Stdlib Require Import ZArith.
From S2P Require Import Prelude GoStrings Etcd World ServiceManager.
Import Mvcc.

Definition demo_cfg : Config :=
  mkConfig "orders" 10 3 "/data" "" false "/dbproxy/" "root" 5 "mysql"
           "10.0.0.1:3306" "10.0.0.1:3306" (500 * Millisecond).

Definition demo_id : string := "10.0.0.1:3306".
Definition other_id : string := "10.0.0.2:3306".

Definition demo_uuid : string := "53ea0ed1-9bf8-11e6-8bea-64006a897c73".

Definition demo_service : Type := @MySQL.mysqlServiceManager ToyMySQL.server.

Definition demo_slave_status : gmap string string :=
  list_to_map [("Master_UUID", demo_uuid); ("Executed_Gtid_Set", demo_uuid +:+ ":1-41");
               ("Slave_IO_Running", "Yes"); ("Slave_SQL_Running", "Yes");
               ("Seconds_Behind_Master", "0"); ("Relay_Master_Log_File", "mysql-bin.000001");
               ("Exec_Master_Log_Pos", "154")].

(** A read-only replica whose next [n] statements fail. *)
Definition demo_db (n : nat) : demo_service :=
  MySQL.mkMySQL (ToyMySQL.mkToy true n demo_slave_status (demo_uuid +:+ ":1-41") demo_uuid)
                "" "repl" "secret" true.

Definition empty_store : Store := mkStore ∅ 1 ∅ 1.

Lemma empty_store_wf : store_wf empty_store.
Proof. by repeat split. Qed.

Definition demo_world (st : Store) (o : list tick) : world demo_service :=
  mkWorld new_Server init_latestPos st (demo_db 0) 0 o [].

Lemma demo_id_plain : plain_elem demo_id = true.
Proof. reflexivity. Qed.
Lemma other_id_plain : plain_elem other_id = true.
Proof. reflexivity. Qed.
