(* ===== verification/Leader.v ===== *)
(** * Leadership in etcd: [agent/leader.go], the transactions of
    [agent/single_point.go], and [agent/cleaner.go]

    The leader of a cluster is the node whose ID is the value of the key
    [master].  It is written by a campaign (if the key is absent) or renewed by
    its owner (if the key holds its ID), in the same transaction as the
    metadata of the term: term, ID, last UUID, last transaction and GTID set.
    The key is attached to a lease, except in single point mode.

    The theorems: what each transaction writes and under which condition; that
    [getLeaderAndMyTerm] reads back what a campaign wrote; that no agent
    removes or takes over the key of another one while its lease lives. *)

From stdpp Require Import gmap strings list.
From Stdlib Require Import ZArith Lia.
From S2P Require Import Prelude GoStrings Etcd World ServiceManager Demo.
Import Mvcc.

(** ** Paths *)

Definition join (p : list string) : string := path_Join p.

Definition electionPath : string := "election".
Definition leaderPath : string := "master".
Definition termPath : string := join [electionPath; "master"; "term"].
Definition idPath : string := join [electionPath; "master"; "id"].
Definition lastUUIDPath : string := join [electionPath; "master"; "last_uuid"].
Definition lastGTIDPath : string := join [electionPath; "master"; "last_gtid"].
Definition lastTxnIDPath : string := join [electionPath; "master"; "last_txnid"].
Definition metaVersionPath : string := join [electionPath; "master"; "meta_version"].
Definition mytermPathPrefix : string := join [electionPath; "terms"].
Definition spmPath : string := "single_point_master".

Definition globalSchemaVersion : Z := 2.

(** ** The leader as read from etcd *)

Record LeaderMeta := mkLeaderMeta {
  meta_name : string;
  meta_term : Z;
  meta_lastUUID : string;
  meta_lastGTID : string;
  meta_lastTxnID : Z;
  meta_version : Z
}.

Record Leader := mkLeader {
  name : string;
  kv : option KeyValue;
  meta : LeaderMeta;
  spm : string
}.

Definition zero_LeaderMeta : LeaderMeta := mkLeaderMeta "" 0 "" "" 0 0.
Definition zero_Leader : Leader := mkLeader "" None zero_LeaderMeta "".

Definition set_meta (f : LeaderMeta -> LeaderMeta) (l : Leader) : Leader :=
  mkLeader (name l) (kv l) (f (meta l)) (spm l).

(** [Concatenate] of [agent/util.go] *)
Definition Concatenate (arrays : list (list Op)) : list Op :=
  match arrays with
  | [] => []
  | first :: rest => fold_left (fun r element => r ++ element) rest first
  end.

Section Leader.
Context {D : Type} `{ServiceManager D}.
Context (cfg : Config) (node_ID : string).

(** The root path [NewClientFromCfg] gives the client. *)
Definition rootPath : string := Client.keyWithPrefix (EtcdRootPath cfg) (ClusterName cfg).

(** [leaderValue], set by [Start]. *)
Definition leaderValue : string := node_ID.

Definition fullPathOf (relativePath : string) : string :=
  Client.KeyWithRootPath rootPath relativePath.
Definition fullLeaderPath : string := fullPathOf leaderPath.
Definition myTermPath : string := join [mytermPathPrefix; node_ID].

Definition isSameLeader (leaderID : string) : bool := String.eqb leaderID node_ID.

(** ** Requests *)

Definition leaderCmp : Cmp := CmpValue (Client.KeyWithRootPath rootPath leaderPath) leaderValue.

Definition leaderGetOps : list Op :=
  [OpGet (fullPathOf leaderPath); OpGet (fullPathOf termPath); OpGet (fullPathOf idPath);
   OpGet (fullPathOf metaVersionPath); OpGet (fullPathOf lastUUIDPath);
   OpGet (fullPathOf lastTxnIDPath); OpGet (fullPathOf lastGTIDPath)].

(** A negative lease means no lease. *)
Definition leaderPutOps (s : Server) (leaseID t : Z) : list Op :=
  let lease := if leaseID <? 0 then 0 else leaseID in
  [OpPut (fullPathOf leaderPath) leaderValue lease;
   OpPut (fullPathOf termPath) (FormatUint t) 0;
   OpPut (fullPathOf idPath) node_ID 0;
   OpPut (fullPathOf metaVersionPath) (FormatInt globalSchemaVersion) lease;
   OpPut (fullPathOf lastTxnIDPath) (FormatUint (lastTxnID s)) 0;
   OpPut (fullPathOf lastUUIDPath) (lastUUID s) 0;
   OpPut (fullPathOf lastGTIDPath) (lastGTID s) 0].

Definition myTermGetOps : list Op := [OpGet (fullPathOf myTermPath)].

Definition myTermPutOps (s : Server) (increment : bool) : list Op :=
  let t := if increment then u64 (term s + 1) else 0 in
  [OpPut (fullPathOf myTermPath) (FormatUint t) 0].

Definition spmGetOps : list Op := [OpGet (fullPathOf spmPath)].
Definition spmPutOps : list Op := [OpPut (fullPathOf spmPath) node_ID 0].

(** A transaction, with the answer recorded in the trace. *)
Definition commit (rt : TxnRequest) : M D (result TxnResponse) :=
  let! r := etcd_call (Txn rt) in
  do! log_event (ETxn rt (match r with inl resp => Some (Succeeded resp) | inr _ => None end)) in
  ret r.

(** ** [getLeaderAndMyTerm] *)

(** One answer of the transaction: the [switch] on its key. *)
Definition read_response (acc : Leader * Z) (resp : Response) : result (Leader * Z) :=
  let '(l, myTerm) := acc in
  match resp with
  | ResponseRange (Some (key, kv0)) =>
      let v := Value kv0 in
      if String.eqb key (fullPathOf leaderPath) then inl (mkLeader v (Some kv0) (meta l) (spm l), myTerm)
      else if String.eqb key (fullPathOf termPath) then
        match Atoi v with
        | inr e => inr e
        | inl t => inl (set_meta (fun m => mkLeaderMeta (meta_name m) (u64 t) (meta_lastUUID m)
                                    (meta_lastGTID m) (meta_lastTxnID m) (meta_version m)) l, myTerm)
        end
      else if String.eqb key (fullPathOf idPath) then
        inl (set_meta (fun m => mkLeaderMeta v (meta_term m) (meta_lastUUID m)
                         (meta_lastGTID m) (meta_lastTxnID m) (meta_version m)) l, myTerm)
      else if String.eqb key (fullPathOf lastUUIDPath) then
        inl (set_meta (fun m => mkLeaderMeta (meta_name m) (meta_term m) v
                         (meta_lastGTID m) (meta_lastTxnID m) (meta_version m)) l, myTerm)
      else if String.eqb key (fullPathOf lastGTIDPath) then
        inl (set_meta (fun m => mkLeaderMeta (meta_name m) (meta_term m) (meta_lastUUID m)
                         v (meta_lastTxnID m) (meta_version m)) l, myTerm)
      else if String.eqb key (fullPathOf metaVersionPath) then
        match Atoi v with
        | inr _ => inl (l, myTerm)
        | inl n => inl (set_meta (fun m => mkLeaderMeta (meta_name m) (meta_term m) (meta_lastUUID m)
                                    (meta_lastGTID m) (meta_lastTxnID m) n) l, myTerm)
        end
      else if String.eqb key (fullPathOf lastTxnIDPath) then
        match ParseUint v with
        | inr _ => inl (l, myTerm)
        | inl n => inl (set_meta (fun m => mkLeaderMeta (meta_name m) (meta_term m) (meta_lastUUID m)
                                    (meta_lastGTID m) n (meta_version m)) l, myTerm)
        end
      else if String.eqb key (fullPathOf spmPath) then inl (mkLeader (name l) (kv l) (meta l) v, myTerm)
      else if String.eqb key (fullPathOf myTermPath) then
        match ParseUint v with
        | inr _ => inr NotValidf
        | inl t => inl (l, t)
        end
      else inl (l, myTerm)
  | _ => inl (l, myTerm)
  end.

Fixpoint read_responses (acc : Leader * Z) (rs : list Response) : result (Leader * Z) :=
  match rs with
  | [] => inl acc
  | r :: rs' => match read_response acc r with
                | inl acc' => read_responses acc' rs'
                | inr e => inr e
                end
  end.

Definition getLeader_txn : TxnRequest :=
  mkTxn [] (Concatenate [leaderGetOps; myTermGetOps; spmGetOps]).

Definition getLeaderAndMyTerm : M D (result (Leader * Z)) :=
  let! r := commit getLeader_txn in
  match r with
  | inr e => ret (inr e)
  | inl resp => ret (read_responses (zero_Leader, 0) (Responses resp))
  end.

(** ** Writing the leader key *)

Definition deleteLeader_txn : TxnRequest :=
  mkTxn [leaderCmp] [OpDelete fullLeaderPath; OpDelete (fullPathOf metaVersionPath)].

Definition deleteLeaderKey : M D (option error) :=
  let! r := commit deleteLeader_txn in
  match r with
  | inr e => ret (Some e)
  | inl resp => if Succeeded resp then ret None
                else ret (Some (Errorf "resign leader failed, we are not leader already"))
  end.

(** [updateLeaseExpireTS]: the second in which the lease may expire, less the
    shutdown threshold. *)
Definition updateLeaseExpireTS : M D unit :=
  fun w => (Ret tt, with_srv (set_leaseExpireTS
    ((now w + LeaderLeaseTTL cfg * Second - ShutdownThreshold cfg * Second) / Second)) w).

Definition resume_txn (s : Server) (lease : Z) : TxnRequest :=
  mkTxn [leaderCmp] (leaderPutOps s lease (term s)).

Definition resumeLeader : M D (result (option Z)) :=
  let! lr := etcd_call (Grant (LeaderLeaseTTL cfg)) in
  match lr with
  | inr e => ret (inr e)
  | inl leaseID =>
      let! s := gets id in
      let! r := commit (resume_txn s leaseID) in
      match r with
      | inr e => ret (inr e)
      | inl resp =>
          if Succeeded resp then do! updateLeaseExpireTS in ret (inl (Some leaseID))
          else ret (inl None)
      end
  end.

Definition campaign_txn (s : Server) (lease : Z) : TxnRequest :=
  mkTxn [CmpCreateRevision fullLeaderPath 0]
        (leaderPutOps s lease (u64 (term s + 1)) ++ myTermPutOps s true).

Definition campaignLeader : M D (result (option Z)) :=
  let! lr := etcd_call (Grant (LeaderLeaseTTL cfg)) in
  match lr with
  | inr e => ret (inr e)
  | inl leaseID =>
      let! s := gets id in
      let! r := commit (campaign_txn s leaseID) in
      match r with
      | inr e => ret (inr e)
      | inl resp => if Succeeded resp then ret (inl (Some leaseID)) else ret (inl None)
      end
  end.

(** [agent/single_point.go] *)
Definition campaignSinglePoint_txn (s : Server) : TxnRequest :=
  mkTxn [CmpCreateRevision fullLeaderPath 0]
        (Concatenate [leaderPutOps s (-1) (u64 (term s + 1)); myTermPutOps s true; spmPutOps]).

Definition campaignLeaderAsSinglePoint : M D (result bool) :=
  let! s := gets id in
  let! r := commit (campaignSinglePoint_txn s) in
  match r with
  | inr e => ret (inr e)
  | inl resp => ret (inl (Succeeded resp))
  end.

Definition resumeSinglePoint_txn (s : Server) : TxnRequest :=
  mkTxn [leaderCmp]
        (Concatenate [leaderPutOps s (-1) (term s); myTermPutOps s false; spmPutOps]).

Definition resumeLeaderAsSinglePoint : M D (result bool) :=
  let! s := gets id in
  let! r := commit (resumeSinglePoint_txn s) in
  match r with
  | inr e => ret (inr e)
  | inl resp => ret (inl (Succeeded resp))
  end.

Definition removeSPMFromEtcd : M D (option error) :=
  let! r := etcd_call (fun st => (inl tt, Client.Delete rootPath spmPath false st)) in
  ret (match r with inl _ => None | inr e => Some e end).

Definition persistMyTerm : M D (option error) :=
  let! t := gets term in
  let! r := etcd_call (Client.Put rootPath myTermPath (FormatUint t) 0) in
  ret (match r with inl _ => None | inr e => Some e end).

(** ** [watchLeader]

    What the watcher delivers is a parameter: [Watch n rev] are the responses
    of the channel of the [n]-th watch from the end, opened at revision [rev]
    (0 is the latest), until it closes. *)
Inductive EventType := PUT | DELETE.

Record WatchResponse := mkWatchResponse {
  WatchErr : option error;
  Canceled : bool;
  Events : list EventType
}.

Definition is_DELETE (t : EventType) : bool := match t with DELETE => true | PUT => false end.

(** The body of [for watchResp := range rch]: [None] when the channel closes. *)
Fixpoint watch_chan (rch : list WatchResponse) : option (option error) :=
  match rch with
  | [] => None
  | r :: rch' =>
      match WatchErr r with
      | Some e => Some (Some e)
      | None => if Canceled r then Some None
                else if existsb is_DELETE (Events r) then Some None
                else watch_chan rch'
      end
  end.

Fixpoint watchLeader (Watch : nat -> Z -> list WatchResponse) (fuel : nat) (revision : Z)
    : M D (option error) :=
  match watch_chan (Watch fuel revision) with
  | Some r => ret r
  | None =>
      let! done := gets ctxDone in
      if done then ret None
      else
        do! sleep (100 * Millisecond) in
        match fuel with
        | O => block
        | S n => watchLeader Watch n revision
        end
  end.

(** ** [agent/cleaner.go]: run by another process after exit code 3.  The node
    ID is the one [readLocalNodeID] found. *)
Definition StartClean (readLocalNodeID : result string) (st : Store) : option error * Store :=
  match readLocalNodeID with
  | inr e => (Some e, st)
  | inl nodeID =>
      let rt := mkTxn [CmpValue (Client.KeyWithRootPath rootPath leaderPath) nodeID]
                      [OpDelete (Client.KeyWithRootPath rootPath leaderPath)] in
      match Txn rt st with
      | (inr e, st') => (Some e, st')
      | (inl resp, st') =>
          (if Succeeded resp then None
           else Some (Errorf "resign leader failed, we are not leader already"), st')
      end
  end.

End Leader.

(** ** Keys *)
Section Keys.
Context (cfg : Config) (node_ID : string).

(** A key of the agent is the root path and a list of path elements. *)
Definition key_of (l : list string) : string := fullPathOf cfg (Client.elems_key l).

Definition plain_key (l : list string) : Prop :=
  l <> [] /\ Forall (fun e => plain_elem e = true) l.

Lemma key_of_inj (l1 l2 : list string) :
  plain_key l1 -> plain_key l2 -> key_of l1 = key_of l2 -> l1 = l2.
Proof. intros [? ?] [? ?]. by apply Client.KeyWithRootPath_inj. Qed.

Lemma key_of_eqb (l1 l2 : list string) :
  plain_key l1 -> plain_key l2 -> l1 <> l2 -> String.eqb (key_of l1) (key_of l2) = false.
Proof. intros H1 H2 Hne. apply String.eqb_neq. intros E. by apply Hne, key_of_inj. Qed.

Lemma NoDup_key_of (ls : list (list string)) :
  Forall plain_key ls -> NoDup ls -> NoDup (map key_of ls).
Proof.
  intros Hp Hnd. induction Hnd as [|l ls Hl Hnd IH]; [constructor|].
  apply Forall_cons in Hp as [Hp Hps]. cbn. constructor; [|auto].
  intros (l' & E & Hl')%list_elem_of_fmap. rewrite Forall_forall in Hps.
  apply key_of_inj in E; auto. by subst.
Qed.

Lemma myTermPath_elems :
  plain_elem node_ID = true -> myTermPath node_ID = Client.elems_key ["election"; "terms"; node_ID].
Proof.
  intros Hp. unfold myTermPath. change mytermPathPrefix with "election/terms".
  pose proof (path_Join_plain "election/terms" [node_ID] ltac:(done)) as E.
  cbn [Join] in E. unfold join. rewrite E; [reflexivity|by constructor].
Qed.

End Keys.

(** ** What the transactions read and write *)
Section Transactions.
Context (cfg : Config) (node_ID : string).
Context (Hid : plain_elem node_ID = true).

(** The keys the leader transactions use, as path elements. *)
Definition agent_keys : list (list string) :=
  [["master"]; ["election"; "master"; "term"]; ["election"; "master"; "id"];
   ["election"; "master"; "meta_version"]; ["election"; "master"; "last_txnid"];
   ["election"; "master"; "last_uuid"]; ["election"; "master"; "last_gtid"];
   ["election"; "terms"; node_ID]; ["single_point_master"]].

Lemma agent_keys_plain : Forall plain_key agent_keys.
Proof. repeat constructor; try done; auto. Qed.

Lemma agent_keys_NoDup : NoDup agent_keys.
Proof. unfold agent_keys. repeat (constructor; [set_solver|]). constructor. Qed.

Lemma agent_full_keys_NoDup : NoDup (map (key_of cfg) agent_keys).
Proof. apply NoDup_key_of; [apply agent_keys_plain|apply agent_keys_NoDup]. Qed.

(** The same list, with the names the code gives the paths. *)
Definition agent_paths : list string :=
  [leaderPath; termPath; idPath; metaVersionPath; lastTxnIDPath; lastUUIDPath; lastGTIDPath;
   myTermPath node_ID; spmPath].

Lemma agent_paths_NoDup : NoDup (map (fullPathOf cfg) agent_paths).
Proof.
  pose proof agent_full_keys_NoDup as Hn. unfold agent_paths.
  rewrite (myTermPath_elems node_ID Hid). exact Hn.
Qed.

(** What an agent reads: a missing key is the zero value of its field, an
    unreadable term is an error, an unreadable version or transaction id is
    the zero value. *)
Definition value_at (m : gmap string KeyValue) (path : string) : string :=
  match m !! fullPathOf cfg path with Some x => Value x | None => "" end.

Definition number_at (parse : string -> result Z) (m : gmap string KeyValue) (path : string)
    : result Z :=
  match m !! fullPathOf cfg path with Some x => parse (Value x) | None => inl 0 end.

Definition or_zero (r : result Z) : Z := match r with inl z => z | inr _ => 0 end.

Definition leader_view (m : gmap string KeyValue) : result (Leader * Z) :=
  match number_at Atoi m termPath with
  | inr e => inr e
  | inl t =>
      match number_at ParseUint m (myTermPath node_ID) with
      | inr _ => inr NotValidf
      | inl myTerm =>
          inl (mkLeader (value_at m leaderPath) (m !! fullPathOf cfg leaderPath)
                 (mkLeaderMeta (value_at m idPath) (u64 t) (value_at m lastUUIDPath)
                    (value_at m lastGTIDPath) (or_zero (number_at ParseUint m lastTxnIDPath))
                    (or_zero (number_at Atoi m metaVersionPath)))
                 (value_at m spmPath), myTerm)
      end
  end.

Lemma get_keys :
  Success (getLeader_txn cfg node_ID) =
  map OpGet (map (fullPathOf cfg)
    [leaderPath; termPath; idPath; metaVersionPath; lastUUIDPath; lastTxnIDPath; lastGTIDPath;
     myTermPath node_ID; spmPath]).
Proof. reflexivity. Qed.

(** Tests between different paths fail. *)
Ltac path_tests :=
  pose proof agent_paths_NoDup as Hnd; unfold agent_paths in Hnd; cbn [map] in Hnd;
  repeat match goal with
  | H : NoDup (_ :: _) |- _ => apply NoDup_cons in H as [? ?]
  | H : _ ∉ _ :: _ |- _ => apply not_elem_of_cons in H as [? ?]
  end;
  repeat match goal with
  | |- context [String.eqb ?a ?a] => rewrite (String.eqb_refl a)
  | |- context [String.eqb ?a ?b] =>
      replace (String.eqb a b) with false by (symmetry; apply String.eqb_neq; first [assumption|apply not_eq_sym; assumption])
  end.

(** One lemma for each key; the field it fills is still zero. *)
Ltac read_one m l :=
  intros; unfold range_of, value_at, number_at;
  match goal with |- context [m !! ?k] => destruct (m !! k) end; cbn;
  [ path_tests; repeat break_match; try reflexivity; destruct l as [? ? [] ?]; cbn in *; by subst
  | destruct l as [? ? [] ?]; cbn in *; subst; reflexivity ].

Lemma read_leader (m : gmap string KeyValue) (l : Leader) (t : Z) :
  name l = "" -> kv l = None ->
  read_response cfg node_ID (l, t) (range_of m (fullPathOf cfg leaderPath)) =
  inl (mkLeader (value_at m leaderPath) (m !! fullPathOf cfg leaderPath) (meta l) (spm l), t).
Proof. read_one m l. Qed.

Lemma read_term (m : gmap string KeyValue) (l : Leader) (t : Z) :
  meta_term (meta l) = 0 ->
  read_response cfg node_ID (l, t) (range_of m (fullPathOf cfg termPath)) =
  match number_at Atoi m termPath with
  | inl z => inl (mkLeader (name l) (kv l)
         (mkLeaderMeta (meta_name (meta l)) (u64 z) (meta_lastUUID (meta l)) (meta_lastGTID (meta l)) (meta_lastTxnID (meta l)) (meta_version (meta l))) (spm l), t)
  | inr e => inr e
  end.
Proof. read_one m l. Qed.

Lemma read_id (m : gmap string KeyValue) (l : Leader) (t : Z) :
  meta_name (meta l) = "" ->
  read_response cfg node_ID (l, t) (range_of m (fullPathOf cfg idPath)) =
  inl (mkLeader (name l) (kv l)
         (mkLeaderMeta (value_at m idPath) (meta_term (meta l)) (meta_lastUUID (meta l)) (meta_lastGTID (meta l)) (meta_lastTxnID (meta l)) (meta_version (meta l))) (spm l), t).
Proof. read_one m l. Qed.

Lemma read_version (m : gmap string KeyValue) (l : Leader) (t : Z) :
  meta_version (meta l) = 0 ->
  read_response cfg node_ID (l, t) (range_of m (fullPathOf cfg metaVersionPath)) =
  inl (mkLeader (name l) (kv l)
         (mkLeaderMeta (meta_name (meta l)) (meta_term (meta l)) (meta_lastUUID (meta l)) (meta_lastGTID (meta l)) (meta_lastTxnID (meta l)) (or_zero (number_at Atoi m metaVersionPath))) (spm l), t).
Proof. read_one m l. Qed.

Lemma read_uuid (m : gmap string KeyValue) (l : Leader) (t : Z) :
  meta_lastUUID (meta l) = "" ->
  read_response cfg node_ID (l, t) (range_of m (fullPathOf cfg lastUUIDPath)) =
  inl (mkLeader (name l) (kv l)
         (mkLeaderMeta (meta_name (meta l)) (meta_term (meta l)) (value_at m lastUUIDPath) (meta_lastGTID (meta l)) (meta_lastTxnID (meta l)) (meta_version (meta l))) (spm l), t).
Proof. read_one m l. Qed.

Lemma read_txnid (m : gmap string KeyValue) (l : Leader) (t : Z) :
  meta_lastTxnID (meta l) = 0 ->
  read_response cfg node_ID (l, t) (range_of m (fullPathOf cfg lastTxnIDPath)) =
  inl (mkLeader (name l) (kv l)
         (mkLeaderMeta (meta_name (meta l)) (meta_term (meta l)) (meta_lastUUID (meta l)) (meta_lastGTID (meta l)) (or_zero (number_at ParseUint m lastTxnIDPath)) (meta_version (meta l))) (spm l), t).
Proof. read_one m l. Qed.

Lemma read_gtid (m : gmap string KeyValue) (l : Leader) (t : Z) :
  meta_lastGTID (meta l) = "" ->
  read_response cfg node_ID (l, t) (range_of m (fullPathOf cfg lastGTIDPath)) =
  inl (mkLeader (name l) (kv l)
         (mkLeaderMeta (meta_name (meta l)) (meta_term (meta l)) (meta_lastUUID (meta l)) (value_at m lastGTIDPath) (meta_lastTxnID (meta l)) (meta_version (meta l))) (spm l), t).
Proof. read_one m l. Qed.

Lemma read_myterm (m : gmap string KeyValue) (l : Leader) (t : Z) :
  t = 0 ->
  read_response cfg node_ID (l, t) (range_of m (fullPathOf cfg (myTermPath node_ID))) =
  match number_at ParseUint m (myTermPath node_ID) with
  | inl z => inl (l, z)
  | inr _ => inr NotValidf
  end.
Proof. read_one m l. Qed.

Lemma read_spm (m : gmap string KeyValue) (l : Leader) (t : Z) :
  spm l = "" ->
  read_response cfg node_ID (l, t) (range_of m (fullPathOf cfg spmPath)) =
  inl (mkLeader (name l) (kv l) (meta l) (value_at m spmPath), t).
Proof. read_one m l. Qed.

Ltac leader_fields :=
  cbn [zero_Leader zero_LeaderMeta name kv meta spm meta_name meta_term meta_lastUUID
       meta_lastGTID meta_lastTxnID meta_version].

Lemma read_view (m : gmap string KeyValue) :
  read_responses cfg node_ID (zero_Leader, 0)
    (map (range_of m) (map (fullPathOf cfg)
      [leaderPath; termPath; idPath; metaVersionPath; lastUUIDPath; lastTxnIDPath; lastGTIDPath;
       myTermPath node_ID; spmPath])) = leader_view m.
Proof.
  unfold leader_view. cbn [map read_responses].
  rewrite read_leader by done. leader_fields.
  rewrite read_term by done. destruct (number_at Atoi m termPath) as [t|e]; [|done]. leader_fields.
  rewrite read_id by done. leader_fields. rewrite read_version by done. leader_fields.
  rewrite read_uuid by done. leader_fields. rewrite read_txnid by done. leader_fields.
  rewrite read_gtid by done. leader_fields. rewrite read_myterm by done.
  destruct (number_at ParseUint m (myTermPath node_ID)) as [mt|e]; [|done].
  by rewrite read_spm.
Qed.

(** *** Writes *)

Lemma put_keys_sublist (ops : list Op) (rest : list string) :
  map put_key ops ++ map Some rest = map Some (map (fullPathOf cfg) agent_paths) ->
  NoDup (map put_key ops).
Proof.
  intros E. assert (Hn : NoDup (map Some (map (fullPathOf cfg) agent_paths))).
  { apply NoDup_fmap_2; [exact _|apply agent_paths_NoDup]. }
  rewrite <- E in Hn. apply NoDup_app in Hn as [Hn _]. exact Hn.
Qed.

Lemma campaign_ops_NoDup (s : Server) (l t : Z) :
  NoDup (map put_key (leaderPutOps cfg node_ID s l t ++ myTermPutOps cfg node_ID s true)).
Proof. by apply (put_keys_sublist _ [fullPathOf cfg spmPath]). Qed.

Lemma resume_ops_NoDup (s : Server) (l t : Z) :
  NoDup (map put_key (leaderPutOps cfg node_ID s l t)).
Proof.
  by apply (put_keys_sublist _ [fullPathOf cfg (myTermPath node_ID); fullPathOf cfg spmPath]).
Qed.

Lemma single_point_ops_NoDup (s : Server) (t : Z) (inc : bool) :
  NoDup (map put_key (Concatenate [leaderPutOps cfg node_ID s (-1) t;
                                   myTermPutOps cfg node_ID s inc; spmPutOps cfg node_ID])).
Proof. by apply (put_keys_sublist _ []). Qed.

(** A transaction of puts to different keys, when its comparison holds and its
    lease exists. *)
Lemma puts_txn (cs : list Cmp) (ops : list Op) (st : Store) :
  applyCompares (kvs st) cs = true -> forallb (checkPut st) ops = true ->
  Forall (fun op => is_Some (put_key op)) ops -> NoDup (map put_key ops) ->
  (exists rs, (Txn (mkTxn cs ops) st).1 = inl (mkTxnResp true rs)) /\
  (forall k v l, OpPut k v l ∈ ops ->
     exists x, kvs (Txn (mkTxn cs ops) st).2 !! k = Some x /\ Value x = v /\ Lease x = l) /\
  (forall k, Forall (fun op => touches op k = false) ops ->
     kvs (Txn (mkTxn cs ops) st).2 !! k = kvs st !! k).
Proof.
  intros Hc Hl Hp Hnd. destruct (Txn_succeeded (mkTxn cs ops) st Hc Hl) as (Hr & Hk & _).
  split_and!; [eauto| |]; rewrite Hk; cbn [Success].
  - intros k v l Hin. destruct (applyOps_puts (currentRev st) ops k v l (kvs st) Hp Hnd Hin)
      as (x & ? & ? & ? & ?). eauto.
  - intros k Hu. by apply applyOps_untouched.
Qed.

Lemma put_ops_puts (s : Server) (l t : Z) :
  Forall (fun op => is_Some (put_key op)) (leaderPutOps cfg node_ID s l t).
Proof. repeat constructor; eauto. Qed.

Lemma put_ops_lease (st : Store) (s : Server) (l t : Z) :
  l < 0 \/ is_Some (leases st !! l) ->
  forallb (checkPut st) (leaderPutOps cfg node_ID s l t) = true.
Proof.
  intros Hl. unfold leaderPutOps. cbn. destruct (l <? 0) eqn:E; [reflexivity|].
  bool_to_prop. destruct Hl as [?|Hl]; [lia|]. rewrite (bool_decide_eq_true_2 _ Hl).
  by rewrite orb_true_r.
Qed.

(** The view of a store in which the leader operations of [node_ID] were applied. *)
Lemma view_written (m : gmap string KeyValue) (s : Server) (l t mt : Z) (v_spm : string) :
  (forall k v x, OpPut k v x ∈ leaderPutOps cfg node_ID s l t ->
     exists y, m !! k = Some y /\ Value y = v /\ Lease y = x) ->
  0 <= t < two63 -> is_u64 (lastTxnID s) ->
  number_at ParseUint m (myTermPath node_ID) = inl mt -> value_at m spmPath = v_spm ->
  exists x, Lease x = (if l <? 0 then 0 else l) /\
    leader_view m =
    inl (mkLeader node_ID (Some x)
           (mkLeaderMeta node_ID t (lastUUID s) (lastGTID s) (lastTxnID s) globalSchemaVersion)
           v_spm, mt).
Proof.
  intros Hw Ht Hx Hmt Hs.
  assert (Hv : forall p v y, OpPut (fullPathOf cfg p) v y ∈ leaderPutOps cfg node_ID s l t ->
                             value_at m p = v /\ forall f, number_at f m p = f v).
  { intros p v y Hin. unfold value_at, number_at. destruct (Hw _ _ _ Hin) as (z & -> & -> & _). auto. }
  unfold leader_view. rewrite Hmt, Hs.
  rewrite (proj2 (Hv termPath (FormatUint t) 0 ltac:(set_solver))), Atoi_FormatUint by lia.
  destruct (Z.ltb_spec t two63) as [_|]; [|lia].
  destruct (Hw (fullPathOf cfg leaderPath) node_ID _ ltac:(left)) as (x & Ex & Evx & Elx).
  exists x. split; [exact Elx|]. unfold value_at at 1. rewrite Ex, Evx.
  rewrite (proj1 (Hv idPath node_ID 0 ltac:(set_solver))).
  rewrite (proj1 (Hv lastUUIDPath (lastUUID s) 0 ltac:(set_solver))).
  rewrite (proj1 (Hv lastGTIDPath (lastGTID s) 0 ltac:(set_solver))).
  rewrite (proj2 (Hv lastTxnIDPath (FormatUint (lastTxnID s)) 0 ltac:(set_solver))).
  rewrite ParseUint_FormatUint by done.
  rewrite (proj2 (Hv metaVersionPath (FormatInt globalSchemaVersion) (if l <? 0 then 0 else l) ltac:(set_solver))).
  rewrite u64_small by (unfold is_u64, two64, two63 in *; lia). reflexivity.
Qed.

End Transactions.

(** ** What the agent sees of a transaction *)
Section Commit.
Context {D : Type} `{ServiceManager D}.

Lemma commit_ret (rt : TxnRequest) (w : world D) :
  exists r w', commit rt w = (Ret r, w') /\ srv w' = srv w /\ svc w' = svc w /\
    latestPos w' = latestPos w /\ now w' = now (arrival w) /\ oracle w' = oracle (arrival w) /\
    trace w' = ETxn rt (match r with inl resp => Some (Succeeded resp) | inr _ => None end) :: trace w /\
    (etcd w' = etcd (arrival w) \/ etcd w' = (Txn rt (etcd (arrival w))).2).
Proof.
  unfold commit, bind. destruct (etcd_call_ret (Txn rt) w) as (r & st & -> & Hst).
  do 2 eexists. split; [reflexivity|]. cbn. split_and!; auto. naive_solver.
Qed.

Lemma commit_inl (rt : TxnRequest) (w w' : world D) (resp : TxnResponse) :
  commit rt w = (Ret (inl resp), w') ->
  ctxDone (srv w) = false /\ Txn rt (etcd (arrival w)) = (inl resp, etcd w') /\ srv w' = srv w.
Proof.
  unfold commit, bind. destruct (etcd_call (Txn rt) w) as [[r| | |] w1] eqn:E; try done.
  cbn. intros [= -> <-]. apply etcd_call_inl in E as (Hc & Hf & Hw). rewrite Hw. auto.
Qed.

Context (cfg : Config) (node_ID : string) (Hid : plain_elem node_ID = true).

(** A campaign that won: the world of its transaction. *)
Lemma campaignLeader_won (w w' : world D) (l : Z) :
  campaignLeader cfg node_ID w = (Ret (inl (Some l)), w') ->
  exists st rs, fst (Grant (LeaderLeaseTTL cfg) (etcd (arrival w))) = inl l /\ srv w' = srv w /\
    st = etcd (arrival (snd (etcd_call (Grant (LeaderLeaseTTL cfg)) w))) /\
    Txn (campaign_txn cfg node_ID (srv w) l) st = (inl (mkTxnResp true rs), etcd w').
Proof.
  unfold campaignLeader, bind at 1.
  destruct (etcd_call (Grant (LeaderLeaseTTL cfg)) w) as [[[l0|e]| | |] w1] eqn:E1; try done.
  apply etcd_call_inl in E1 as (Hc & Hg & Hw1).
  assert (Hs : srv w1 = srv w) by (by rewrite Hw1).
  unfold bind, gets; cbn. rewrite Hs.
  destruct (commit (campaign_txn cfg node_ID (srv w) l0) w1) as [[[[[] rs]|e]| | |] w2] eqn:E2;
    cbn; try done.
  intros [= <- <-]. apply commit_inl in E2 as (_ & E2 & Hs2).
  exists (etcd (arrival w1)), rs. rewrite Hs2, Hs. split_and!; [exact (f_equal fst Hg)|auto..].
Qed.

(** A campaign that lost, with an answer. *)
Lemma campaignLeader_lost (w w' : world D) :
  campaignLeader cfg node_ID w = (Ret (inl None), w') ->
  exists l, applyCompares (kvs (etcd w')) (Compare (campaign_txn cfg node_ID (srv w) l)) = false.
Proof.
  unfold campaignLeader, bind at 1.
  destruct (etcd_call (Grant (LeaderLeaseTTL cfg)) w) as [[[l0|e]| | |] w1] eqn:E1; try done.
  apply etcd_call_inl in E1 as (Hc & _ & Hw1).
  assert (Hs : srv w1 = srv w) by (by rewrite Hw1).
  unfold bind, gets; cbn. rewrite Hs.
  destruct (commit (campaign_txn cfg node_ID (srv w) l0) w1) as [[[[[] rs]|e]| | |] w2] eqn:E2;
    cbn; try done.
  intros [= <-]. apply commit_inl in E2 as (_ & E2 & Hs2).
  apply Txn_false in E2 as [Hf ->]. by exists l0.
Qed.

Lemma keeps_commit (I : Store -> Prop) (rt : TxnRequest) :
  (forall st, I st -> I (Txn rt st).2) -> keeps (store_inv I) (commit (D := D) rt).
Proof.
  intros Hf. unfold commit. repeat keeps_step.
  - by apply keeps_etcd_call.
  - by apply keeps_store_inv.
Qed.

(** The store a campaign finds is well formed when the others keep it so. *)
Lemma campaign_found_wf (w : world D) :
  store_wf (etcd w) -> Forall (tick_keeps store_wf) (oracle w) ->
  store_wf (etcd (arrival (snd (etcd_call (Grant (LeaderLeaseTTL cfg)) w)))).
Proof.
  intros Hst Ho.
  destruct (keeps_etcd_call store_wf (Grant (LeaderLeaseTTL cfg)) (fun st => Grant_wf _ st) w)
    as [H1 H2]; [done|]. by apply arrival_keeps.
Qed.

Lemma keeps_campaign_wf : keeps (store_inv store_wf) (campaignLeader (D := D) cfg node_ID).
Proof.
  unfold campaignLeader. repeat keeps_step.
  - apply keeps_etcd_call. auto with moha.
  - apply keeps_commit. auto with moha.
Qed.

(** A won campaign in terms of the store it found. *)
Lemma campaign_won_store (st st' : Store) (s : Server) (l : Z) (rs : list Response) :
  store_wf st ->
  Txn (campaign_txn cfg node_ID s l) st = (inl (mkTxnResp true rs), st') ->
  kvs st !! fullLeaderPath cfg = None /\
  (forall k v x, OpPut k v x ∈ Success (campaign_txn cfg node_ID s l) ->
     exists y, kvs st' !! k = Some y /\ Value y = v /\ Lease y = x) /\
  kvs st' !! fullPathOf cfg spmPath = kvs st !! fullPathOf cfg spmPath.
Proof.
  intros Hwf E. destruct (Txn_true _ _ _ _ E) as [Hc Hl].
  destruct (puts_txn (Compare (campaign_txn cfg node_ID s l)) (Success (campaign_txn cfg node_ID s l)) st Hc Hl)
    as (_ & Hput & Hsame).
  { apply Forall_app; split; [apply put_ops_puts|repeat constructor; eauto]. }
  { by apply campaign_ops_NoDup. }
  change (mkTxn _ _) with (campaign_txn cfg node_ID s l) in Hput, Hsame.
  rewrite E in Hput, Hsame. cbn [snd] in Hput, Hsame. split_and!; auto.
  - apply create_revision_zero; [done|]. cbn [Compare campaign_txn applyCompares forallb] in Hc.
    by rewrite andb_true_r in Hc.
  - apply Hsame. pose proof (agent_paths_NoDup cfg node_ID Hid) as Hnd. unfold agent_paths in Hnd.
    cbn [map] in Hnd. repeat match goal with
    | H : NoDup (_ :: _) |- _ => apply NoDup_cons in H as [? ?]
    | H : _ ∉ _ :: _ |- _ => apply not_elem_of_cons in H as [? ?]
    end.
    repeat constructor; cbn; apply String.eqb_neq; assumption.
Qed.

Lemma granted_positive (w : world D) (l : Z) :
  store_wf (etcd w) -> Forall (tick_keeps store_wf) (oracle w) ->
  fst (Grant (LeaderLeaseTTL cfg) (etcd (arrival w))) = inl l -> 1 <= l.
Proof.
  intros Hst Ho. destruct (arrival_keeps store_wf w Ho Hst) as [(_ & Hn & _) _].
  unfold Grant. destruct (_ <? _); [done|]. cbn. by intros [= <-].
Qed.

Lemma campaign_returns (w : world D) : exists r w', campaignLeader cfg node_ID w = (Ret r, w').
Proof.
  unfold campaignLeader, bind at 1.
  destruct (etcd_call_ret (Grant (LeaderLeaseTTL cfg)) w) as ([l|e] & st & -> & _); [|eauto].
  unfold bind, gets, ret at 1.
  destruct (commit_ret (campaign_txn cfg node_ID (id (srv (with_etcd st (arrival w)))) l)
              (with_etcd st (arrival w))) as ([resp|e] & w2 & -> & _); [|eauto].
  destruct (Succeeded resp); eauto.
Qed.

(** An undisturbed [getLeaderAndMyTerm] is [leader_view]. *)
Lemma getLeader_quiet (w : world D) :
  oracle w = [] -> ctxDone (srv w) = false ->
  exists w', getLeaderAndMyTerm cfg node_ID w = (Ret (leader_view cfg node_ID (kvs (etcd w))), w') /\
    etcd w' = etcd w.
Proof.
  intros Ho Hc. unfold getLeaderAndMyTerm, commit, bind.
  destruct (etcd_call_quiet (Txn (getLeader_txn cfg node_ID)) w Ho Hc) as [-> _].
  unfold getLeader_txn. rewrite <- (read_view cfg node_ID Hid).
  change (Concatenate [leaderGetOps cfg; myTermGetOps cfg node_ID; spmGetOps cfg])
    with (Success (getLeader_txn cfg node_ID)). rewrite get_keys, Txn_gets. cbn [fst snd].
  eexists. split; reflexivity.
Qed.

(** C3. A campaign is exclusive: the agent is told that it won only if, when
    etcd applied its transaction, no leader key existed, and then the key holds
    its ID under its new lease; it is told that it lost only if somebody holds
    the key.  This holds whatever the other agents do in between. *)
Theorem campaign_exclusive (w w' : world D) (o : outcome (result (option Z))) :
  store_wf (etcd w) -> Forall (tick_keeps store_wf) (oracle w) ->
  campaignLeader cfg node_ID w = (o, w') ->
  store_wf (etcd w') /\
  match o with
  | Ret (inl (Some l)) =>
      exists st, store_wf st /\ kvs st !! fullLeaderPath cfg = None /\
        etcd w' = (Txn (campaign_txn cfg node_ID (srv w) l) st).2 /\
        exists x, kvs (etcd w') !! fullLeaderPath cfg = Some x /\
          Value x = node_ID /\ Lease x = l
  | Ret (inl None) => is_Some (kvs (etcd w') !! fullLeaderPath cfg)
  | Ret (inr _) => True
  | _ => False
  end.
Proof.
  intros Hst Ho E. destruct (keeps_campaign_wf w (conj Hst Ho)) as [Hwf _].
  rewrite E in Hwf. cbn in Hwf. split; [done|].
  destruct o as [[[l|]|e]| | |].
  - destruct (campaignLeader_won w w' l E) as (st & rs & Hg & _ & Hfound & Htx).
    assert (Hs : store_wf st) by (rewrite Hfound; by apply campaign_found_wf).
    destruct (campaign_won_store st (etcd w') (srv w) l rs Hs Htx) as (Ha & Hput & _).
    exists st. rewrite Htx. split_and!; auto.
    destruct (Hput _ _ _ (list_elem_of_here _ _)) as (x & ? & ? & Hl). exists x. split_and!; auto.
    rewrite Hl. destruct (Z.ltb_spec l 0); [|done].
    pose proof (granted_positive w l Hst Ho Hg). lia.
  - destruct (campaignLeader_lost w w' E) as [l Hc].
    destruct (kvs (etcd w') !! fullLeaderPath cfg) eqn:Ek; [done|].
    cbn [campaign_txn Compare applyCompares forallb applyCompare] in Hc.
    rewrite Ek in Hc. discriminate Hc.
  - done.
  - pose proof (campaign_returns w) as (r & w1 & E1). by rewrite E1 in E.
  - pose proof (campaign_returns w) as (r & w1 & E1). by rewrite E1 in E.
  - pose proof (campaign_returns w) as (r & w1 & E1). by rewrite E1 in E.
Qed.

(** C13. What a campaign writes is what the agents read: after a won campaign an
    undisturbed [getLeaderAndMyTerm] returns this node as the leader of the next
    term with the log it campaigned with, and that term as its own. *)
Theorem campaign_round_trip (w w' w2 : world D) (l : Z) :
  store_wf (etcd w) -> Forall (tick_keeps store_wf) (oracle w) ->
  0 <= term (srv w) < two63 - 1 -> is_u64 (lastTxnID (srv w)) ->
  campaignLeader cfg node_ID w = (Ret (inl (Some l)), w') ->
  etcd w2 = etcd w' -> oracle w2 = [] -> ctxDone (srv w2) = false ->
  exists x w3, Lease x = l /\ etcd w3 = etcd w2 /\
    getLeaderAndMyTerm cfg node_ID w2 =
    (Ret (inl (mkLeader node_ID (Some x)
                 (mkLeaderMeta node_ID (term (srv w) + 1) (lastUUID (srv w)) (lastGTID (srv w))
                    (lastTxnID (srv w)) globalSchemaVersion)
                 (value_at cfg (kvs (etcd w')) spmPath),
               term (srv w) + 1)), w3).
Proof.
  intros Hst Ho Ht Hx E He Ho2 Hc2.
  destruct (campaignLeader_won w w' l E) as (st & rs & Hg & _ & Hfound & Htx).
  assert (Hs : store_wf st) by (rewrite Hfound; by apply campaign_found_wf).
  destruct (campaign_won_store st (etcd w') (srv w) l rs Hs Htx) as (_ & Hput & _).
  pose proof (granted_positive w l Hst Ho Hg) as Hl.
  assert (Hu : u64 (term (srv w) + 1) = term (srv w) + 1)
    by (apply u64_small; unfold is_u64, two63, two64 in *; lia).
  destruct (view_written cfg node_ID Hid (kvs (etcd w')) (srv w) l (term (srv w) + 1)
              (term (srv w) + 1) (value_at cfg (kvs (etcd w')) spmPath))
    as (x & Hlx & Hv); [| |done| |reflexivity|].
  - intros k v y Hin. apply Hput. cbn [campaign_txn Success]. rewrite Hu.
    apply elem_of_app. by left.
  - lia.
  - unfold number_at.
    destruct (Hput (fullPathOf cfg (myTermPath node_ID)) (FormatUint (term (srv w) + 1)) 0)
      as (y & -> & -> & _).
    { cbn [campaign_txn Success]. unfold myTermPutOps. rewrite Hu. apply elem_of_app. right. left. }
    apply ParseUint_FormatUint. unfold is_u64, two63, two64 in *. lia.
  - exists x. destruct (Z.ltb_spec l 0); [lia|].
    destruct (getLeader_quiet w2 Ho2 Hc2) as (w3 & Hq & He3).
    exists w3. rewrite Hq, He, Hv. split_and!; [done|congruence|done].
Qed.

End Commit.

(** The theorems on a concrete cluster: the first campaign on an empty store. *)
Definition campaigned : world demo_service :=
  (campaignLeader demo_cfg demo_id (demo_world empty_store [])).2.

Lemma campaign_exclusive_witness :
  exists st, kvs st !! fullLeaderPath demo_cfg = None /\
    exists x, kvs (etcd campaigned) !! fullLeaderPath demo_cfg = Some x /\ Value x = demo_id /\ Lease x = 1.
Proof.
  destruct (campaign_exclusive demo_cfg demo_id demo_id_plain (demo_world empty_store []) campaigned
              (Ret (inl (Some 1)))) as (_ & st & _ & Hn & _ & Hx).
  - exact empty_store_wf.
  - constructor.
  - vm_compute. reflexivity.
  - exists st. split; [exact Hn|exact Hx].
Defined.

Lemma campaign_round_trip_witness :
  exists x w3, Lease x = 1 /\
    getLeaderAndMyTerm demo_cfg demo_id campaigned =
    (Ret (inl (mkLeader demo_id (Some x) (mkLeaderMeta demo_id 1 "" "" 0 globalSchemaVersion) "", 1)), w3).
Proof.
  destruct (campaign_round_trip demo_cfg demo_id demo_id_plain (demo_world empty_store []) campaigned
              campaigned 1) as (x & w3 & Hl & _ & Hg).
  - exact empty_store_wf.
  - constructor.
  - vm_compute. split; [discriminate|reflexivity].
  - vm_compute. split; [discriminate|reflexivity].
  - vm_compute. reflexivity.
  - reflexivity.
  - vm_compute. reflexivity.
  - vm_compute. reflexivity.
  - exists x, w3. split; [exact Hl|exact Hg].
Defined.
