(* ===== verification/Node.v ===== *)
(** * Node registration: [agent/node.go], [agent/registry.go], [agent/util.go]

    A node registers under [slave/<id>] with a lease, so that the key exists
    while the node is alive, and the others read its address there. *)

From stdpp Require Import gmap strings list.
From Stdlib Require Import ZArith Lia Ascii.
From S2P Require Import Prelude GoStrings Json Etcd World ServiceManager Demo Leader.
Import Mvcc.

Definition registryPath : string := "slave".
Definition refreshPath : string := "binlog".

(** ** JSON of [Position] and [NodeStatus] *)

(** [omitempty] leaves out a zero number and a false flag; a struct is never
    empty. *)
Definition omit_zero (k : string) (z : Z) : list (string * json) :=
  if z =? 0 then [] else [(k, JNum (FormatInt z))].
Definition omit_false (k : string) (b : bool) : list (string * json) :=
  if b then [(k, JBool true)] else [].

Definition Position_json (p : Position) : json :=
  JObj ([("File", JStr (File p)); ("Pos", JStr (Pos p)); ("GTID", JStr (GTID p));
         ("UUID", JStr (UUID p))]
        ++ omit_zero "EndTxnID" (EndTxnID p)
        ++ omit_false "SlaveIORunning" (SlaveIORunning p)
        ++ omit_false "SlaveSQLRunning" (SlaveSQLRunning p)
        ++ omit_zero "SecondsBehindMaster" (SecondsBehindMaster p)).

Definition Marshal_Position (p : Position) : string := print_json (Position_json p).

Definition Position_fields : list (field (S := Position)) :=
  [("File", dec_string set_File); ("Pos", dec_string set_Pos); ("GTID", dec_string set_GTID);
   ("UUID", dec_string set_UUID); ("EndTxnID", dec_uint64 set_EndTxnID);
   ("SlaveIORunning", dec_bool set_SlaveIORunning);
   ("SlaveSQLRunning", dec_bool set_SlaveSQLRunning);
   ("SecondsBehindMaster", dec_int set_SecondsBehindMaster)].

Definition Unmarshal_Position (text : string) : option Position :=
  Unmarshal Position_fields zero_Position text.

Record NodeStatus := mkNodeStatus {
  ns_NodeID : string;
  InternalHost : string;
  ExternalHost : string;
  IsMaster : bool;
  IsAlive : bool;
  LatestPos : Position
}.

Definition zero_NodeStatus : NodeStatus := mkNodeStatus "" "" "" false false zero_Position.

Definition NodeStatus_json (n : NodeStatus) : json :=
  JObj ([("NodeID", JStr (ns_NodeID n)); ("InternalHost", JStr (InternalHost n));
         ("ExternalHost", JStr (ExternalHost n))]
        ++ omit_false "master" (IsMaster n)
        ++ omit_false "IsAlive" (IsAlive n)
        ++ [("LatestPos", Position_json (LatestPos n))]).

Definition Marshal_NodeStatus (n : NodeStatus) : string := print_json (NodeStatus_json n).

(** A nested struct: [null] leaves it alone, an object fills it. *)
Definition dec_Position (v : json) (n : NodeStatus) : option NodeStatus :=
  match v with
  | JNull => Some n
  | JObj l =>
      match decode_members Position_fields l (LatestPos n) with
      | Some p => Some (mkNodeStatus (ns_NodeID n) (InternalHost n) (ExternalHost n)
                          (IsMaster n) (IsAlive n) p)
      | None => None
      end
  | _ => None
  end.

Definition NodeStatus_fields : list (field (S := NodeStatus)) :=
  [("NodeID", dec_string (fun v n => mkNodeStatus v (InternalHost n) (ExternalHost n)
                                       (IsMaster n) (IsAlive n) (LatestPos n)));
   ("InternalHost", dec_string (fun v n => mkNodeStatus (ns_NodeID n) v (ExternalHost n)
                                             (IsMaster n) (IsAlive n) (LatestPos n)));
   ("ExternalHost", dec_string (fun v n => mkNodeStatus (ns_NodeID n) (InternalHost n) v
                                             (IsMaster n) (IsAlive n) (LatestPos n)));
   ("master", dec_bool (fun v n => mkNodeStatus (ns_NodeID n) (InternalHost n) (ExternalHost n)
                                     v (IsAlive n) (LatestPos n)));
   ("IsAlive", dec_bool (fun v n => mkNodeStatus (ns_NodeID n) (InternalHost n) (ExternalHost n)
                                      (IsMaster n) v (LatestPos n)));
   ("LatestPos", dec_Position)].

Definition Unmarshal_NodeStatus (text : string) : option NodeStatus :=
  Unmarshal NodeStatus_fields zero_NodeStatus text.

(** ** [agent/util.go] *)

Definition parseHost (address : string) : result (string * string) :=
  match Split ":"%char address with
  | [h] => inl (h, "3306")
  | [h; p] => inl (h, p)
  | _ => inr NotValidf
  end.

Section DoWithRetry.
Context {D : Type}.

(** [DoWithRetry]: one execution and [retryTimes] retries, with a sleep after
    every failure; [left] counts the iterations still to make, and [err] is the
    variable of the code. *)
Fixpoint DoWithRetry_loop (f : M D (option error)) (left : nat) (retryInterval : Z)
    (err : option error) : M D (option error) :=
  match left with
  | O => ret err
  | S n =>
      let! e := f in
      match e with
      | None => ret None
      | Some _ => do! sleep retryInterval in DoWithRetry_loop f n retryInterval e
      end
  end.

Definition DoWithRetry (f : M D (option error)) (retryTimes retryInterval : Z) : M D (option error) :=
  DoWithRetry_loop f (Z.to_nat (retryTimes + 1)) retryInterval None.

End DoWithRetry.

Section Node.
Context {D : Type} `{ServiceManager D}.
Context (cfg : Config) (node_ID : string).

Abbreviation client := (rootPath cfg).

Definition registered (nodeID internalHost externalHost : string) (master : bool) : NodeStatus :=
  mkNodeStatus nodeID internalHost externalHost master false zero_Position.

(** [EtcdRegistry.register] *)
Definition register (key value : string) (ttl : Z) : M D (option error) :=
  let! lr := etcd_call (Grant ttl) in
  match lr with
  | inr e => ret (Some e)
  | inl lease =>
      let! r := etcd_call (Client.Put client key value lease) in
      ret (match r with inl _ => None | inr e => Some e end)
  end.

(** [EtcdRegistry.RegisterNode] and [agentNode.Register]; [master] is the flag
    [getAgentStatus] reports. *)
Definition RegisterNode (nodeID internalHost externalHost : string) (ttl : Z) (master : bool)
    : M D (option error) :=
  register (join [registryPath; nodeID])
           (Marshal_NodeStatus (registered nodeID internalHost externalHost master)) ttl.

Definition Register : M D (option error) :=
  let! master := gets isLeader in
  RegisterNode node_ID (InternalServiceHost cfg) (ExternalServiceHost cfg) (RegisterTTL cfg) master.

(** [EtcdRegistry.UnregisterNode]: the stop channel, then a delete by prefix. *)
Definition UnregisterNode (nodeID : string) : M D (option error) :=
  do! close_chan registerStopCh set_registerStopCh in
  let! r := etcd_call (fun st => (inl tt, Client.Delete client (join [registryPath; nodeID]) true st)) in
  ret (match r with inl _ => None | inr e => Some e end).

Definition Unregister : M D (option error) := UnregisterNode node_ID.

(** [EtcdRegistry.RefreshNode] *)
Definition RefreshNode (nodeID : string) : M D (option error) :=
  let! p := get_latestPos in
  let! r := etcd_call (Client.Put client (join [refreshPath; nodeID]) (Marshal_Position p) 0) in
  ret (match r with inl _ => None | inr e => Some e end).

(** [EtcdRegistry.Node]; the position is always the zero one. *)
Definition read_node (nodeID : string) (resp : gmap string string) : result NodeStatus :=
  match resp !! join [registryPath; nodeID] with
  | None => inr NotFoundf
  | Some text =>
      match Unmarshal_NodeStatus text with
      | None => inr (Errorf "error unmarshal NodeStatus")
      | Some n => inl (mkNodeStatus (ns_NodeID n) (InternalHost n) (ExternalHost n) (IsMaster n)
                         true zero_Position)
      end
  end.

Definition get_NodeStatus (nodeID : string) : M D (result NodeStatus) :=
  let! r := etcd_call (fun st => (inl (Client.MultiGet client
              [join [registryPath; nodeID]; join [refreshPath; nodeID]] st), st)) in
  match r with
  | inr e => ret (inr e)
  | inl resp => ret (read_node nodeID resp)
  end.

End Node.

(** ** Theorems *)

(** *** Round trips of the JSON forms *)

Lemma omit_zero_wf (k : string) (z : Z) : 0 <= z -> wf_members (omit_zero k z).
Proof.
  intros Hz. unfold omit_zero. destruct (z =? 0); cbn; [done|]. split; [|done].
  exists z. split; [done|]. unfold FormatInt. destruct (Z.ltb_spec z 0); [lia|done].
Qed.

Lemma omit_false_wf (k : string) (b : bool) : wf_members (omit_false k b).
Proof. by destruct b. Qed.

Lemma wf_members_app (l1 l2 : list (string * json)) :
  wf_members l1 -> wf_members l2 -> wf_members (l1 ++ l2).
Proof. induction l1 as [|[k v] l1 IH]; cbn; [done|]. intros [? ?] ?. auto. Qed.
#[export] Hint Resolve omit_zero_wf omit_false_wf wf_members_app : moha.

(** What Go can print of a position: counters are unsigned or not negative. *)
Definition Position_ok (p : Position) : Prop :=
  is_u64 (EndTxnID p) /\ 0 <= SecondsBehindMaster p < two63.

Lemma Position_members_wf (p : Position) :
  Position_ok p -> wf_json (Position_json p).
Proof.
  intros [[? ?] [? ?]]. change (wf_members (
    [("File", JStr (File p)); ("Pos", JStr (Pos p)); ("GTID", JStr (GTID p)); ("UUID", JStr (UUID p))]
    ++ omit_zero "EndTxnID" (EndTxnID p) ++ omit_false "SlaveIORunning" (SlaveIORunning p)
    ++ omit_false "SlaveSQLRunning" (SlaveSQLRunning p)
    ++ omit_zero "SecondsBehindMaster" (SecondsBehindMaster p))).
  apply wf_members_app; [done|]. auto 8 with moha.
Qed.

Lemma decode_members_app {S} (fields : list (field (S := S))) (l1 l2 : list (string * json)) (x : S) :
  decode_members fields (l1 ++ l2) x =
  match decode_members fields l1 x with Some y => decode_members fields l2 y | None => None end.
Proof.
  revert x. induction l1 as [|[k v] l1 IH]; intros x; cbn; [done|].
  destruct (find_field fields k) as [dec|]; [|done]. by destruct (dec v x).
Qed.

Lemma decode_Position (p : Position) :
  Position_ok p ->
  match Position_json p with
  | JObj l => decode_members Position_fields l zero_Position = Some p
  | _ => False
  end.
Proof.
  intros [He Hs]. unfold Position_json. rewrite decode_members_app.
  change (decode_members Position_fields [("File", JStr (File p)); ("Pos", JStr (Pos p));
            ("GTID", JStr (GTID p)); ("UUID", JStr (UUID p))] zero_Position)
    with (Some (mkPosition (File p) (Pos p) (GTID p) (UUID p) 0 false false 0)).
  cbv iota beta.
  assert (E1 : forall q, EndTxnID q = 0 ->
    decode_members Position_fields (omit_zero "EndTxnID" (EndTxnID p)) q
    = Some (set_EndTxnID (EndTxnID p) q)).
  { intros q Hq. unfold omit_zero. destruct (Z.eqb_spec (EndTxnID p) 0) as [->|].
    - cbn. f_equal. destruct q; cbn in *. by subst.
    - cbn -[ParseUint FormatInt]. unfold FormatInt. destruct He.
      destruct (Z.ltb_spec (EndTxnID p) 0); [lia|]. by rewrite ParseUint_FormatUint. }
  assert (E2 : forall q, SecondsBehindMaster q = 0 ->
    decode_members Position_fields (omit_zero "SecondsBehindMaster" (SecondsBehindMaster p)) q
    = Some (set_SecondsBehindMaster (SecondsBehindMaster p) q)).
  { intros q Hq. unfold omit_zero. destruct (Z.eqb_spec (SecondsBehindMaster p) 0) as [->|].
    - cbn. f_equal. destruct q; cbn in *. by subst.
    - cbn -[ParseInt FormatInt]. rewrite ParseInt_FormatInt; [done|].
      unfold is_i64, two63 in *. lia. }
  rewrite decode_members_app, E1 by done. rewrite decode_members_app.
  destruct p as [f ps g u e io sql sec].
  destruct io; cbn [SlaveIORunning omit_false].
  all: match goal with |- context [decode_members Position_fields ?l (set_EndTxnID ?x ?q)] =>
         let r := eval cbn in (decode_members Position_fields l (set_EndTxnID x q)) in
         change (decode_members Position_fields l (set_EndTxnID x q)) with r end.
  all: cbv iota beta; rewrite decode_members_app; destruct sql; cbn [SlaveSQLRunning omit_false].
  all: match goal with |- match ?d with _ => _ end = _ => let r := eval cbn in d in change d with r end.
  all: cbv iota beta; rewrite E2 by done; reflexivity.
Qed.

(** A binlog position survives the trip through etcd: what [Marshal] wrote
    under [switch/] or [binlog/], [Unmarshal] reads back. *)
Theorem Position_round_trip (p : Position) :
  Position_ok p -> Unmarshal_Position (Marshal_Position p) = Some p.
Proof.
  intros Hp. unfold Unmarshal_Position, Unmarshal, Marshal_Position.
  rewrite parse_json_print by (by apply Position_members_wf).
  exact (decode_Position p Hp).
Qed.

Lemma decode_NodeStatus (n : NodeStatus) :
  Position_ok (LatestPos n) ->
  match NodeStatus_json n with
  | JObj l => decode_members NodeStatus_fields l zero_NodeStatus = Some n
  | _ => False
  end.
Proof.
  intros Hp. pose proof (decode_Position _ Hp) as Hd. unfold NodeStatus_json.
  destruct n as [nid ih eh m al p]. cbn [LatestPos ns_NodeID InternalHost ExternalHost IsMaster IsAlive] in *.
  rewrite !app_assoc, decode_members_app.
  replace (decode_members NodeStatus_fields _ zero_NodeStatus)
    with (Some (mkNodeStatus nid ih eh m al zero_Position)) by (by destruct m, al).
  destruct (Position_json p) as [| | | | |l]; try done.
  change (match dec_Position (JObj l) (mkNodeStatus nid ih eh m al zero_Position) with
          | Some y => Some y | None => None end = Some (mkNodeStatus nid ih eh m al p)).
  cbn [dec_Position LatestPos]. by rewrite Hd.
Qed.

Lemma NodeStatus_wf (n : NodeStatus) : Position_ok (LatestPos n) -> wf_json (NodeStatus_json n).
Proof.
  intros Hp. change (wf_members ([("NodeID", JStr (ns_NodeID n));
    ("InternalHost", JStr (InternalHost n)); ("ExternalHost", JStr (ExternalHost n))]
    ++ omit_false "master" (IsMaster n) ++ omit_false "IsAlive" (IsAlive n)
    ++ [("LatestPos", Position_json (LatestPos n))])).
  apply wf_members_app; [done|]. repeat (apply wf_members_app; [auto with moha|]).
  split; [by apply Position_members_wf|done].
Qed.

Lemma NodeStatus_round_trip (n : NodeStatus) :
  Position_ok (LatestPos n) -> Unmarshal_NodeStatus (Marshal_NodeStatus n) = Some n.
Proof.
  intros Hp. unfold Unmarshal_NodeStatus, Unmarshal, Marshal_NodeStatus.
  rewrite parse_json_print by (by apply NodeStatus_wf).
  exact (decode_NodeStatus n Hp).
Qed.

(** *** Registration and discovery *)

(** The root path is an ordinary one: no [.] or [..] is left in it. *)
Definition plain_root (cfg : Config) : Prop :=
  exists r es, es <> [] /\ Forall (fun e => plain_elem e = true) es /\
    rootPath cfg = render_path r es.

Lemma join_two (a b : string) :
  plain_elem a = true -> plain_elem b = true -> join [a; b] = Client.elems_key [a; b].
Proof.
  intros Ha Hb. unfold join. pose proof (path_Join_plain a [b] ltac:(done)) as E.
  cbn [Join] in E. rewrite E by (by constructor). clear E.
  destruct (clean_stack_render false [a] ltac:(done) ltac:(by constructor)) as [Hr Hc].
  assert (Er : render_path false [a] = a).
  { unfold render_path. cbn. destruct (String.eqb_spec a ""); [by subst|done]. }
  rewrite Er in Hr, Hc. rewrite Hr, Hc. cbn. by destruct a.
Qed.

Lemma trim_root_key (cfg : Config) (l : list string) :
  plain_root cfg -> plain_key l ->
  Client.trim_root (rootPath cfg) (key_of cfg l) = Client.elems_key l.
Proof.
  intros (r & es & Hne & Hp & E) [Hl Hpl]. unfold key_of, fullPathOf, Client.KeyWithRootPath,
    Client.keyWithPrefix, Client.elems_key, Client.trim_root. rewrite E.
  rewrite path_Join_render by done.
  rewrite render_no_slash, append_assoc by done. apply TrimPrefix_app.
Qed.

(** A successful [Register] leaves the status of the node under its key. *)
Lemma Register_stores {D} `{ServiceManager D} (cfg : Config) (node_ID : string) (w w' : world D) :
  plain_elem node_ID = true -> Register cfg node_ID w = (Ret None, w') ->
  exists x, kvs (etcd w') !! key_of cfg ["slave"; node_ID] = Some x /\
    Value x = Marshal_NodeStatus (registered node_ID (InternalServiceHost cfg)
                (ExternalServiceHost cfg) (isLeader (srv w))).
Proof.
  intros Hid E. unfold Register, RegisterNode, register in E. unfold bind at 1, gets in E.
  unfold bind at 1 in E.
  destruct (etcd_call (Grant (RegisterTTL cfg)) w) as [[[l|e]| | |] w1]; try discriminate E.
  unfold bind in E.
  destruct (etcd_call (Client.Put _ _ _ _) w1) as [[[u|e]| | |] w1'] eqn:E1; try discriminate E.
  injection E as <-. apply etcd_call_inl in E1 as (_ & Hput & _).
  unfold Client.Put, Mvcc.Put in Hput. rewrite (join_two registryPath node_ID eq_refl Hid) in Hput.
  destruct (checkPut _ _); [|discriminate Hput]. injection Hput as _ <-. cbn [kvs tw_End].
  destruct (tw_put_lookup (currentRev (etcd (arrival w1))) (key_of cfg ["slave"; node_ID])
              (Marshal_NodeStatus (registered node_ID (InternalServiceHost cfg)
                 (ExternalServiceHost cfg) (isLeader (srv w)))) l (kvs (etcd (arrival w1))))
    as (x & Hx & Hv & _). eauto.
Qed.

(** C34. What a node registers is what the others find: after a successful
    [Register], an undisturbed [NodeStatus] of that node returns its addresses
    and its role, and says that it is alive. *)
Theorem register_then_find {D} `{ServiceManager D} (cfg : Config) (node_ID : string)
    (w w' w2 : world D) :
  plain_root cfg -> plain_elem node_ID = true ->
  Register cfg node_ID w = (Ret None, w') ->
  etcd w2 = etcd w' -> oracle w2 = [] -> ctxDone (srv w2) = false ->
  exists w3, get_NodeStatus cfg node_ID w2 =
    (Ret (inl (mkNodeStatus node_ID (InternalServiceHost cfg) (ExternalServiceHost cfg)
                 (isLeader (srv w)) true zero_Position)), w3).
Proof.
  intros Hroot Hid E He Ho Hc.
  assert (Hjoin : forall p, plain_elem p = true -> join [p; node_ID] = Client.elems_key [p; node_ID])
    by (intros; by apply join_two).
  assert (Hplain : forall p, plain_elem p = true -> plain_key [p; node_ID])
    by (intros; split; [done|by repeat constructor]).
  destruct (Register_stores cfg node_ID w w' Hid E) as (x & Hx & Hv).
  unfold get_NodeStatus, bind.
  match goal with |- context [etcd_call ?f w2] =>
    destruct (etcd_call_quiet f w2 Ho Hc) as [-> _] end.
  cbn [fst snd]. unfold ret. eexists. f_equal. f_equal. unfold read_node.
  rewrite He, (Hjoin registryPath eq_refl), (Hjoin refreshPath eq_refl).
  unfold Client.MultiGet. cbn [foldl].
  change (Client.KeyWithRootPath (rootPath cfg) (Client.elems_key [registryPath; node_ID]))
    with (key_of cfg ["slave"; node_ID]).
  change (Client.KeyWithRootPath (rootPath cfg) (Client.elems_key [refreshPath; node_ID]))
    with (key_of cfg ["binlog"; node_ID]).
  rewrite Hx, !trim_root_key by auto.
  assert (Hne : Client.elems_key ["binlog"; node_ID] <> Client.elems_key [registryPath; node_ID]) by done.
  replace ((match kvs (etcd w') !! key_of cfg ["binlog"; node_ID] with
            | Some kv => <[_ := Value kv]> _ | None => _ end) !! _)
    with (Some (Value x)).
  - rewrite Hv, NodeStatus_round_trip; [done|]. split; cbn; unfold is_u64, two64, two63; lia.
  - symmetry. destruct (kvs (etcd w') !! key_of cfg ["binlog"; node_ID]).
    + rewrite lookup_insert_ne by done. apply lookup_insert_eq.
    + apply lookup_insert_eq.
Qed.

Lemma register_then_find_witness :
  exists w3, get_NodeStatus demo_cfg demo_id (snd (Register demo_cfg demo_id (demo_world empty_store [])))
  = (Ret (inl (mkNodeStatus demo_id "10.0.0.1:3306" "10.0.0.1:3306" false true zero_Position)), w3).
Proof.
  apply (register_then_find demo_cfg demo_id (demo_world empty_store [])
           (snd (Register demo_cfg demo_id (demo_world empty_store [])))
           (snd (Register demo_cfg demo_id (demo_world empty_store [])))).
  - exists true, ["dbproxy"; "orders"]. split; [done|]. split; [by repeat constructor|reflexivity].
  - reflexivity.
  - vm_compute. reflexivity.
  - reflexivity.
  - vm_compute. reflexivity.
  - vm_compute. reflexivity.
Defined.

Lemma Position_round_trip_witness :
  let p := mkPosition "mysql-bin.000001" "154" (demo_uuid +:+ ":1-41") demo_uuid 42 true true 0 in
  Position_ok p /\ Unmarshal_Position (Marshal_Position p) = Some p.
Proof.
  intros p. assert (Position_ok p) as Hp by (by vm_compute).
  split; [exact Hp|apply (Position_round_trip p Hp)].
Defined.

(** [parseHost] accepts a host, with the default port of MySQL, or a host
    and a port, and nothing else. *)
Theorem parseHost_spec (a h p : string) :
  parseHost a = inl (h, p) <->
  (free_of ":" a = true /\ h = a /\ p = "3306") \/
  (free_of ":" h = true /\ free_of ":" p = true /\ a = h +:+ ":" +:+ p).
Proof.
  unfold parseHost. split.
  - intros E. pose proof (Join_Split ":" a) as Hj. pose proof (Split_Forall_free ":" a) as Hf.
    destruct (Split ":" a) as [|x [|y [|z l]]]; try discriminate E; injection E as <- <-.
    + left. cbn in Hj. subst. apply Forall_cons in Hf as [Hf _]. auto.
    + right. cbn in Hj. apply Forall_cons in Hf as [Hx Hf]. apply Forall_cons in Hf as [Hy _]. auto.
  - intros [(Hf & -> & ->)|(Hh & Hp & ->)].
    + by rewrite Split_free.
    + cbn [String.append]. by rewrite Split_app, !Split_free.
Qed.

(** *** [DoWithRetry] *)
Section DoWithRetrySpec.
Context {D : Type}.

(** [k] failed executions of [f], each followed by the sleep; the last error. *)
Inductive failures (f : M D (option error)) (d : Z) : nat -> world D -> option error -> world D -> Prop :=
| failures_0 (w : world D) : failures f d 0 w None w
| failures_S (k : nat) (w w1 w2 : world D) (e : error) (last : option error) :
    f w = (Ret (Some e), w1) ->
    failures f d k (snd (sleep d w1)) last w2 ->
    failures f d (S k) w (match k with O => Some e | S _ => last end) w2.

Lemma DoWithRetry_loop_spec (f : M D (option error)) (d : Z) (n : nat) (w : world D) (e0 : option error) :
  (forall w, exists e w', f w = (Ret e, w')) ->
  exists r w', DoWithRetry_loop f n d e0 w = (Ret r, w') /\
    ((r = None /\ exists k w1 e, (k < n)%nat /\ failures f d k w e w1 /\ f w1 = (Ret None, w')) \/
     (exists e, failures f d n w e w' /\ r = match n with O => e0 | S _ => e end)).
Proof.
  intros Hf. revert w e0. induction n as [|n IH]; intros w e0; cbn.
  - exists e0, w. split; [done|]. right. exists None. split; [constructor|done].
  - unfold bind at 1. destruct (Hf w) as ([e|] & w1 & E); rewrite E.
    + unfold bind. destruct (IH (snd (sleep d w1)) (Some e)) as (r & w' & Er & Hr).
      exists r, w'. split; [exact Er|].
      destruct Hr as [(-> & k & w2 & e2 & Hk & Hfl & Hok)|(e2 & Hfl & Hr)].
      * left. split; [done|]. exists (S k), w2, (match k with O => Some e | S _ => e2 end).
        split; [lia|]. split; [by econstructor|done].
      * right. exists (match n with O => Some e | S _ => e2 end).
        split; [by econstructor|]. by destruct n.
    + exists None, w1. split; [done|]. left. split; [done|].
      exists O, w, None. split; [lia|]. split; [constructor|done].
Qed.

(** [DoWithRetry] runs its function at most [retryTimes + 1] times: it
    returns nil at the first success, and otherwise the last error after
    exactly [retryTimes + 1] failures, each followed by a sleep. *)
Theorem DoWithRetry_spec (f : M D (option error)) (n d : Z) (w : world D) :
  0 <= n -> (forall w, exists e w', f w = (Ret e, w')) ->
  exists r w', DoWithRetry f n d w = (Ret r, w') /\
    ((r = None /\ exists k w1 e, Z.of_nat k <= n /\ failures f d k w e w1 /\ f w1 = (Ret None, w')) \/
     failures f d (Z.to_nat (n + 1)) w r w').
Proof.
  intros Hn Hf. unfold DoWithRetry.
  destruct (DoWithRetry_loop_spec f d (Z.to_nat (n + 1)) w None Hf) as (r & w' & E & Hr).
  exists r, w'. split; [exact E|]. destruct Hr as [(-> & k & w1 & e & Hk & Hfl & Hok)|(e & Hfl & ->)].
  - left. split; [done|]. exists k, w1, e. split; [lia|auto].
  - right. destruct (Z.to_nat (n + 1)) eqn:En; [lia|done].
Qed.
End DoWithRetrySpec.

(** A function that fails until the clock has moved, with two retries allowed. *)
Definition fails_at_start : M demo_service (option error) := fun w =>
  (Ret (if now w =? 0 then Some ErrBadConn else None), w).

Lemma DoWithRetry_witness :
  exists r w', DoWithRetry fails_at_start 2 Second (demo_world empty_store []) = (Ret r, w') /\
    ((r = None /\ exists k w1 e, Z.of_nat k <= 2 /\
        failures fails_at_start Second k (demo_world empty_store []) e w1 /\
        fails_at_start w1 = (Ret None, w')) \/
     failures fails_at_start Second 3 (demo_world empty_store []) r w').
Proof.
  apply (DoWithRetry_spec fails_at_start 2 Second (demo_world empty_store [])).
  - lia.
  - intros w. eexists. exists w. reflexivity.
Defined.
