(* ===== verification/Election.v ===== *)
(** * The election: [agent/campaign.go] and [preCampaign] of [agent/server.go]

    When there is no leader every candidate uploads what it knows of the log of
    the last master, waits, reads the logs of the others and decides whether
    its own log is the latest and whether it is alone in its term.

    The theorems characterise the decision by a predicate on the set of logs:
    it does not depend on the order in which Go ranges over the map, some
    candidate of the latest term is always the latest, and two candidates that
    read the same logs are not both alone. *)

From stdpp Require Import gmap strings list.
From Stdlib Require Import ZArith Lia.
From S2P Require Import Prelude GoStrings Json Gtid Etcd World ServiceManager Demo Leader.
Import Mvcc.

(** ** Election logs *)

Record LogForElection := mkLog {
  Term : Z;
  LastUUID : string;
  LastGTID : string;
  log_EndTxnID : Z;
  log_Version : Z
}.

Definition zero_Log : LogForElection := mkLog 0 "" "" 0 0.

Definition Log_json (l : LogForElection) : json :=
  JObj [("term", JNum (FormatUint (Term l))); ("last_uuid", JStr (LastUUID l));
        ("last_gtid", JStr (LastGTID l)); ("end_txn_id", JNum (FormatUint (log_EndTxnID l)));
        ("version", JNum (FormatInt (log_Version l)))].

Definition Marshal_Log (l : LogForElection) : string := print_json (Log_json l).

Definition Log_fields : list (field (S := LogForElection)) :=
  [("term", dec_uint64 (fun v l => mkLog v (LastUUID l) (LastGTID l) (log_EndTxnID l) (log_Version l)));
   ("last_uuid", dec_string (fun v l => mkLog (Term l) v (LastGTID l) (log_EndTxnID l) (log_Version l)));
   ("last_gtid", dec_string (fun v l => mkLog (Term l) (LastUUID l) v (log_EndTxnID l) (log_Version l)));
   ("end_txn_id", dec_uint64 (fun v l => mkLog (Term l) (LastUUID l) (LastGTID l) v (log_Version l)));
   ("version", dec_int (fun v l => mkLog (Term l) (LastUUID l) (LastGTID l) (log_EndTxnID l) v))].

Definition Unmarshal_Log (text : string) : option LogForElection :=
  Unmarshal Log_fields zero_Log text.

(** ** The decision *)

(** The transaction id a log stands for: since version 2 it is in the log,
    before it is read from the GTID set. *)
Definition end_txn (l : LogForElection) : result Z :=
  if 2 <=? log_Version l then inl (log_EndTxnID l)
  else match GetTxnIDFromGTIDStr (LastGTID l) (LastUUID l) with
       | inl t => inl (u64 t)
       | inr e => inr e
       end.

(** The loop of [isLatestLog] over the logs of the others, with the order of
    iteration explicit; the result is (isLatest, isSinglePoint). *)
Fixpoint isLatestLog_loop (node_ID : string) (myLog : LogForElection) (endTxnID : Z)
    (isSinglePoint : bool) (logs : list (string * LogForElection)) : bool * bool :=
  match logs with
  | [] => (true, isSinglePoint)
  | (serverID, logForElection) :: rest =>
      if String.eqb node_ID serverID then isLatestLog_loop node_ID myLog endTxnID isSinglePoint rest
      else if Term myLog <? Term logForElection then (false, false)
      else if Term logForElection <? Term myLog
           then isLatestLog_loop node_ID myLog endTxnID isSinglePoint rest
      else if 2 <=? log_Version logForElection then
        if endTxnID <? log_EndTxnID logForElection then (false, false)
        else isLatestLog_loop node_ID myLog endTxnID false rest
      else
        match GetTxnIDFromGTIDStr (LastGTID logForElection) (LastUUID logForElection) with
        | inr _ => isLatestLog_loop node_ID myLog endTxnID false rest
        | inl anotherTxnID =>
            if endTxnID <? u64 anotherTxnID then (false, false)
            else isLatestLog_loop node_ID myLog endTxnID false rest
        end
  end.

(** How Go ranges over a map: in an order of its own choice. *)
Class RangeOrder := { range : forall A, gmap string A -> list (string * A) }.
Class RangeOrderOk `{RangeOrder} :=
  range_perm : forall A (m : gmap string A), Permutation (range A m) (map_to_list m).

Definition isLatestLog `{RangeOrder} (node_ID : string) (logs : gmap string LogForElection)
    : bool * bool :=
  match logs !! node_ID with
  | None => (false, false)
  | Some myLog =>
      match end_txn myLog with
      | inr _ => (false, false)
      | inl endTxnID => isLatestLog_loop node_ID myLog endTxnID true (range _ logs)
      end
  end.

(** ** Reading the logs back *)

(** The keys of [PrefixGet] are relative to the root; [strings.TrimLeft] takes
    off every leading byte of its cutset, which is not the same as taking off
    the prefix. *)
Definition log_key_cutset : string := join [electionPath; "nodes/"].

Definition collect_logs (kvs : list (string * string)) : gmap string LogForElection :=
  foldl (fun r '(k, v) =>
           match Unmarshal_Log v with
           | None => r
           | Some l => <[TrimLeft k log_key_cutset := l]> r
           end) ∅ kvs.

Section Election.
Context {D : Type} `{ServiceManager D} `{RangeOrder}.
Context (cfg : Config) (node_ID : string).

Definition electionNodePath : string := join [electionPath; "nodes"; node_ID].

Definition uploadLogForElection (electionLog : LogForElection) : M D (option error) :=
  let! r := etcd_call (Client.Put (rootPath cfg) electionNodePath (Marshal_Log electionLog) 0) in
  ret (match r with inl _ => None | inr e => Some e end).

Definition set_log (masterUUID executedGTID : string) (endTxnID : Z) (s : Server) : Server :=
  set_lastTxnID endTxnID (set_lastGTID executedGTID (set_lastUUID masterUUID s)).

Definition loadSlaveLogFromMySQL : M D (option error) :=
  let! r := svc_call LoadReplicationInfoOfSlave in
  match r with
  | inr e => ret (Some e)
  | inl (masterUUID, executedGTID, endTxnID) =>
      do! modify (set_log masterUUID executedGTID endTxnID) in ret None
  end.

Definition loadMasterLogFromMySQL : M D (option error) :=
  let! r := svc_call LoadReplicationInfoOfMaster in
  match r with
  | None => panic
  | Some (inr e) => ret (Some e)
  | Some (inl (masterUUID, executedGTID, endTxnID)) =>
      do! modify (set_log masterUUID executedGTID endTxnID) in ret None
  end.

(** The error of the service is not returned: the zero values that come with it
    are uploaded. *)
Definition uploadLogForElectionAsSlave : M D (option error) :=
  let! r := svc_call LoadReplicationInfoOfSlave in
  let '(masterUUID, executedGTID, endTxnID) := match r with inl x => x | inr _ => ("", "", 0) end in
  do! modify (set_log masterUUID executedGTID endTxnID) in
  let! t := gets term in
  uploadLogForElection (mkLog (u64 (t + 1)) masterUUID executedGTID endTxnID globalSchemaVersion).

Definition uploadLogForElectionAsFormerMaster : M D (option error) :=
  let! r := svc_call LoadReplicationInfoOfMaster in
  match r with
  | None => panic
  | Some (inr e) => ret (Some e)
  | Some (inl (masterUUID, executedGTID, endTxnID)) =>
      do! modify (set_log masterUUID executedGTID endTxnID) in
      let! t := gets term in
      uploadLogForElection (mkLog (u64 (t + 1)) masterUUID executedGTID endTxnID globalSchemaVersion)
  end.

Definition getAllLogsForElection : M D (result (gmap string LogForElection)) :=
  let! r := etcd_call (fun st => (inl (Client.PrefixGet (rootPath cfg) (join [electionPath; "nodes"]) st), st)) in
  match r with
  | inr e => ret (inr e)
  | inl m => ret (inl (collect_logs (range _ m)))
  end.

(** [preCampaign]; [fuel] bounds the retries of [getAllLogsForElection]. *)
Definition preCampaign (fuel : nat) (isFormerMaster : bool) : M D bool :=
  do! sleep (CampaignWaitTime cfg) in
  do! (if isFormerMaster then uploadLogForElectionAsFormerMaster else uploadLogForElectionAsSlave) in
  do! sleep (CampaignWaitTime cfg) in
  let! logs := retry fuel (100 * Millisecond) getAllLogsForElection in
  let '(isLatest, isSinglePoint) := isLatestLog node_ID logs in
  do! (if negb isLatest then sleep (CampaignWaitTime cfg) else ret tt) in
  do! (if isFormerMaster then sleep (500 * Millisecond) else ret tt) in
  ret isSinglePoint.

End Election.

(** ** The decision, as a predicate on the logs *)

(** The log of another candidate does not beat mine. *)
Definition not_beaten_by (mine : LogForElection) (e : Z) (other : LogForElection) : Prop :=
  Term other < Term mine \/
  Term other = Term mine /\ forall e', end_txn other = inl e' -> e' <= e.

Definition latest (node_ID : string) (logs : gmap string LogForElection) : Prop :=
  exists mine e, logs !! node_ID = Some mine /\ end_txn mine = inl e /\
    forall i l, i <> node_ID -> logs !! i = Some l -> not_beaten_by mine e l.

Definition alone (node_ID : string) (logs : gmap string LogForElection) : Prop :=
  exists mine, logs !! node_ID = Some mine /\
    forall i l, i <> node_ID -> logs !! i = Some l -> Term l < Term mine.

Section Decision.
Context (node_ID : string) (mine : LogForElection) (e : Z).

Definition beats (p : string * LogForElection) : Prop :=
  fst p <> node_ID /\ ~ not_beaten_by mine e (snd p).
Definition same_term (p : string * LogForElection) : Prop :=
  fst p <> node_ID /\ Term (snd p) = Term mine.

Lemma not_beats (i : string) (l : LogForElection) :
  i <> node_ID -> ~ beats (i, l) -> not_beaten_by mine e l.
Proof.
  intros Hi Hn. unfold beats, not_beaten_by in *. cbn in Hn.
  destruct (Z.lt_trichotomy (Term l) (Term mine)) as [?|[?|?]]; [auto| |].
  - right. split; [done|]. intros e' He. destruct (Z.le_gt_cases e' e); [done|].
    exfalso. apply Hn. split; [done|]. intros [?|[_ Hle]]; [lia|]. specialize (Hle _ He). lia.
  - exfalso. apply Hn. split; [done|]. intros [?|[? _]]; lia.
Qed.

(** Both ways to compare transaction ids, in one. *)
Lemma compare_end_txn (x : LogForElection) (L : bool * bool) :
  (if 2 <=? log_Version x then if e <? log_EndTxnID x then (false, false) else L
   else match GetTxnIDFromGTIDStr (LastGTID x) (LastUUID x) with
        | inl t => if e <? u64 t then (false, false) else L
        | inr _ => L
        end) =
  match end_txn x with inl t => if e <? t then (false, false) else L | inr _ => L end.
Proof. unfold end_txn. by destruct (2 <=? log_Version x), (GetTxnIDFromGTIDStr (LastGTID x) (LastUUID x)). Qed.

(** The loop stops at the first log that beats mine; otherwise it remembers
    whether some log is of the same term. *)
Lemma isLatestLog_loop_spec (b : bool) (l : list (string * LogForElection)) :
  (Exists beats l /\ isLatestLog_loop node_ID mine e b l = (false, false)) \/
  (Forall (fun p => ~ beats p) l /\
   exists b', isLatestLog_loop node_ID mine e b l = (true, b') /\
     (b' = true <-> b = true /\ Forall (fun p => ~ same_term p) l)).
Proof.
  revert b. induction l as [|[i x] l IH]; intros b; cbn [isLatestLog_loop].
  { right. split; [constructor|]. exists b. split; [done|]. split; [intros ->; auto|tauto]. }
  (* a log that does not beat mine: what the rest decides, with the flag [b1] *)
  assert (Hskip : forall b1, ~ beats (i, x) -> (b1 = true <-> b = true /\ ~ same_term (i, x)) ->
    (Exists beats ((i, x) :: l) /\ isLatestLog_loop node_ID mine e b1 l = (false, false)) \/
    (Forall (fun p => ~ beats p) ((i, x) :: l) /\
     exists b', isLatestLog_loop node_ID mine e b1 l = (true, b') /\
       (b' = true <-> b = true /\ Forall (fun p => ~ same_term p) ((i, x) :: l)))).
  { intros b1 Hb Hf. destruct (IH b1) as [[Hx E]|(Hx & b' & E & Hb')]; [left; auto|right].
    split; [by constructor|]. exists b'. split; [done|]. rewrite Hb', Hf, Forall_cons. tauto. }
  unfold beats, same_term, not_beaten_by in *. cbn [fst snd] in *.
  destruct (String.eqb_spec node_ID i) as [Hi|Hi]; [apply (Hskip b); intuition congruence|].
  destruct (Z.ltb_spec (Term mine) (Term x)).
  { left. split; [|done]. left. cbn. split; [congruence|]. intros [?|[? _]]; lia. }
  destruct (Z.ltb_spec (Term x) (Term mine)).
  { apply (Hskip b); [tauto|]. split; [|tauto]. intros ->. split; [done|]. lia. }
  assert (Ht : Term x = Term mine) by lia.
  assert (Hne : i <> node_ID) by congruence.
  rewrite compare_end_txn.
  destruct (end_txn x) as [t|err] eqn:Et.
  - destruct (Z.ltb_spec e t).
    + left. split; [|done]. left. cbn. split; [done|]. intros [?|[_ Hle]]; [lia|].
      specialize (Hle _ Et). lia.
    + apply (Hskip false); [|split; [done|tauto]]. intros [_ Hn]. apply Hn. right. split; [done|].
      intros e' [= <-]. lia.
  - apply (Hskip false); [|split; [done|tauto]]. intros [_ Hn]. apply Hn. right. split; [done|].
    intros e' [=].
Qed.
End Decision.

Section DecisionTheorems.
Context `{RangeOrder} `{!RangeOrderOk}.

Lemma range_Forall {A} (P : string * A -> Prop) (m : gmap string A) :
  Forall P (range A m) <-> forall i x, m !! i = Some x -> P (i, x).
Proof.
  rewrite Forall_forall. split.
  - intros HP i x Hi. apply HP. rewrite range_perm. by apply elem_of_map_to_list.
  - intros HP [i x]. rewrite range_perm. intros Hi. apply HP. by apply elem_of_map_to_list.
Qed.

Lemma isLatestLog_decides (node_ID : string) (logs : gmap string LogForElection) :
  ((isLatestLog node_ID logs).1 = true <-> latest node_ID logs) /\
  ((isLatestLog node_ID logs).2 = true <-> latest node_ID logs /\ alone node_ID logs).
Proof.
  unfold isLatestLog, latest, alone.
  destruct (logs !! node_ID) as [mine|].
  2:{ cbn. split; (split; [done|]); [intros (? & ? & [=] & _)|intros [(? & ? & [=] & _) _]]. }
  destruct (end_txn mine) as [e|err] eqn:Ee.
  2:{ cbn. split; (split; [done|]);
        [intros (? & ? & [= <-] & ? & _)|intros [(? & ? & [= <-] & ? & _) _]]; congruence. }
  destruct (isLatestLog_loop_spec node_ID mine e true (range _ logs))
    as [[Hx ->]|(Hx & b & -> & Hb)]; cbn.
  - assert (~ (forall i l, i <> node_ID -> logs !! i = Some l -> not_beaten_by mine e l)) as Hno.
    { intros Hall. apply Exists_exists in Hx as ([i l] & Hin & Hi & Hn).
      rewrite range_perm in Hin. apply elem_of_map_to_list in Hin. eauto. }
    split; (split; [done|]);
      [intros (? & ? & [= <-] & Ee' & ?)|intros [(? & ? & [= <-] & Ee' & ?) _]];
      rewrite Ee in Ee'; injection Ee' as <-; by destruct Hno.
  - assert (forall i l, i <> node_ID -> logs !! i = Some l -> not_beaten_by mine e l) as Hall.
    { intros i l Hi Hl. rewrite range_Forall in Hx. exact (not_beats _ _ _ i l Hi (Hx i l Hl)). }
    rewrite range_Forall in Hb. split; [split; eauto 6|]. rewrite Hb. split.
    + intros [_ Hs]. split; [eauto 6|]. exists mine. split; [done|]. intros i l Hi Hl.
      specialize (Hs i l Hl). unfold same_term in Hs. cbn in Hs.
      destruct (Hall i l Hi Hl) as [?|[? _]]; [done|tauto].
    + intros (_ & mine' & [= <-] & Hlt). split; [done|]. intros i l Hl [Hi Ht]. cbn in *.
      specialize (Hlt i l Hi Hl). lia.
Qed.

(** C19. What [isLatestLog] decides, whatever the order in which Go ranges over
    the map: a candidate is the latest when no other candidate has a higher
    term, or the same term and a later transaction; it is a single point when
    moreover every other candidate is of a lower term. *)
Theorem isLatestLog_spec (node_ID : string) (logs : gmap string LogForElection) :
  ((isLatestLog node_ID logs).1 = true <-> latest node_ID logs) /\
  ((isLatestLog node_ID logs).2 = true <-> latest node_ID logs /\ alone node_ID logs).
Proof. apply isLatestLog_decides. Qed.

(** C20. Two candidates that read the same logs do not both enter single point
    mode. *)
Theorem single_point_unique (a b : string) (logs : gmap string LogForElection) :
  (isLatestLog a logs).2 = true -> (isLatestLog b logs).2 = true -> a = b.
Proof.
  intros [_ (la & Ha & Hla)]%isLatestLog_decides [_ (lb & Hb & Hlb)]%isLatestLog_decides.
  destruct (decide (a = b)) as [|Hne]; [done|].
  specialize (Hla b lb (not_eq_sym Hne) Hb). specialize (Hlb a la Hne Ha). lia.
Qed.

(** A log that no other of a list is later than, by term and then by
    transaction id. *)
Lemma max_log (l : list (string * LogForElection)) :
  l <> [] -> Forall (fun p => exists e, end_txn (snd p) = inl e) l ->
  exists i x e, (i, x) ∈ l /\ end_txn x = inl e /\ Forall (fun p => not_beaten_by x e (snd p)) l.
Proof.
  intros Hne Hl. induction Hl as [|[i x] l [e He] Hl IH]; [done|].
  assert (Hself : not_beaten_by x e x).
  { right. split; [done|]. intros e' He'. cbn in He. rewrite He in He'. injection He'. lia. }
  destruct (decide (l = [])) as [->|Hl0].
  { exists i, x, e. split_and!; [left|done|by apply Forall_singleton]. }
  destruct (IH Hl0) as (j & y & f & Hin & Hf & Hy). cbn in He.
  assert (Hcase : not_beaten_by y f x \/ not_beaten_by x e y /\ (Term y < Term x \/ Term y = Term x /\ f <= e)).
  { unfold not_beaten_by. destruct (Z.lt_trichotomy (Term x) (Term y)) as [?|[Hq|?]]; [auto| |auto 6].
    destruct (Z.le_gt_cases e f).
    - left. right. split; [done|]. intros e' [= <-]%(eq_trans (eq_sym He)). done.
    - right. split; [right; split; [done|]|right; split; [done|lia]].
      intros e' [= <-]%(eq_trans (eq_sym Hf)). lia. }
  destruct Hcase as [Hx|[Hxy Hlt]].
  - exists j, y, f. split_and!; [by right|done|by constructor].
  - exists i, x, e. split_and!; [left|done|constructor; [done|]].
    eapply Forall_impl; [exact Hy|]. intros [k z]. cbn. unfold not_beaten_by.
    intros [?|[Hq Hz]]; destruct Hlt as [?|[? ?]]; try (left; lia).
    right. split; [lia|]. intros e' He'. specialize (Hz e' He'). lia.
Qed.

(** C21. The election does not stall: among candidates whose logs can be read,
    at least one is the latest, and so does not wait before it campaigns. *)
Theorem some_candidate_latest (logs : gmap string LogForElection) :
  logs <> ∅ -> (forall i l, logs !! i = Some l -> exists e, end_txn l = inl e) ->
  exists i, (isLatestLog i logs).1 = true.
Proof.
  intros Hne Hall.
  destruct (max_log (map_to_list logs)) as (i & x & e & Hin & He & Hmax).
  - by intros ?%map_to_list_empty_iff.
  - apply Forall_forall. intros [i x] Hi. apply elem_of_map_to_list in Hi. eauto.
  - apply elem_of_map_to_list in Hin. exists i. apply isLatestLog_decides. exists x, e.
    split_and!; auto. intros j l Hj Hl. rewrite Forall_forall in Hmax.
    apply (Hmax (j, l)). by apply elem_of_map_to_list.
Qed.
End DecisionTheorems.

(** The theorems on two logs of the same term. *)
Definition list_order : RangeOrder := {| range A m := map_to_list m |}.

Lemma list_order_ok : @RangeOrderOk list_order.
Proof. intros A m. reflexivity. Qed.

Definition demo_log (t n : Z) : LogForElection := mkLog t demo_uuid (demo_uuid +:+ ":1-" +:+ FormatUint n) n 2.

Definition demo_logs : gmap string LogForElection :=
  <[demo_id := demo_log 4 41]> (<[other_id := demo_log 4 40]> ∅).

Lemma isLatestLog_spec_witness : latest demo_id demo_logs.
Proof.
  apply (proj1 (@isLatestLog_spec list_order list_order_ok demo_id demo_logs)). vm_compute. reflexivity.
Defined.

Definition spm_logs : gmap string LogForElection :=
  <[demo_id := demo_log 4 41]> (<[other_id := demo_log 3 40]> ∅).

Lemma single_point_unique_witness :
  (@isLatestLog list_order demo_id spm_logs).2 = true /\ demo_id = "10.0.0.1:3306".
Proof.
  split; [vm_compute; reflexivity|].
  apply (@single_point_unique list_order list_order_ok demo_id demo_id spm_logs); vm_compute; reflexivity.
Defined.

Lemma some_candidate_latest_witness : exists i, (@isLatestLog list_order i demo_logs).1 = true.
Proof.
  apply (@some_candidate_latest list_order list_order_ok).
  - intros H. apply (f_equal (fun m : gmap string LogForElection => m !! demo_id)) in H. discriminate H.
  - intros i l. unfold demo_logs. intros [[_ <-] | [_ [[_ <-] | [_ H]]%lookup_insert_Some]]%lookup_insert_Some;
      [exists 41; vm_compute; reflexivity|exists 40; vm_compute; reflexivity|].
    rewrite lookup_empty in H. discriminate H.
Defined.

(** ** The exchange of logs *)

Definition Log_ok (l : LogForElection) : Prop :=
  is_u64 (Term l) /\ is_u64 (log_EndTxnID l) /\ 0 <= log_Version l < two63.

Lemma Log_round_trip (l : LogForElection) :
  Log_ok l -> Unmarshal_Log (Marshal_Log l) = Some l.
Proof.
  intros ([? ?] & [? ?] & [? ?]). unfold Unmarshal_Log, Unmarshal, Marshal_Log.
  assert (Hv : FormatInt (log_Version l) = FormatUint (log_Version l))
    by (unfold FormatInt; destruct (Z.ltb_spec (log_Version l) 0); [lia|done]).
  rewrite parse_json_print.
  - cbn -[ParseUint ParseInt FormatUint FormatInt].
    rewrite !ParseUint_FormatUint by done.
    rewrite ParseInt_FormatInt by (unfold is_i64, two63 in *; lia). by destruct l.
  - cbn -[FormatUint FormatInt]. rewrite Hv. auto 8 with moha.
Qed.

(** The first byte of an ID that [TrimLeft] leaves alone. *)
Definition outside_cutset (i : string) : Prop :=
  match i with
  | "" => False
  | String a _ => in_cutset a log_key_cutset = false
  end.

Definition log_key (i : string) : string := "election/nodes/" +:+ i.

Lemma TrimLeft_log_key (i : string) : outside_cutset i -> TrimLeft (log_key i) log_key_cutset = i.
Proof. destruct i as [|a i]; [done|]. cbn -[in_cutset]. intros Ha. vm_compute (in_cutset _ _) in Ha |- *. by rewrite Ha. Qed.

Definition collect_step (r : gmap string LogForElection) (kv : string * string) : gmap string LogForElection :=
  match Unmarshal_Log kv.2 with
  | None => r
  | Some l => <[TrimLeft kv.1 log_key_cutset := l]> r
  end.

Lemma collect_steps (l : list (string * string)) (r : gmap string LogForElection) (i : string) :
  outside_cutset i -> NoDup l.*1 ->
  Forall (fun kv => exists j, outside_cutset j /\ kv.1 = log_key j) l ->
  foldl collect_step r l !! i =
  match (list_to_map l : gmap string string) !! log_key i with
  | Some v => match Unmarshal_Log v with Some x => Some x | None => r !! i end
  | None => r !! i
  end.
Proof.
  intros Hi. revert r. induction l as [|[k v] l IH]; intros r Hnd Hk; cbn [foldl list_to_map foldr fmap list_fmap]; [by rewrite lookup_empty|].
  apply NoDup_cons in Hnd as [Hni Hnd]. apply Forall_cons in Hk as [(j & Hj & Hk) Hks]. cbn [fst] in Hk. subst k.
  rewrite IH, lookup_insert by done. unfold collect_step. cbn [fst snd]. rewrite (TrimLeft_log_key j Hj).
  case_decide as Hd.
  - apply (inj (String.append "election/nodes/")) in Hd as <-.
    rewrite (not_elem_of_list_to_map_1 _ _ Hni).
    destruct (Unmarshal_Log v); [apply lookup_insert_eq|done].
  - assert (j <> i) by (by intros ->).
    destruct (Unmarshal_Log v); [|done]. by rewrite lookup_insert_ne.
Qed.

(** The logs the election reads are the logs the candidates uploaded: when
    the IDs of the candidates start with a byte that the trimming leaves alone,
    as addresses do, [getAllLogsForElection] reads under each ID the log stored
    for it, whatever the order in which Go ranges over the answer. *)
Theorem collect_logs_spec `{RangeOrder} `{!RangeOrderOk} (m : gmap string string) (i : string) :
  outside_cutset i ->
  (forall k v, m !! k = Some v -> exists j, outside_cutset j /\ k = log_key j) ->
  collect_logs (range _ m) !! i =
  match m !! log_key i with Some v => Unmarshal_Log v | None => None end.
Proof.
  intros Hi Hm. pose proof (range_perm string m) as Hp.
  assert (NoDup (range _ m).*1) as Hnd by (rewrite Hp; apply NoDup_fst_map_to_list).
  assert (collect_logs (range _ m) = foldl collect_step ∅ (range _ m)) as ->.
  { unfold collect_logs. generalize (∅ : gmap string LogForElection).
    clear. induction (range _ m) as [|[k v] l IH]; intros r; [done|]. cbn [foldl]. apply IH. }
  rewrite collect_steps; [|done|done|].
  - rewrite (list_to_map_proper _ _ Hnd Hp), list_to_map_to_list, lookup_empty.
    destruct (m !! log_key i) as [v|]; [|done]. by destruct (Unmarshal_Log v).
  - apply Forall_forall. intros [k v]. rewrite Hp. intros Hin%elem_of_map_to_list. by apply (Hm k v).
Qed.

Lemma collect_logs_witness :
  @collect_logs (@range list_order _ {[ log_key demo_id := Marshal_Log (demo_log 4 41) ]}) !! demo_id
  = Some (demo_log 4 41).
Proof.
  rewrite (@collect_logs_spec list_order list_order_ok).
  - vm_compute. reflexivity.
  - reflexivity.
  - intros k v [<- _]%lookup_singleton_Some. exists demo_id. split; reflexivity.
Defined.

(** A host name loses its first letters: [TrimLeft] takes a set of bytes, so
    the log that node "db1:3306" uploads is read back under "b1:3306", and the
    node, which does not find its own log, is never the latest. *)
Theorem hostname_log_lost :
  exists w', getAllLogsForElection (H0 := list_order) demo_cfg
      (snd (uploadLogForElection demo_cfg "db1:3306" (demo_log 4 41) (demo_world empty_store []))) =
    (Ret (inl {[ "b1:3306" := demo_log 4 41 ]}), w') /\
    @isLatestLog list_order "db1:3306" {[ "b1:3306" := demo_log 4 41 ]} = (false, false).
Proof.
  eexists. split; vm_compute; reflexivity.
Qed.
