(* ===== verification/ServerLoop.v ===== *)
(** * The agent: [agent/server.go] and [agent/single_point.go]

    [leaderLoop] reads the leader from etcd and then resumes its own
    leadership, follows the leader, enters single point mode or campaigns.
    The database is made writable in one of three places, each after a
    transaction that made this node the leader.

    A leader runs three goroutines: the one of [leaderLoop], which promotes the
    node, [keepLeaderAliveLoop] and [leaseExpireMonitorLoop].  The first is a
    [thread], a tree of its calls; a schedule says whose turn it is, and what
    the remaining goroutines (the HTTP handlers, the binlog monitor, the signal
    handler) did before, to the memory, the database, etcd and the clock. *)

From stdpp Require Import gmap strings list.
From Stdlib Require Import ZArith Lia.
From S2P Require Import Prelude GoStrings Json Gtid Etcd World ServiceManager Demo Leader Node Election.
Import Mvcc.

(** ** [checkConfig] *)
Definition checkConfig (cfg : option Config) : option error :=
  match cfg with
  | None => Some NotValidf
  | Some c =>
      if String.eqb (DataDir c) "" then Some NotValidf
      else if String.eqb (EtcdRootPath c) "" then Some NotValidf
      else if LeaderLeaseTTL c =? 0 then Some NotValidf
      else if ShutdownThreshold c =? 0 then Some NotValidf
      else if RegisterTTL c =? 0 then Some NotValidf
      else if String.eqb (EtcdUsername c) "" then Some NotValidf
      else None
  end.

(** [agentStatus] *)
Record agentStatus := mkStatus {
  st_ID : string;
  st_Master : bool;
  st_OnlyFollow : bool;
  st_IOThreadOK : bool;
  st_SQLThreadOK : bool;
  st_Readonly : bool;
  st_SecondsBehindMaster : Z;
  st_Term : Z;
  st_SinglePointMaster : bool
}.

(** What the remaining goroutines of the process do between two steps of the
    leader's. *)
Record disturbance (D : Type) := mkDist {
  d_srv : Server -> Server;
  d_svc : D -> D;
  d_etcd : Store -> Store;
  d_delay : Z
}.
Arguments mkDist {D}.
Arguments d_srv {D}.
Arguments d_svc {D}.
Arguments d_etcd {D}.
Arguments d_delay {D}.

Definition calmly {D} : disturbance D := mkDist id id id 0.

(** Whose turn it is: the goroutine of [leaderLoop], a case of the [select] of
    [keepLeaderAliveLoop] (its retries go on with [CaseTick]), or one of
    [leaseExpireMonitorLoop]. *)
Inductive select_case :=
| CaseMain
| CaseTick | CaseLeaderStop | CaseDone
| CaseTimer | CaseMonitorStop.

Definition turn (D : Type) : Type := disturbance D * select_case.

(** Where [keepLeaderAliveLoop] is, and whether [leaseExpireMonitorLoop]
    runs. *)
Inductive alive_state := Selecting | Retrying | Finished.

Record helpers := mkHelpers { alive : alive_state; monitoring : bool }.

Definition started : helpers := mkHelpers Selecting true.

(** A goroutine as the tree of its calls. *)
Inductive thread (D A : Type) :=
| Fin (a : A)
| Act (m : M D (thread D A)).
Arguments Fin {D A}.
Arguments Act {D A}.

Section Threads.
Context {D : Type}.

Definition act {A B} (m : M D A) (k : A -> thread D B) : thread D B := Act (let! a := m in ret (k a)).

(** A goroutine that runs alone. *)
Fixpoint run_alone {A} (t : thread D A) : M D A :=
  match t with
  | Fin a => ret a
  | Act m => fun w => match m w with
                      | (Ret t', w') => run_alone t' w'
                      | (Exited c, w') => (Exited c, w')
                      | (Panicked, w') => (Panicked, w')
                      | (Blocked, w') => (Blocked, w')
                      end
  end.

Lemma alone_act {A B} (m : M D A) (k : A -> thread D B) (w : world D) :
  run_alone (act m k) w = (let! a := m in run_alone (k a)) w.
Proof. cbn. unfold bind, ret. by destruct (m w) as [[a| | |] w']. Qed.

Definition disturb (d : disturbance D) : M D unit :=
  fun w => (Ret tt, mkWorld (d_srv d (srv w)) (latestPos w) (d_etcd d (etcd w)) (d_svc d (svc w))
                            (now w + d_delay d) (oracle w) (trace w)).

Fixpoint disturb_all (ds : list (disturbance D)) : M D unit :=
  match ds with
  | [] => ret tt
  | d :: rest => do! disturb d in disturb_all rest
  end.
End Threads.

(** The body of [case <-timer.C] of [leaseExpireMonitorLoop]: [None] is
    [forceClose], which does not return, [Some d] is [timer.Reset(d)]. *)
Definition monitor_fire (expire now : Z) : option Z :=
  let delta := expire - now / Second in
  if delta <=? 0 then None else Some (delta * Second).

Section Server.
Context {D : Type} `{ServiceManager D} `{RangeOrder}.
Context (cfg : Config) (node_ID : string).

(** ** Small accessors *)
Definition setIsLeaderToTrue : M D unit := modify (set_isLeader true).

(** The compare-and-swap returns whether the flag was set. *)
Definition setIsLeaderToFalse : M D bool :=
  let! b := gets isLeader in
  do! modify (set_isLeader false) in ret b.

Definition amILeader : M D bool := gets isLeader.
Definition setIsSPMToTrue : M D unit := modify (set_isSinglePointMaster true).
Definition setIsSPMToFalse : M D unit := modify (set_isSinglePointMaster false).
Definition amISPM : M D bool := gets isSinglePointMaster.

Definition isOnlyFollow (s : Server) : bool := if onlyFollow s then true else OnlyFollow cfg.

Definition loadUUID : M D (option error) :=
  let! r := svc_call GetServerUUID in
  match r with
  | inr e => ret (Some e)
  | inl u =>
      do! modify (set_uuid u) in
      do! modify_latestPos (set_UUID u) in
      ret None
  end.

Definition getServerStatus : M D agentStatus :=
  fun w =>
    let s := srv w in
    (Ret (mkStatus node_ID (isLeader s) (isOnlyFollow s) (SlaveIORunning (latestPos w))
            (SlaveSQLRunning (latestPos w)) (IsReadOnly (svc w)) (SecondsBehindMaster (latestPos w))
            (term s) (isSinglePointMaster s)), w).

(** ** The service, with the answers in the trace *)
Definition sm_SetReadOnly : M D (option error) :=
  let! e := svc_call SetReadOnly in
  do! log_event (ESetReadOnly e) in ret e.

Definition sm_SetReadWrite : M D (option error) :=
  let! e := svc_call SetReadWrite in
  do! log_event (ESetReadWrite e) in ret e.

Definition sm_PromoteToMaster : M D (option error) :=
  let! e := svc_call PromoteToMaster in
  do! log_event (EPromoteToMaster e) in ret e.

Definition sm_RedirectMaster (h p : string) : M D (option error) :=
  let! e := svc_call (RedirectMaster h p) in
  do! log_event (ERedirectMaster h p e) in ret e.

Definition forceClose {A} : M D A := exit 3.

Definition setServiceReadonlyOrShutdown : M D unit :=
  let! e := sm_SetReadOnly in
  match e with
  | Some _ => forceClose
  | None => ret tt
  end.

(** ** [Close]; [Start] has set [httpSrv] before anybody calls it. *)
Definition Close : M D unit :=
  let! closed := gets isClosed in
  if closed then ret tt
  else
    do! modify (set_isClosed true) in
    do! setServiceReadonlyOrShutdown in
    let! _ := svc_call Close_service in
    let! _ := Unregister cfg node_ID in
    do! modify (set_ctxDone true) in
    let! _ := deleteLeaderKey cfg node_ID in
    do! http_Shutdown in
    close_chan shutdownCh set_shutdownCh.

(** ** Promotion *)

Definition uploadPromotionBinlog : M D (option error) :=
  let! lp := get_latestPos in
  let! r := svc_call (LoadSlaveStatusFromDB lp) in
  match r with
  | inr e => ret (Some e)
  | inl currentPos =>
      let! t := gets term in
      let key := join ["switch"; FormatUint (u64 (t - 1)); node_ID] in
      let! r2 := etcd_call (Client.Put (rootPath cfg) key (Marshal_Position currentPos) 0) in
      ret (match r2 with inl _ => None | inr e => Some e end)
  end.

Definition promoteToMaster : M D (option error) :=
  let! leader := amILeader in
  if leader then sm_SetReadWrite
  else
    do! setIsLeaderToTrue in
    let! _ := sm_PromoteToMaster in
    let! _ := uploadPromotionBinlog in
    sm_SetReadWrite.

(** ** Following *)

(** [becomeSlave]: one attempt and at most [retry] more. *)
Fixpoint becomeSlave_loop (retry : nat) (h p : string) (err : option error) : M D (option error) :=
  match err, retry with
  | None, _ => ret None
  | Some _, O => ret err
  | Some e, S n =>
      do! (if bool_decide (e = ErrBadConn) then ret tt else sleep (100 * Millisecond)) in
      let! err' := sm_RedirectMaster h p in
      becomeSlave_loop n h p err'
  end.

Definition becomeSlave (masterHost masterPort : string) : M D (option error) :=
  let! err := sm_RedirectMaster masterHost masterPort in
  becomeSlave_loop 10 masterHost masterPort err.

Definition isPreviousMaster (s : Server) (leader : Leader) : bool :=
  ((term s =? meta_term (meta leader)) && String.eqb node_ID (meta_name (meta leader))) ||
  ((term s =? u64 (meta_term (meta leader) - 1)) && String.eqb (uuid s) (meta_lastUUID (meta leader))).

Definition doChangeMaster (leader : Leader) : M D (option error) :=
  if isSameLeader node_ID (name leader) then promoteToMaster
  else
    let! r := get_NodeStatus cfg (name leader) in
    match r with
    | inr e => ret (Some e)
    | inl newLeader =>
        match parseHost (InternalHost newLeader) with
        | inr e => ret (Some e)
        | inl (masterHost, masterPort) =>
            let! _ := setIsLeaderToFalse in
            becomeSlave masterHost masterPort
        end
    end.

(** ** [preWatch] *)

(** The comparison of the logs, once the log of the agent is loaded. *)
Definition checkLog (s : Server) (leader : Leader) : option error :=
  let m := meta leader in
  if 2 <=? meta_version m then
    if meta_lastTxnID m <? lastTxnID s then Some NotValidf else None
  else if negb (String.eqb (lastUUID s) (meta_lastUUID m)) then Some NotValidf
  else
    match GetTxnIDFromGTIDStr (lastGTID s) (lastUUID s) with
    | inr e => Some e
    | inl myTxnID =>
        match GetTxnIDFromGTIDStr (meta_lastGTID m) (meta_lastUUID m) with
        | inr e => Some e
        | inl latestTxnID => if latestTxnID <? myTxnID then Some NotValidf else None
        end
    end.

Definition preWatch_body (leader : Leader) : M D (option error) :=
  let! s := gets id in
  let lterm := meta_term (meta leader) in
  if term s =? 0 then do! modify (set_term lterm) in ret None
  else if term s <? u64 (lterm - 1) then ret (Some NotValidf)
  else if term s =? lterm then ret None
  else
    let! err := (if String.eqb (lastUUID s) "" then
                   if isPreviousMaster s leader then loadMasterLogFromMySQL
                   else loadSlaveLogFromMySQL
                 else ret None) in
    match err with
    | Some e => ret (Some e)
    | None =>
        let! s' := gets id in
        match checkLog s' leader with
        | Some e => ret (Some e)
        | None =>
            do! (if term s' =? u64 (lterm - 1) then modify (set_term lterm) else ret tt) in
            ret None
        end
    end.

(** The deferred function persists the term when no error is returned; it also
    runs, with a nil error, when the body panics. *)
Definition preWatch (leader : Leader) : M D (option error) :=
  fun w => match preWatch_body leader w with
           | (Ret (Some e), w') => (Ret (Some e), w')
           | (Ret None, w') => (let! _ := persistMyTerm cfg node_ID in ret None) w'
           | (Panicked, w') => (let! _ := persistMyTerm cfg node_ID in panic) w'
           | r => r
           end.

(** [promoteToMaster] call by call, and then [k] with its result. *)
Definition promoting {A} (k : option error -> thread D A) : thread D A :=
  act amILeader (fun leader =>
    if leader then act sm_SetReadWrite k
    else
      act setIsLeaderToTrue (fun _ =>
      act sm_PromoteToMaster (fun _ =>
      act (let! lp := get_latestPos in svc_call (LoadSlaveStatusFromDB lp)) (fun r =>
        match r with
        | inr _ => act sm_SetReadWrite k
        | inl currentPos =>
            act (let! t := gets term in
                 let key := join ["switch"; FormatUint (u64 (t - 1)); node_ID] in
                 etcd_call (Client.Put (rootPath cfg) key (Marshal_Position currentPos) 0))
                (fun _ => act sm_SetReadWrite k)
        end)))).

(** ** Keeping the lease alive *)

Definition KeepAliveOnce (leaseID : Z) : M D (result Z) :=
  let! r := etcd_call (Renew leaseID) in
  do! log_event (EKeepAlive leaseID (match r with inl _ => true | inr _ => false end)) in
  ret r.

(** An attempt to renew the lease: a failed one is repeated. *)
Definition renew_lease (leaderLeaseID : Z) : M D alive_state :=
  let! r := KeepAliveOnce leaderLeaseID in
  match r with
  | inl _ => do! updateLeaseExpireTS cfg in ret Selecting
  | inr _ => ret Retrying
  end.

(** The deferred function of [keepLeaderAliveLoop]. *)
Definition alive_end : M D alive_state :=
  let! closed := gets isClosed in
  do! (if closed then ret tt else setServiceReadonlyOrShutdown) in
  do! log_event EAliveEnd in
  ret Finished.

(** The [for]/[select] of [keepLeaderAliveLoop], a turn of it: a case whose
    channel is not ready does not fire. *)
Definition keepAlive_select (leaderLeaseID : Z) (c : select_case) (k : alive_state) : M D alive_state :=
  match k, c with
  | Selecting, CaseTick => renew_lease leaderLeaseID
  | Retrying, CaseTick => do! sleep (100 * Millisecond) in renew_lease leaderLeaseID
  | Selecting, CaseLeaderStop =>
      let! ch := gets leaderStopCh in
      match ch with
      | ChClosed => alive_end
      | _ => ret Selecting
      end
  | Selecting, CaseDone =>
      let! done := gets ctxDone in
      if done then alive_end else ret Selecting
  | _, _ => ret k
  end.

(** A turn of [leaseExpireMonitorLoop]. *)
Definition monitor_select (c : select_case) (monitors : bool) : M D bool :=
  match monitors, c with
  | true, CaseTimer =>
      fun w => match monitor_fire (leaseExpireTS (srv w)) (now w) with
               | None => forceClose w
               | Some _ => (Ret true, w)
               end
  | true, CaseMonitorStop =>
      let! s := gets id in
      ret (negb (ctxDone s || match leaderStopCh s with ChClosed => true | _ => false end))
  | _, _ => ret monitors
  end.

Definition helpers_turn (leaderLeaseID : Z) (c : select_case) (h : helpers) : M D helpers :=
  let! k := keepAlive_select leaderLeaseID c (alive h) in
  let! m := monitor_select c (monitoring h) in
  ret (mkHelpers k m).

(** The main goroutine [t] and the two others by the schedule; without a
    schedule the main one runs alone.  The value of [t] comes with the state of
    the others and what is left of the schedule. *)
Fixpoint race {A} (leaderLeaseID : Z) (h : helpers) (turns : list (turn D)) (t : thread D A)
    : M D (A * helpers * list (turn D)) :=
  match turns with
  | [] => let! a := run_alone t in ret (a, h, [])
  | (d, c) :: rest =>
      match t with
      | Fin a => ret (a, h, turns)
      | Act m =>
          do! disturb d in
          match c with
          | CaseMain => let! t' := m in race leaderLeaseID h rest t'
          | _ => let! h' := helpers_turn leaderLeaseID c h in race leaderLeaseID h' rest t
          end
      end
  end.

(** [<-keepLeaderAliveBarrier] *)
Fixpoint barrier (leaderLeaseID : Z) (h : helpers) (turns : list (turn D)) : M D unit :=
  match alive h, turns with
  | Finished, _ => ret tt
  | _, [] => block
  | _, (d, c) :: rest =>
      do! disturb d in
      let! h' := helpers_turn leaderLeaseID c h in
      barrier leaderLeaseID h' rest
  end.

(** From the start of the keep-alive goroutine to the end of the iteration; [t]
    says whether the main goroutine waits at the barrier. *)
Definition in_office (leaderLeaseID : Z) (turns : list (turn D)) (t : thread D bool) : M D bool :=
  let! r := race leaderLeaseID started turns t in
  let '(waits, h, rest) := r in
  if (waits : bool) then do! barrier leaderLeaseID h rest in ret true else ret true.

(** ** Single point mode *)

Definition pollAllRegisteredAgents : M D (result (gmap string string)) :=
  etcd_call (fun st => (inl (Client.PrefixGet (rootPath cfg) registryPath st), st)).

Fixpoint waitUntilSlaveAppears_loop (fuel : nat) : M D unit :=
  match fuel with
  | O => block
  | S n =>
      let! allAgents := retry n (5 * Second) pollAllRegisteredAgents in
      if (1 <? size allAgents)%nat then
        do! sleep (RegisterTTL cfg * Second) in
        let! again := pollAllRegisteredAgents in
        match again with
        | inr _ => waitUntilSlaveAppears_loop n
        | inl agents =>
            if (1 <? size agents)%nat then ret tt
            else do! sleep (5 * Second) in waitUntilSlaveAppears_loop n
        end
      else do! sleep (5 * Second) in waitUntilSlaveAppears_loop n
  end.

Definition waitUntilSlaveAppears (fuel : nat) : M D unit :=
  do! sleep (RegisterTTL cfg * Second) in
  waitUntilSlaveAppears_loop fuel.

Definition ignore (m : M D (option error)) : M D unit := let! _ := m in ret tt.

Definition becomeSinglePointMaster (fuel : nat) (resume : bool) : M D unit :=
  do! (if resume then setIsLeaderToTrue else ret tt) in
  let! campaignSuccess := retry fuel (100 * Millisecond)
    (if resume then resumeLeaderAsSinglePoint cfg node_ID
     else campaignLeaderAsSinglePoint cfg node_ID) in
  if negb campaignSuccess then ret tt
  else
    deferred (ignore (removeSPMFromEtcd cfg))
      (let! err := promoteToMaster in
       match err with
       | Some _ => ignore sm_SetReadOnly
       | None =>
           do! setIsSPMToTrue in
           deferred setIsSPMToFalse
             (do! waitUntilSlaveAppears fuel in
              retry_err fuel (1 * Second) sm_SetReadOnly)
       end).

(** ** [leaderLoop] *)

(** What the watcher delivers (see [watchLeader]), the schedule of the
    goroutines of a leader, and the bound on the loops, all fixed during one
    iteration. *)
Context (Watch : nat -> Z -> list WatchResponse) (turns : list (turn D)) (fuel : nat).

(** The main goroutine after a resumed leadership. *)
Definition resuming : thread D bool :=
  act setIsLeaderToTrue (fun _ =>
  act sm_SetReadWrite (fun err =>
    match err with
    | Some _ =>
        act sm_SetReadOnly (fun _ =>
        act (close_chan leaderStopCh set_leaderStopCh) (fun _ => Fin false))
    | None => Fin true
    end)).

(** The leader key holds this node's ID. *)
Definition loop_resume (leader : Leader) : M D bool :=
  do! modify (set_term (meta_term (meta leader))) in
  do! modify (set_log (meta_lastUUID (meta leader)) (meta_lastGTID (meta leader))
                      (meta_lastTxnID (meta leader))) in
  if String.eqb (spm leader) node_ID then
    do! becomeSinglePointMaster fuel true in ret true
  else
    let! r := resumeLeader cfg node_ID in
    match r with
    | inr _ => do! sleep (200 * Millisecond) in ret true
    | inl None => ret true
    | inl (Some leaseID) =>
        do! modify (set_leaderStopCh ChOpen) in
        in_office leaseID turns resuming
    end.

(** Somebody else is the leader. *)
Definition loop_follow (leader : Leader) : M D bool :=
  let! err := preWatch leader in
  match err with
  | Some _ => do! Close in ret false
  | None =>
      let! err := doChangeMaster leader in
      match err with
      | Some _ => do! sleep (100 * Millisecond) in ret true
      | None =>
          let rev := match kv leader with Some x => ModRevision x | None => 0 end in
          let! err := watchLeader Watch fuel rev in
          let! _ := (match err with
                     | Some _ => watchLeader Watch fuel 0
                     | None => ret None
                     end) in
          ret true
      end
  end.

(** The main goroutine after a won campaign. *)
Definition taking_over : thread D bool :=
  promoting (fun err =>
    match err with
    | Some _ =>
        act setServiceReadonlyOrShutdown (fun _ =>
        act (close_chan leaderStopCh set_leaderStopCh) (fun _ =>
        act (sleep (100 * Millisecond)) (fun _ => Fin false)))
    | None => Fin true
    end).

(** What follows a won campaign. *)
Definition after_win (leaseID : Z) : M D bool :=
  do! updateLeaseExpireTS cfg in
  do! modify (fun s => set_term (u64 (term s + 1)) s) in
  do! modify (set_leaderStopCh ChOpen) in
  in_office leaseID turns taking_over.

(** There is no leader. *)
Definition loop_campaign (leader : Leader) : M D bool :=
  let! s := gets id in
  if isOnlyFollow s then do! sleep (1 * Second) in ret true
  else
    let! isSinglePoint :=
      (if negb (meta_term (meta leader) =? 0)
       then preCampaign cfg node_ID fuel (isPreviousMaster s leader)
       else ret false) in
    if isSinglePoint then do! becomeSinglePointMaster fuel false in ret true
    else
      let! r := campaignLeader cfg node_ID in
      match r with
      | inr _ => let! _ := deleteLeaderKey cfg node_ID in ret true
      | inl None => ret true
      | inl (Some leaseID) => after_win leaseID
      end.

(** One iteration: [true] is [continue], [false] is [return]. *)
Definition leaderLoop_body : M D bool :=
  let! r := getLeaderAndMyTerm cfg node_ID in
  match r with
  | inr err =>
      let! closed := gets isClosed in
      if closed then ret false
      else
        do! (if IsNotValid err then Close else ret tt) in
        do! sleep (200 * Millisecond) in
        ret true
  | inl (leader, myTerm) =>
      do! modify (set_term myTerm) in
      if negb (String.eqb (name leader) "") then
        if isSameLeader node_ID (name leader) then loop_resume leader else loop_follow leader
      else loop_campaign leader
  end.

End Server.

(** What the others do in the process before an iteration, what the watcher
    delivers in it, and its schedule. *)
Record round (D : Type) := mkRound {
  r_before : list (disturbance D);
  r_watch : nat -> Z -> list WatchResponse;
  r_turns : list (turn D)
}.
Arguments mkRound {D}.
Arguments r_before {D}.
Arguments r_watch {D}.
Arguments r_turns {D}.

(** [leaderLoop]: iterations with what happens around each of them, and [Close]
    when the loop returns or panics. *)
Section LeaderLoop.
Context {D : Type} `{ServiceManager D} `{RangeOrder}.
Context (cfg : Config) (node_ID : string) (fuel : nat).

Fixpoint leaderLoop_iter (rounds : list (round D)) : M D unit :=
  match rounds with
  | [] => block
  | r :: rest =>
      do! disturb_all (r_before r) in
      let! again := leaderLoop_body cfg node_ID (r_watch r) (r_turns r) fuel in
      if again then leaderLoop_iter rest else ret tt
  end.

Definition leaderLoop (rounds : list (round D)) : M D unit :=
  do! recovered (ret tt) (leaderLoop_iter rounds) in
  Close cfg node_ID.

(** [updateBinlogPos] without the metrics. *)
Definition updateBinlogPos : M D (option error) :=
  let! leader := amILeader in
  if leader then
    let! r := svc_call LoadMasterStatusFromDB in
    match r with
    | None => panic
    | Some (inr e) => ret (Some e)
    | Some (inl pos) =>
        do! modify_latestPos (fun p =>
          set_SlaveSQLRunning false (set_SlaveIORunning false (set_SecondsBehindMaster 0
            (set_GTID (GTID pos) (set_Pos (Pos pos) (set_File (File pos) p)))))) in
        ret None
    end
  else
    let! lp := get_latestPos in
    let! r := svc_call (LoadSlaveStatusFromDB lp) in
    match r with
    | inr e => ret (Some e)
    | inl pos =>
        do! modify_latestPos (fun p =>
          set_SecondsBehindMaster (SecondsBehindMaster pos)
            (set_SlaveIORunning (SlaveIORunning pos) (set_SlaveSQLRunning (SlaveSQLRunning pos)
              (set_GTID (GTID pos) (set_Pos (Pos pos) (set_File (File pos) p)))))) in
        ret None
    end.

(** The condition [startHeartbeatLoop] waits for before it registers the node. *)
Definition ready_to_register (s : Server) (p : Position) : bool :=
  isLeader s || (SlaveIORunning p && SlaveSQLRunning p && (SecondsBehindMaster p <? 60)).

(** The start of [Start], after the service is reached: writes are stopped
    before anything else happens. *)
Definition Start_service : M D unit :=
  do! retry_err fuel (100 * Millisecond) sm_SetReadOnly in
  let! _ := loadUUID in
  ret tt.

End LeaderLoop.
