(* ===== verification/Threads.v ===== *)
(** * Rules for the goroutines of a leader

    [ServerLoop] runs the main goroutine, [keepLeaderAliveLoop] and
    [leaseExpireMonitorLoop] by a schedule.  A preorder on worlds that the calls
    of all three keep, and that the remaining goroutines keep between them, is
    kept by the race, by the wait at the barrier and by the whole term of
    office, for every schedule.  And [promoteToMaster], cut into its calls, is
    [promoteToMaster] when it runs alone. *)

From stdpp Require Import gmap strings list.
From Stdlib Require Import ZArith Lia.
From S2P Require Import Prelude GoStrings Json Gtid Etcd World ServiceManager Demo Leader Node Election ServerLoop.
Import Mvcc.

Section Rules.
Context {D : Type} `{ServiceManager D} `{RangeOrder}.
Context (cfg : Config) (node_ID : string).
Context (R : relation (world D)) `{!PreOrder R}.

(** Every call of a goroutine keeps [R]. *)
Inductive thread_keeps {A} : thread D A -> Prop :=
| keeps_Fin (a : A) : thread_keeps (Fin a)
| keeps_Act (m : M D (thread D A)) :
    keeps R m -> (forall w t w', m w = (Ret t, w') -> thread_keeps t) -> thread_keeps (Act m).

Lemma keeps_act {A B} (m : M D A) (k : A -> thread D B) :
  keeps R m -> (forall a, thread_keeps (k a)) -> thread_keeps (act m k).
Proof.
  intros Hm Hk. constructor.
  - apply keeps_bind; [exact _|done|]. intros a. apply keeps_ret. exact _.
  - intros w t w'. unfold bind, ret. destruct (m w) as [[a| | |] w1]; try done. by intros [= <- _].
Qed.

Lemma keeps_alone {A} (t : thread D A) : thread_keeps t -> keeps R (run_alone t).
Proof.
  induction 1 as [a|m Hm _ IH]; [apply keeps_ret; exact _|]. intros w. specialize (Hm w). cbn.
  destruct (m w) as [[t'| | |] w1] eqn:E; cbn [snd] in *; try done. etrans; [exact Hm|]. by eapply IH.
Qed.

Lemma keeps_monitor (c : select_case) (b : bool) : keeps R (monitor_select c b).
Proof.
  intros w. unfold monitor_select. destruct b, c; try reflexivity. cbn.
  by destruct (monitor_fire (leaseExpireTS (srv w)) (now w)).
Qed.

Lemma keeps_helpers (l : Z) (c : select_case) (h : helpers) :
  keeps R (KeepAliveOnce l) -> keeps R (updateLeaseExpireTS cfg) -> keeps R (sleep (100 * Millisecond)) ->
  keeps R setServiceReadonlyOrShutdown -> keeps R (log_event EAliveEnd) ->
  keeps R (helpers_turn cfg l c h).
Proof.
  intros H1 H2 H3 H4 H5. pose proof keeps_monitor as H6.
  unfold helpers_turn, keepAlive_select, renew_lease, alive_end. repeat keeps_step; auto.
Qed.

Section Turns.
Context (l : Z) (Hh : forall c h, keeps R (helpers_turn cfg l c h)).

Lemma keeps_race {A} (turns : list (turn D)) (t : thread D A) (h : helpers) :
  Forall (fun x => keeps R (disturb x.1)) turns -> thread_keeps t -> keeps R (race cfg l h turns t).
Proof.
  intros Ht. revert h t. induction Ht as [|[d c] rest Hd _ IH]; intros h t Hk; cbn [race].
  - apply keeps_bind; [exact _|by apply keeps_alone|]. intros a. apply keeps_ret. exact _.
  - destruct Hk as [a|m Hm Hk]; [apply keeps_ret; exact _|].
    assert (forall c', c' <> CaseMain -> keeps R (let! h' := helpers_turn cfg l c' h in race cfg l h' rest (Act m))) as Ho.
    { intros c' _. apply keeps_bind; [exact _|apply Hh|]. intros h'. apply IH. by constructor. }
    apply keeps_bind; [exact _|exact Hd|intros _]. destruct c; try by apply Ho.
    intros w. specialize (Hm w). unfold bind. destruct (m w) as [[t'| | |] w1] eqn:E; cbn [snd] in *; try done.
    etrans; [exact Hm|]. apply IH. by eapply Hk.
Qed.

Lemma keeps_barrier (turns : list (turn D)) (h : helpers) :
  Forall (fun x => keeps R (disturb x.1)) turns -> keeps R (barrier cfg l h turns).
Proof.
  intros Ht. revert h. induction Ht as [|[d c] rest Hd _ IH]; intros h; cbn [barrier]; repeat keeps_step; auto.
Qed.

(** What the race leaves of the schedule is a part of it. *)
Lemma race_rest {A} (turns : list (turn D)) (t : thread D A) (h : helpers) (P : turn D -> Prop) w a h' rest w' :
  Forall P turns -> race cfg l h turns t w = (Ret (a, h', rest), w') -> Forall P rest.
Proof.
  intros Ht. revert h t w. induction Ht as [|[d c] turns Hd Ht IH]; intros h t w; cbn [race].
  - unfold bind, ret. destruct (run_alone t w) as [[x| | |] w1]; try done. by intros [= _ _ <- _].
  - destruct t as [x|m]; [intros [= _ _ <- _]; by constructor|]. unfold bind at 1, disturb.
    assert (forall c' w, bind (helpers_turn cfg l c' h) (fun h' => race cfg l h' turns (Act m)) w
                         = (Ret (a, h', rest), w') -> Forall P rest) as Ho.
    { intros c' w1. unfold bind. destruct (helpers_turn cfg l c' h w1) as [[h1| | |] w2]; try done. apply IH. }
    destruct c; try apply Ho. unfold bind.
    match goal with |- context [m ?w1] => destruct (m w1) as [[t'| | |] w2] end; try done. apply IH.
Qed.

Lemma keeps_in_office (turns : list (turn D)) (t : thread D bool) :
  Forall (fun x => keeps R (disturb x.1)) turns -> thread_keeps t -> keeps R (in_office cfg l turns t).
Proof.
  intros Ht Hk w. unfold in_office, bind at 1. pose proof (keeps_race turns t started Ht Hk w) as Hr.
  destruct (race cfg l started turns t w) as [[[[b h] rest]| | |] w1] eqn:E; cbn [snd] in *; try done.
  etrans; [exact Hr|]. destruct b; [|reflexivity].
  apply keeps_bind; [exact _| |intros _; apply keeps_ret; exact _]. apply keeps_barrier. by eapply race_rest.
Qed.
End Turns.

Lemma keeps_disturb_all (ds : list (disturbance D)) :
  Forall (fun d => keeps R (disturb d)) ds -> keeps R (disturb_all ds).
Proof. induction 1; cbn; repeat keeps_step; auto. Qed.
End Rules.

(** The rules of threads beside those of [keeps_step]. *)
Ltac thread_step :=
  lazymatch goal with
  | |- thread_keeps _ (Fin _) => constructor
  | |- thread_keeps _ (act _ _) => apply keeps_act; [exact _| |intros ?]
  | |- thread_keeps _ (match ?x with _ => _ end) => destruct x
  | |- keeps _ (monitor_select _ _) => apply keeps_monitor; exact _
  | |- keeps _ (helpers_turn _ _ _ _) => apply keeps_helpers; [exact _|..]
  | |- keeps _ (in_office _ _ _ _) => apply keeps_in_office; [exact _|intros ??| |]
  | |- keeps _ (disturb_all _) => apply keeps_disturb_all; [exact _|]
  | |- _ => keeps_step
  end.

Section Alone.
Context {D : Type} `{ServiceManager D} `{RangeOrder}.
Context (cfg : Config) (node_ID : string).

(** Alone, the calls of the promotion are the promotion. *)
Lemma alone_promoting {A} (k : option error -> thread D A) (w : world D) :
  run_alone (promoting cfg node_ID k) w = (let! e := promoteToMaster cfg node_ID in run_alone (k e)) w.
Proof.
  unfold promoting, promoteToMaster. rewrite alone_act. unfold amILeader, bind, gets.
  destruct (isLeader (srv w)).
  { by rewrite alone_act. }
  rewrite alone_act. unfold bind at 1, setIsLeaderToTrue, modify. rewrite alone_act. unfold bind at 1.
  destruct (sm_PromoteToMaster (with_srv (set_isLeader true) w)) as [[ep| | |] w1]; try done.
  rewrite alone_act. unfold uploadPromotionBinlog, bind, get_latestPos, svc_call.
  destruct (LoadSlaveStatusFromDB (latestPos w1) (svc w1)) as [[pos|e] d].
  - rewrite alone_act. unfold bind, gets, ret.
    match goal with |- context [etcd_call ?f ?w2] => destruct (etcd_call_ret f w2) as (r & st & -> & _) end.
    by rewrite alone_act.
  - by rewrite alone_act.
Qed.

(** A schedule without turns puts the goroutines in sequence. *)
Lemma in_office_alone (l : Z) (t : thread D bool) (w : world D) :
  in_office cfg l [] t w = (let! b := run_alone t in if b : bool then block else ret true) w.
Proof.
  unfold in_office. cbn [race]. unfold bind at 1 2 4, ret at 1.
  by destruct (run_alone t w) as [[[]| | |] w1].
Qed.
End Alone.
