(* ===== verification/ServerProofs.v ===== *)
(** * Theorems about the agent *)

From stdpp Require Import gmap strings list.
From Stdlib Require Import ZArith Lia.
From S2P Require Import Prelude GoStrings Json Gtid Etcd World ServiceManager Demo Leader Node Election ServerLoop Threads.
Import Mvcc.

(** ** Which events a function adds to the trace *)

Definition is_read_write (e : event) : bool := match e with ESetReadWrite _ => true | _ => false end.
Definition any_event (e : event) : Prop := True.
Definition no_read_write (e : event) : Prop := is_read_write e = false.

(** A predicate that allows everything but making the service writable. *)
Class Quiet (P : event -> Prop) := quiet : forall e, is_read_write e = false -> P e.
#[global] Instance quiet_any : Quiet any_event.
Proof. intros e _. exact I. Qed.
#[global] Instance quiet_no_rw : Quiet no_read_write.
Proof. intros e He. exact He. Qed.

Section Adds.
Context {D : Type} `{ServiceManager D} `{RangeOrder}.
Context (cfg : Config) (node_ID : string) (P : event -> Prop) `{!Quiet P}.

Ltac adds_solve :=
  repeat keeps_step; eauto with moha;
  try (apply adds_log_event; by apply quiet);
  try (apply adds_sleep; intros; by apply quiet).

Lemma adds_commit (rt : TxnRequest) : keeps (adds P) (commit (D := D) rt).
Proof. unfold commit. adds_solve. Qed.
Hint Resolve adds_commit : moha.

Lemma adds_getLeader : keeps (adds P) (getLeaderAndMyTerm (D := D) cfg node_ID).
Proof. unfold getLeaderAndMyTerm. adds_solve. Qed.

Lemma adds_updateLease : keeps (adds P) (updateLeaseExpireTS (D := D) cfg).
Proof. intros w. by apply adds_none. Qed.

Lemma adds_resume : keeps (adds P) (resumeLeader (D := D) cfg node_ID).
Proof. unfold resumeLeader. adds_solve. apply adds_updateLease. Qed.

Lemma adds_campaign : keeps (adds P) (campaignLeader (D := D) cfg node_ID).
Proof. unfold campaignLeader. adds_solve. Qed.

Lemma adds_delete : keeps (adds P) (deleteLeaderKey (D := D) cfg node_ID).
Proof. unfold deleteLeaderKey. adds_solve. Qed.

Lemma adds_persist : keeps (adds P) (persistMyTerm (D := D) cfg node_ID).
Proof. unfold persistMyTerm. adds_solve. Qed.

Lemma adds_removeSPM : keeps (adds P) (removeSPMFromEtcd (D := D) cfg).
Proof. unfold removeSPMFromEtcd. adds_solve. Qed.

Lemma adds_readonly : keeps (adds P) (sm_SetReadOnly (D := D)).
Proof. unfold sm_SetReadOnly. adds_solve. Qed.
Hint Resolve adds_getLeader adds_updateLease adds_resume adds_campaign adds_delete adds_persist
  adds_removeSPM adds_readonly : moha.

Lemma adds_readonly_or_exit : keeps (adds P) (setServiceReadonlyOrShutdown (D := D)).
Proof. unfold setServiceReadonlyOrShutdown, forceClose. adds_solve. Qed.
Hint Resolve adds_readonly_or_exit : moha.

Lemma adds_Unregister : keeps (adds P) (Unregister (D := D) cfg node_ID).
Proof. unfold Unregister, UnregisterNode. adds_solve. Qed.
Hint Resolve adds_Unregister : moha.

Lemma adds_Close : keeps (adds P) (Close (D := D) cfg node_ID).
Proof. unfold Close. adds_solve. Qed.

Lemma adds_upload_binlog : keeps (adds P) (uploadPromotionBinlog (D := D) cfg node_ID).
Proof. unfold uploadPromotionBinlog. adds_solve. Qed.

Lemma adds_redirect (h p : string) : keeps (adds P) (sm_RedirectMaster (D := D) h p).
Proof. unfold sm_RedirectMaster. adds_solve. Qed.
Hint Resolve adds_Close adds_upload_binlog adds_redirect : moha.

Lemma adds_becomeSlave (h p : string) : keeps (adds P) (becomeSlave (D := D) h p).
Proof.
  unfold becomeSlave. apply keeps_bind; [exact _|auto with moha|]. generalize 10%nat as n.
  induction n as [|n IH]; intros [e|]; cbn; adds_solve.
Qed.

Lemma adds_get_NodeStatus (i : string) : keeps (adds P) (get_NodeStatus (D := D) cfg i).
Proof. unfold get_NodeStatus. adds_solve. Qed.

Lemma adds_upload_log (l : LogForElection) : keeps (adds P) (uploadLogForElection (D := D) cfg node_ID l).
Proof. unfold uploadLogForElection. adds_solve. Qed.

Lemma adds_load_slave : keeps (adds P) (loadSlaveLogFromMySQL (D := D)).
Proof. unfold loadSlaveLogFromMySQL. adds_solve. Qed.

Lemma adds_load_master : keeps (adds P) (loadMasterLogFromMySQL (D := D)).
Proof. unfold loadMasterLogFromMySQL. adds_solve. Qed.
Hint Resolve adds_becomeSlave adds_get_NodeStatus adds_upload_log adds_load_slave adds_load_master : moha.

Lemma adds_preWatch_body (l : Leader) : keeps (adds P) (preWatch_body (D := D) node_ID l).
Proof. unfold preWatch_body. adds_solve. Qed.

Lemma adds_preWatch (l : Leader) : keeps (adds P) (preWatch (D := D) cfg node_ID l).
Proof.
  assert (H1 : keeps (adds P) (let! _ := persistMyTerm (D := D) cfg node_ID in ret (@None error)))
    by adds_solve.
  assert (H2 : keeps (adds P) (let! _ := persistMyTerm (D := D) cfg node_ID in @panic D (option error)))
    by adds_solve.
  intros w. unfold preWatch. pose proof (adds_preWatch_body l w) as Hb.
  destruct (preWatch_body node_ID l w) as [[[e|]| | |] w']; cbn [snd] in *; try done.
  - etrans; [exact Hb|apply H1].
  - etrans; [exact Hb|apply H2].
Qed.

Lemma adds_preCampaign (fuel : nat) (b : bool) : keeps (adds P) (preCampaign (D := D) cfg node_ID fuel b).
Proof.
  unfold preCampaign, uploadLogForElectionAsFormerMaster, uploadLogForElectionAsSlave,
    getAllLogsForElection. adds_solve.
Qed.

Lemma adds_watch (Watch : nat -> Z -> list WatchResponse) (fuel : nat) (rev : Z) :
  keeps (adds P) (watchLeader (D := D) Watch fuel rev).
Proof. induction fuel as [|n IH]; cbn; adds_solve. Qed.

Lemma adds_disturb (d : disturbance D) : keeps (adds P) (disturb d).
Proof. intros w. by apply adds_none. Qed.

Lemma adds_disturb_all (ds : list (disturbance D)) : keeps (adds P) (disturb_all ds).
Proof. apply keeps_disturb_all; [exact _|]. apply Forall_true. apply adds_disturb. Qed.

Lemma adds_helpers (l : Z) (c : select_case) (h : helpers) : keeps (adds P) (helpers_turn cfg l c h).
Proof. apply keeps_helpers; [exact _|unfold KeepAliveOnce; adds_solve..]. Qed.

Lemma adds_in_office (l : Z) (turns : list (turn D)) (t : thread D bool) :
  thread_keeps (adds P) t -> keeps (adds P) (in_office cfg l turns t).
Proof.
  intros Ht. apply keeps_in_office; [exact _|apply adds_helpers| |done]. apply Forall_true. intros x. apply adds_disturb.
Qed.

Lemma adds_wait (fuel : nat) : keeps (adds P) (waitUntilSlaveAppears (D := D) cfg fuel).
Proof.
  unfold waitUntilSlaveAppears. adds_solve.
  induction fuel as [|n IH]; cbn; unfold pollAllRegisteredAgents; adds_solve.
Qed.

Lemma adds_promote_any : (forall e, P (ESetReadWrite e)) ->
  keeps (adds P) (promoteToMaster (D := D) cfg node_ID).
Proof.
  intros Hp. unfold promoteToMaster, sm_SetReadWrite, sm_PromoteToMaster, amILeader,
    setIsLeaderToTrue. adds_solve.
Qed.
End Adds.

#[export] Hint Resolve adds_commit adds_getLeader adds_updateLease adds_resume adds_campaign
  adds_delete adds_persist adds_removeSPM adds_readonly adds_readonly_or_exit adds_Unregister
  adds_Close adds_upload_binlog adds_redirect adds_becomeSlave adds_get_NodeStatus adds_upload_log
  adds_preWatch adds_preCampaign adds_watch adds_disturb_all adds_in_office adds_wait quiet_any quiet_no_rw : moha.

(** ** The service is made writable only by the leader *)

Section WritesNeedLeadership.
Context {D : Type} `{ServiceManager D} `{RangeOrder}.
Context (cfg : Config) (node_ID : string).

(** The transactions that make this node the leader. *)
Definition leads (rt : TxnRequest) : Prop :=
  exists s, (exists l, rt = campaign_txn cfg node_ID s l) \/ (exists l, rt = resume_txn cfg node_ID s l) \/
            rt = campaignSinglePoint_txn cfg node_ID s \/ rt = resumeSinglePoint_txn cfg node_ID s.

Definition won (e : event) : Prop := exists rt, e = ETxn rt (Some true) /\ leads rt.

(** In a list of events, newest first, every request to make the service
    writable comes after a won transaction. *)
Definition guarded (new : list event) : Prop :=
  forall l1 e l2, new = l1 ++ ESetReadWrite e :: l2 -> Exists won l2.

Definition guarded_run : relation (world D) := fun w w' =>
  exists new, trace w' = new ++ trace w /\ guarded new.

Lemma guarded_no_rw (new : list event) : Forall no_read_write new -> guarded new.
Proof.
  intros Hn l1 e l2 ->. apply Forall_app in Hn as [_ Hn]. by apply Forall_cons in Hn as [Hn _].
Qed.

Lemma guarded_app (n2 n1 : list event) : guarded n2 -> guarded n1 -> guarded (n2 ++ n1).
Proof.
  intros H2 H1 l1 e l2 E. apply app_eq_inv in E as [(k & -> & E)|(k & -> & E)].
  - destruct k as [|x k]; cbn in E.
    + symmetry in E. by apply (H1 [] e l2).
    + injection E as <- ->. apply Exists_app. left. by apply (H2 l1 e k).
  - by apply (H1 k e l2).
Qed.

#[export] Instance guarded_preorder : PreOrder guarded_run.
Proof.
  split.
  - intros w. exists []. split; [done|]. by apply guarded_no_rw.
  - intros a b c (n1 & E1 & H1) (n2 & E2 & H2). exists (n2 ++ n1).
    rewrite E2, E1. split; [by rewrite app_assoc|by apply guarded_app].
Qed.

(** A computation that never makes the service writable is guarded. *)
Lemma guarded_quiet {A} (m : M D A) : keeps (adds no_read_write) m -> keeps guarded_run m.
Proof. intros Hm w. destruct (Hm w) as (new & E & Hn). exists new. eauto using guarded_no_rw. Qed.

(** After a won transaction everything is. *)
Lemma guarded_after {A} (w w1 : world D) (m : M D A) :
  (exists old, trace w1 = old ++ trace w /\ guarded old /\ Exists won old) ->
  keeps (adds any_event) m -> guarded_run w (snd (m w1)).
Proof.
  intros (old & E1 & Hg & Hw) Hm. destruct (Hm w1) as (new & E2 & _).
  exists (new ++ old). rewrite E2, E1. split; [by rewrite app_assoc|].
  intros l1 e l2 E. apply app_eq_inv in E as [(k & -> & E)|(k & -> & E)].
  - destruct k as [|x k]; cbn in E.
    + symmetry in E. by apply (Hg [] e l2).
    + injection E as <- ->. apply Exists_app. by right.
  - by apply (Hg k e l2).
Qed.

(** [m] wins when it returns a value that satisfies [ok]. *)
Definition wins {A} (m : M D A) (ok : A -> bool) : Prop :=
  forall w a w1, m w = (Ret a, w1) -> ok a = true ->
  exists old, trace w1 = old ++ trace w /\ guarded old /\ Exists won old.

Lemma guarded_bind {A B} (m : M D A) (k : A -> M D B) (ok : A -> bool) :
  keeps guarded_run m -> wins m ok ->
  (forall a, ok a = true -> keeps (adds any_event) (k a)) ->
  (forall a, ok a = false -> keeps guarded_run (k a)) -> keeps guarded_run (bind m k).
Proof.
  intros Hm Hw Ha Hg w. specialize (Hm w). unfold bind.
  destruct (m w) as [[a| | |] w1] eqn:E; cbn [snd] in *; [|done..].
  destruct (ok a) eqn:Eok.
  - apply (guarded_after w w1 (k a)); [by apply (Hw w a w1)|auto].
  - etrans; [exact Hm|by apply Hg].
Qed.

Definition got_true (r : result bool) : bool := match r with inl b => b | inr _ => false end.
Definition got_lease (r : result (option Z)) : bool :=
  match r with inl (Some _) => true | _ => false end.

(** A transaction that was answered with success is in the trace. *)
Lemma commit_won (rt : TxnRequest) (w w1 : world D) (resp : TxnResponse) :
  leads rt -> commit rt w = (Ret (inl resp), w1) -> Succeeded resp = true ->
  exists old, trace w1 = old ++ trace w /\ guarded old /\ Exists won old.
Proof.
  intros Hl E Hs. destruct (commit_ret rt w) as (r & w' & E' & _ & _ & _ & _ & _ & Ht & _).
  rewrite E in E'. injection E' as <- <-. rewrite Hs in Ht.
  exists [ETxn rt (Some true)]. split_and!; [done|by apply guarded_no_rw; repeat constructor|].
  left. exists rt. auto.
Qed.

Lemma wins_singlepoint (rt : Server -> TxnRequest) :
  (forall s, leads (rt s)) ->
  wins (let! s := gets id in
        let! r := commit (D := D) (rt s) in
        match r with inr e => ret (inr e) | inl resp => ret (inl (Succeeded resp)) end) got_true.
Proof.
  intros Hl w a w1. unfold bind, gets, ret. cbn.
  destruct (commit (rt (srv w)) w) as [[[resp|e]| | |] w2] eqn:E; try done; intros [= <- <-]; [|done].
  cbn. by apply (commit_won (rt (srv w)) w w2 resp).
Qed.

Lemma wins_leased (rt : Server -> Z -> TxnRequest) (grant : M D (result Z)) (after : M D unit) :
  (forall s l, leads (rt s l)) -> keeps (adds no_read_write) grant -> keeps (adds no_read_write) after ->
  wins (let! lr := grant in
        match lr with
        | inr e => ret (inr e)
        | inl leaseID =>
            let! s := gets id in
            let! r := commit (D := D) (rt s leaseID) in
            match r with
            | inr e => ret (inr e)
            | inl resp => if Succeeded resp then do! after in ret (inl (Some leaseID))
                          else ret (inl None)
            end
        end) got_lease.
Proof.
  intros Hl Hgr Haf w a w3. unfold bind at 1. destruct (Hgr w) as (n0 & E0 & Hn0).
  destruct (grant w) as [[[l|e]| | |] w0]; try done; [|by intros [= <- <-]].
  unfold bind, gets, ret. cbn in E0 |- *.
  destruct (commit (rt (srv w0) l) w0) as [[[resp|e]| | |] w2] eqn:E; try done; [|by intros [= <- <-]].
  destruct (Succeeded resp) eqn:Es; [|by intros [= <- <-]].
  destruct (Haf w2) as (n2 & E2 & Hn2). destruct (after w2) as [[[]| | |] w2'] eqn:Ea; try done.
  intros [= <- <-] _. cbn in E2.
  destruct (commit_won (rt (srv w0) l) w0 w2 resp (Hl _ _) E Es) as (n1 & E1 & Hg & Hw).
  exists (n2 ++ n1 ++ n0). split_and!.
  - by rewrite E2, E1, E0, <- !app_assoc.
  - auto using guarded_app, guarded_no_rw.
  - apply Exists_app. right. apply Exists_app. by left.
Qed.

Lemma wins_retry {A} (fuel : nat) (d : Z) (f : M D (result A)) (ok : A -> bool) :
  keeps (adds no_read_write) f ->
  wins f (fun r => match r with inl a => ok a | inr _ => false end) ->
  wins (retry fuel d f) ok.
Proof.
  intros Hq Hf. induction fuel as [|n IH]; intros w a w1; cbn; unfold bind at 1;
    destruct (Hq w) as (n0 & E0 & Hn0); destruct (f w) as [[[b|e]| | |] w0] eqn:E; try done; cbn in E0.
  - intros [= <- <-] Hok. by apply (Hf w (inl b) w0).
  - intros [= <- <-] Hok. by apply (Hf w (inl b) w0).
  - unfold bind, sleep. intros Er Hok.
    destruct (IH _ a w1 Er Hok) as (old & Eo & Hg & Hw). cbn in Eo.
    exists (old ++ ESleep d :: n0). split_and!.
    + by rewrite Eo, E0, <- app_assoc.
    + apply guarded_app; [done|]. apply guarded_no_rw. by constructor.
    + apply Exists_app. by left.
Qed.

Lemma wins_campaign : wins (campaignLeader cfg node_ID) got_lease.
Proof.
  intros w a w1 E Hok.
  apply (wins_leased (campaign_txn cfg node_ID) (etcd_call (Grant (LeaderLeaseTTL cfg))) (ret tt))
    with (a := a); auto with moha.
  - intros s l. exists s. eauto.
  - apply keeps_ret. exact _.
Qed.

Lemma wins_resume : wins (resumeLeader cfg node_ID) got_lease.
Proof.
  apply (wins_leased (resume_txn cfg node_ID) (etcd_call (Grant (LeaderLeaseTTL cfg)))
           (updateLeaseExpireTS cfg)); auto with moha.
  intros s l. exists s. eauto.
Qed.

Lemma wins_single_point (resume : bool) :
  wins (if resume then resumeLeaderAsSinglePoint cfg node_ID
        else campaignLeaderAsSinglePoint cfg node_ID) got_true.
Proof.
  destruct resume.
  - apply (wins_singlepoint (resumeSinglePoint_txn cfg node_ID)). intros s. exists s. auto.
  - apply (wins_singlepoint (campaignSinglePoint_txn cfg node_ID)). intros s. exists s. auto.
Qed.

Lemma adds_single_point (P : event -> Prop) `{!Quiet P} (resume : bool) :
  keeps (adds P) (if resume then resumeLeaderAsSinglePoint cfg node_ID
                  else campaignLeaderAsSinglePoint (D := D) cfg node_ID).
Proof.
  destruct resume; unfold resumeLeaderAsSinglePoint, campaignLeaderAsSinglePoint;
    repeat keeps_step; auto with moha.
Qed.

(** Everything else a goroutine does after it won may make the service writable. *)
Ltac any_solve :=
  repeat thread_step; eauto with moha;
  first [ apply adds_log_event; exact I | apply adds_sleep; intros; exact I
        | apply adds_promote_any; [exact _|intros; exact I] | idtac ].

Lemma adds_any_promote : keeps (adds any_event) (promoteToMaster (D := D) cfg node_ID).
Proof. apply adds_promote_any; [exact _|intros; exact I]. Qed.

Lemma adds_any_rw : keeps (adds any_event) (sm_SetReadWrite (D := D)).
Proof. unfold sm_SetReadWrite. any_solve. Qed.
Hint Resolve adds_any_promote adds_any_rw : moha.

Lemma adds_any_taking_over : thread_keeps (adds any_event) (taking_over (D := D) cfg node_ID).
Proof. unfold taking_over, promoting, amILeader, setIsLeaderToTrue, sm_PromoteToMaster. any_solve. Qed.

Lemma adds_any_resuming : thread_keeps (adds any_event) (resuming (D := D)).
Proof. unfold resuming, setIsLeaderToTrue. any_solve. Qed.
Hint Resolve adds_any_taking_over adds_any_resuming : moha.

Lemma guarded_single_point (fuel : nat) (resume : bool) :
  keeps guarded_run (becomeSinglePointMaster (D := D) cfg node_ID fuel resume).
Proof.
  unfold becomeSinglePointMaster. apply keeps_bind; [exact _| |intros _].
  { apply guarded_quiet. destruct resume; [unfold setIsLeaderToTrue|]; repeat keeps_step; auto with moha. }
  apply (guarded_bind _ _ id).
  - apply guarded_quiet. apply keeps_retry; [exact _| |apply adds_single_point; exact _].
    apply adds_sleep. by intros.
  - apply (wins_retry _ _ _ id); [apply adds_single_point; exact _|]. apply wins_single_point.
  - intros a Ha. replace a with true by done. cbn [negb].
    unfold ignore, setIsSPMToTrue, setIsSPMToFalse. any_solve.
  - intros a Ha. replace a with false by done. apply keeps_ret. exact _.
Qed.

Context (Watch : nat -> Z -> list WatchResponse) (turns : list (turn D)) (fuel : nat).

Ltac quiet_solve :=
  repeat keeps_step; eauto with moha;
  first [ apply adds_log_event; reflexivity | apply adds_sleep; intros; reflexivity | idtac ].

Lemma guarded_resume (l : Leader) :
  keeps guarded_run (loop_resume cfg node_ID turns fuel l).
Proof.
  unfold loop_resume. do 2 (apply keeps_bind; [exact _|apply guarded_quiet; auto with moha|intros _]).
  destruct (String.eqb (spm l) node_ID).
  { apply keeps_bind; [exact _|apply guarded_single_point|intros _]. apply keeps_ret. exact _. }
  apply (guarded_bind _ _ got_lease).
  - apply guarded_quiet. auto with moha.
  - apply wins_resume.
  - intros [[z|]|e] Ha; try done. apply keeps_bind; [exact _|auto with moha|intros _]. auto with moha.
  - intros [[z|]|e] Ha; try done; apply guarded_quiet; quiet_solve.
Qed.

Lemma guarded_campaign (l : Leader) :
  keeps guarded_run (loop_campaign cfg node_ID turns fuel l).
Proof.
  unfold loop_campaign. apply keeps_bind; [exact _|apply keeps_gets; exact _|intros s].
  destruct (isOnlyFollow cfg s); [apply guarded_quiet; quiet_solve|].
  apply keeps_bind; [exact _|apply guarded_quiet; quiet_solve|intros [|]].
  { apply keeps_bind; [exact _|apply guarded_single_point|intros _]. apply keeps_ret. exact _. }
  apply (guarded_bind _ _ got_lease).
  - apply guarded_quiet. auto with moha.
  - apply wins_campaign.
  - intros [[z|]|e] Ha; try done. unfold after_win. do 3 (apply keeps_bind; [exact _|auto with moha|intros _]). auto with moha.
  - intros [[z|]|e] Ha; try done; apply guarded_quiet; quiet_solve.
Qed.

(** Following a leader never makes the service writable: the branch of
    [doChangeMaster] that promotes is not taken. *)
Lemma quiet_follow (l : Leader) :
  isSameLeader node_ID (name l) = false ->
  keeps (adds no_read_write) (loop_follow cfg node_ID Watch fuel l).
Proof.
  intros Hne. unfold loop_follow, doChangeMaster, setIsLeaderToFalse. rewrite Hne. quiet_solve.
Qed.

(** One iteration of the leader loop: every request to make the database
    writable comes after a transaction that made this node the leader. *)
Lemma guarded_body : keeps guarded_run (leaderLoop_body cfg node_ID Watch turns fuel).
Proof.
  unfold leaderLoop_body. apply keeps_bind; [exact _|apply guarded_quiet; auto with moha|].
  intros [[l t]|e]; [|apply guarded_quiet; quiet_solve].
  apply keeps_bind; [exact _|apply guarded_quiet; auto with moha|intros _].
  destruct (negb (String.eqb (name l) "")); [|apply guarded_campaign].
  destruct (isSameLeader node_ID (name l)) eqn:E; [apply guarded_resume|].
  apply guarded_quiet. by apply quiet_follow.
Qed.
End WritesNeedLeadership.

(** ** The loop starts every iteration with the service read-only *)

Section LoopHead.
Context {D : Type} `{HS : ServiceManager D} `{RangeOrder} `{HOk : !ServiceManagerOk D}.
Context (cfg : Config) (node_ID : string).

(** A calm run starts no writes, and does not reopen the server. *)
Definition calm_run : relation (world D) := fun w w' =>
  (accepts_writes (svc w') = true -> accepts_writes (svc w) = true) /\
  (isClosed (srv w) = true -> isClosed (srv w') = true) /\ adds any_event w w'.

#[export] Instance calm_preorder : PreOrder calm_run.
Proof.
  split.
  - intros w. split_and!; auto. reflexivity.
  - intros a b c (H1 & H2 & H3) (H4 & H5 & H6). split_and!; auto. by etrans.
Qed.

Lemma calm_same {A} (m : M D A) :
  (forall w, svc (snd (m w)) = svc w) ->
  (forall w, isClosed (srv w) = true -> isClosed (srv (snd (m w))) = true) ->
  keeps (adds any_event) m -> keeps calm_run m.
Proof. intros H1 H2 H3 w. split_and!; auto. by rewrite H1. Qed.

Lemma calm_etcd_call {A} (f : Store -> result A * Store) : keeps calm_run (etcd_call f).
Proof.
  apply calm_same; [| |auto with moha]; intros w;
    by destruct (etcd_call_ret f w) as (r & st & -> & _).
Qed.

Lemma calm_svc_call {A} (f : D -> A * D) :
  (forall d a d', f d = (a, d') -> accepts_writes d' = true -> accepts_writes d = true) ->
  keeps calm_run (svc_call f).
Proof.
  intros Hf w. split_and!; [| |by apply adds_svc_call]; unfold svc_call;
    destruct (f (svc w)) as [a d] eqn:E; cbn; eauto.
Qed.

Lemma calm_modify (f : Server -> Server) :
  (forall s, isClosed s = true -> isClosed (f s) = true) -> keeps calm_run (modify f).
Proof. intros Hf. apply calm_same; auto with moha. intros w. apply Hf. Qed.

Lemma calm_modify_latestPos (f : Position -> Position) : keeps calm_run (modify_latestPos f).
Proof. apply calm_same; auto with moha. Qed.

Lemma calm_sleep (d : Z) : keeps calm_run (sleep d).
Proof. apply calm_same; auto. apply adds_sleep. intros. exact I. Qed.

Lemma calm_log_event (e : event) : keeps calm_run (log_event e).
Proof. apply calm_same; auto. by apply adds_log_event. Qed.

Lemma calm_Shutdown : keeps calm_run http_Shutdown.
Proof. apply calm_same; auto with moha; intros w; unfold http_Shutdown; by destruct (t_busy (next_tick w)). Qed.

Lemma calm_close_chan (g : Server -> chan) (set : chan -> Server -> Server) :
  (forall c s, isClosed (set c s) = isClosed s) -> keeps calm_run (close_chan g set).
Proof.
  intros Hs. apply calm_same; auto with moha; intros w; unfold close_chan;
    destruct (g (srv w)); cbn; rewrite ?Hs; auto.
Qed.

Lemma calm_updateLease : keeps calm_run (updateLeaseExpireTS cfg).
Proof. apply calm_same; auto with moha. Qed.
Hint Resolve calm_etcd_call calm_modify_latestPos calm_sleep calm_log_event calm_updateLease calm_Shutdown : moha.

Ltac calm_solve :=
  repeat keeps_step; eauto with moha;
  try (apply calm_modify; intros s0; by destruct s0);
  try (apply calm_close_chan; intros c0 s0; by destruct s0);
  try (apply calm_svc_call; intros ???;
       first [apply SetReadOnly_quiet|apply PromoteToMaster_quiet|apply RedirectMaster_quiet
             |apply LoadSlaveStatus_quiet|apply LoadMasterInfo_quiet|apply LoadSlaveInfo_quiet
             |apply Close_service_quiet]).

Lemma calm_commit (rt : TxnRequest) : keeps calm_run (commit (D := D) rt).
Proof. unfold commit. calm_solve. Qed.
Hint Resolve calm_commit : moha.

Lemma calm_readonly : keeps calm_run (sm_SetReadOnly (D := D)).
Proof. unfold sm_SetReadOnly. calm_solve. Qed.
Hint Resolve calm_readonly : moha.

Lemma calm_delete : keeps calm_run (deleteLeaderKey (D := D) cfg node_ID).
Proof. unfold deleteLeaderKey. calm_solve. Qed.
Hint Resolve calm_delete : moha.

Lemma calm_Close : keeps calm_run (Close (D := D) cfg node_ID).
Proof.
  unfold Close, setServiceReadonlyOrShutdown, forceClose, Unregister, UnregisterNode. calm_solve.
Qed.
Hint Resolve calm_Close : moha.

Lemma calm_persist : keeps calm_run (persistMyTerm (D := D) cfg node_ID).
Proof. unfold persistMyTerm. calm_solve. Qed.
Hint Resolve calm_persist : moha.

Lemma calm_preWatch (l : Leader) : keeps calm_run (preWatch (D := D) cfg node_ID l).
Proof.
  assert (H0 : keeps calm_run (preWatch_body (D := D) node_ID l))
    by (unfold preWatch_body, loadMasterLogFromMySQL, loadSlaveLogFromMySQL; calm_solve).
  assert (H1 : keeps calm_run (let! _ := persistMyTerm (D := D) cfg node_ID in ret (@None error)))
    by calm_solve.
  assert (H2 : keeps calm_run (let! _ := persistMyTerm (D := D) cfg node_ID in @panic D (option error)))
    by calm_solve.
  intros w. unfold preWatch. specialize (H0 w).
  destruct (preWatch_body node_ID l w) as [[[e|]| | |] w']; cbn [snd] in *; try done.
  - etrans; [exact H0|apply H1].
  - etrans; [exact H0|apply H2].
Qed.

Lemma calm_becomeSlave (h p : string) : keeps calm_run (becomeSlave (D := D) h p).
Proof.
  unfold becomeSlave. apply keeps_bind; [exact _|unfold sm_RedirectMaster; calm_solve|].
  generalize 10%nat as n.
  induction n as [|n IH]; intros [e|]; cbn; unfold sm_RedirectMaster; calm_solve.
Qed.

Lemma calm_watch (Watch : nat -> Z -> list WatchResponse) (fuel : nat) (rev : Z) :
  keeps calm_run (watchLeader (D := D) Watch fuel rev).
Proof. induction fuel as [|n IH]; cbn; calm_solve. Qed.
Hint Resolve calm_preWatch calm_becomeSlave calm_watch : moha.

Lemma calm_follow (Watch : nat -> Z -> list WatchResponse) (fuel : nat) (l : Leader) :
  isSameLeader node_ID (name l) = false ->
  keeps calm_run (loop_follow (D := D) cfg node_ID Watch fuel l).
Proof.
  intros Hne. unfold loop_follow, doChangeMaster, setIsLeaderToFalse, get_NodeStatus.
  rewrite Hne. calm_solve.
Qed.

Lemma calm_preCampaign (fuel : nat) (b : bool) :
  keeps calm_run (preCampaign (D := D) cfg node_ID fuel b).
Proof.
  unfold preCampaign, uploadLogForElectionAsFormerMaster, uploadLogForElectionAsSlave,
    getAllLogsForElection, uploadLogForElection. calm_solve.
Qed.

Lemma calm_campaign : keeps calm_run (campaignLeader (D := D) cfg node_ID).
Proof. unfold campaignLeader. calm_solve. Qed.

Lemma calm_resume : keeps calm_run (resumeLeader (D := D) cfg node_ID).
Proof. unfold resumeLeader. calm_solve. Qed.

Lemma calm_getLeader : keeps calm_run (getLeaderAndMyTerm (D := D) cfg node_ID).
Proof. unfold getLeaderAndMyTerm. calm_solve. Qed.
Hint Resolve calm_preCampaign calm_campaign calm_resume calm_getLeader : moha.

(** The service refused to stop writes during the run from [w] to [w']. *)
Definition write_stop_refused (w w' : world D) : Prop :=
  exists new e, trace w' = new ++ trace w /\ ESetReadOnly (Some e) ∈ new.

(** The main goroutine asked for writes when the keep-alive goroutine had
    ended. *)
Definition overtaken (w w' : world D) : Prop :=
  exists l1 e l2, trace w' = l1 ++ ESetReadWrite e :: l2 ++ trace w /\ EAliveEnd ∈ l2.

(** Writes are stopped, or the server is closed, or the service refused to
    stop writes during the run, or the keep-alive goroutine ended before the
    promotion. *)
Definition safe (w w' : world D) : Prop :=
  accepts_writes (svc w') = false \/ isClosed (srv w') = true \/ write_stop_refused w w' \/ overtaken w w'.

(** [m] ends safely when it returns; [seals] from any world, [safe_run] from a
    world without writes. *)
Definition seals {A} (m : M D A) : Prop :=
  forall w, match m w with (Ret _, w') => safe w w' | _ => True end.
Definition safe_run {A} (m : M D A) : Prop :=
  forall w, accepts_writes (svc w) = false ->
  match m w with (Ret _, w') => safe w w' | _ => True end.

Lemma safe_before (w w1 w2 : world D) : adds any_event w w1 -> safe w1 w2 -> safe w w2.
Proof.
  intros (n0 & E0 & _) [?|[?|[(n1 & e & E1 & Hin)|(l1 & e & l2 & E1 & Hin)]]];
    [by left|by right; left|right; right; left|do 3 right].
  - exists (n1 ++ n0), e. rewrite E1, E0. split; [by rewrite app_assoc|]. apply elem_of_app. by left.
  - exists l1, e, (l2 ++ n0). rewrite E1, E0, <- app_assoc. split; [done|]. apply elem_of_app. by left.
Qed.

Lemma safe_after (w w1 w2 : world D) : safe w w1 -> calm_run w1 w2 -> safe w w2.
Proof.
  intros [Hr|[Hc|[(n1 & e & E1 & Hin)|(l1 & e & l2 & E1 & Hin)]]] (H1 & H2 & n2 & E2 & _).
  - left. destruct (accepts_writes (svc w2)); [|done]. by rewrite H1 in Hr.
  - right. left. auto.
  - right. right. left. exists (n2 ++ n1), e. rewrite E2, E1.
    split; [by rewrite app_assoc|]. apply elem_of_app. by right.
  - do 3 right. exists (n2 ++ l1), e, l2. rewrite E2, E1, <- app_assoc. done.
Qed.

Lemma seals_bind {A B} (m : M D A) (k : A -> M D B) :
  keeps (adds any_event) m -> (forall a, seals (k a)) -> seals (bind m k).
Proof.
  intros Hm Hk w. specialize (Hm w). unfold bind. destruct (m w) as [[a| | |] w1]; [|done..].
  specialize (Hk a w1). destruct (k a w1) as [[b| | |] w2]; [|done..]. by eapply safe_before.
Qed.

Lemma seals_then {A B} (m : M D A) (k : A -> M D B) :
  seals m -> (forall a, keeps calm_run (k a)) -> seals (bind m k).
Proof.
  intros Hm Hk w. specialize (Hm w). unfold bind. destruct (m w) as [[a| | |] w1]; [|done..].
  specialize (Hk a w1). destruct (k a w1) as [[b| | |] w2]; [|done..]. by eapply safe_after.
Qed.

Lemma seals_deferred {A} (d : M D unit) (m : M D A) :
  keeps calm_run d -> seals m -> seals (deferred d m).
Proof.
  intros Hd Hm w. specialize (Hm w). unfold deferred, bind, ret.
  destruct (m w) as [[a| | |] w1]; try done.
  - specialize (Hd w1). destruct (d w1) as [[b| | |] w2]; try done. by eapply safe_after.
  - by destruct (d w1) as [[b| | |] w2].
Qed.

Lemma safe_seals {A} (m : M D A) : seals m -> safe_run m.
Proof. intros Hm w _. apply Hm. Qed.

Lemma safe_calm {A} (m : M D A) : keeps calm_run m -> safe_run m.
Proof.
  intros Hm w Hw. specialize (Hm w). destruct (m w) as [[a| | |] w1]; [|done..].
  eapply safe_after; [by left|exact Hm].
Qed.

Lemma safe_bind {A B} (m : M D A) (k : A -> M D B) :
  keeps calm_run m -> (forall a, safe_run (k a)) -> safe_run (bind m k).
Proof.
  intros Hm Hk w Hw. specialize (Hm w). unfold bind. destruct (m w) as [[a| | |] w1]; [|done..].
  destruct Hm as (H1 & H2 & H3). cbn in *.
  assert (Hw1 : accepts_writes (svc w1) = false)
    by (destruct (accepts_writes (svc w1)); [by rewrite H1 in Hw|done]).
  specialize (Hk a w1 Hw1). destruct (k a w1) as [[b| | |] w2]; [|done..]. by eapply safe_before.
Qed.

Lemma safe_then {A B} (m : M D A) (b : B) : safe_run m -> safe_run (do! m in ret b).
Proof.
  intros Hm w Hw. specialize (Hm w Hw). unfold bind, ret. by destruct (m w) as [[a| | |] w1].
Qed.

(** The call returns; when it reports success nobody can write. *)
Lemma SetReadOnly_returns (w : world D) :
  exists e w', sm_SetReadOnly w = (Ret e, w') /\
    srv w' = srv w /\ etcd w' = etcd w /\ oracle w' = oracle w /\
    match e with
    | None => accepts_writes (svc w') = false /\ IsReadOnly (svc w') = true
    | Some err => trace w' = ESetReadOnly (Some err) :: trace w
    end.
Proof.
  unfold sm_SetReadOnly, svc_call, bind, log_event, ret.
  destruct (SetReadOnly (svc w)) as [[e|] d] eqn:E; do 2 eexists; (split; [reflexivity|]); cbn;
    split_and!; try done; by apply SetReadOnly_ok in E as [? ?].
Qed.

Lemma seals_readonly : seals sm_SetReadOnly.
Proof.
  intros w. destruct (SetReadOnly_returns w) as ([e|] & w' & -> & _ & _ & _ & He).
  - right. right. left. exists [ESetReadOnly (Some e)], e. split; [done|left].
  - left. apply He.
Qed.

Lemma retry_readonly (fuel : nat) (d : Z) (w : world D) :
  match retry_err fuel d sm_SetReadOnly w with
  | (Ret _, w') => accepts_writes (svc w') = false /\ IsReadOnly (svc w') = true
  | _ => True
  end.
Proof.
  revert w. induction fuel as [|n IH]; intros w; cbn; unfold bind;
    destruct (SetReadOnly_returns w) as ([e|] & w' & -> & _ & _ & _ & He); try done. apply IH.
Qed.

Lemma seals_readonly_or_exit : seals setServiceReadonlyOrShutdown.
Proof.
  intros w. unfold setServiceReadonlyOrShutdown, bind.
  destruct (SetReadOnly_returns w) as ([e|] & w' & -> & _ & _ & _ & He); [done|]. left. apply He.
Qed.

(** The end of the keep-alive goroutine stops writes. *)
Lemma seals_alive_end (w w1 : world D) (k : alive_state) :
  alive_end w = (Ret k, w1) -> safe w w1 /\ exists tr, trace w1 = EAliveEnd :: tr ++ trace w.
Proof.
  unfold alive_end. unfold bind at 1, gets. destruct (isClosed (srv w)) eqn:Ec.
  - unfold bind, ret, log_event. intros [= _ <-]. split; [by right; left|]. by exists [].
  - unfold setServiceReadonlyOrShutdown, forceClose, exit, ret, log_event, bind.
    destruct (SetReadOnly_returns w) as ([e|] & w' & E & _ & _ & _ & He); rewrite E; [done|]. intros [= _ <-].
    pose proof (adds_readonly any_event w) as (tr & Et & _). rewrite E in Et. cbn in Et.
    split; [left; apply He|]. exists tr. cbn. by rewrite Et.
Qed.

(** A turn in which it ends. *)
Lemma helpers_finish (l : Z) (c : select_case) (h h1 : helpers) (w w1 : world D) :
  helpers_turn cfg l c h w = (Ret h1, w1) -> alive h <> Finished -> alive h1 = Finished ->
  safe w w1 /\ exists tr, trace w1 = EAliveEnd :: tr ++ trace w.
Proof.
  unfold helpers_turn. unfold bind at 1. intros E Hn Hf.
  destruct (keepAlive_select cfg l c (alive h) w) as [[k| | |] w2] eqn:Ek; try done.
  assert (k = Finished /\ w1 = w2) as [-> ->].
  { pose proof (keeps_monitor eq c (monitoring h) w2) as Hm. unfold bind in E.
    destruct (monitor_select c (monitoring h) w2) as [[b| | |] w3]; try done. injection E as <- <-. auto. }
  clear E. revert Ek. unfold keepAlive_select.
  assert (forall w0, renew_lease cfg l w0 <> (Ret Finished, w2)) as Hr.
  { intros w0. unfold renew_lease, KeepAliveOnce, bind, ret.
    destruct (etcd_call_ret (Renew l) w0) as ([x|e] & st & -> & _); done. }
  destruct (alive h), c; try done; unfold bind, gets, sleep; try (intros E; by destruct (Hr _ E)).
  - destruct (leaderStopCh (srv w)); try done. apply seals_alive_end.
  - destruct (ctxDone (srv w)); [|done]. apply seals_alive_end.
Qed.

(** Once the main goroutine has stopped writes again it leaves it at that, and
    does not wait at the barrier. *)
Inductive settled : thread D bool -> Prop :=
| settled_fin : settled (Fin false)
| settled_act (m : M D (thread D bool)) :
    keeps calm_run m -> (forall w t w', m w = (Ret t, w') -> settled t) -> settled (Act m).

(** Until then, the request for writes is its last one before the barrier. *)
Inductive sealing : thread D bool -> Prop :=
| sealing_more (m : M D (thread D bool)) :
    keeps (adds any_event) m -> (forall w t w', m w = (Ret t, w') -> sealing t) -> sealing (Act m)
| sealing_write (k : option error -> thread D bool) :
    k None = Fin true -> (forall e, sealing (k (Some e))) -> sealing (act sm_SetReadWrite k)
| sealing_stop (m : M D (thread D bool)) :
    keeps (adds any_event) m -> (forall w t w', m w = (Ret t, w') -> safe w w' /\ settled t) -> sealing (Act m).

Lemma settled_keeps (t : thread D bool) : settled t -> thread_keeps (adds any_event) t.
Proof. induction 1 as [|m Hm _ IH]; constructor; [|done]. intros w. apply Hm. Qed.

Lemma sealing_keeps (t : thread D bool) : sealing t -> thread_keeps (adds any_event) t.
Proof.
  induction 1 as [m Hm _ IH|k Hn _ IH|m Hm Hs]; [by constructor| |].
  - apply keeps_act; [exact _|apply adds_any_rw|]. intros [e|]; [apply IH|]. rewrite Hn. constructor.
  - constructor; [done|]. intros w t w' E. apply settled_keeps. by apply (Hs w t w').
Qed.

(** Nobody else starts writes or reopens the server. *)
Definition quiet_turn (x : turn D) : Prop :=
  (forall d, accepts_writes (d_svc x.1 d) = true -> accepts_writes d = true) /\
  (forall s, isClosed s = true -> isClosed (d_srv x.1 s) = true).

Lemma calm_disturb (x : turn D) : quiet_turn x -> keeps calm_run (disturb x.1).
Proof. intros [H1 H2] w. split_and!; cbn; auto. by apply adds_none. Qed.

Lemma calm_helpers (l : Z) (c : select_case) (h : helpers) : keeps calm_run (helpers_turn cfg l c h).
Proof.
  apply keeps_helpers; [exact _|unfold KeepAliveOnce, setServiceReadonlyOrShutdown, forceClose; calm_solve..].
Qed.

Lemma settled_act_intro {A} (m : M D A) (k : A -> thread D bool) :
  keeps calm_run m -> (forall a, settled (k a)) -> settled (act m k).
Proof.
  intros Hm Hk. constructor; [repeat keeps_step; done|]. intros w t w'. unfold bind, ret.
  destruct (m w) as [[a| | |] w1]; try done. by intros [= <- _].
Qed.

Lemma sealing_intro {A} (m : M D A) (k : A -> thread D bool) :
  keeps (adds any_event) m -> (forall a, sealing (k a)) -> sealing (act m k).
Proof.
  intros Hm Hk. apply sealing_more; [repeat keeps_step; done|]. intros w t w'. unfold bind, ret.
  destruct (m w) as [[a| | |] w1]; try done. by intros [= <- _].
Qed.

Lemma sealing_stop_intro {A} (m : M D A) (k : A -> thread D bool) :
  keeps (adds any_event) m -> seals m -> (forall a, settled (k a)) -> sealing (act m k).
Proof.
  intros Hm Hs Hk. apply sealing_stop; [repeat keeps_step; done|]. intros w t w'. specialize (Hs w). unfold bind, ret.
  destruct (m w) as [[a| | |] w1]; try done. intros [= <- <-]. auto.
Qed.

Lemma SetReadWrite_written (k : option error -> thread D bool) (w w' : world D) (t : thread D bool) :
  (let! e := sm_SetReadWrite in ret (k e)) w = (Ret t, w') ->
  exists e, t = k e /\ trace w' = ESetReadWrite e :: trace w.
Proof.
  unfold sm_SetReadWrite, svc_call, bind, log_event, ret. destruct (SetReadWrite (svc w)) as [e d].
  intros [= <- <-]. by exists e.
Qed.

Section Turns.
Context (l : Z).

Lemma race_settled (turns : list (turn D)) (t : thread D bool) (h h' : helpers) (rest : list (turn D)) b (w w' : world D) :
  Forall quiet_turn turns -> settled t -> race cfg l h turns t w = (Ret (b, h', rest), w') ->
  b = false /\ calm_run w w'.
Proof.
  intros Ht. revert h t w. induction Ht as [|[d c] turns Hd _ IH]; intros h t w Hs; cbn [race].
  - unfold bind, ret. revert w. induction Hs as [|m Hm _ IHt]; intros w; cbn [run_alone].
    { unfold ret. intros [= <- _ _ <-]. done. }
    specialize (Hm w). destruct (m w) as [[t| | |] w1] eqn:E; try done. cbn in Hm. intros E2.
    destruct (IHt w t w1 E w1 E2) as [-> Hc]. split; [done|]. by etrans.
  - destruct Hs as [|m Hm Hs]; [unfold ret; by intros [= <- _ _ <-]|]. unfold bind at 1.
    pose proof (calm_disturb _ Hd w) as Hq. cbn [fst] in Hq. unfold disturb in *. cbn [snd] in Hq.
    set (w0 := mkWorld _ _ _ _ _ _ _) in *.
    assert (forall c', bind (helpers_turn cfg l c' h) (fun h' => race cfg l h' turns (Act m)) w0
              = (Ret (b, h', rest), w') -> b = false /\ calm_run w w') as Ho.
    { intros c'. unfold bind. pose proof (calm_helpers l c' h w0) as Hh.
      destruct (helpers_turn cfg l c' h w0) as [[h1| | |] w1]; try done. cbn in Hh. intros E.
      destruct (IH h1 (Act m) w1 (settled_act m Hm Hs) E) as [-> Hc]. split; [done|]. etrans; [exact Hq|by etrans]. }
    destruct c; try apply Ho. unfold bind. specialize (Hm w0).
    destruct (m w0) as [[t| | |] w1] eqn:E; try done. cbn in Hm. intros E2.
    destruct (IH h t w1 (Hs _ _ _ E) E2) as [-> Hc]. split; [done|]. etrans; [exact Hq|by etrans].
Qed.

(** What the race of a sealing thread leaves: writes stopped when it gave up,
    and when it waits while the keep-alive goroutine is over, that one ended
    before it asked for writes. *)
Definition raced (h : helpers) (w : world D) (b : bool) (h' : helpers) (w' : world D) : Prop :=
  if b then alive h' = Finished ->
            exists l1 e l2, trace w' = l1 ++ ESetReadWrite e :: l2 ++ trace w /\ (alive h = Finished \/ EAliveEnd ∈ l2)
  else safe w w'.

Lemma raced_before (h h1 : helpers) (w w1 w2 : world D) b (h' : helpers) :
  (exists new, trace w1 = new ++ trace w /\ (alive h1 = Finished -> alive h = Finished \/ EAliveEnd ∈ new)) ->
  raced h1 w1 b h' w2 -> raced h w b h' w2.
Proof.
  intros (new & E & Hn). destruct b; cbn.
  - intros Hr Hf. destruct (Hr Hf) as (l1 & e & l2 & E2 & Hor). exists l1, e, (l2 ++ new).
    rewrite E2, E, <- app_assoc. split; [done|]. destruct Hor as [Hh|Hin]; [|right; apply elem_of_app; by left].
    destruct (Hn Hh) as [?|?]; [by left|right; apply elem_of_app; by right].
  - apply safe_before. exists new. split; [done|]. by apply Forall_true.
Qed.

Lemma alone_settled (t : thread D bool) (b : bool) (w w' : world D) :
  settled t -> run_alone t w = (Ret b, w') -> b = false /\ calm_run w w'.
Proof.
  intros Hs. revert w. induction Hs as [|m Hm _ IH]; intros w; cbn [run_alone]; [by intros [= <- <-]|].
  specialize (Hm w). destruct (m w) as [[t| | |] w1] eqn:E; try done. cbn in Hm. intros E2.
  destruct (IH w t w1 E w1 E2) as [-> Hc]. split; [done|]. by etrans.
Qed.

(** The steps of a sealing thread. *)
Lemma raced_more (h : helpers) (w w1 w2 : world D) b (h' : helpers) :
  adds any_event w w1 -> raced h w1 b h' w2 -> raced h w b h' w2.
Proof. intros (new & E & _). apply raced_before. eauto. Qed.

Lemma raced_written (h h' : helpers) (w w1 : world D) (e : option error) :
  trace w1 = ESetReadWrite e :: trace w -> (alive h' = Finished -> alive h = Finished) -> raced h w true h' w1.
Proof. intros E Hh Hf. exists [], e, []. split; [exact E|]. auto. Qed.

Lemma alone_sealing (t : thread D bool) (h : helpers) (b : bool) (w w' : world D) :
  sealing t -> run_alone t w = (Ret b, w') -> raced h w b h w'.
Proof.
  intros Hs. revert w. induction Hs as [m Hm _ IH|k Hn _ IH|m _ Hm]; intros w.
  - cbn [run_alone]. specialize (Hm w). destruct (m w) as [[t| | |] w1] eqn:E; try done. cbn in Hm. intros E2.
    eapply raced_more; [exact Hm|]. by eapply IH.
  - rewrite alone_act. unfold bind. destruct (sm_SetReadWrite w) as [[e| | |] w1] eqn:E; try done.
    assert (trace w1 = ESetReadWrite e :: trace w) as Et.
    { destruct (SetReadWrite_written (fun _ => Fin true) w w1 (Fin true)) as (e' & _ & Et);
        [unfold bind; by rewrite E|]. revert E Et. unfold sm_SetReadWrite, svc_call, bind, log_event, ret.
      destruct (SetReadWrite (svc w)). by intros [= <- <-]. }
    destruct e as [e|]; intros E2.
    + eapply raced_more; [by eapply adds_one|]. by eapply IH.
    + rewrite Hn in E2. injection E2 as <- <-. by eapply raced_written.
  - cbn [run_alone]. destruct (m w) as [[t| | |] w1] eqn:E; try done. destruct (Hm _ _ _ E) as [Hsafe Hset]. intros E2.
    destruct (alone_settled t b w1 w' Hset E2) as [-> Hc]. by eapply safe_after.
Qed.

Lemma race_sealing (turns : list (turn D)) (t : thread D bool) (h h' : helpers) (rest : list (turn D)) b (w w' : world D) :
  Forall quiet_turn turns -> sealing t -> race cfg l h turns t w = (Ret (b, h', rest), w') -> raced h w b h' w'.
Proof.
  intros Ht. revert h t w. induction Ht as [|[d c] turns Hd Hts IH]; intros h t w Hs; cbn [race].
  - unfold bind, ret. destruct (run_alone t w) as [[x| | |] w1] eqn:E; try done. intros [= <- <- _ <-].
    by apply (alone_sealing t).
  - intros E. destruct t as [x|m]; [by inversion Hs|]. unfold bind at 1, disturb in E.
    set (w0 := mkWorld _ _ _ _ _ _ _) in *. apply (raced_more h w w0); [by apply adds_none|].
    assert (forall c', bind (helpers_turn cfg l c' h) (fun h' => race cfg l h' turns (Act m)) w0
              = (Ret (b, h', rest), w') -> raced h w0 b h' w') as Ho.
    { clear E. intros c'. unfold bind. pose proof (adds_helpers cfg any_event l c' h w0) as (new & En & _).
      destruct (helpers_turn cfg l c' h w0) as [[h1| | |] w1] eqn:Eh; try done. cbn [snd] in En. intros E.
      apply (raced_before h h1 w0 w1); [|by eapply IH]. exists new. split; [done|]. intros Hf.
      destruct (alive h) eqn:Ea; [| |by left];
        (destruct (helpers_finish l c' h h1 w0 w1 Eh) as [_ (tr & Etr)]; [by rewrite Ea|done|]; right;
         rewrite En in Etr; change (EAliveEnd :: tr ++ trace w0) with ((EAliveEnd :: tr) ++ trace w0) in Etr;
         apply app_inj_2 in Etr as [-> _]; [left|done]). }
    destruct c; try exact (Ho _ E). clear Ho. unfold bind in E.
    destruct (m w0) as [[t| | |] w1] eqn:Em; try done. inversion Hs as [m' Hm Hk|k Hn Hk|m' _ Hm]; subst.
    + specialize (Hm w0). rewrite Em in Hm. eapply raced_more; [exact Hm|]. eapply IH; [by eapply Hk|exact E].
    + destruct (SetReadWrite_written k w0 w1 t Em) as ([e|] & -> & Et).
      * apply (raced_more h w0 w1); [exact (adds_one any_event w0 w1 _ Et I)|]. eapply IH; [apply Hk|exact E].
      * rewrite Hn in E. destruct turns as [|[d' c'] turns]; cbn in E; injection E as <- <- _ <-; by eapply raced_written.
    + destruct (Hm _ _ _ Em) as [Hsafe Hset]. destruct (race_settled turns t h h' rest b w1 w' Hts Hset E) as [-> Hc].
      by eapply safe_after.
Qed.

(** The wait at the barrier ends when the keep-alive goroutine does. *)
Lemma barrier_ends (turns : list (turn D)) (h : helpers) (w w' : world D) :
  barrier cfg l h turns w = (Ret tt, w') -> alive h = Finished /\ w' = w \/ safe w w'.
Proof.
  revert h w. induction turns as [|[d c] turns IH]; intros h w; cbn [barrier].
  - destruct (alive h); [done..|]. intros [= <-]. by left.
  - destruct (alive h) eqn:Ea; [| |intros [= <-]; by left]; unfold bind at 1, disturb; set (w0 := mkWorld _ _ _ _ _ _ _);
      unfold bind; pose proof (adds_helpers cfg any_event l c h w0) as Hh;
      (destruct (helpers_turn cfg l c h w0) as [[h1| | |] w1] eqn:Eh; try done); intros E; right;
      apply (safe_before w w0); try (by apply adds_none);
      (destruct (IH h1 w1 E) as [[Hf ->]|Hs];
       [by apply (helpers_finish l c h h1 w0 w1 Eh); [rewrite Ea|]|by eapply safe_before]).
Qed.

Lemma seals_in_office (turns : list (turn D)) (t : thread D bool) :
  Forall quiet_turn turns -> sealing t -> seals (in_office cfg l turns t).
Proof.
  intros Ht Hs w. unfold in_office, bind at 1.
  destruct (race cfg l started turns t w) as [[[[b h] rest]| | |] w1] eqn:E; try done.
  pose proof (race_sealing turns t started h rest b w w1 Ht Hs E) as Hr. destruct b; [|exact Hr].
  assert (adds any_event w w1) as Ha.
  { assert (thread_keeps (adds any_event) t) as Hk.
    { apply sealing_keeps, Hs. }
    pose proof (keeps_race cfg (adds any_event) l (adds_helpers cfg any_event l) turns t started) as Hk'.
    specialize (Hk' (Forall_true _ _ (fun x => adds_disturb any_event x.1)) Hk w). by rewrite E in Hk'. }
  unfold bind. destruct (barrier cfg l h rest w1) as [[[]| | |] w2] eqn:Eb; try done.
  destruct (barrier_ends rest h w1 w2 Eb) as [[Hf ->]|Hsafe]; [|by eapply safe_before].
  destruct (Hr Hf) as (l1 & e & l2 & Et & [Hst|Hin]); [done|]. do 3 right. by exists l1, e, l2.
Qed.
End Turns.

Lemma seals_single_point_body (fuel : nat) :
  seals (deferred (ignore (removeSPMFromEtcd cfg))
      (let! err := promoteToMaster cfg node_ID in
       match err with
       | Some _ => ignore sm_SetReadOnly
       | None =>
           do! setIsSPMToTrue in
           deferred setIsSPMToFalse
             (do! waitUntilSlaveAppears cfg fuel in
              retry_err fuel (1 * Second) sm_SetReadOnly)
       end)).
Proof.
  apply seals_deferred.
  { unfold ignore, removeSPMFromEtcd. calm_solve. }
  apply seals_bind; [apply adds_promote_any; [exact _|intros; exact I]|]. intros [e|].
  - unfold ignore. apply seals_then; [apply seals_readonly|]. intros. apply keeps_ret. exact _.
  - apply seals_bind; [unfold setIsSPMToTrue; auto with moha|]. intros _. apply seals_deferred.
    { unfold setIsSPMToFalse. calm_solve. }
    apply seals_bind; [auto with moha|]. intros _ w.
    pose proof (retry_readonly fuel (1 * Second) w) as Hr.
    destruct (retry_err fuel (1 * Second) sm_SetReadOnly w) as [[]]; try done. left. apply Hr.
Qed.

Lemma safe_single_point (fuel : nat) (resume : bool) :
  safe_run (becomeSinglePointMaster cfg node_ID fuel resume).
Proof.
  unfold becomeSinglePointMaster. apply safe_bind.
  { destruct resume; unfold setIsLeaderToTrue; calm_solve. }
  intros _. apply safe_bind.
  { unfold resumeLeaderAsSinglePoint, campaignLeaderAsSinglePoint. calm_solve. }
  intros [|]; cbn [negb].
  - apply safe_seals, seals_single_point_body.
  - apply safe_calm. calm_solve.
Qed.

Context (Watch : nat -> Z -> list WatchResponse) (turns : list (turn D)) (fuel : nat).
Context (Hturns : Forall quiet_turn turns).

Lemma settled_closing : settled (act (close_chan leaderStopCh set_leaderStopCh) (fun _ => Fin false)).
Proof. apply settled_act_intro; [calm_solve|]. intros _. constructor. Qed.

Lemma sealing_resuming : sealing resuming.
Proof.
  apply sealing_intro; [unfold setIsLeaderToTrue; auto with moha|intros _]. apply sealing_write; [done|]. intros e.
  apply sealing_stop_intro; [auto with moha|apply seals_readonly|]. intros _. apply settled_closing.
Qed.

Lemma sealing_taking_over : sealing (taking_over cfg node_ID).
Proof.
  set (k := fun err : option error => match err with
    | Some _ =>
        act setServiceReadonlyOrShutdown (fun _ =>
        act (close_chan leaderStopCh set_leaderStopCh) (fun _ =>
        act (sleep (D := D) (100 * Millisecond)) (fun _ => Fin false)))
    | None => Fin true
    end).
  assert (sealing (act sm_SetReadWrite k)) as Hw.
  { apply sealing_write; [done|]. intros e. apply sealing_stop_intro; [auto with moha|apply seals_readonly_or_exit|].
    intros _. apply settled_act_intro; [calm_solve|intros _]. apply settled_act_intro; [calm_solve|]. constructor. }
  unfold taking_over, promoting. fold k. apply sealing_intro; [unfold amILeader; repeat keeps_step|]. intros [|]; [done|].
  apply sealing_intro; [unfold setIsLeaderToTrue; auto with moha|intros _].
  apply sealing_intro; [unfold sm_PromoteToMaster; repeat keeps_step; auto with moha; by apply adds_log_event|intros _].
  apply sealing_intro; [repeat keeps_step; auto with moha|]. intros [pos|e]; [|done].
  apply sealing_intro; [repeat keeps_step; auto with moha|]. intros _. done.
Qed.

Lemma safe_loop_resume (l : Leader) : safe_run (loop_resume cfg node_ID turns fuel l).
Proof.
  unfold loop_resume. do 2 (apply safe_bind; [calm_solve|intros _]).
  destruct (String.eqb (spm l) node_ID); [apply safe_then, safe_single_point|].
  apply safe_bind; [auto with moha|]. intros [[z|]|e]; [|apply safe_calm; calm_solve..].
  apply safe_bind; [calm_solve|intros _]. by apply safe_seals, seals_in_office, sealing_resuming.
Qed.

Lemma safe_loop_campaign (l : Leader) : safe_run (loop_campaign cfg node_ID turns fuel l).
Proof.
  unfold loop_campaign. apply safe_bind; [calm_solve|intros s].
  destruct (isOnlyFollow cfg s); [apply safe_calm; calm_solve|].
  apply safe_bind; [calm_solve|]. intros [|]; [apply safe_then, safe_single_point|].
  apply safe_bind; [auto with moha|]. intros [[z|]|e]; [|apply safe_calm; calm_solve..].
  unfold after_win. do 3 (apply safe_bind; [calm_solve|intros _]).
  by apply safe_seals, seals_in_office, sealing_taking_over.
Qed.

(** C9. The loop invariant the code asks for in a comment ("readonly = 1"), for
    every schedule of the goroutines of a leader: an iteration of the leader
    loop that starts with writes stopped ends, when it comes back to the loop
    head, with writes stopped, unless the server has been closed, the service
    refused to stop writes, or the keep-alive goroutine ended before the main
    one asked for writes.  The remaining goroutines do not start writes
    meanwhile. *)
Theorem loop_head_read_only (w w' : world D) (again : bool) :
  accepts_writes (svc w) = false ->
  leaderLoop_body cfg node_ID Watch turns fuel w = (Ret again, w') ->
  accepts_writes (svc w') = false \/ isClosed (srv w') = true \/ write_stop_refused w w' \/ overtaken w w'.
Proof.
  intros Hw E. assert (Hs : safe_run (leaderLoop_body cfg node_ID Watch turns fuel)).
  { unfold leaderLoop_body. apply safe_bind; [auto with moha|].
    intros [[l t]|e]; [|apply safe_calm; calm_solve].
    apply safe_bind; [calm_solve|intros _].
    destruct (negb (String.eqb (name l) "")); [|apply safe_loop_campaign].
    destruct (isSameLeader node_ID (name l)) eqn:Es; [apply safe_loop_resume|].
    apply safe_calm. by apply calm_follow. }
  specialize (Hs w Hw). rewrite E in Hs. exact Hs.
Qed.
End LoopHead.

(** One iteration on the concrete cluster: the agent campaigns on an empty
    store and is promoted; the lease is renewed once during the promotion and
    once after it; then the stop channel is closed. *)
Definition no_watch : nat -> Z -> list WatchResponse := fun _ _ => [].

Definition stop_turn {D} : turn D := (mkDist (set_leaderStopCh ChClosed) id id 0, CaseLeaderStop).

Definition demo_turns {D} : list (turn D) :=
  [(calmly, CaseMain); (calmly, CaseTick); (calmly, CaseTimer); (calmly, CaseMain); (calmly, CaseMain); (calmly, CaseMain);
   (calmly, CaseMain); (calmly, CaseMain); (calmly, CaseTick); stop_turn].

Lemma demo_turns_quiet : Forall (quiet_turn (D := demo_service)) demo_turns.
Proof. repeat (constructor; [split; cbn; auto; by intros []|]). constructor. Qed.

Definition one_round : outcome bool * world demo_service :=
  @leaderLoop_body _ _ list_order demo_cfg demo_id no_watch demo_turns 5 (demo_world empty_store []).

Lemma loop_head_read_only_witness :
  one_round.1 = Ret true /\
  (accepts_writes (svc one_round.2) = false \/ isClosed (srv one_round.2) = true \/
   write_stop_refused (demo_world empty_store []) one_round.2 \/ overtaken (demo_world empty_store []) one_round.2).
Proof.
  assert (one_round.1 = Ret true) as E by (vm_compute; reflexivity). split; [exact E|].
  refine (@loop_head_read_only _ _ list_order _ demo_cfg demo_id no_watch demo_turns 5 demo_turns_quiet
           (demo_world empty_store []) one_round.2 true _ (with_outcome _ _ E)).
  vm_compute. reflexivity.
Defined.
