(* ===== verification/AgentSpec.v ===== *)
(** * What the single operations of the agent do

    Functional theorems about the operations the leader loop is made of:
    redirecting replication, the checks before following a leader, promotion,
    giving up leadership, closing. *)

From stdpp Require Import gmap strings list.
From Stdlib Require Import ZArith Lia.
From S2P Require Import Prelude GoStrings Json Gtid Etcd World ServiceManager Demo Leader Node Election ServerLoop ServerProofs.
Import Mvcc.

(** ** [becomeSlave] *)

Definition is_redirect (h p : string) (e : event) : bool :=
  match e with ERedirectMaster h' p' _ => String.eqb h h' && String.eqb p p' | _ => false end.

(** The number of attempts to replicate from [h:p]. *)
Definition attempts (h p : string) (tr : list event) : nat :=
  length (filter (fun e => is_redirect h p e = true) tr).

Section BecomeSlave.
Context {D : Type} `{ServiceManager D}.

Lemma attempts_redirect (h p : string) (e : option error) (tr : list event) :
  attempts h p (ERedirectMaster h p e :: tr) = S (attempts h p tr).
Proof. unfold attempts. rewrite filter_cons. cbn. by rewrite !String.eqb_refl, decide_True. Qed.

Lemma redirect_returns (h p : string) (w : world D) :
  exists e w', sm_RedirectMaster h p w = (Ret e, w') /\
    attempts h p (trace w') = S (attempts h p (trace w)).
Proof.
  unfold sm_RedirectMaster, svc_call, bind, log_event, ret.
  destruct (RedirectMaster h p (svc w)) as [e d]. do 2 eexists. split; [reflexivity|].
  apply attempts_redirect.
Qed.

Lemma becomeSlave_loop_spec (h p : string) (n : nat) (err : option error) (w : world D) :
  exists e w' k, becomeSlave_loop n h p err w = (Ret e, w') /\
    attempts h p (trace w') = (attempts h p (trace w) + k)%nat /\ (k <= n)%nat /\
    (err = None -> e = None) /\ (e <> None -> k = n).
Proof.
  revert err w. induction n as [|n IH]; intros [er|] w; cbn [becomeSlave_loop].
  - exists (Some er), w, O. split_and!; auto; lia.
  - exists None, w, O. split_and!; auto; lia || done.
  - set (pause := if bool_decide (er = ErrBadConn) then _ else _).
    assert (Hp : exists w1, pause w = (Ret tt, w1) /\ attempts h p (trace w1) = attempts h p (trace w)).
    { unfold pause. destruct (bool_decide (er = ErrBadConn)); eexists; (split; [reflexivity|]); done. }
    destruct Hp as (w1 & E1 & A1). unfold bind at 1. rewrite E1.
    destruct (redirect_returns h p w1) as (e2 & w2 & E2 & A2). unfold bind. rewrite E2.
    destruct (IH e2 w2) as (e & w' & k & E & Ha & Hk & H1 & H2).
    exists e, w', (S k). rewrite E, Ha, A2, A1. split_and!; [done|lia|lia|done|].
    intros He. by rewrite (H2 He).
  - exists None, w, O. split_and!; auto; lia || done.
Qed.

(** [becomeSlave] always returns: it asks the service to replicate from the
    new master at least once and at most eleven times, and returns an error
    only when all eleven attempts failed. *)
Theorem becomeSlave_bounded (h p : string) (w : world D) :
  exists e w' k, becomeSlave h p w = (Ret e, w') /\
    attempts h p (trace w') = (attempts h p (trace w) + k)%nat /\
    (1 <= k <= 11)%nat /\ (e <> None -> k = 11%nat).
Proof.
  unfold becomeSlave, bind.
  destruct (redirect_returns h p w) as (e1 & w1 & -> & A1).
  destruct (becomeSlave_loop_spec h p 10 e1 w1) as (e & w' & k & -> & Ha & Hk & _ & H2).
  exists e, w', (S k). split_and!; [done|lia|lia|lia|]. intros He. by rewrite (H2 He).
Qed.
End BecomeSlave.

(** ** [preWatch] *)
Section PreWatch.
Context {D : Type} `{ServiceManager D}.
Context (cfg : Config) (node_ID : string).

(** The three fast answers of [preWatch]. *)
Inductive verdict := Join_fresh | Too_far_behind | Same_term | Compare_logs.

Definition classify (myTerm leaderTerm : Z) : verdict :=
  if myTerm =? 0 then Join_fresh
  else if myTerm <? u64 (leaderTerm - 1) then Too_far_behind
  else if myTerm =? leaderTerm then Same_term
  else Compare_logs.

(** The log of the agent is not later than the one the leader was elected with. *)
Definition no_later_log (s : Server) (m : LeaderMeta) : Prop :=
  if 2 <=? meta_version m then lastTxnID s <= meta_lastTxnID m
  else lastUUID s = meta_lastUUID m /\
       exists mine theirs, GetTxnIDFromGTIDStr (lastGTID s) (lastUUID s) = inl mine /\
         GetTxnIDFromGTIDStr (meta_lastGTID m) (meta_lastUUID m) = inl theirs /\ mine <= theirs.

Lemma checkLog_spec (s : Server) (leader : Leader) :
  checkLog s leader = None <-> no_later_log s (meta leader).
Proof.
  unfold checkLog, no_later_log. destruct (2 <=? meta_version (meta leader)).
  - destruct (Z.ltb_spec (meta_lastTxnID (meta leader)) (lastTxnID s)); split; done || lia.
  - destruct (String.eqb_spec (lastUUID s) (meta_lastUUID (meta leader))) as [|Hne]; cbn.
    + destruct (GetTxnIDFromGTIDStr (lastGTID s) (lastUUID s)) as [mine|];
        [|split; [done|intros (_ & ? & ? & ? & _); done]].
      destruct (GetTxnIDFromGTIDStr (meta_lastGTID _) _) as [theirs|];
        [|split; [done|intros (_ & ? & ? & _ & ? & _); done]].
      destruct (Z.ltb_spec theirs mine); split; try done.
      * intros (_ & ? & ? & [= <-] & [= <-] & ?). lia.
      * eauto 8.
    + split; [done|]. by intros [? _].
Qed.

Lemma persist_srv (w w' : world D) (o : outcome (option error)) :
  persistMyTerm cfg node_ID w = (o, w') -> (exists e, o = Ret e) /\ srv w' = srv w.
Proof.
  unfold persistMyTerm, bind, gets, ret.
  match goal with |- context [etcd_call ?f w] =>
    destruct (etcd_call_ret f w) as (r & st & -> & _) end.
  intros [= <- <-]. eauto.
Qed.

(** What the answer of [preWatch] depends on: an agent of term 0 joins and an
    agent in the term of the leader goes on, both without a look at the logs;
    an agent more than one term behind is refused; any other (one term behind,
    or ahead) may follow exactly when its log is not later. *)
Definition may_follow (s : Server) (leader : Leader) : Prop :=
  match classify (term s) (meta_term (meta leader)) with
  | Join_fresh | Same_term => True
  | Too_far_behind => False
  | Compare_logs => no_later_log s (meta leader)
  end.

(** C14. [preWatch] decides: for an agent that knows its log it returns, and
    lets the agent follow exactly when [may_follow] says so.  The logs are
    compared by transaction id for a leader of schema version 2, and otherwise
    by the same master and the last transactions of the GTID sets.  An agent
    that may follow is afterwards in the term of the leader, unless it was
    ahead of it; a refused one keeps its term. *)
Theorem preWatch_decides (leader : Leader) (w : world D) :
  is_u64 (term (srv w)) -> is_u64 (meta_term (meta leader)) -> lastUUID (srv w) <> "" ->
  exists r w', preWatch cfg node_ID leader w = (Ret r, w') /\
    (r = None <-> may_follow (srv w) leader) /\
    (r = None -> term (srv w') = meta_term (meta leader) \/
                 term (srv w') = term (srv w) /\ meta_term (meta leader) < term (srv w)) /\
    (r <> None -> w' = w).
Proof.
  intros Ht Hl Hu. unfold may_follow, preWatch.
  assert (forall w1 : world D, exists w', (let! _ := persistMyTerm cfg node_ID in ret (@None error)) w1 = (Ret None, w') /\
            srv w' = srv w1) as Hp.
  { intros w1. unfold bind. destruct (persistMyTerm cfg node_ID w1) as [o w2] eqn:Ep.
    apply persist_srv in Ep as [[e ->] Hsrv]. by exists w2. }
  unfold preWatch_body, classify, bind at 1, gets. cbn [id]. apply String.eqb_neq in Hu. rewrite Hu.
  destruct (Z.eqb_spec (term (srv w)) 0) as [E0|E0].
  { unfold bind, modify, ret. destruct (Hp (with_srv (set_term (meta_term (meta leader))) w)) as (w' & E & Hs).
    unfold bind, ret in E. rewrite E. exists None, w'. rewrite Hs. cbn. split_and!; auto; done. }
  destruct (Z.ltb_spec (term (srv w)) (u64 (meta_term (meta leader) - 1))) as [E1|E1].
  { exists (Some NotValidf), w. split_and!; auto; done. }
  destruct (Z.eqb_spec (term (srv w)) (meta_term (meta leader))) as [E2|E2].
  { destruct (Hp w) as (w' & E & Hs). unfold bind, ret in E |- *. rewrite E. exists None, w'. rewrite Hs. split_and!; auto; done. }
  unfold bind at 1, ret at 1. unfold bind at 1. cbn [id].
  pose proof (checkLog_spec (srv w) leader) as Hc. destruct (checkLog (srv w) leader) as [e|] eqn:Ec.
  { exists (Some e), w. split_and!; auto; naive_solver. }
  destruct (Z.eqb_spec (term (srv w)) (u64 (meta_term (meta leader) - 1))) as [E3|E3].
  - destruct (Hp (with_srv (set_term (meta_term (meta leader))) w)) as (w' & E & Hs). unfold bind, modify, ret in E |- *. rewrite E.
    exists None, w'. rewrite Hs. cbn. split_and!; auto; naive_solver.
  - destruct (Hp w) as (w' & E & Hs). unfold bind, modify, ret in E |- *. rewrite E. exists None, w'. rewrite Hs. split_and!; auto; try naive_solver.
    intros _. right. split; [done|]. unfold is_u64 in *. destruct (Z.eq_dec (meta_term (meta leader)) 0) as [Hz|Hz].
    + rewrite Hz, u64_pred_zero in *. lia.
    + rewrite u64_pred_pos in * by lia. lia.
Qed.

(** C15. An agent that knows its log and may not follow (it is more than one term
    behind, or neither new nor in the term of the leader and its log is later)
    does not follow: the iteration closes the server and leaves the loop,
    without touching etcd or the service before. *)
Theorem later_log_closes `{RangeOrder} (Watch : nat -> Z -> list WatchResponse) (fuel : nat)
    (leader : Leader) (w : world D) :
  lastUUID (srv w) <> "" -> ~ may_follow (srv w) leader ->
  loop_follow cfg node_ID Watch fuel leader w = (do! Close cfg node_ID in ret false) w.
Proof.
  intros Hu Hc. unfold loop_follow. unfold bind at 1.
  assert (E : exists e, preWatch cfg node_ID leader w = (Ret (Some e), w)); [|by destruct E as [e ->]].
  unfold preWatch, preWatch_body, bind, gets, ret. cbn [id]. revert Hc. unfold may_follow, classify.
  apply String.eqb_neq in Hu. rewrite Hu.
  destruct (term (srv w) =? 0); [naive_solver|].
  destruct (term (srv w) <? u64 (meta_term (meta leader) - 1)); [by eexists|].
  destruct (term (srv w) =? meta_term (meta leader)); [naive_solver|].
  rewrite <- checkLog_spec. destruct (checkLog (srv w) leader); [by eexists|done].
Qed.

End PreWatch.

(** ** Giving up leadership *)
Section GiveUp.
Context {D : Type} `{ServiceManager D}.
Context (cfg : Config) (node_ID : string).

Lemma deleteLeader_store (st : Store) :
  applyCompares (kvs st) [leaderCmp cfg node_ID] = true ->
  (exists x, kvs st !! fullLeaderPath cfg = Some x /\ Value x = node_ID) /\
  kvs (Txn (deleteLeader_txn cfg node_ID) st).2 !! fullLeaderPath cfg = None.
Proof.
  intros Hc. destruct (Txn_succeeded (deleteLeader_txn cfg node_ID) st Hc eq_refl) as (_ & Hk & _).
  rewrite Hk. cbn [applyCompares forallb applyCompare leaderCmp] in Hc. rewrite andb_true_r in Hc.
  change (Client.KeyWithRootPath (rootPath cfg) leaderPath) with (fullLeaderPath cfg) in Hc.
  destruct (kvs st !! fullLeaderPath cfg) as [x|] eqn:Ek; [|done]. bool_to_prop.
  split; [eauto|]. cbn [deleteLeader_txn Success applyOps applyOp]. unfold tw_delete. rewrite Ek.
  cbv iota beta zeta.
  destruct (delete (fullLeaderPath cfg) (kvs st) !! fullPathOf cfg metaVersionPath);
    cbn [snd]; [|apply lookup_delete_eq].
  destruct (decide (fullPathOf cfg metaVersionPath = fullLeaderPath cfg)) as [->|Hne];
    [apply lookup_delete_eq|rewrite lookup_delete_ne by done; apply lookup_delete_eq].
Qed.

(** The leader key is there and holds the ID of this node. *)
Definition holds_own_key (st : Store) : Prop :=
  exists x, kvs st !! fullLeaderPath cfg = Some x /\ Value x = node_ID.

(** [deleteLeaderKey] removes the leader key only when it holds this node's
    ID, and reports success exactly then; the key of another leader stays as it
    is. *)
Theorem deleteLeaderKey_own (w w' : world D) (o : outcome (option error)) :
  deleteLeaderKey cfg node_ID w = (o, w') ->
  let before := kvs (etcd (arrival w)) !! fullLeaderPath cfg in
  let after := kvs (etcd w') !! fullLeaderPath cfg in
  match o with
  | Ret None => holds_own_key (etcd (arrival w)) /\ after = None
  | Ret (Some _) => after = before \/ holds_own_key (etcd (arrival w)) /\ after = None
  | _ => False
  end.
Proof.
  unfold holds_own_key.
  unfold deleteLeaderKey, bind.
  destruct (commit_ret (deleteLeader_txn cfg node_ID) w) as
    (r & w1 & E & _ & _ & _ & _ & _ & _ & Hst). rewrite E.
  pose proof (deleteLeader_store (etcd (arrival w))) as Hown.
  destruct r as [[[] rs]|e].
  - apply commit_inl in E as (_ & Ht & _). destruct (Txn_true _ _ _ _ Ht) as [Hc _].
    rewrite Ht in Hown. cbn. intros [= <- <-]. by apply Hown.
  - apply commit_inl in E as (_ & Ht & _). apply Txn_false in Ht as [_ Ht].
    cbn. intros [= <- <-]. left. by rewrite Ht.
  - intros [= <- <-]. destruct Hst as [-> | ->]; [by left|].
    destruct (applyCompares (kvs (etcd (arrival w))) [leaderCmp cfg node_ID]) eqn:Hc; [right; auto|].
    left. by rewrite (Txn_failed (deleteLeader_txn cfg node_ID) _ Hc).
Qed.

(** The cleaner that runs after exit code 3 has the same effect: it removes
    the leader key exactly when the key holds the ID of the local node. *)
Lemma StartClean_own (st st' : Store) (nodeID : string) (e : option error) :
  StartClean cfg (inl nodeID) st = (e, st') ->
  (e = None /\ (exists x, kvs st !! fullLeaderPath cfg = Some x /\ Value x = nodeID) /\
     kvs st' = delete (fullLeaderPath cfg) (kvs st)) \/
  (e <> None /\ st' = st /\ forall x, kvs st !! fullLeaderPath cfg = Some x -> Value x <> nodeID).
Proof.
  unfold StartClean, Txn, fullLeaderPath, fullPathOf.
  generalize (Client.KeyWithRootPath (rootPath cfg) leaderPath) as L. intros L.
  cbn. rewrite andb_true_r. destruct (kvs st !! L) as [x|] eqn:Ek; cbn.
  - destruct (String.eqb_spec (Value x) nodeID) as [Hv|Hv]; cbn.
    + unfold tw_delete. rewrite Ek. intros [= <- <-]. left. eauto 6.
    + intros [= <- <-]. right. split_and!; [done|by destruct st|]. by intros ? [= <-].
  - intros [= <- <-]. right. split_and!; [done|by destruct st|done].
Qed.
End GiveUp.

(** ** Closing *)
Section Closing.
Context {D : Type} `{HS : ServiceManager D} `{HOk : !ServiceManagerOk D}.
Context (cfg : Config) (node_ID : string).

(** A request made after the context is done does not reach etcd. *)
Lemma deleteLeaderKey_canceled (w : world D) :
  ctxDone (srv w) = true ->
  exists w', deleteLeaderKey cfg node_ID w = (Ret (Some ErrCanceled), w') /\
    etcd w' = etcd (arrival w) /\ oracle w' = oracle (arrival w) /\ srv w' = srv w /\ svc w' = svc w.
Proof.
  intros Hc. unfold deleteLeaderKey, commit, bind, etcd_call, ret, log_event. rewrite Hc.
  by eexists.
Qed.

(** A server that [Close] has taken down. *)
Definition taken_down (w : world D) : Prop :=
  accepts_writes (svc w) = false /\ isClosed (srv w) = true /\ ctxDone (srv w) = true /\
  shutdownCh (srv w) = ChClosed.

(** A server whose [Close] panicked in [httpSrv.Shutdown]. *)
Definition cut_short (w : world D) : Prop :=
  accepts_writes (svc w) = false /\ isClosed (srv w) = true /\ ctxDone (srv w) = true /\
  shutdownCh (srv w) = ChOpen.

(** What follows the write stop in [Close]: it comes to the end with the context
    done, unless an HTTP request is being served. *)
Lemma Close_rest (w : world D) :
  registerStopCh (srv w) = ChOpen -> shutdownCh (srv w) = ChOpen ->
  accepts_writes (svc w) = false -> isClosed (srv w) = true ->
  exists o w', (let! _ := svc_call Close_service in
                let! _ := Unregister cfg node_ID in
                do! modify (set_ctxDone true) in
                let! _ := deleteLeaderKey cfg node_ID in
                do! http_Shutdown in
                close_chan shutdownCh set_shutdownCh) w = (o, w') /\
    (o = Ret tt /\ taken_down w' \/
     o = Panicked /\ cut_short w' /\ Exists (fun t => t_busy t = true) (oracle w)).
Proof.
  intros Hr Hs Hw Hcl. unfold bind at 1, svc_call.
  destruct (Close_service (svc w)) as [ec d] eqn:Ed.
  assert (Hd : accepts_writes d = false).
  { destruct (accepts_writes d) eqn:Ea; [|done]. by rewrite (Close_service_quiet _ _ _ Ed Ea) in Hw. }
  unfold bind at 1, Unregister, UnregisterNode, bind at 1, close_chan at 1. cbn [srv with_svc]. rewrite Hr.
  unfold bind at 1.
  match goal with |- context [etcd_call ?f ?w1] =>
    destruct (etcd_call_ret f w1) as (r & st & -> & _) end.
  unfold ret at 1, bind at 1, modify. set (w1 := with_srv (set_ctxDone true) _).
  destruct (deleteLeaderKey_canceled w1 eq_refl) as (w2 & E2 & _ & Ho2 & Hs2 & Hv2). unfold bind at 1. rewrite E2.
  unfold bind, http_Shutdown. destruct (t_busy (next_tick w2)) eqn:Eb.
  - exists Panicked, (arrival w2). split; [done|]. right. split; [done|]. unfold cut_short. cbn. rewrite Hs2, Hv2. cbn. split_and!; auto.
    revert Eb. unfold next_tick. rewrite Ho2. cbn. destruct (oracle w) as [|t1 [|t2 [|t3 o]]]; cbn; try done.
    intros Eb. by do 2 right; left.
  - unfold close_chan. cbn. rewrite Hs2. cbn. rewrite Hs. do 2 eexists. split; [reflexivity|]. left. split; [done|].
    unfold taken_down. cbn. rewrite Hs2, Hv2. cbn. auto.
Qed.

(** The three ends of [Close]. *)
Lemma Close_ends (w : world D) :
  isClosed (srv w) = false -> registerStopCh (srv w) = ChOpen -> shutdownCh (srv w) = ChOpen ->
  exists w', (Close cfg node_ID w = (Ret tt, w') /\ taken_down w') \/
             (Close cfg node_ID w = (Panicked, w') /\ cut_short w' /\ Exists (fun t => t_busy t = true) (oracle w)) \/
             (Close cfg node_ID w = (Exited 3, w') /\
                exists e, trace w' = ESetReadOnly (Some e) :: trace w).
Proof.
  intros Hc Hr Hs. set (w1 := with_srv (set_isClosed true) w).
  destruct (SetReadOnly_returns w1) as (e & w2 & E2 & Hsrv & _ & Ho & He).
  assert (forall o w', Close cfg node_ID w = (o, w') ->
            (o = Ret tt /\ taken_down w' \/
             o = Panicked /\ cut_short w' /\ Exists (fun t => t_busy t = true) (oracle w) \/
             o = Exited 3 /\ exists e, trace w' = ESetReadOnly (Some e) :: trace w)) as Hgo.
  { intros o w'. unfold Close. unfold bind at 1, gets. rewrite Hc. unfold bind at 1, modify at 1. fold w1.
    unfold bind at 1, setServiceReadonlyOrShutdown. unfold bind at 1. rewrite E2. destruct e as [e|].
    { intros [= <- <-]. right. right. split; [done|]. by exists e. }
    destruct (Close_rest w2) as (o' & w3 & E3 & Hend); [by rewrite Hsrv..|apply He|by rewrite Hsrv|].
    unfold ret at 1. intros E. rewrite Ho in Hend. rewrite E3 in E. injection E as <- <-. naive_solver. }
  destruct (Close cfg node_ID w) as [o w'] eqn:E. exists w'. destruct (Hgo o w' eq_refl) as [[-> ?]|[(-> & ?)|[-> ?]]]; auto.
Qed.

(** C16. Closing stops writes: [Close] on an open server stops writes and marks
    the server closed; it returns with the context done and the shutdown
    channel closed; or it panics in [httpSrv.Shutdown(nil)], which happens only
    while an HTTP request is being served, with writes stopped and the channel
    left open; or, when the service will not stop writes, the process exits
    with code 3. *)
Theorem Close_stops_writes (w : world D) :
  isClosed (srv w) = false -> registerStopCh (srv w) = ChOpen -> shutdownCh (srv w) = ChOpen ->
  exists w', (Close cfg node_ID w = (Ret tt, w') /\ taken_down w') \/
             (Close cfg node_ID w = (Panicked, w') /\ cut_short w' /\ Exists (fun t => t_busy t = true) (oracle w)) \/
             (Close cfg node_ID w = (Exited 3, w') /\
                exists e, trace w' = ESetReadOnly (Some e) :: trace w).
Proof. apply Close_ends. Qed.

Lemma leader_key_not_registered (st : Store) :
  plain_elem node_ID = true ->
  kvs (Client.Delete (rootPath cfg) (join [registryPath; node_ID]) true st) !! fullLeaderPath cfg =
  kvs st !! fullLeaderPath cfg.
Proof.
  intros Hid. apply Client.DeleteRange_untouched. rewrite join_two by done. cbn [touches].
  exact (path_Join_prefix (rootPath cfg) ["slave"; node_ID] ["master"] ltac:(done) ltac:(done)
           ltac:(by repeat constructor) ltac:(by repeat constructor)).
Qed.

(** The leader key of a store. *)
Definition leader_key (st : Store) : option KeyValue := kvs st !! fullLeaderPath cfg.

(** [Close] leaves the leader key alone. *)
Lemma Close_leader_key (w : world D) (v : option KeyValue) :
  plain_elem node_ID = true -> leader_key (etcd w) = v ->
  Forall (tick_keeps (fun st => leader_key st = v)) (oracle w) ->
  leader_key (etcd (snd (Close cfg node_ID w))) = v.
Proof.
  intros Hid Hv Ho. set (I := fun st => leader_key st = v) in *.
  enough (keeps (store_inv I) (Close (D := D) cfg node_ID)) as Hk by apply (Hk w (conj Hv Ho)).
  unfold Close. apply keeps_bind; [exact _|apply keeps_gets; exact _|intros [|]; [apply keeps_ret; exact _|]].
  apply keeps_bind; [exact _|by apply keeps_store_inv|intros _].
  apply keeps_bind; [exact _| |intros _].
  { unfold setServiceReadonlyOrShutdown, sm_SetReadOnly, forceClose. repeat keeps_step.
    - by apply keeps_svc_call_store. - by apply keeps_store_inv. }
  apply keeps_bind; [exact _|by apply keeps_svc_call_store|intros _].
  apply keeps_bind; [exact _| |intros _].
  { unfold Unregister, UnregisterNode. repeat keeps_step.
    - apply keeps_store_inv. intros w1. unfold close_chan. by destruct (registerStopCh (srv w1)).
    - apply keeps_etcd_call. intros st Hst. unfold I, leader_key in *. cbn [snd].
      by rewrite leader_key_not_registered. }
  intros w1 [HI HO]. unfold bind at 1, modify. unfold bind.
  destruct (deleteLeaderKey_canceled (with_srv (set_ctxDone true) w1) eq_refl) as (w2 & -> & He & Hor & _).
  destruct (arrival_keeps I (with_srv (set_ctxDone true) w1) HO HI) as [H1 H2]. rewrite <- He in H1. rewrite <- Hor in H2.
  assert (keeps (D := D) (store_inv I) (do! http_Shutdown in close_chan shutdownCh set_shutdownCh)) as Hk.
  { apply keeps_bind; [exact _|apply keeps_Shutdown|intros _]. apply keeps_store_inv. intros w3. unfold close_chan.
    by destruct (shutdownCh (srv w3)). }
  exact (Hk w2 (conj H1 H2)).
Qed.

(** What [Close] announces as "delete leader key" never happens: it cancels
    the context first, so the request does not reach etcd, and whatever the
    leader key holds before [Close] it holds afterwards, unless the other agents
    change it.  Without a lease (single point mode) the key stays for ever. *)
Theorem Close_keeps_leader_key (w : world D) (v : option KeyValue) :
  plain_elem node_ID = true -> leader_key (etcd w) = v ->
  Forall (tick_keeps (fun st => leader_key st = v)) (oracle w) ->
  leader_key (etcd (snd (Close cfg node_ID w))) = v.
Proof. apply Close_leader_key. Qed.
End Closing.

(** ** Promotion, start and single point mode *)
Section Promotion.
Context {D : Type} `{HS : ServiceManager D} `{HOk : !ServiceManagerOk D}.
Context (cfg : Config) (node_ID : string).

Lemma SetReadWrite_returns (w : world D) :
  exists e w', sm_SetReadWrite w = (Ret e, w') /\ srv w' = srv w /\
    trace w' = ESetReadWrite e :: trace w /\ (e = None -> IsReadOnly (svc w') = false).
Proof.
  unfold sm_SetReadWrite, svc_call, bind, log_event, ret.
  destruct (SetReadWrite (svc w)) as [e d] eqn:E. do 2 eexists. split; [reflexivity|]. cbn.
  split_and!; [done|done|]. intros ->. by apply SetReadWrite_ok in E.
Qed.

Lemma upload_binlog_returns (w : world D) :
  exists e w', uploadPromotionBinlog cfg node_ID w = (Ret e, w') /\ srv w' = srv w /\ trace w' = trace w.
Proof.
  unfold uploadPromotionBinlog, bind, get_latestPos, svc_call, gets, ret.
  destruct (LoadSlaveStatusFromDB (latestPos w) (svc w)) as [[p|e] d]; [|by repeat eexists].
  match goal with |- context [etcd_call ?f ?w1] =>
    destruct (etcd_call_ret f w1) as (r & st & -> & _) end.
  destruct r; by repeat eexists.
Qed.

(** What [promoteToMaster] did before it asked for writes: nothing on a node
    that already was the leader, otherwise it stopped replication. *)
Definition promotion_prefix (w : world D) (rest : list event) : Prop :=
  if isLeader (srv w) then rest = trace w
  else exists ep, rest = EPromoteToMaster ep :: trace w.

(** [promoteToMaster] always returns; afterwards the node is a leader, its
    last act was to ask for writes, and it returns the answer to that request:
    failures to stop replication or to record the switch do not hold it up. *)
Theorem promoteToMaster_spec (w : world D) :
  exists e w' rest, promoteToMaster cfg node_ID w = (Ret e, w') /\
    isLeader (srv w') = true /\ term (srv w') = term (srv w) /\
    trace w' = ESetReadWrite e :: rest /\
    promotion_prefix w rest /\
    (e = None -> IsReadOnly (svc w') = false).
Proof.
  unfold promotion_prefix, promoteToMaster, amILeader, setIsLeaderToTrue. unfold bind at 1, gets.
  destruct (isLeader (srv w)) eqn:El.
  - destruct (SetReadWrite_returns w) as (e & w' & -> & Hs & Ht & Hr).
    exists e, w', (trace w). rewrite Hs. auto 8.
  - unfold bind at 1, modify. unfold bind at 1, sm_PromoteToMaster, svc_call, log_event, ret.
    set (w1 := with_srv (set_isLeader true) w). unfold bind at 1.
    destruct (PromoteToMaster (svc w1)) as [ep d] eqn:Ep. unfold bind at 1. cbv iota beta.
    set (w2 := with_event (EPromoteToMaster ep) (with_svc d w1)).
    unfold bind. destruct (upload_binlog_returns w2) as (e3 & w3 & -> & Hs3 & Ht3).
    destruct (SetReadWrite_returns w3) as (e & w' & -> & Hs & Ht & Hr).
    exists e, w', (trace w3). rewrite Hs, Hs3, Ht, Ht3. split_and!; auto. by exists ep.
Qed.

(** No client can write to the service. *)
Definition refuses_writes (w : world D) : Prop := accepts_writes (svc w) = false.

(** Before the agent registers or campaigns it stops writes: when the first
    part of [Start] is over, the service reports read-only and accepts no
    writes. *)
Theorem Start_read_only (fuel : nat) (w w' : world D) :
  Start_service (D := D) fuel w = (Ret tt, w') -> refuses_writes w'.
Proof.
  unfold refuses_writes, Start_service. unfold bind at 1.
  pose proof (retry_readonly fuel (100 * Millisecond) w) as Hr.
  destruct (retry_err fuel (100 * Millisecond) sm_SetReadOnly w) as [[[]| | |] w1]; try done.
  destruct Hr as [Hr _]. unfold bind at 1, loadUUID. unfold bind at 1, svc_call.
  destruct (GetServerUUID (svc w1)) as [r d] eqn:Ed.
  assert (Hd : accepts_writes d = false)
    by (destruct (accepts_writes d) eqn:Ea; [by rewrite (GetServerUUID_calm _ _ _ Ed Ea) in Hr|done]).
  unfold bind, modify, modify_latestPos, ret. destruct r; intros [= <-]; exact Hd.
Qed.

End Promotion.

(** A request that etcd never refuses fails only when the oracle says so. *)
Lemma reads_fail_by_oracle {D A} (f : Store -> A) :
  fails_by_oracle (D := D) (etcd_call (fun st => (inl (f st), st))).
Proof.
  intros w Hc. unfold etcd_call, arrival, next_tick. rewrite Hc. cbn.
  destruct (oracle w) as [|t o] eqn:Eo; cbn.
  - do 2 eexists. split; [reflexivity|]. by split.
  - destruct (t_reply t); do 2 eexists; (split; [reflexivity|]); cbn; auto with arith.
Qed.

Section PreCampaign.
Context {D : Type} `{ServiceManager D} `{RangeOrder}.
Context (cfg : Config) (node_ID : string).

Definition logs_of (st : Store) : gmap string LogForElection :=
  collect_logs (range _ (Client.PrefixGet (rootPath cfg) (join [electionPath; "nodes"]) st)).

Lemma getAllLogs_fails : fails_by_oracle (D := D) (getAllLogsForElection cfg).
Proof.
  intros w Hc. unfold getAllLogsForElection, bind.
  destruct (reads_fail_by_oracle (D := D) (Client.PrefixGet (rootPath cfg) (join [electionPath; "nodes"])) w Hc)
    as ([m|e] & w' & -> & Hc' & Hl); do 2 eexists; (split; [reflexivity|]); auto.
Qed.

Lemma getAllLogs_value (w w' : world D) (m : gmap string LogForElection) :
  getAllLogsForElection cfg w = (Ret (inl m), w') -> m = logs_of (etcd w').
Proof.
  unfold getAllLogsForElection, bind, ret.
  match goal with |- context [etcd_call ?f ?w1] =>
    destruct (etcd_call f w1) as [[[x|e]| | |] w1'] eqn:E end; try done.
  intros [= <- <-]. apply etcd_call_inl in E as (_ & E & _). injection E as <- E. unfold logs_of. by rewrite E.
Qed.

(** The log a node that was not the master uploads, and the store with it. *)
Definition own_log (w : world D) : LogForElection :=
  let '(masterUUID, executedGTID, endTxnID) :=
    match (LoadReplicationInfoOfSlave (svc w)).1 with inl x => x | inr _ => ("", "", 0) end in
  mkLog (u64 (term (srv w) + 1)) masterUUID executedGTID endTxnID globalSchemaVersion.

Definition uploaded (l : LogForElection) (st : Store) : Store :=
  (Client.Put (rootPath cfg) (electionNodePath node_ID) (Marshal_Log l) 0 st).2.

Section Others.
Context (R : relation Store) `{!PreOrder R}.

(** What the others do to the store between two calls is in [R]; a run that
    only reads moves the store in [R]. *)
Definition env_in (t : tick) : Prop := forall st, R st (t_env t st).

Definition moved : relation (world D) := fun w w' =>
  Forall env_in (oracle w) -> R (etcd w) (etcd w') /\ Forall env_in (oracle w').

#[local] Instance moved_preorder : PreOrder moved.
Proof.
  split; [by intros w|]. intros a b c H1 H2 Ha. destruct (H1 Ha) as [? Hb]. destruct (H2 Hb). split; [by etrans|done].
Qed.

Lemma moved_arrival (w : world D) : moved w (arrival w).
Proof.
  intros Ho. unfold arrival, next_tick. destruct (oracle w) as [|t o]; cbn; [done|].
  apply Forall_cons in Ho as [Ht Ho]. auto.
Qed.

Lemma moved_getAllLogs : keeps moved (getAllLogsForElection cfg).
Proof.
  unfold getAllLogsForElection. repeat keeps_step. intros w.
  match goal with |- context [etcd_call ?f w] => destruct (etcd_call_ret f w) as (r & st & -> & Hst) end.
  cbn. pose proof (moved_arrival w) as Ha. destruct Hst as [->|[_ ->]]; exact Ha.
Qed.

(** The upload: the store has the log, unless the request was refused. *)
Lemma upload_log_returns (l : LogForElection) (w : world D) :
  ctxDone (srv w) = false ->
  exists e w', uploadLogForElection cfg node_ID l w = (Ret e, w') /\ srv w' = srv w /\
    oracle w' = tail (oracle w) /\
    (etcd w' = uploaded l (etcd (arrival w)) \/
     etcd w' = etcd (arrival w) /\ Exists (fun t => t_reply t = Refused) (oracle w)).
Proof.
  intros Hc. unfold uploadLogForElection, bind, ret, etcd_call. rewrite Hc. unfold uploaded.
  destruct (Client.Put (rootPath cfg) (electionNodePath node_ID) (Marshal_Log l) 0 (etcd (arrival w)))
    as [r st]. destruct (t_reply (next_tick w)) eqn:Er; do 2 eexists; (split; [reflexivity|]); split_and!; auto.
  right. split; [done|]. revert Er. unfold next_tick. destruct (oracle w); [done|]. by left.
Qed.

(** The round ends with the verdict on the logs that are in etcd then. *)
Lemma preCampaign_ends (fuel : nat) (w : world D) :
  ctxDone (srv w) = false -> (length (oracle w) <= fuel)%nat -> Forall env_in (oracle w) ->
  exists b w' st0 st1, preCampaign cfg node_ID fuel false w = (Ret b, w') /\
    b = (isLatestLog node_ID (logs_of (etcd w'))).2 /\
    R (etcd w) st0 /\ R st1 (etcd w') /\
    (st1 = uploaded (own_log w) st0 \/ st1 = st0 /\ Exists (fun t => t_reply t = Refused) (oracle w)).
Proof.
  intros Hc Hf Ho. unfold preCampaign, own_log. unfold bind at 1, sleep at 1. cbv iota beta.
  set (w1 := mkWorld _ _ _ _ _ _ _).
  unfold bind at 1, uploadLogForElectionAsSlave. unfold bind at 1, svc_call. change (svc w1) with (svc w).
  destruct (LoadReplicationInfoOfSlave (svc w)) as [r d]. cbn [fst].
  destruct (match r with inl x => x | inr _ => ("", "", 0) end) as [[mu eg] et].
  unfold bind at 1, modify. unfold bind at 1, gets.
  set (w2 := with_srv _ _). change (term (srv w2)) with (term (srv w)).
  destruct (upload_log_returns (mkLog (u64 (term (srv w) + 1)) mu eg et globalSchemaVersion) w2)
    as (e & w3 & -> & Hs3 & Ho3 & Hst3); [exact Hc|].
  unfold bind at 1, sleep at 1. cbv iota beta. set (w4 := mkWorld _ _ _ _ _ _ _).
  destruct (moved_arrival w2 Ho) as [Ha1 Ha2].
  assert (Forall env_in (oracle w4)) as Ho4 by (cbn; rewrite Ho3; exact Ha2).
  destruct (retry_returns fuel (100 * Millisecond) (getAllLogsForElection cfg) w4 getAllLogs_fails)
    as (m & w5 & E5 & _ & w6 & E6 & _).
  - cbn. by rewrite Hs3.
  - cbn. rewrite Ho3. cbn. destruct (oracle w); cbn in *; lia.
  - pose proof (keeps_retry moved fuel (100 * Millisecond) (getAllLogsForElection cfg) ltac:(by intros ??)
      moved_getAllLogs w4 Ho4) as [Hm _].
    unfold bind at 1. rewrite E5 in Hm |- *. cbn [snd] in Hm. apply getAllLogs_value in E6 as ->.
    destruct (isLatestLog node_ID (logs_of (etcd w5))) as [isL isS] eqn:Ei.
    destruct isL; exists isS; eexists; exists (etcd (arrival w2)), (etcd w3);
      (split; [unfold bind, sleep, ret; reflexivity|]); cbn; rewrite Ei; auto.
Qed.

(** C22. The election round of a node that was not the master terminates, with
    enough fuel for the answers that may get lost: whatever the others do, in a
    relation [R], it returns the verdict of [isLatestLog] on the logs that are
    in etcd at its end; and since then only the others have acted, the store has
    had this node's own log, unless the request to upload it was refused. *)
Theorem preCampaign_returns (fuel : nat) (w : world D) :
  ctxDone (srv w) = false -> (length (oracle w) <= fuel)%nat -> Forall env_in (oracle w) ->
  exists b w' st0 st1, preCampaign cfg node_ID fuel false w = (Ret b, w') /\
    b = (isLatestLog node_ID (logs_of (etcd w'))).2 /\
    R (etcd w) st0 /\ R st1 (etcd w') /\
    (st1 = uploaded (own_log w) st0 \/ st1 = st0 /\ Exists (fun t => t_reply t = Refused) (oracle w)).
Proof. apply preCampaign_ends. Qed.
End Others.
End PreCampaign.

(** ** The theorems on the concrete cluster *)

(** Another node leads term 4 with a log that ends at transaction 40. *)
Definition demo_leader : Leader :=
  mkLeader other_id None (mkLeaderMeta other_id 4 demo_uuid (demo_uuid +:+ ":1-40") 40 2) "".

(** This node is in term [t] and its log ends at transaction [n]. *)
Definition demo_agent (t n : Z) : world demo_service :=
  with_srv (fun s => set_term t (set_lastUUID demo_uuid (set_lastTxnID n s))) (demo_world empty_store []).

Lemma preWatch_witness :
  exists r w', preWatch demo_cfg demo_id demo_leader (demo_agent 3 40) = (Ret r, w') /\ r = None.
Proof.
  destruct (preWatch_decides demo_cfg demo_id demo_leader (demo_agent 3 40)) as (r & w' & E & Hr & _).
  - split; [discriminate|reflexivity].
  - split; [discriminate|reflexivity].
  - discriminate.
  - exists r, w'. split; [exact E|]. apply Hr. vm_compute. discriminate.
Defined.

Lemma later_log_closes_witness :
  loop_follow demo_cfg demo_id no_watch 5 demo_leader (demo_agent 3 41) =
  (do! Close demo_cfg demo_id in ret false) (demo_agent 3 41).
Proof.
  apply (@later_log_closes _ _ demo_cfg demo_id list_order).
  - discriminate.
  - vm_compute. intros Hf. by apply Hf.
Defined.

(** This node holds the leader key. *)
Definition demo_leading : world demo_service := demo_world (etcd campaigned) [].

Lemma deleteLeaderKey_witness :
  kvs (etcd (snd (deleteLeaderKey demo_cfg demo_id demo_leading))) !! fullLeaderPath demo_cfg = None.
Proof.
  refine (proj2 (deleteLeaderKey_own demo_cfg demo_id demo_leading
            (snd (deleteLeaderKey demo_cfg demo_id demo_leading)) (Ret None) _)).
  vm_compute. reflexivity.
Defined.

Lemma Close_stops_writes_witness :
  exists w', (Close demo_cfg demo_id demo_leading = (Ret tt, w') /\ taken_down w') \/
             (Close demo_cfg demo_id demo_leading = (Panicked, w') /\ cut_short w' /\
                Exists (fun t => t_busy t = true) (oracle demo_leading)) \/
             (Close demo_cfg demo_id demo_leading = (Exited 3, w') /\
                exists e, trace w' = ESetReadOnly (Some e) :: trace demo_leading).
Proof. apply (Close_stops_writes demo_cfg demo_id demo_leading); reflexivity. Defined.

(** The panic happens: a request is being served when [Close] comes to its
    last steps, and nobody closes the shutdown channel. *)
Definition demo_busy : world demo_service :=
  demo_world (etcd campaigned) [tick_ok; tick_ok; mkTick id 0 Answered true].

Lemma Close_panics :
  let '(o, w') := Close demo_cfg demo_id demo_busy in
  o = Panicked /\ accepts_writes (svc w') = false /\ shutdownCh (srv w') = ChOpen.
Proof. vm_compute. auto. Qed.

Lemma Close_keeps_leader_key_witness :
  exists x, leader_key demo_cfg (etcd (snd (Close demo_cfg demo_id demo_leading))) = Some x /\ Value x = demo_id.
Proof.
  eexists. split.
  - apply (Close_keeps_leader_key demo_cfg demo_id demo_leading); [exact demo_id_plain| |constructor].
    vm_compute. reflexivity.
  - reflexivity.
Defined.

Lemma Start_read_only_witness :
  refuses_writes (snd (Start_service 3 (demo_world empty_store []))).
Proof.
  apply (Start_read_only 3 (demo_world empty_store [])). vm_compute. reflexivity.
Defined.

Lemma preCampaign_returns_witness :
  exists b w' st0 st1, @preCampaign _ _ list_order demo_cfg demo_id 1 false
      (demo_world empty_store [mkTick id Second Lost false]) = (Ret b, w') /\
    b = (@isLatestLog list_order demo_id (@logs_of list_order demo_cfg (etcd w'))).2 /\
    empty_store = st0 /\ st1 = etcd w' /\
    (st1 = uploaded demo_cfg demo_id (own_log (demo_world empty_store [mkTick id Second Lost false])) st0 \/
     st1 = st0 /\ Exists (fun t => t_reply t = Refused) (oracle (demo_world empty_store [mkTick id Second Lost false]))).
Proof.
  apply (@preCampaign_returns _ _ list_order demo_cfg demo_id eq _ 1); [reflexivity|cbn; lia|].
  constructor; [by intros st|constructor].
Defined.
