(* ===== verification/Cluster.v ===== *)
(** * The cluster: several agents on one etcd

    The requests of all agents of a cluster, and the expiry of leases, are the
    steps of a machine on the store.  The agents rely on each other only
    through the leader key: no request of an agent touches the key while it
    holds the ID of another one.  From this follows mutual exclusion: among the
    agents that serve as leader with a lease that etcd still holds, there is at
    most one.

    The last part connects the machine to the code: every request that an
    iteration of the leader loop sends is a step of the machine; file
    [Lifecycle] has the whole run. *)

From stdpp Require Import gmap strings list.
From Stdlib Require Import ZArith Lia.
From S2P Require Import Prelude GoStrings Json Gtid Etcd World ServiceManager Demo Leader Node Election ServerLoop Threads ServerProofs AgentSpec.
Import Mvcc.

Section Cluster.
Context (cfg : Config).

Abbreviation L := (fullLeaderPath cfg).

(** The keys only the agent with this ID writes. *)
Inductive own_key (n : string) : list string -> Prop :=
| own_log : own_key n ["election"; "nodes"; n]
| own_term : own_key n ["election"; "terms"; n]
| own_registration : own_key n ["slave"; n]
| own_refresh : own_key n ["binlog"; n]
| own_switch (t : Z) : own_key n ["switch"; FormatUint t; n].

(** ** Requests *)
Inductive agent_request (n : string) (st : Store) : Store -> Prop :=
| req_campaign (s : Server) (l : Z) : agent_request n st (Txn (campaign_txn cfg n s l) st).2
| req_resume (s : Server) (l : Z) : agent_request n st (Txn (resume_txn cfg n s l) st).2
| req_campaign_sp (s : Server) : agent_request n st (Txn (campaignSinglePoint_txn cfg n s) st).2
| req_resume_sp (s : Server) : agent_request n st (Txn (resumeSinglePoint_txn cfg n s) st).2
| req_delete : agent_request n st (Txn (deleteLeader_txn cfg n) st).2
| req_clean : agent_request n st (StartClean cfg (inl n) st).2
| req_read : agent_request n st (Txn (getLeader_txn cfg n) st).2
| req_put (k : list string) (v : string) (l : Z) :
    own_key n k -> agent_request n st (Client.Put (rootPath cfg) (Client.elems_key k) v l st).2
| req_unregister : agent_request n st (Client.Delete (rootPath cfg) (join [registryPath; n]) true st)
| req_removeSPM : agent_request n st (Client.Delete (rootPath cfg) spmPath false st)
| req_grant (ttl : Z) : agent_request n st (Grant ttl st).2
| req_renew (l : Z) : agent_request n st (Renew l st).2.

Lemma own_key_plain (n : string) (k : list string) :
  plain_elem n = true -> own_key n k -> plain_key k.
Proof.
  intros Hn Hk. destruct Hk; (split; [done|repeat constructor; auto using FormatUint_plain]).
Qed.

Lemma own_key_not_leader (n : string) (k : list string) :
  plain_elem n = true -> own_key n k -> key_of cfg k <> L.
Proof.
  intros Hn Hk E. change L with (key_of cfg ["master"]) in E.
  apply key_of_inj in E; [by destruct Hk|by eapply own_key_plain|].
  split; [done|by repeat constructor].
Qed.

Lemma spm_not_leader : fullPathOf cfg spmPath <> L.
Proof.
  change (key_of cfg ["single_point_master"] <> key_of cfg ["master"]). intros E.
  apply key_of_inj in E; [done|..]; (split; [done|by repeat constructor]).
Qed.

Lemma conditional_cmp (n : string) (rt : TxnRequest) (st : Store) (x : KeyValue) :
  store_wf st -> kvs st !! L = Some x -> Value x <> n ->
  Compare rt = [CmpCreateRevision L 0] \/ Compare rt = [leaderCmp cfg n] ->
  applyCompares (kvs st) (Compare rt) = false.
Proof.
  intros Hwf Hx Hv Hc. destruct Hc as [-> | ->].
  - cbn [applyCompares forallb]. rewrite andb_true_r.
    destruct (applyCompare (kvs st) (CmpCreateRevision L 0)) eqn:E; [|done].
    apply create_revision_zero in E; [|done]. congruence.
  - cbn [applyCompares forallb applyCompare leaderCmp].
    change (Client.KeyWithRootPath (rootPath cfg) leaderPath) with L. rewrite Hx.
    apply String.eqb_neq in Hv. by rewrite andb_true_r.
Qed.

(** A transaction conditional on the leader key being absent, or holding [n],
    leaves the key of another node alone. *)
Lemma conditional_txn (n : string) (rt : TxnRequest) (st : Store) (x : KeyValue) :
  store_wf st -> kvs st !! L = Some x -> Value x <> n ->
  Compare rt = [CmpCreateRevision L 0] \/ Compare rt = [leaderCmp cfg n] ->
  (Txn rt st).2 = st.
Proof.
  intros Hwf Hx Hv Hc. rewrite Txn_failed; [done|]. by apply (conditional_cmp n rt st x).
Qed.

(** A request of another agent leaves the key of a leader alone. *)
Lemma leader_untouched (n m : string) (st st' : Store) (x : KeyValue) :
  store_wf st -> plain_elem m = true -> n <> m ->
  agent_request m st st' -> kvs st !! L = Some x -> Value x = n ->
  kvs st' !! L = Some x.
Proof.
  intros Hwf Hm Hne Hr Hx Hv. assert (Hvm : Value x <> m) by congruence.
  destruct Hr.
  1-5: rewrite (conditional_txn m _ st x); auto.
  - destruct (StartClean cfg (inl m) st) as [e st'] eqn:E. cbn.
    apply StartClean_own in E as [(_ & (y & Hy & ?) & _)|(_ & -> & _)]; [|done].
    congruence.
  - unfold getLeader_txn. change (Concatenate _) with (Success (getLeader_txn cfg m)).
    by rewrite get_keys, Txn_gets.
  - unfold Client.Put. rewrite Client.Put_untouched; [done|]. by eapply own_key_not_leader.
  - by rewrite leader_key_not_registered.
  - unfold Client.Delete. rewrite Client.DeleteRange_untouched; [done|].
    apply String.eqb_neq. exact spm_not_leader.
  - unfold Grant. by destruct (MaxLeaseTTL <? ttl).
  - unfold Renew. by destruct (leases st !! l).
Qed.

(** ** Mutual exclusion *)

(** The agents that serve as leader, with the lease they won with (0 in single
    point mode).  An agent stops serving before it campaigns, resumes or gives
    up, and starts serving when it is told that its transaction succeeded. *)
Record cluster := mkCluster { store : Store; serving : gmap string Z }.

(** The lease an agent serves with is still alive in etcd. *)
Definition live (st : Store) (l : Z) : Prop := l = 0 \/ is_Some (leases st !! l).

(** The transactions that make [n] the leader, with the lease they use. *)
Inductive takes_lead (n : string) : TxnRequest -> Z -> Prop :=
| takes_campaign (s : Server) (l : Z) : 1 <= l -> takes_lead n (campaign_txn cfg n s l) l
| takes_resume (s : Server) (l : Z) : 1 <= l -> takes_lead n (resume_txn cfg n s l) l
| takes_campaign_sp (s : Server) : takes_lead n (campaignSinglePoint_txn cfg n s) 0
| takes_resume_sp (s : Server) : takes_lead n (resumeSinglePoint_txn cfg n s) 0.

Inductive cluster_step : cluster -> cluster -> Prop :=
| step_request (n : string) (st st' : Store) (sv : gmap string Z) :
    (* any request of an agent that does not serve *)
    plain_elem n = true -> agent_request n st st' ->
    cluster_step (mkCluster st sv) (mkCluster st' (delete n sv))
| step_own (n : string) (k : list string) (v : string) (l : Z) (st : Store) (sv : gmap string Z) :
    (* a serving agent registers, refreshes, records the switch *)
    plain_elem n = true -> own_key n k ->
    cluster_step (mkCluster st sv)
                 (mkCluster (Client.Put (rootPath cfg) (Client.elems_key k) v l st).2 sv)
| step_grant (ttl : Z) (st : Store) (sv : gmap string Z) :
    cluster_step (mkCluster st sv) (mkCluster (Grant ttl st).2 sv)
| step_win (n : string) (rt : TxnRequest) (l : Z) (rs : list Response) (st st' : Store)
    (sv : gmap string Z) :
    plain_elem n = true -> takes_lead n rt l -> Txn rt st = (inl (mkTxnResp true rs), st') ->
    cluster_step (mkCluster st sv) (mkCluster st' (<[n := l]> sv))
| step_stop (n : string) (st : Store) (sv : gmap string Z) :
    cluster_step (mkCluster st sv) (mkCluster st (delete n sv))
| step_expire (l : Z) (st : Store) (sv : gmap string Z) :
    cluster_step (mkCluster st sv) (mkCluster (Revoke l st).2 sv).

(** A serving agent whose lease is alive owns the leader key, under that lease. *)
Definition serving_owns (c : cluster) : Prop :=
  forall n l, serving c !! n = Some l -> l < nextLease (store c) /\
    (live (store c) l ->
     exists x, kvs (store c) !! L = Some x /\ Value x = n /\ Lease x = l).

Definition cluster_inv (c : cluster) : Prop := store_wf (store c) /\ serving_owns c.

Lemma agent_request_wf (n : string) (st st' : Store) :
  agent_request n st st' -> store_wf st -> store_wf st'.
Proof.
  intros Hr Hwf. destruct Hr; auto with moha.
  - unfold StartClean. match goal with |- context [Txn ?rt st] =>
      pose proof (Txn_wf rt st Hwf) as Hw; destruct (Txn rt st) as [[resp|e] st'] end; exact Hw.
  - by apply Put_wf.
  - by apply DeleteRange_wf.
  - by apply DeleteRange_wf.
  - unfold Renew. by destruct (leases st !! l).
Qed.

(** What happens around a leader [n] that holds the key under the lease [l]:
    requests of the others, and the expiry of other leases. *)
Inductive others_step (n : string) (l : Z) (st : Store) : Store -> Prop :=
| others_request (m : string) (st' : Store) :
    m <> n -> plain_elem m = true -> agent_request m st st' -> others_step n l st st'
| others_expire (l' : Z) : l' <> l -> others_step n l st (Revoke l' st).2.

(** C5. A leader stays the leader: as long as its lease is alive, no sequence of
    requests of the other agents (campaigns, resumes, deletes, registrations,
    uploads, the cleaner) and of expiries of other leases removes or changes
    its leader key. *)
Theorem leader_stable (n : string) (st st' : Store) (x : KeyValue) :
  store_wf st -> kvs st !! L = Some x -> Value x = n ->
  rtc (others_step n (Lease x)) st st' ->
  kvs st' !! L = Some x /\ store_wf st'.
Proof.
  intros Hwf Hx Hv Hrun. induction Hrun as [st|st st1 st2 Hs _ IH]; [done|].
  assert (H1 : kvs st1 !! L = Some x /\ store_wf st1).
  { destruct Hs as [m st1 Hne Hm Hr|l' Hl].
    - split; [by apply (leader_untouched n m st st1 x)|by eapply agent_request_wf].
    - split; [|by apply Revoke_wf]. destruct (leases st !! l') as [ttl|] eqn:E.
      + rewrite Revoke_lookup, Hx by eauto. destruct (Z.eqb_spec (Lease x) l'); [congruence|done].
      + unfold Revoke. by rewrite E. }
  destruct H1. by apply IH.
Qed.

(** Requests grant new leases and never bring an old one back. *)
Definition leases_grow (st st' : Store) : Prop :=
  nextLease st <= nextLease st' /\ forall l, l < nextLease st -> leases st' !! l = leases st !! l.

Lemma leases_grow_same (st st' : Store) :
  leases st' = leases st /\ nextLease st' = nextLease st -> leases_grow st st'.
Proof. intros [E1 E2]. split; [lia|]. intros. by rewrite E1. Qed.

Lemma Grant_leases (ttl : Z) (st : Store) : leases_grow st (Grant ttl st).2.
Proof.
  unfold Grant. destruct (MaxLeaseTTL <? ttl); [by apply leases_grow_same|].
  split; cbn; [lia|]. intros l Hl. rewrite lookup_insert_ne by lia. done.
Qed.

Lemma agent_request_leases (n : string) (st st' : Store) :
  agent_request n st st' -> leases_grow st st'.
Proof.
  intros Hr. destruct Hr; try apply Grant_leases; apply leases_grow_same; try apply Txn_leases;
    try apply DeleteRange_leases; try apply Put_leases.
  - unfold StartClean. match goal with |- context [Txn ?rt st] =>
      pose proof (Txn_leases rt st) as Hw; destruct (Txn rt st) as [[resp|e] st'] end; exact Hw.
  - unfold Renew. by case_match.
Qed.

Lemma live_before (st st' : Store) (l : Z) :
  leases_grow st st' -> l < nextLease st -> live st' l -> live st l.
Proof. intros [_ Hg] Hl [?|Hs]; [by left|right]. by rewrite <- Hg. Qed.

(** A transaction that took the lead left the key with the ID of the node under
    its lease, and nobody else held it before. *)
Lemma takes_lead_wins (n : string) (rt : TxnRequest) (l : Z) (rs : list Response) (st st' : Store) :
  store_wf st -> plain_elem n = true -> takes_lead n rt l ->
  Txn rt st = (inl (mkTxnResp true rs), st') ->
  (exists x, kvs st' !! L = Some x /\ Value x = n /\ Lease x = l) /\
  (forall x, kvs st !! L = Some x -> Value x = n) /\ l < nextLease st.
Proof.
  intros Hwf Hn Ht E. destruct (Txn_true _ _ _ _ E) as [Hc Hl].
  assert (Hput : Forall (fun op => is_Some (put_key op)) (Success rt) /\
                 NoDup (map put_key (Success rt)) /\ OpPut L n l ∈ Success rt /\
                 (Compare rt = [CmpCreateRevision L 0] \/ Compare rt = [leaderCmp cfg n])).
  { assert (Hfirst : forall s l t, 1 <= l -> OpPut L n l ∈ leaderPutOps cfg n s l t).
    { intros s l0 t Hl0. unfold leaderPutOps. destruct (Z.ltb_spec l0 0); [lia|left]. }
    destruct Ht as [s l Hl1|s l Hl1|s|s].
    - split_and!; [repeat constructor; eauto|by apply campaign_ops_NoDup| |auto].
      apply elem_of_app. left. exact (Hfirst s l (u64 (term s + 1)) Hl1).
    - split_and!; [repeat constructor; eauto|by apply resume_ops_NoDup|exact (Hfirst s l (term s) Hl1)|auto].
    - split_and!; [repeat constructor; eauto|by apply single_point_ops_NoDup|left|auto].
    - split_and!; [repeat constructor; eauto|by apply single_point_ops_NoDup|left|auto]. }
  destruct Hput as (Hp & Hnd & Hin & Hcmp). split_and!.
  - destruct (puts_txn (Compare rt) (Success rt) st Hc Hl Hp Hnd) as (_ & Hw & _).
    replace (mkTxn (Compare rt) (Success rt)) with rt in Hw by (by destruct rt).
    rewrite E in Hw. exact (Hw _ _ _ Hin).
  - intros x Hx. destruct (decide (Value x = n)) as [|Hv]; [done|].
    by rewrite (conditional_cmp n rt st x Hwf Hx Hv Hcmp) in Hc.
  - apply checkPut_spec in Hl. rewrite Forall_forall in Hl. specialize (Hl _ Hin). cbn in Hl.
    destruct Hwf as (_ & Hnl & _ & Hle). destruct Hl as [->|[ttl Hl]]; [lia|]. apply Hle in Hl. lia.
Qed.

(** An agent keeps the key it serves with through a step that grows the leases
    and leaves its key alone. *)
Lemma owns_step (st st' : Store) (n : string) (l : Z) :
  leases_grow st st' ->
  (forall x, kvs st !! L = Some x -> Value x = n -> kvs st' !! L = Some x) ->
  (l < nextLease st /\
   (live st l -> exists x, kvs st !! L = Some x /\ Value x = n /\ Lease x = l)) ->
  l < nextLease st' /\
  (live st' l -> exists x, kvs st' !! L = Some x /\ Value x = n /\ Lease x = l).
Proof.
  intros Hg Hk [Hl Ho]. split; [destruct Hg; lia|]. intros Hlive.
  destruct (Ho (live_before st st' l Hg Hl Hlive)) as (x & Hx & Hv & Hlx). eauto.
Qed.

Lemma expire_owns (st : Store) (l0 : Z) (n : string) (l : Z) :
  store_wf st ->
  (l < nextLease st /\
   (live st l -> exists x, kvs st !! L = Some x /\ Value x = n /\ Lease x = l)) ->
  l < nextLease (Revoke l0 st).2 /\
  (live (Revoke l0 st).2 l ->
   exists x, kvs (Revoke l0 st).2 !! L = Some x /\ Value x = n /\ Lease x = l).
Proof.
  intros Hwf [Hl Ho]. destruct (leases st !! l0) as [ttl|] eqn:E0.
  2:{ unfold Revoke. by rewrite E0. }
  assert (Hlease : leases (Revoke l0 st).2 = delete l0 (leases st) /\
                   nextLease (Revoke l0 st).2 = nextLease st).
  { unfold Revoke. by rewrite E0. }
  destruct Hlease as [El En]. rewrite En. split; [done|]. intros Hlive.
  assert (Hne : l <> l0 /\ live st l).
  { destruct Hwf as (_ & _ & _ & Hle). destruct (Hle _ _ E0). unfold live in *. rewrite El in Hlive.
    destruct Hlive as [->|[t Ht]]; [split; [lia|auto]|].
    apply lookup_delete_Some in Ht as [? Ht]. split; [done|right; eauto]. }
  destruct Hne as [Hne Hst]. destruct (Ho Hst) as (x & Hx & Hv & Hlx).
  exists x. rewrite Revoke_lookup, Hx by eauto.
  destruct (Z.eqb_spec (Lease x) l0); [congruence|auto].
Qed.

Lemma cluster_step_inv (c c' : cluster) : cluster_step c c' -> cluster_inv c -> cluster_inv c'.
Proof.
  intros Hs [Hwf Ho]. unfold cluster_inv, serving_owns in *.
  destruct Hs as [n st st' sv Hn Hr|n k v l0 st sv Hn Hk|ttl st sv|n rt l0 rs st st' sv Hn Ht E|n st sv|l0 st sv];
    cbn [store serving] in *.
  - split; [by eapply agent_request_wf|]. intros a l [Hne Ha]%lookup_delete_Some.
    apply (owns_step st st' a l); [by eapply agent_request_leases| |by apply Ho].
    intros x Hx Hv. by apply (leader_untouched a n st st' x).
  - split; [by apply Put_wf|]. intros a l Ha.
    apply (owns_step st _ a l); [apply leases_grow_same, Put_leases| |by apply Ho].
    intros x Hx _. unfold Client.Put. rewrite Client.Put_untouched; [done|].
    by eapply own_key_not_leader.
  - split; [by apply Grant_wf|]. intros a l Ha.
    apply (owns_step st _ a l); [apply Grant_leases| |by apply Ho].
    intros x Hx _. unfold Grant. by destruct (MaxLeaseTTL <? ttl).
  - destruct (takes_lead_wins n rt l0 rs st st' Hwf Hn Ht E) as (Hown & Honly & Hl0).
    pose proof (Txn_wf rt st Hwf) as Hwf'. pose proof (Txn_leases rt st) as Hle. rewrite E in *. cbn in *.
    split; [done|]. intros a l [[<- <-]|[Hne Ha]]%lookup_insert_Some.
    + split; [destruct Hle; lia|done].
    + specialize (Ho a l Ha) as [Hl Ho]. split; [destruct Hle; lia|]. intros Hlive. exfalso.
      destruct (Ho (live_before st st' l (leases_grow_same _ _ Hle) Hl Hlive)) as (x & Hx & Hv & _).
      apply Hne. rewrite <- Hv. symmetry. by apply Honly.
  - split; [done|]. intros a l [_ Ha]%lookup_delete_Some. by apply Ho.
  - split; [by apply Revoke_wf|]. intros a l Ha. apply expire_owns; [done|by apply Ho].
Qed.

Lemma cluster_run_inv (c c' : cluster) : rtc cluster_step c c' -> cluster_inv c -> cluster_inv c'.
Proof. induction 1; eauto using cluster_step_inv. Qed.

(** C1. No two leaders: in every state that a cluster reaches from one where
    nobody serves, two agents that both serve with leases that etcd still holds
    (or in single point mode, without a lease) are the same agent. *)
Theorem no_two_leaders (c c' : cluster) (a b : string) (la lb : Z) :
  store_wf (store c) -> serving c = ∅ -> rtc cluster_step c c' ->
  serving c' !! a = Some la -> serving c' !! b = Some lb ->
  live (store c') la -> live (store c') lb -> a = b.
Proof.
  intros Hwf Hs Hrun Ha Hb Hla Hlb.
  assert (Hinv : cluster_inv c').
  { apply (cluster_run_inv c c' Hrun). split; [done|]. intros n l. by rewrite Hs, lookup_empty. }
  destruct Hinv as [_ Ho].
  destruct (proj2 (Ho a la Ha) Hla) as (x & Hx & Hvx & _).
  destruct (proj2 (Ho b lb Hb) Hlb) as (y & Hy & Hvy & _). congruence.
Qed.
End Cluster.

(** ** The leader loop is made of these steps *)
Section Refinement.
Context {D : Type} `{ServiceManager D} `{RangeOrder}.
Context (cfg : Config) (node_ID : string) (Hid : plain_elem node_ID = true).

(** A step of the machine: a request of some agent, or the expiry of a lease. *)
Definition machine_step (st st' : Store) : Prop :=
  (exists m, plain_elem m = true /\ agent_request cfg m st st') \/ exists l, st' = (Revoke l st).2.

(** The others act by steps of the machine. *)
Definition cluster_tick (t : tick) : Prop := forall st, rtc machine_step st (t_env t st).

Definition machine_run : relation (world D) := fun w w' =>
  Forall cluster_tick (oracle w) ->
  Forall cluster_tick (oracle w') /\ rtc machine_step (etcd w) (etcd w').

#[export] Instance machine_run_preorder : PreOrder machine_run.
Proof.
  split.
  - intros w Ho. split; [done|reflexivity].
  - intros a b c H1 H2 Ho. destruct (H1 Ho) as [Hb E1]. destruct (H2 Hb) as [Hc E2].
    split; [done|by etrans].
Qed.

Lemma run_same {A} (m : M D A) :
  (forall w, etcd (snd (m w)) = etcd w /\ oracle (snd (m w)) = oracle w) -> keeps machine_run m.
Proof. intros Hm w Ho. destruct (Hm w) as [-> ->]. split; [done|reflexivity]. Qed.

Lemma run_etcd_call {A} (f : Store -> result A * Store) :
  (forall st, agent_request cfg node_ID st (snd (f st)) \/ snd (f st) = st) ->
  keeps machine_run (etcd_call f).
Proof.
  intros Hf w Ho. destruct (etcd_call_ret f w) as (r & st & -> & Hst). cbn [snd etcd oracle with_etcd].
  assert (Ha : Forall cluster_tick (oracle (arrival w)) /\ rtc machine_step (etcd w) (etcd (arrival w))).
  { unfold arrival, next_tick. destruct (oracle w) as [|t o]; cbn; [split; [done|reflexivity]|].
    apply Forall_cons in Ho as [Ht Ho]. split; [done|apply Ht]. }
  destruct Ha as [Ho' Hr]. split; [exact Ho'|]. destruct Hst as [->|[_ ->]]; [exact Hr|].
  etrans; [exact Hr|]. destruct (Hf (etcd (arrival w))) as [Hreq| ->]; [|reflexivity].
  apply rtc_once. left. eauto.
Qed.

Lemma run_svc_call {A} (f : D -> A * D) : keeps machine_run (svc_call f).
Proof. apply run_same. intros w. unfold svc_call. by destruct (f (svc w)). Qed.

Lemma run_modify (f : Server -> Server) : keeps machine_run (modify f).
Proof. by apply run_same. Qed.

Lemma run_sleep (d : Z) : keeps machine_run (sleep d).
Proof. by apply run_same. Qed.

Lemma run_log_event (e : event) : keeps machine_run (log_event e).
Proof. by apply run_same. Qed.

Lemma run_close_chan (g : Server -> chan) (set : chan -> Server -> Server) :
  keeps machine_run (close_chan g set).
Proof. apply run_same. intros w. unfold close_chan. by destruct (g (srv w)). Qed.

Lemma run_commit (rt : TxnRequest) :
  (forall st, agent_request cfg node_ID st (Txn rt st).2) -> keeps machine_run (commit rt).
Proof.
  intros Hf. unfold commit. repeat keeps_step; [|apply run_log_event].
  apply run_etcd_call. auto.
Qed.

(** A put to one of the node's own keys. *)
Lemma run_put (k : list string) (path v : string) (l : Z) :
  own_key node_ID k -> path = Client.elems_key k ->
  keeps machine_run (etcd_call (Client.Put (rootPath cfg) path v l)).
Proof. intros Hk ->. apply run_etcd_call. intros st. left. by constructor. Qed.

Lemma run_updateLease : keeps machine_run (updateLeaseExpireTS cfg).
Proof. by apply run_same. Qed.
Hint Resolve run_svc_call run_modify run_sleep run_log_event run_close_chan run_updateLease : moha.

Lemma join_elems (l : list string) :
  l <> [] -> Forall (fun e => plain_elem e = true) l -> join l = Client.elems_key l.
Proof. apply path_Join_elems. Qed.

Ltac run_solve :=
  repeat keeps_step; eauto with moha;
  try (apply run_commit; intros st0; constructor);
  try (apply run_etcd_call; intros st0; first [right; reflexivity|left; constructor]).

Lemma run_getLeader : keeps machine_run (getLeaderAndMyTerm (D := D) cfg node_ID).
Proof. unfold getLeaderAndMyTerm. run_solve. Qed.

Lemma run_resume : keeps machine_run (resumeLeader (D := D) cfg node_ID).
Proof. unfold resumeLeader. run_solve. Qed.

Lemma run_campaign : keeps machine_run (campaignLeader (D := D) cfg node_ID).
Proof. unfold campaignLeader. run_solve. Qed.

Lemma run_delete : keeps machine_run (deleteLeaderKey (D := D) cfg node_ID).
Proof. unfold deleteLeaderKey. run_solve. Qed.

Lemma run_persist : keeps machine_run (persistMyTerm (D := D) cfg node_ID).
Proof.
  unfold persistMyTerm. run_solve. apply (run_put ["election"; "terms"; node_ID]); [constructor|].
  by apply myTermPath_elems.
Qed.
Hint Resolve run_getLeader run_resume run_campaign run_delete run_persist : moha.

Lemma run_Shutdown : keeps (D := D) machine_run http_Shutdown.
Proof.
  intros w Ho. unfold http_Shutdown, arrival, next_tick. destruct (oracle w) as [|t o]; cbn; [split; [done|reflexivity]|].
  apply Forall_cons in Ho as [Ht Ho]. destruct (t_busy t); (split; [exact Ho|apply Ht]).
Qed.
Hint Resolve run_Shutdown : moha.

Lemma run_Close : keeps machine_run (Close (D := D) cfg node_ID).
Proof.
  unfold Close, setServiceReadonlyOrShutdown, sm_SetReadOnly, forceClose, Unregister, UnregisterNode.
  run_solve.
Qed.

Lemma run_promote : keeps machine_run (promoteToMaster (D := D) cfg node_ID).
Proof.
  unfold promoteToMaster, amILeader, setIsLeaderToTrue, sm_SetReadWrite, sm_PromoteToMaster,
    uploadPromotionBinlog. run_solve.
  eapply run_put; [apply own_switch|]. apply join_elems; [done|].
  repeat constructor; auto using FormatUint_plain.
Qed.

Lemma run_becomeSlave (h p : string) : keeps machine_run (becomeSlave (D := D) h p).
Proof.
  unfold becomeSlave. apply keeps_bind; [exact _|unfold sm_RedirectMaster; run_solve|].
  generalize 10%nat as n.
  induction n as [|n IH]; intros [e|]; cbn; unfold sm_RedirectMaster; run_solve.
Qed.

Lemma run_preWatch (l : Leader) : keeps machine_run (preWatch (D := D) cfg node_ID l).
Proof.
  assert (H1 : keeps machine_run (preWatch_body (D := D) node_ID l))
    by (unfold preWatch_body, loadMasterLogFromMySQL, loadSlaveLogFromMySQL; run_solve).
  assert (H2 : keeps machine_run (let! _ := persistMyTerm (D := D) cfg node_ID in ret (@None error)))
    by run_solve.
  assert (H3 : keeps machine_run (let! _ := persistMyTerm (D := D) cfg node_ID in @panic D (option error)))
    by run_solve.
  intros w. unfold preWatch. specialize (H1 w).
  destruct (preWatch_body node_ID l w) as [[[e|]| | |] w']; cbn [snd] in *; try done.
  - etrans; [exact H1|apply H2].
  - etrans; [exact H1|apply H3].
Qed.

Lemma run_preCampaign (fuel : nat) (b : bool) :
  keeps machine_run (preCampaign (D := D) cfg node_ID fuel b).
Proof.
  unfold preCampaign, uploadLogForElectionAsFormerMaster, uploadLogForElectionAsSlave,
    getAllLogsForElection, uploadLogForElection. run_solve.
  all: eapply run_put; [apply own_log|]; apply join_elems; [done|]; by repeat constructor.
Qed.

Lemma run_watch (Watch : nat -> Z -> list WatchResponse) (fuel : nat) (rev : Z) :
  keeps machine_run (watchLeader (D := D) Watch fuel rev).
Proof. induction fuel as [|n IH]; cbn; run_solve. Qed.

(** The remaining goroutines of the process act by steps of the machine too. *)
Definition cluster_disturbance (d : disturbance D) : Prop := forall st, rtc machine_step st (d_etcd d st).

Lemma run_disturb (d : disturbance D) : cluster_disturbance d -> keeps machine_run (disturb d).
Proof. intros Hd w Ho. split; [exact Ho|apply Hd]. Qed.

Lemma run_helpers (l : Z) (c : select_case) (h : helpers) : keeps machine_run (helpers_turn cfg l c h).
Proof.
  apply keeps_helpers; [exact _|unfold KeepAliveOnce, setServiceReadonlyOrShutdown, sm_SetReadOnly, forceClose; run_solve..].
Qed.

Lemma run_in_office (l : Z) (turns : list (turn D)) (t : thread D bool) :
  Forall (fun x => cluster_disturbance x.1) turns -> thread_keeps machine_run t ->
  keeps machine_run (in_office cfg l turns t).
Proof.
  intros Ht Hk. apply keeps_in_office; [exact _|apply run_helpers| |done].
  eapply Forall_impl; [exact Ht|]. intros x. apply run_disturb.
Qed.

Lemma run_taking_over : thread_keeps machine_run (taking_over (D := D) cfg node_ID).
Proof.
  unfold taking_over, promoting, amILeader, setIsLeaderToTrue, sm_SetReadWrite, sm_PromoteToMaster,
    setServiceReadonlyOrShutdown, sm_SetReadOnly, forceClose. repeat thread_step; eauto with moha.
  all: eapply run_put; [apply own_switch|]; apply join_elems; [done|];
    repeat constructor; auto using FormatUint_plain.
Qed.

Lemma run_resuming : thread_keeps machine_run (resuming (D := D)).
Proof. unfold resuming, setIsLeaderToTrue, sm_SetReadWrite, sm_SetReadOnly. repeat thread_step; eauto with moha. Qed.
Hint Resolve run_Close run_promote run_becomeSlave run_preWatch run_preCampaign run_watch
  run_in_office run_taking_over run_resuming : moha.

Lemma run_single_point (fuel : nat) (resume : bool) :
  keeps machine_run (becomeSinglePointMaster (D := D) cfg node_ID fuel resume).
Proof.
  unfold becomeSinglePointMaster, setIsLeaderToTrue, resumeLeaderAsSinglePoint,
    campaignLeaderAsSinglePoint, ignore, removeSPMFromEtcd, sm_SetReadOnly, setIsSPMToTrue,
    setIsSPMToFalse, waitUntilSlaveAppears. run_solve.
  induction fuel as [|n IH]; cbn; unfold pollAllRegisteredAgents; run_solve.
Qed.

(** If the others only act by steps of the cluster machine, then so does one
    iteration of the leader loop of this agent. *)
Lemma run_body (Watch : nat -> Z -> list WatchResponse) (turns : list (turn D)) (fuel : nat) :
  Forall (fun x => cluster_disturbance x.1) turns -> keeps machine_run (leaderLoop_body cfg node_ID Watch turns fuel).
Proof.
  intros Hturns. pose proof run_single_point as Hsp.
  unfold leaderLoop_body, loop_resume, loop_follow, loop_campaign, doChangeMaster, setIsLeaderToFalse,
    setIsLeaderToTrue, get_NodeStatus, setServiceReadonlyOrShutdown, sm_SetReadOnly, sm_SetReadWrite,
    forceClose, after_win.
  run_solve.
Qed.
End Refinement.

(** ** The theorems on the concrete cluster *)

(** The first node leads; the second one campaigns. *)
Definition demo_led : Store := etcd campaigned.

Definition demo_leader_kv : KeyValue := mkKV demo_id 2 2 1 1.

Lemma demo_led_wf : store_wf demo_led.
Proof.
  unfold demo_led, campaigned.
  destruct (campaignLeader demo_cfg demo_id (demo_world empty_store [])) as [o w] eqn:E.
  pose proof (keeps_campaign_wf demo_cfg demo_id (demo_world empty_store [])
                (conj empty_store_wf (Forall_nil_2 _))) as [Hwf _].
  by rewrite E in Hwf.
Qed.

Lemma leader_stable_witness :
  kvs (Txn (campaign_txn demo_cfg other_id new_Server 1) demo_led).2 !! fullLeaderPath demo_cfg
  = Some demo_leader_kv.
Proof.
  refine (proj1 (leader_stable demo_cfg demo_id demo_led _ demo_leader_kv _ _ _ _)).
  - exact demo_led_wf.
  - vm_compute. reflexivity.
  - reflexivity.
  - apply rtc_once. apply others_request with (m := other_id); [discriminate|reflexivity|].
    apply req_campaign.
Defined.

(** A cluster in which nobody serves, and the one after a won campaign. *)
Definition demo_idle : cluster := mkCluster (Grant 10 empty_store).2 ∅.

Definition demo_win : TxnRequest := campaign_txn demo_cfg demo_id new_Server 1.

Definition demo_won : cluster := mkCluster (Txn demo_win (store demo_idle)).2 (<[demo_id := 1]> ∅).

Lemma demo_wins : cluster_step demo_cfg demo_idle demo_won.
Proof.
  apply (step_win demo_cfg demo_id demo_win 1 (repeat ResponsePut 8) (store demo_idle)).
  - reflexivity.
  - by apply takes_campaign.
  - vm_compute. reflexivity.
Qed.

Lemma no_two_leaders_witness :
  serving demo_won !! demo_id = Some 1 /\ live (store demo_won) 1 /\
  forall b lb, serving demo_won !! b = Some lb -> live (store demo_won) lb -> demo_id = b.
Proof.
  assert (live (store demo_won) 1) as Hlive by (right; exists 10; vm_compute; reflexivity).
  assert (serving demo_won !! demo_id = Some 1) as Hs by (vm_compute; reflexivity).
  split; [exact Hs|]. split; [exact Hlive|]. intros b lb Hb Hlb.
  refine (no_two_leaders demo_cfg demo_idle demo_won demo_id b 1 lb _ _ _ Hs Hb Hlive Hlb).
  - apply Grant_wf, empty_store_wf.
  - reflexivity.
  - apply rtc_once, demo_wins.
Defined.
