(* ===== verification/Serving.v ===== *)
(** * A term of office: from the won campaign to the end of the keep-alive loop

    The composition of the campaign and of the three goroutines of a leader on
    the store that all agents share.  While the leader serves, the others send
    any of their requests, between any two calls of the leader and between any
    two turns of its goroutines, and any lease may expire.  The leader does not
    give its key up: [ChangeMaster], which does, is the subject of [Http]. *)

From stdpp Require Import gmap strings list.
From Stdlib Require Import ZArith Lia.
From S2P Require Import Prelude GoStrings Json Gtid Etcd World ServiceManager Demo Leader Node Election ServerLoop Threads ServerProofs AgentSpec Cluster.
Import Mvcc.

Section Office.
Context {D : Type} `{ServiceManager D} `{RangeOrder}.
Context (cfg : Config) (node_ID : string) (Hid : plain_elem node_ID = true).

Abbreviation L := (fullLeaderPath cfg).

(** What happens to the store while this node serves: the requests of the
    others, the expiry of any lease, and what the node itself sends: its own
    keys, grants and renewals. *)
Inductive office_step (st : Store) : Store -> Prop :=
| office_others (m : string) (st' : Store) :
    m <> node_ID -> plain_elem m = true -> agent_request cfg m st st' -> office_step st st'
| office_expire (l : Z) : office_step st (Revoke l st).2
| office_put (k : list string) (v : string) (l : Z) :
    own_key node_ID k -> office_step st (Client.Put (rootPath cfg) (Client.elems_key k) v l st).2
| office_grant (ttl : Z) : office_step st (Grant ttl st).2
| office_renew (l : Z) : office_step st (Renew l st).2.

Definition office_tick (t : tick) : Prop := forall st, rtc office_step st (t_env t st).

(** The leader key is held under lease [l], or etcd has lost the lease. *)
Definition held (l : Z) (st : Store) : Prop :=
  store_wf st /\ l < nextLease st /\
  (live st l -> exists x, kvs st !! L = Some x /\ Value x = node_ID /\ Lease x = l).

Lemma office_step_wf (st st' : Store) : office_step st st' -> store_wf st -> store_wf st'.
Proof.
  intros Hs Hwf. destruct Hs; auto with moha; [by eapply agent_request_wf|by apply Put_wf|].
  unfold Renew. by destruct (leases st !! l).
Qed.

Lemma office_step_held (l : Z) (st st' : Store) : office_step st st' -> held l st -> held l st'.
Proof.
  intros Hs (Hwf & Ho). split; [by eapply office_step_wf|].
  destruct Hs as [m st' Hne Hm Hr|l0|k v l0 Hk|ttl|l0].
  - apply (owns_step cfg st st'); [by eapply agent_request_leases| |done].
    intros x Hx Hv. by apply (leader_untouched cfg node_ID m st st' x).
  - by apply expire_owns.
  - apply (owns_step cfg st); [apply leases_grow_same, Put_leases| |done].
    intros x Hx _. unfold Client.Put. rewrite Client.Put_untouched; [done|]. by eapply own_key_not_leader.
  - apply (owns_step cfg st); [apply Grant_leases| |done].
    intros x Hx _. unfold Grant. by destruct (MaxLeaseTTL <? ttl).
  - unfold Renew. by destruct (leases st !! l0).
Qed.

(** An invariant of the steps is kept by what the others do between two calls. *)
Lemma office_tick_keeps (I : Store -> Prop) (t : tick) :
  (forall st st', office_step st st' -> I st -> I st') -> office_tick t -> tick_keeps I t.
Proof.
  intros HI Ht st. induction (Ht st) as [|x y z Hs _ IH]; [done|]. intros Hx. eauto.
Qed.

(** The node's own requests are steps. *)
Lemma office_call {A} (l : Z) (f : Store -> result A * Store) :
  (forall st, office_step st (f st).2) -> keeps (D := D) (store_inv (held l)) (etcd_call f).
Proof. intros Hf. apply keeps_etcd_call. intros st. by apply office_step_held. Qed.

Lemma office_same {A} (l : Z) (m : M D A) :
  (forall w, etcd (snd (m w)) = etcd w /\ oracle (snd (m w)) = oracle w) -> keeps (store_inv (held l)) m.
Proof. apply keeps_store_inv. Qed.

Lemma office_svc {A} (l : Z) (f : D -> A * D) : keeps (D := D) (store_inv (held l)) (svc_call f).
Proof. apply keeps_svc_call_store. Qed.
Lemma office_modify (l : Z) (f : Server -> Server) : keeps (store_inv (held l)) (modify (D := D) f).
Proof. by apply office_same. Qed.
Lemma office_sleep (l d : Z) : keeps (store_inv (held l)) (sleep (D := D) d).
Proof. by apply office_same. Qed.
Lemma office_log (l : Z) (e : event) : keeps (store_inv (held l)) (log_event (D := D) e).
Proof. by apply office_same. Qed.
Lemma office_chan (l : Z) (g : Server -> chan) (set : chan -> Server -> Server) :
  keeps (store_inv (held l)) (close_chan (D := D) g set).
Proof. apply office_same. intros w. unfold close_chan. by destruct (g (srv w)). Qed.
Lemma office_deadline (l : Z) : keeps (store_inv (held l)) (updateLeaseExpireTS (D := D) cfg).
Proof. by apply office_same. Qed.
Hint Resolve office_svc office_modify office_sleep office_log office_chan office_deadline : moha.

Ltac office_solve := repeat keeps_step; eauto with moha.

Definition office_disturbance (d : disturbance D) : Prop := forall st, rtc office_step st (d_etcd d st).

Lemma office_disturb (l : Z) (d : disturbance D) :
  office_disturbance d -> keeps (store_inv (held l)) (disturb d).
Proof.
  intros Hd w [Hw Ho]. split; [|exact Ho]. cbn. revert Hw. induction (Hd (etcd w)) as [|x y z Hs _ IH]; [done|].
  intros Hx. apply IH. by apply (office_step_held l x y).
Qed.

Lemma office_taking_over (l : Z) : thread_keeps (store_inv (held l)) (taking_over (D := D) cfg node_ID).
Proof.
  unfold taking_over, promoting, amILeader, setIsLeaderToTrue, sm_SetReadWrite, sm_PromoteToMaster,
    setServiceReadonlyOrShutdown, sm_SetReadOnly, forceClose. repeat thread_step; eauto with moha.
  all: apply office_call; intros st; rewrite (join_elems ["switch"; _; node_ID]) by
    (done || (repeat constructor; auto using FormatUint_plain)); apply office_put, own_switch.
Qed.

Lemma office_helpers (l : Z) (c : select_case) (h : helpers) :
  keeps (store_inv (held l)) (helpers_turn (D := D) cfg l c h).
Proof.
  apply keeps_helpers; [exact _|unfold KeepAliveOnce, setServiceReadonlyOrShutdown, sm_SetReadOnly, forceClose; office_solve..].
  apply office_call. intros st. apply office_renew.
Qed.

Lemma office_after_win (l : Z) (turns : list (turn D)) :
  Forall (fun x => office_disturbance x.1) turns -> keeps (store_inv (held l)) (after_win cfg node_ID turns l).
Proof.
  intros Ht. unfold after_win. do 3 (apply keeps_bind; [exact _|auto with moha|intros _]).
  apply keeps_in_office; [exact _|apply office_helpers| |apply office_taking_over].
  eapply Forall_impl; [exact Ht|]. intros x. apply office_disturb.
Qed.

(** The campaign uses up ticks. *)
Definition ticks_left (P : tick -> Prop) : relation (world D) := fun w w' =>
  Forall P (oracle w) -> Forall P (oracle w').

#[local] Instance ticks_left_preorder (P : tick -> Prop) : PreOrder (ticks_left P).
Proof. split; [intros w Hw; exact Hw|intros a b c H1 H2 Ha; auto]. Qed.

Lemma ticks_etcd_call {A} (P : tick -> Prop) (f : Store -> result A * Store) :
  keeps (ticks_left P) (etcd_call f).
Proof.
  intros w Ho. destruct (etcd_call_ret f w) as (r & st & -> & _). cbn.
  destruct (oracle w); [done|]. by apply Forall_cons in Ho as [_ Ho].
Qed.

Lemma ticks_campaign (P : tick -> Prop) : keeps (ticks_left P) (campaignLeader (D := D) cfg node_ID).
Proof.
  unfold campaignLeader, commit. repeat keeps_step; try apply ticks_etcd_call. intros w Hw. exact Hw.
Qed.

(** A won campaign starts the term of office. *)
Lemma campaign_held (w w1 : world D) (l : Z) :
  store_wf (etcd w) -> Forall office_tick (oracle w) ->
  campaignLeader cfg node_ID w = (Ret (inl (Some l)), w1) ->
  held l (etcd w1) /\ Forall (tick_keeps (held l)) (oracle w1).
Proof.
  intros Hwf Ho E.
  assert (Forall (tick_keeps store_wf) (oracle w)) as Hok.
  { eapply Forall_impl; [exact Ho|]. intros t. apply office_tick_keeps. exact office_step_wf. }
  pose proof (ticks_campaign office_tick w Ho) as Ho1. rewrite E in Ho1. cbn [snd] in Ho1.
  split; [|eapply Forall_impl; [exact Ho1|]; intros t; apply office_tick_keeps; apply office_step_held].
  destruct (campaignLeader_won cfg node_ID w w1 l E) as (st & rs & Hg & _ & Hfound & Htx).
  assert (store_wf st) as Hs by (rewrite Hfound; by apply campaign_found_wf).
  pose proof (granted_positive cfg w l Hwf Hok Hg) as Hl.
  destruct (takes_lead_wins cfg node_ID _ l rs st (etcd w1) Hs Hid (takes_campaign cfg node_ID (srv w) l Hl) Htx)
    as (Hown & _ & Hlt).
  pose proof (Txn_wf (campaign_txn cfg node_ID (srv w) l) st Hs) as Hw1.
  destruct (Txn_leases (campaign_txn cfg node_ID (srv w) l) st) as [_ Hn].
  rewrite Htx in Hw1, Hn. cbn in Hw1, Hn. split; [done|]. split; [lia|done].
Qed.

(** C4. A term of office is exclusive.  After a won campaign, through the
    promotion, the keep-alive loop and the lease monitor in any interleaving,
    with any lost answers and any requests of the other agents in between, as
    long as the node itself does not give its key up, and whatever the outcome:
    while etcd has the lease, the leader key holds this node's ID under it, and
    no transaction with which another agent takes the lead can succeed. *)
Theorem office_exclusive (w w1 w2 : world D) (l : Z) (turns : list (turn D)) (o : outcome bool) :
  store_wf (etcd w) -> Forall office_tick (oracle w) -> Forall (fun x => office_disturbance x.1) turns ->
  campaignLeader cfg node_ID w = (Ret (inl (Some l)), w1) ->
  after_win cfg node_ID turns l w1 = (o, w2) -> live (etcd w2) l ->
  (exists x, kvs (etcd w2) !! L = Some x /\ Value x = node_ID /\ Lease x = l) /\
  (forall m rt lm rs st', m <> node_ID -> plain_elem m = true -> takes_lead cfg m rt lm ->
     Txn rt (etcd w2) <> (inl (mkTxnResp true rs), st')).
Proof.
  intros Hwf Ho Ht E1 E2 Hlive. destruct (campaign_held w w1 l Hwf Ho E1) as [Hheld Hticks].
  destruct (office_after_win l turns Ht w1 (conj Hheld Hticks)) as [(Hwf2 & _ & Hown) _].
  rewrite E2 in Hwf2, Hown. cbn [snd] in Hwf2, Hown. destruct (Hown Hlive) as (x & Hx & Hv & Hlx).
  split; [eauto|]. intros m rt lm rs st' Hne Hm Hl Htx.
  destruct (takes_lead_wins cfg m rt lm rs (etcd w2) st' Hwf2 Hm Hl Htx) as (_ & Honly & _).
  apply Hne. rewrite <- Hv. symmetry. by apply Honly.
Qed.
End Office.

(** The first campaign of the concrete cluster.  Another agent campaigns during
    the promotion and again after it, the lease is renewed, and then the lease
    of somebody else expires while the node goes on serving. *)
Definition rival (st : Store) : Store := (Txn (campaign_txn demo_cfg other_id new_Server 1) st).2.

Definition served_turns : list (turn demo_service) :=
  let main := (calmly, CaseMain) in
  [main; main; (mkDist id id rival 0, CaseTick); main; main; main; main;
   (mkDist id id rival Second, CaseTick); (mkDist id id (fun st => (Revoke 7 st).2) 0, CaseTimer)].

Definition demo_office : outcome bool * world demo_service :=
  after_win demo_cfg demo_id served_turns 1
    (campaignLeader demo_cfg demo_id (demo_world empty_store [])).2.

Lemma rival_steps (st : Store) : rtc (office_step demo_cfg demo_id) st (rival st).
Proof.
  apply rtc_once. apply (office_others _ _ _ other_id); [discriminate|reflexivity|]. apply req_campaign.
Qed.

Lemma office_exclusive_witness :
  demo_office.1 = Blocked /\
  exists x, kvs (etcd demo_office.2) !! fullLeaderPath demo_cfg = Some x /\ Value x = demo_id /\ Lease x = 1.
Proof.
  assert (demo_office.1 = Blocked) as E by (vm_compute; reflexivity). split; [exact E|].
  refine (proj1 (office_exclusive demo_cfg demo_id demo_id_plain (demo_world empty_store [])
    (campaignLeader demo_cfg demo_id (demo_world empty_store [])).2
    demo_office.2 1 served_turns Blocked empty_store_wf (Forall_nil_2 _) _ _ (with_outcome _ _ E) _)).
  - repeat (constructor; [intros st; first [reflexivity|apply rival_steps|apply rtc_once, office_expire]|]). constructor.
  - apply with_outcome. vm_compute. reflexivity.
  - right. exists 10. vm_compute. reflexivity.
Defined.
