(* ===== verification/Failover.v ===== *)
(** * Failover ends

    The other files say what an agent must not do; this one says that the
    cluster gets a leader again: an agent that finds no leader and is not
    disturbed by others ends the iteration of its loop in office, with the
    leader key in etcd and the database writable: by the campaign, with a lease
    that its keep-alive goroutine renews, however that one and the promotion
    interleave, or, when its log is the only one of its term, in single point
    mode. *)

From stdpp Require Import gmap strings list.
From Stdlib Require Import ZArith Lia.
From S2P Require Import Prelude GoStrings Json Gtid Etcd World ServiceManager Demo Leader Node Election ServerLoop Threads ServerProofs AgentSpec Cluster Serving.
Import Mvcc.

Section Failover.
Context {D : Type} `{HS : ServiceManager D} `{RangeOrder} `{HOk : !ServiceManagerOk D}.
Context (cfg : Config) (node_ID : string) (Hid : plain_elem node_ID = true).

Abbreviation L := (fullLeaderPath cfg).

(** An undisturbed agent that may lead, on a store with [I]. *)
Definition calm_world (I : Store -> Prop) (w : world D) : Prop :=
  oracle w = [] /\ ctxDone (srv w) = false /\ onlyFollow (srv w) = false /\ I (etcd w).

Definition stays (I : Store -> Prop) : relation (world D) := fun w w' => calm_world I w -> calm_world I w'.

#[local] Instance stays_preorder (I : Store -> Prop) : PreOrder (stays I).
Proof. split; [intros w Hw; exact Hw|intros a b c H1 H2 Ha; auto]. Qed.

Section Stays.
Context (I : Store -> Prop).

Lemma stays_etcd_call {A} (f : Store -> result A * Store) :
  (forall st, I st -> I (f st).2) -> keeps (stays I) (etcd_call f).
Proof.
  intros Hf w (Ho & Hc & Hfl & HI). destruct (etcd_call_quiet f w Ho Hc) as [-> E].
  unfold calm_world. cbn. unfold arrival. cbn. rewrite Ho. split_and!; auto.
Qed.

Lemma stays_svc_call {A} (f : D -> A * D) : keeps (stays I) (svc_call f).
Proof. intros w Hw. unfold svc_call. by destruct (f (svc w)). Qed.

Lemma stays_modify (f : Server -> Server) :
  (forall s, ctxDone (f s) = ctxDone s /\ onlyFollow (f s) = onlyFollow s) -> keeps (stays I) (modify f).
Proof. intros Hf w (Ho & Hc & Hfl & HI). destruct (Hf (srv w)) as [E1 E2]. unfold calm_world. cbn. by rewrite E1, E2. Qed.

Lemma stays_same {A} (m : M D A) :
  (forall w, oracle (m w).2 = oracle w /\ srv (m w).2 = srv w /\ etcd (m w).2 = etcd w) -> keeps (stays I) m.
Proof. intros Hm w Hw. destruct (Hm w) as (E1 & E2 & E3). unfold calm_world. by rewrite E1, E2, E3. Qed.

Lemma stays_sleep (d : Z) : keeps (stays I) (sleep d).
Proof. by apply stays_same. Qed.
Lemma stays_log_event (e : event) : keeps (stays I) (log_event e).
Proof. by apply stays_same. Qed.
End Stays.
Hint Resolve stays_svc_call stays_sleep stays_log_event : moha.

Ltac stays_solve :=
  repeat keeps_step; eauto with moha;
  try (apply stays_modify; by intros []);
  try (apply stays_etcd_call; by intros).

(** ** Before the campaign *)

Definition vacant (st : Store) : Prop := store_wf st /\ kvs st !! L = None.

Lemma put_vacant (k : list string) (path v : string) (l : Z) (st : Store) :
  own_key node_ID k -> path = Client.elems_key k -> vacant st -> vacant (Client.Put (rootPath cfg) path v l st).2.
Proof.
  intros Hk -> [Hwf Hn]. split; [by apply Put_wf|]. unfold Client.Put.
  rewrite Client.Put_untouched; [done|]. by apply (own_key_not_leader cfg node_ID).
Qed.

Lemma stays_preCampaign (fuel : nat) : keeps (stays vacant) (preCampaign cfg node_ID fuel false).
Proof.
  unfold preCampaign, uploadLogForElectionAsSlave, getAllLogsForElection, uploadLogForElection. stays_solve.
  apply stays_etcd_call. intros st. eapply put_vacant; [apply own_log|]. apply join_elems; [done|by repeat constructor].
Qed.

(** ** Winning *)

(** The leader key holds this node's ID under lease [l], which etcd has; 0 is no
    lease. *)
Definition own_store (l : Z) (st : Store) : Prop :=
  (exists x, kvs st !! L = Some x /\ Value x = node_ID /\ Lease x = l) /\ (l = 0 \/ is_Some (leases st !! l)).

(** An undisturbed transaction. *)
Lemma commit_quiet (rt : TxnRequest) (w : world D) (rs : list Response) (st : Store) :
  oracle w = [] -> ctxDone (srv w) = false -> Txn rt (etcd w) = (inl (mkTxnResp true rs), st) ->
  exists w', commit rt w = (Ret (inl (mkTxnResp true rs)), w') /\ srv w' = srv w /\ svc w' = svc w /\ etcd w' = st /\
    oracle w' = [] /\ trace w' = ETxn rt (Some true) :: trace w.
Proof.
  intros Ho Hc E. unfold commit, bind. destruct (etcd_call_quiet (Txn rt) w Ho Hc) as [-> _]. rewrite E.
  eexists. split; [reflexivity|]. cbn. unfold arrival. cbn. by rewrite Ho.
Qed.

Lemma vacant_txn (rt : TxnRequest) (l : Z) (st : Store) :
  vacant st -> takes_lead cfg node_ID rt l -> Compare rt = [CmpCreateRevision L 0] ->
  forallb (checkPut st) (Success rt) = true ->
  l = 0 \/ is_Some (leases st !! l) ->
  exists rs st', Txn rt st = (inl (mkTxnResp true rs), st') /\ own_store l st'.
Proof.
  intros [Hwf Hn] Ht Hc Hl Hlive.
  assert (applyCompares (kvs st) (Compare rt) = true) as Hcmp.
  { rewrite Hc. cbn [applyCompares forallb]. rewrite andb_true_r. by apply create_revision_zero. }
  destruct (Txn_succeeded rt st Hcmp Hl) as (Hr & _). destruct (Txn rt st) as [r st'] eqn:E. cbn in Hr. subst r.
  do 2 eexists. split; [reflexivity|]. pose proof (Txn_leases rt st) as [Hls _]. rewrite E in Hls. cbn in Hls.
  destruct (takes_lead_wins cfg node_ID rt l _ st st' Hwf Hid Ht E) as (Hx & _). split; [done|]. by rewrite Hls.
Qed.

Lemma campaign_wins (w : world D) :
  calm_world vacant w -> LeaderLeaseTTL cfg <= MaxLeaseTTL ->
  exists l w', campaignLeader cfg node_ID w = (Ret (inl (Some l)), w') /\ 1 <= l /\ calm_world (own_store l) w' /\
    srv w' = srv w /\ adds any_event w w'.
Proof.
  intros (Ho & Hc & Hf & Hv) Httl. unfold campaignLeader. unfold bind at 1.
  destruct (etcd_call_quiet (Grant (LeaderLeaseTTL cfg)) w Ho Hc) as [-> _]. unfold Grant.
  destruct (Z.ltb_spec MaxLeaseTTL (LeaderLeaseTTL cfg)); [lia|]. cbn [fst snd].
  set (st := mkStore _ _ _ _). set (l := nextLease (etcd w)). set (w1 := with_etcd st (arrival w)).
  assert (vacant st) as Hv1.
  { destruct Hv as [Hwf Hn]. split; [|done]. pose proof (Grant_wf (LeaderLeaseTTL cfg) (etcd w) Hwf) as Hg.
    unfold Grant in Hg. by destruct (Z.ltb_spec MaxLeaseTTL (LeaderLeaseTTL cfg)); [lia|]. }
  assert (1 <= l) as Hl by (destruct Hv as [(_ & ? & _) _]; done).
  destruct (vacant_txn (campaign_txn cfg node_ID (srv w1) l) l st Hv1) as (rs & st' & Et & Hown);
    [by constructor|done| |right; unfold st; cbn; rewrite lookup_insert_eq; by eexists|].
  { cbn [campaign_txn Success]. unfold leaderPutOps. destruct (Z.ltb_spec l 0); [lia|].
    assert (bool_decide (is_Some (leases st !! l)) = true) as Hb.
    { apply bool_decide_eq_true_2. unfold st. cbn. rewrite lookup_insert_eq. by eexists. }
    cbn [myTermPutOps app forallb checkPut]. rewrite Hb. by rewrite !orb_true_r. }
  unfold bind at 1, gets. cbn [id].
  destruct (commit_quiet (campaign_txn cfg node_ID (srv w1) l) w1 rs st') as (w2 & E2 & Hs & _ & He & Ho2 & Ht2);
    [unfold w1, arrival; cbn; by rewrite Ho|done|done|].
  unfold bind. rewrite E2. cbn. exists l, w2. split; [done|]. split; [done|]. split_and!; [|by rewrite Hs|].
  - unfold calm_world. rewrite Ho2, Hs, He. cbn. done.
  - by apply (adds_one any_event w w2 _ Ht2).
Qed.

Lemma single_point_wins (w : world D) :
  calm_world vacant w ->
  exists w', campaignLeaderAsSinglePoint cfg node_ID w = (Ret (inl true), w') /\ calm_world (own_store 0) w' /\
    srv w' = srv w /\ trace w' = ETxn (campaignSinglePoint_txn cfg node_ID (srv w)) (Some true) :: trace w.
Proof.
  intros (Ho & Hc & Hf & Hv). unfold campaignLeaderAsSinglePoint. unfold bind at 1, gets. cbn [id].
  destruct (vacant_txn (campaignSinglePoint_txn cfg node_ID (srv w)) 0 (etcd w) Hv) as (rs & st' & Et & Hown);
    [by constructor|done|done|by left|].
  destruct (commit_quiet _ w rs st' Ho Hc Et) as (w2 & E2 & Hs & _ & He & Ho2 & Ht2).
  unfold bind. rewrite E2. exists w2. split; [done|]. split_and!; [|done|done].
  unfold calm_world. by rewrite Ho2, Hs, He.
Qed.

(** ** In office *)

Lemma put_own (l : Z) (k : list string) (path v : string) (l' : Z) (st : Store) :
  own_key node_ID k -> path = Client.elems_key k -> own_store l st ->
  own_store l (Client.Put (rootPath cfg) path v l' st).2.
Proof.
  intros Hk -> [(x & Hx & Hv) Hl]. unfold Client.Put. split.
  - exists x. rewrite Client.Put_untouched; [done|]. by apply (own_key_not_leader cfg node_ID).
  - by rewrite (proj1 (Put_leases _ _ _ _)).
Qed.

Lemma stays_promote (l : Z) : keeps (stays (own_store l)) (promoteToMaster cfg node_ID).
Proof.
  unfold promoteToMaster, amILeader, setIsLeaderToTrue, sm_SetReadWrite, sm_PromoteToMaster, uploadPromotionBinlog.
  stays_solve. apply stays_etcd_call. intros st. eapply put_own; [apply own_switch|].
  apply join_elems; [done|]. repeat constructor; auto using FormatUint_plain.
Qed.

Lemma stays_rest (l : Z) (fuel : nat) :
  keeps (stays (own_store l))
    (do! setIsSPMToTrue in
     deferred setIsSPMToFalse (do! waitUntilSlaveAppears cfg fuel in retry_err fuel (1 * Second) sm_SetReadOnly)).
Proof.
  unfold setIsSPMToTrue, setIsSPMToFalse, waitUntilSlaveAppears, sm_SetReadOnly. stays_solve.
  induction fuel as [|n IH]; cbn; unfold pollAllRegisteredAgents; stays_solve.
Qed.

Lemma stays_removeSPM (l : Z) : keeps (stays (own_store l)) (removeSPMFromEtcd cfg).
Proof.
  unfold removeSPMFromEtcd. stays_solve. apply stays_etcd_call. intros st [(x & Hx & Hv) Hl].
  unfold Client.Delete. cbn [snd]. split; [|by rewrite (proj1 (DeleteRange_leases _ _))].
  exists x. rewrite Client.DeleteRange_untouched; [done|]. apply String.eqb_neq. exact (spm_not_leader cfg).
Qed.

(** ** The goroutines of an undisturbed leader

    Time passes between their turns, and the keep-alive goroutine renews the
    lease at any moment of the promotion and after it. *)

Definition pause (d : Z) : disturbance D := mkDist id id id d.

Definition working (x : turn D) : Prop := exists d, x = (pause d, CaseMain) \/ x = (pause d, CaseTick).

Fixpoint ticks (turns : list (turn D)) : nat :=
  match turns with
  | [] => 0
  | (_, CaseTick) :: rest => S (ticks rest)
  | _ :: rest => ticks rest
  end.

Section Turns.
Context (l : Z) (Hl : 1 <= l).

(** The answered requests to renew lease [l]. *)
Fixpoint renewals (tr : list event) : nat :=
  match tr with
  | [] => 0
  | EKeepAlive l' true :: rest => if l' =? l then S (renewals rest) else renewals rest
  | _ :: rest => renewals rest
  end.

Lemma renewals_app (t1 t2 : list event) : renewals (t1 ++ t2) = (renewals t1 + renewals t2)%nat.
Proof. induction t1 as [|e t1 IH]; [done|]. cbn. destruct e; try exact IH. destruct renewed; [|exact IH]. destruct (lease =? l); cbn; lia. Qed.

Definition renewed (n : nat) (w w' : world D) : Prop := exists new, trace w' = new ++ trace w /\ renewals new = n.

Lemma renewed_trans (n1 n2 : nat) (w w1 w2 : world D) : renewed n1 w w1 -> renewed n2 w1 w2 -> renewed (n1 + n2) w w2.
Proof.
  intros (a & E1 & H1) (b & E2 & H2). exists (b ++ a). rewrite E2, E1, app_assoc, renewals_app. split; [done|lia].
Qed.

Definition serves (w : world D) : Prop := calm_world (own_store l) w.

Definition paused (d : Z) (w : world D) : world D :=
  mkWorld (srv w) (latestPos w) (etcd w) (svc w) (now w + d) (oracle w) (trace w).

(** The world after a renewal at time [now w + d]. *)
Definition ticked (d : Z) (w : world D) : world D :=
  (updateLeaseExpireTS cfg (mkWorld (srv w) (latestPos w) (etcd w) (svc w) (now w + d) (oracle w)
     (EKeepAlive l true :: trace w))).2.

Lemma tick_renews (d : Z) (h : helpers) (w : world D) :
  serves w -> alive h = Selecting ->
  exists d', bind (disturb (pause d)) (fun _ => helpers_turn cfg l CaseTick h) w = (Ret h, ticked d' w).
Proof.
  intros (Ho & Hc & _ & _ & [->|[ttl Ht]]) Hh; [lia|]. unfold bind at 1, disturb, pause. cbn [d_srv d_etcd d_svc d_delay id].
  unfold helpers_turn. rewrite Hh. cbn [keepAlive_select]. unfold renew_lease, KeepAliveOnce.
  set (w0 := mkWorld _ _ _ _ _ _ _). unfold bind. destruct (etcd_call_quiet (Renew l) w0 Ho Hc) as [-> _].
  unfold Renew at 1. change (etcd w0) with (etcd w). rewrite Ht. cbn. exists (d + 0). destruct h as [k m]. cbn in Hh |- *. subst k.
  unfold Renew. rewrite Ht. unfold ticked, updateLeaseExpireTS. cbn. unfold next_tick. cbn. rewrite Ho. cbn.
  assert (arrival w0 = mkWorld (srv w) (latestPos w) (etcd w) (svc w) (now w + d + 0) [] (trace w)) as ->
    by (unfold w0, arrival, next_tick; cbn; by rewrite Ho).
  rewrite !Z.add_assoc. by destruct m.
Qed.

Lemma ticked_serves (d : Z) (w : world D) : serves w -> serves (ticked d w).
Proof. by intros (Ho & Hc & Hf & Hs). Qed.

Lemma ticked_renewed (d : Z) (w : world D) : renewed 1 w (ticked d w).
Proof. exists [EKeepAlive l true]. split; [done|]. cbn. by rewrite Z.eqb_refl. Qed.

(** A condition on the world that renewals and time leave alone. *)
Definition stable (P : world D -> Prop) : Prop := forall d w, P w -> P (paused d w) /\ P (ticked d w).

Context (Q : bool -> world D -> Prop) (QE : world D -> Prop).

(** The main goroutine from a world with [P]: it ends with [Q], or exits the
    process with [QE]; what it relies on between its calls is stable. *)
Fixpoint triple (P : world D -> Prop) (t : thread D bool) : Prop :=
  match t with
  | Fin b => forall w, P w -> serves w -> Q b w
  | Act m => forall w, P w -> serves w ->
      match m w with
      | (Ret t', w') => serves w' /\ renewed 0 w w' /\ exists P', P' w' /\ stable P' /\ triple P' t'
      | (Exited _, w') => serves w' /\ QE w'
      | _ => False
      end
  end.

Lemma triple_act {A} (P : world D -> Prop) (m : M D A) (k : A -> thread D bool) :
  (forall w, P w -> serves w ->
     match m w with
     | (Ret a, w') => serves w' /\ renewed 0 w w' /\ exists P', P' w' /\ stable P' /\ triple P' (k a)
     | (Exited _, w') => serves w' /\ QE w'
     | _ => False
     end) -> triple P (act m k).
Proof. intros Hm w Hw Hs. specialize (Hm w Hw Hs). unfold bind, ret. by destruct (m w) as [[a| | |] w']. Qed.

Lemma triple_alone (t : thread D bool) : forall (P : world D -> Prop) (w : world D),
  triple P t -> P w -> serves w ->
  match run_alone t w with
  | (Ret b, w') => Q b w' /\ serves w' /\ renewed 0 w w'
  | (Exited _, w') => serves w' /\ QE w'
  | _ => False
  end.
Proof.
  revert t. fix IH 1. intros [b|m] P w Ht Hw Hs; cbn in *.
  - split_and!; [by apply Ht|done|by exists []].
  - specialize (Ht w Hw Hs). destruct (m w) as [[t'| | |] w']; try done.
    destruct Ht as (Hs' & Hr & P' & Hw' & _ & Ht'). specialize (IH t' P' w' Ht' Hw' Hs').
    destruct (run_alone t' w') as [[b| | |] w2]; try done. destruct IH as (Hq & Hs2 & Hr2).
    split_and!; [done|done|]. exact (renewed_trans 0 0 w w' w2 Hr Hr2).
Qed.

Lemma triple_race (turns : list (turn D)) : Forall working turns ->
  forall (t : thread D bool) (P : world D -> Prop) (h : helpers) (w : world D),
  triple P t -> stable P -> P w -> serves w -> alive h = Selecting ->
  match race cfg l h turns t w with
  | (Ret (b, h', rest), w') => Q b w' /\ serves w' /\ alive h' = Selecting /\ Forall working rest /\
      exists n, renewed n w w' /\ (n + ticks rest = ticks turns)%nat
  | (Exited _, w') => serves w' /\ QE w'
  | _ => False
  end.
Proof.
  induction 1 as [|x turns (d & Hx) Hts IH]; intros t P h w Ht HP Hw Hs Hh.
  { cbn [race]. unfold bind, ret. pose proof (triple_alone t P w Ht Hw Hs) as Ha.
    destruct (run_alone t w) as [[b| | |] w']; try done. destruct Ha as (Hq & Hs' & Hr).
    split_and!; auto. exists O. by split. }
  destruct t as [b|m].
  { destruct x as [x c]. cbn [race]. unfold ret. split_and!; auto; [constructor; [by exists d|done]|]. exists O. split; [by exists []|done]. }
  destruct Hx as [->| ->]; cbn [race].
  - unfold bind at 1, disturb. cbn [d_srv d_svc d_etcd d_delay pause id]. change (mkWorld _ _ _ _ _ _ _) with (paused d w).
    destruct (HP d w Hw) as [Hp _]. specialize (Ht (paused d w) Hp Hs). unfold bind.
    destruct (m (paused d w)) as [[t'| | |] w1] eqn:Em; cbn beta in Ht; rewrite ?Em in Ht; try done.
    destruct Ht as (Hs1 & Hr1 & P' & Hw1 & HP' & Ht'). specialize (IH t' P' h w1 Ht' HP' Hw1 Hs1 Hh).
    destruct (race cfg l h turns t' w1) as [[[[b h'] rest]| | |] w2]; try done.
    destruct IH as (Hq & Hs2 & Hh2 & Hrest & n & Hr & Hn). split_and!; auto. exists n. split; [|done].
    exact (renewed_trans 0 n w w1 w2 Hr1 Hr).
  - destruct (tick_renews d h w Hs Hh) as (d' & E). unfold bind at 1 in E. unfold bind at 1.
    destruct (disturb (pause d) w) as [[u| | |] w0]; try done. unfold bind at 1. rewrite E.
    destruct (HP d' w Hw) as [_ Hp]. specialize (IH (Act m) P h (ticked d' w) Ht HP Hp (ticked_serves d' w Hs) Hh).
    destruct (race cfg l h turns (Act m) (ticked d' w)) as [[[[b h'] rest]| | |] w2]; try done.
    destruct IH as (Hq & Hs2 & Hh2 & Hrest & n & Hr & Hn). split_and!; auto. exists (S n). split; [|cbn; lia].
    exact (renewed_trans 1 n w _ w2 (ticked_renewed d' w) Hr).
Qed.

Lemma barrier_working (turns : list (turn D)) (P : world D -> Prop) : Forall working turns -> stable P ->
  forall (h : helpers) (w : world D), P w -> serves w -> alive h = Selecting ->
  exists w', barrier cfg l h turns w = (Blocked, w') /\ P w' /\ serves w' /\ renewed (ticks turns) w w'.
Proof.
  intros Ht HP. induction Ht as [|x turns (d & Hx) Hts IH]; intros h w Hw Hs Hh.
  { exists w. cbn. rewrite Hh. split_and!; auto. by exists []. }
  destruct Hx as [->| ->]; cbn [barrier ticks]; rewrite Hh.
  - unfold bind at 1, disturb. cbn [d_srv d_svc d_etcd d_delay pause id]. change (mkWorld _ _ _ _ _ _ _) with (paused d w).
    assert (helpers_turn cfg l CaseMain h (paused d w) = (Ret h, paused d w)) as E.
    { destruct h as [k m]. cbn in Hh. subst k. by destruct m. }
    unfold bind. rewrite E. apply (IH h (paused d w)); [apply HP, Hw|exact Hs|done].
  - destruct (tick_renews d h w Hs Hh) as (d' & E). unfold bind at 1 in E. unfold bind at 1.
    destruct (disturb (pause d) w) as [[u| | |] w0]; try done. unfold bind. rewrite E.
    destruct (IH h (ticked d' w)) as (w' & E' & HP' & Hs' & Hr'); [apply HP, Hw|by apply ticked_serves|done|].
    exists w'. split_and!; auto. exact (renewed_trans 1 _ w _ w' (ticked_renewed d' w) Hr').
Qed.
End Turns.

Section TakingOver.
Context (l : Z) (w0 : world D).

(** Since [w0] the agent has asked for writes, with this answer. *)
Definition asked (w : world D) (e : option error) : Prop := exists new, trace w = new ++ trace w0 /\ ESetReadWrite e ∈ new.

Definition ready (w : world D) : Prop := leaderStopCh (srv w) = ChOpen /\ adds any_event w0 w.
Definition leading (w : world D) : Prop := ready w /\ isLeader (srv w) = true.
Definition refused (e : error) (w : world D) : Prop := leaderStopCh (srv w) = ChOpen /\ asked w (Some e).
Definition granted (w : world D) : Prop := asked w None /\ isLeader (srv w) = true /\ IsReadOnly (svc w) = false.

Definition took_over (b : bool) (w : world D) : Prop := if b then granted w else exists e, asked w (Some e).
Definition left_office (w : world D) : Prop := exists e, asked w (Some e).

Lemma asked_more (w w' : world D) (e : option error) : adds any_event w w' -> asked w e -> asked w' e.
Proof.
  intros (new & E & _) (old & Eo & Hin). exists (new ++ old). rewrite E, Eo, app_assoc. split; [done|]. set_solver.
Qed.

Lemma stable_by (P : world D -> Prop) :
  (forall w w', P w -> adds any_event w w' -> leaderStopCh (srv w') = leaderStopCh (srv w) ->
     isLeader (srv w') = isLeader (srv w) -> svc w' = svc w -> P w') -> stable l P.
Proof.
  intros HP d w Hw. split; apply (HP w); try done; [by apply adds_none|].
  by apply (adds_one any_event w _ (EKeepAlive l true)).
Qed.

Lemma stable_ready : stable l ready.
Proof. apply stable_by. intros w w' [H1 H2] Ha Hc _ _. split; [by rewrite Hc|by etrans]. Qed.
Lemma stable_leading : stable l leading.
Proof. apply stable_by. intros w w' [[H1 H2] H3] Ha Hc Hi _. split; [split; [by rewrite Hc|by etrans]|by rewrite Hi]. Qed.
Lemma stable_refused (e : error) : stable l (refused e).
Proof. apply stable_by. intros w w' [H1 H2] Ha Hc _ _. split; [by rewrite Hc|by eapply asked_more]. Qed.
Lemma stable_granted : stable l granted.
Proof. apply stable_by. intros w w' (H1 & H2 & H3) Ha _ Hi Hv. split_and!; [by eapply asked_more|by rewrite Hi|by rewrite Hv]. Qed.
Hint Resolve stable_ready stable_leading stable_refused stable_granted : moha.

Definition no_renewal (e : event) : Prop := match e with EKeepAlive _ _ => False | _ => True end.

Lemma silent_renewed (w w' : world D) : adds no_renewal w w' -> renewed l 0 w w'.
Proof.
  intros (new & E & Hn). exists new. split; [done|]. clear E. induction Hn as [|e new He _ IH]; [done|]. by destruct e.
Qed.

Abbreviation triple_l := (triple l took_over left_office).

(** A call that returns and leaves the condition as it is. *)
Lemma triple_step {A} (P P' : world D -> Prop) (m : M D A) (k : A -> thread D bool) :
  keeps (stays (own_store l)) m -> keeps (adds no_renewal) m ->
  (forall w, P w -> exists a w', m w = (Ret a, w') /\ P' w') -> stable l P' -> (forall a, triple_l P' (k a)) ->
  triple_l P (act m k).
Proof.
  intros Hs Ha Hm HP Hk. apply triple_act. intros w Hw Hsv. specialize (Hs w Hsv). specialize (Ha w).
  destruct (Hm w Hw) as (a & w' & E & Hw'). rewrite E in *. cbn [snd] in *.
  split; [exact Hs|]. split; [by apply silent_renewed|]. eauto.
Qed.

Lemma ready_same (w w' : world D) : srv w' = srv w -> adds any_event w w' -> leading w -> leading w'.
Proof. intros E Ha [[H1 H2] H3]. split; [split; [by rewrite E|by etrans]|by rewrite E]. Qed.

Ltac silent_solve :=
  repeat keeps_step; eauto with moha;
  try (apply adds_log_event; exact I); try (apply adds_sleep; intros; exact I).

Lemma triple_write (k : option error -> thread D bool) :
  k None = Fin true -> (forall e, triple_l (refused e) (k (Some e))) -> triple_l leading (act sm_SetReadWrite k).
Proof.
  intros Hn Hk. apply triple_act. intros w [[H1 H2] H3] Hsv.
  assert (keeps (stays (own_store l)) sm_SetReadWrite) as Hs by (unfold sm_SetReadWrite; stays_solve).
  specialize (Hs w Hsv). destruct (SetReadWrite_returns w) as (e & w' & E & Hsrv & Ht & Hr). rewrite E in *. cbn [snd] in *.
  split; [exact Hs|]. split; [exists [ESetReadWrite e]; by split|].
  assert (asked w' e) as Ha.
  { destruct H2 as (new & En & _). exists (ESetReadWrite e :: new). rewrite Ht, En. split; [done|left]. }
  destruct e as [e|].
  - exists (refused e). split_and!; auto with moha. split; [by rewrite Hsrv|done].
  - exists granted. rewrite Hn. split_and!; auto with moha; [|by intros v Hv _]. split_and!; [done|by rewrite Hsrv|auto].
Qed.

Lemma triple_give_up (e : error) :
  triple_l (refused e)
    (act setServiceReadonlyOrShutdown (fun _ =>
     act (close_chan leaderStopCh set_leaderStopCh) (fun _ =>
     act (sleep (100 * Millisecond)) (fun _ => Fin false)))).
Proof.
  set (P2 := fun w : world D => asked w (Some e)).
  assert (stable l P2) as HP2 by (apply stable_by; intros w w' Hw Ha _ _ _; by eapply asked_more).
  apply triple_act. intros w [H1 H2] Hsv.
  assert (keeps (stays (own_store l)) sm_SetReadOnly) as Hs by (unfold sm_SetReadOnly; stays_solve).
  assert (keeps (adds no_renewal) sm_SetReadOnly) as Hq by (unfold sm_SetReadOnly; silent_solve).
  specialize (Hs w Hsv). specialize (Hq w). pose proof (adds_readonly any_event w) as Ha.
  unfold setServiceReadonlyOrShutdown, bind. destruct (SetReadOnly_returns w) as (e' & w' & E & Hsrv & _).
  rewrite E in *. cbn [snd] in *. assert (asked w' (Some e)) as Hk by (by eapply asked_more).
  destruct e' as [e'|]; [split; [exact Hs|by exists e]|]. unfold ret.
  split; [exact Hs|]. split; [by apply silent_renewed|]. exists (refused e). split_and!; [split; [by rewrite Hsrv|done]|auto with moha|].
  apply (triple_step _ P2); [|silent_solve| |exact HP2|].
  - intros v Hv. unfold close_chan. by destruct (leaderStopCh (srv v)).
  - intros v [Hc Hk']. unfold close_chan. rewrite Hc. do 2 eexists. split; [reflexivity|]. exact Hk'.
  - intros _. apply (triple_step _ P2); [stays_solve|silent_solve| |exact HP2|intros _ v Hv _; by exists e].
    intros v Hv. do 2 eexists. split; [reflexivity|]. eapply asked_more; [|exact Hv]. by eapply adds_one.
Qed.

Lemma triple_taking_over : triple_l ready (taking_over cfg node_ID).
Proof.
  unfold taking_over, promoting.
  match goal with |- context [act sm_SetReadWrite ?k] => set (kk := k) end.
  assert (triple_l leading (act sm_SetReadWrite kk)) as Hw by (apply triple_write; [done|apply triple_give_up]).
  apply triple_act. intros w Hr Hsv. unfold amILeader, gets at 1. split; [exact Hsv|]. split; [by exists []|].
  destruct (isLeader (srv w)) eqn:El; [exists leading; split_and!; auto with moha; by split|].
  exists ready. split_and!; auto with moha.
  apply (triple_step _ leading); [unfold setIsLeaderToTrue; stays_solve|unfold setIsLeaderToTrue; silent_solve| |auto with moha|].
  { intros v [Hc Ha]. do 2 eexists. split; [reflexivity|]. split; [split; [exact Hc|exact Ha]|done]. }
  intros _. apply (triple_step _ leading); [unfold sm_PromoteToMaster; stays_solve|unfold sm_PromoteToMaster; silent_solve| |auto with moha|].
  { intros v Hv. unfold sm_PromoteToMaster, svc_call, bind, log_event, ret. destruct (PromoteToMaster (svc v)).
    do 2 eexists. split; [reflexivity|]. apply (ready_same v); [done| |exact Hv]. by eapply adds_one. }
  intros _. apply (triple_step _ leading); [stays_solve|silent_solve| |auto with moha|].
  { intros v Hv. unfold bind, get_latestPos, svc_call. destruct (LoadSlaveStatusFromDB (latestPos v) (svc v)).
    do 2 eexists. split; [reflexivity|]. apply (ready_same v); [done|by apply adds_none|exact Hv]. }
  intros [pos|e]; [|exact Hw]. apply (triple_step _ leading); [|silent_solve| |auto with moha|].
  - stays_solve. apply stays_etcd_call. intros st.
    eapply put_own; [apply own_switch|]. apply join_elems; [done|]. repeat constructor; auto using FormatUint_plain.
  - intros v Hv. unfold bind, gets.
    match goal with |- context [etcd_call ?f ?v'] => destruct (etcd_call_ret f v') as (r & st & -> & _) end.
    do 2 eexists. split; [reflexivity|]. apply (ready_same v); [done|by apply adds_none|exact Hv].
  - intros _. exact Hw.
Qed.
End TakingOver.

(** How the election of an undisturbed agent ends, in single point mode or not:
    it holds the key, under no lease or under one that etcd has, and asked for
    writes; if they were granted it is a leader that has renewed its lease [n]
    times, or the single point transaction has made it the master. *)
Definition elected (alone : bool) (n : nat) (w : world D) (o : outcome bool) (w' : world D) : Prop :=
  exists l, own_store l (etcd w') /\ (if alone then l = 0 else 1 <= l) /\
  exists new e, trace w' = new ++ trace w /\ ESetReadWrite e ∈ new /\
  (e = None -> if alone then exists s, ETxn (campaignSinglePoint_txn cfg node_ID s) (Some true) ∈ new
               else o = Blocked /\ isLeader (srv w') = true /\ IsReadOnly (svc w') = false /\ (n <= renewals l new)%nat).

Lemma elected_before (alone : bool) (n : nat) (w w1 : world D) (o : outcome bool) (w' : world D) :
  adds any_event w w1 -> elected alone n w1 o w' -> elected alone n w o w'.
Proof.
  intros (old & En & _) (l & Hown & Hl & new & e & Ht & Hin & He). exists l. split; [done|]. split; [done|].
  exists (new ++ old), e. rewrite Ht, En. split_and!; [by rewrite app_assoc|set_solver|].
  intros E. specialize (He E). destruct alone.
  - destruct He as [s Hs]. exists s. set_solver.
  - rewrite renewals_app. destruct He as (-> & Hi & Hr & Hn). split_and!; auto. lia.
Qed.

Lemma deferred_bind {A B} (d : M D unit) (m : M D A) (k : A -> M D B) (a : A) (w w1 : world D) :
  m w = (Ret a, w1) -> deferred d (bind m k) w = deferred d (k a) w1.
Proof. intros E. unfold deferred, bind at 1. by rewrite E. Qed.

(** The promotion asks for writes and adds to the trace. *)
Lemma promote_asks (w : world D) :
  exists e w' new, promoteToMaster cfg node_ID w = (Ret e, w') /\ trace w' = new ++ trace w /\ ESetReadWrite e ∈ new.
Proof.
  destruct (promoteToMaster_spec cfg node_ID w) as (e & w' & rest & E & _ & _ & Ht & Hp & _).
  assert (exists n, rest = n ++ trace w) as [n ->].
  { unfold promotion_prefix in Hp. destruct (isLeader (srv w)); [by exists []|]. destruct Hp as [ep ->]. by exists [EPromoteToMaster ep]. }
  exists e, w', (ESetReadWrite e :: n). split_and!; [done|done|left].
Qed.

(** What follows a granted single point campaign keeps the key and adds to the
    trace. *)
Lemma single_point_after {A} (n : nat) (w w1 w2 : world D) (e : option error) (new n1 : list event) (m : M D A) (o : outcome bool) (s : Server) :
  calm_world (own_store 0) w2 -> trace w2 = new ++ trace w1 -> trace w1 = n1 ++ trace w -> ESetReadWrite e ∈ new ->
  keeps (stays (own_store 0)) m -> keeps (adds any_event) m -> ETxn (campaignSinglePoint_txn cfg node_ID s) (Some true) ∈ n1 ->
  elected true n w o (m w2).2.
Proof.
  intros Hw Ht Ht1 Hin Hst Hadd He. destruct (Hst w2 Hw) as (_ & _ & _ & Hown). destruct (Hadd w2) as (n3 & En & _).
  exists 0. split; [done|]. split; [done|]. exists (n3 ++ new ++ n1), e. rewrite En, Ht, Ht1, !app_assoc.
  split_and!; [done|set_solver|]. intros _. exists s. set_solver.
Qed.

Lemma single_point_elected (fuel n : nat) (w : world D) :
  calm_world vacant w ->
  let '(o, w') := (do! becomeSinglePointMaster cfg node_ID fuel false in ret true) w in elected true n w o w'.
Proof.
  intros Hw. destruct (single_point_wins w Hw) as (w1 & E1 & Hw1 & Hs1 & Ht1).
  assert (retry fuel (100 * Millisecond) (campaignLeaderAsSinglePoint cfg node_ID) w = (Ret true, w1)) as Er
    by (destruct fuel; cbn; unfold bind; by rewrite E1).
  destruct (promote_asks w1) as (e & w2 & new & E2 & Ht2 & Hin).
  pose proof (stays_promote 0 w1 Hw1) as Hw2. rewrite E2 in Hw2. cbn [snd] in Hw2.
  set (k := fun err : option error => match err with
    | Some _ => ignore sm_SetReadOnly
    | None => do! setIsSPMToTrue in deferred setIsSPMToFalse
                (do! waitUntilSlaveAppears cfg fuel in retry_err fuel (1 * Second) sm_SetReadOnly)
    end).
  set (prog := do! deferred (ignore (removeSPMFromEtcd cfg)) (k e) in ret true).
  assert ((do! becomeSinglePointMaster cfg node_ID fuel false in ret true) w = prog w2) as ->.
  { unfold prog, becomeSinglePointMaster. unfold bind at 1. unfold bind at 1, ret at 1. unfold bind at 1. rewrite Er.
    cbn [negb]. rewrite (deferred_bind _ _ _ _ _ _ E2). reflexivity. }
  assert (elected true n w (prog w2).1 (prog w2).2) as He; [|by destruct (prog w2)].
  apply (single_point_after n w w1 w2 e new [ETxn (campaignSinglePoint_txn cfg node_ID (srv w)) (Some true)]) with (s := srv w); try done.
  - unfold prog. apply keeps_bind; [exact _|apply keeps_deferred; [exact _| |]|intros _; by repeat keeps_step].
    + unfold ignore. repeat keeps_step. apply stays_removeSPM.
    + unfold k. destruct e; [unfold ignore, sm_SetReadOnly; stays_solve|apply stays_rest].
  - unfold prog, k, ignore, setIsSPMToTrue, setIsSPMToFalse. repeat keeps_step; auto with moha.
  - left.
Qed.

(** The term of office of an undisturbed leader, from its first moment. *)
Lemma office_elected (l : Z) (turns : list (turn D)) (w : world D) :
  1 <= l -> calm_world (own_store l) w -> leaderStopCh (srv w) = ChOpen -> Forall working turns ->
  let '(o, w') := in_office cfg l turns (taking_over cfg node_ID) w in elected false (ticks turns) w o w'.
Proof.
  intros Hl Hw Hch Ht.
  pose proof (triple_race l Hl (took_over w) (left_office w) turns Ht (taking_over cfg node_ID) (ready w) started w
    (triple_taking_over l w) (stable_ready l w) (conj Hch (adds_none any_event w w eq_refl)) Hw eq_refl) as Hr.
  unfold in_office, bind at 1. destruct (race cfg l started turns (taking_over cfg node_ID) w) as [[[[b h] rest]| | |] w1]; try done.
  - destruct Hr as (Hq & Hs & Hh & Hrest & n & Hn & Hsum). destruct b; cbn [took_over] in Hq.
    + destruct (barrier_working l Hl rest (granted w) Hrest (stable_granted l w) h w1 Hq Hs Hh) as (w2 & E & Hg & Hs2 & Hn2).
      unfold bind. rewrite E. destruct Hg as ((new & En & Hin) & Hi & Hro).
      destruct (renewed_trans l _ _ _ _ _ Hn Hn2) as (new' & En' & Hk). rewrite En in En'. apply app_inv_tail in En' as ->.
      exists l. split; [apply Hs2|]. split; [done|]. exists new', None. split_and!; auto. intros _. split_and!; auto. lia.
    + destruct Hq as (e & new & En & Hin). exists l. split; [apply Hs|]. split; [done|]. by exists new, (Some e).
  - destruct Hr as (Hs & e & new & En & Hin). exists l. split; [apply Hs|]. split; [done|]. by exists new, (Some e).
Qed.

(** The campaign from a vacant store. *)
Lemma campaign_elected (turns : list (turn D)) (w : world D) :
  calm_world vacant w -> LeaderLeaseTTL cfg <= MaxLeaseTTL -> Forall working turns ->
  let '(o, w') := (let! r := campaignLeader cfg node_ID in
      match r with
      | inr _ => let! _ := deleteLeaderKey cfg node_ID in ret true
      | inl None => ret true
      | inl (Some leaseID) => after_win cfg node_ID turns leaseID
      end) w in
  elected false (ticks turns) w o w'.
Proof.
  intros Hw Httl Ht. destruct (campaign_wins w Hw Httl) as (l & w1 & E1 & Hl & Hw1 & _ & Ha).
  unfold bind at 1. rewrite E1. unfold after_win.
  unfold bind at 1, updateLeaseExpireTS. unfold bind at 1, modify. unfold bind at 1, modify.
  match goal with |- context [in_office cfg l turns _ ?v] => set (w2 := v) end.
  pose proof (office_elected l turns w2 Hl Hw1 eq_refl Ht) as He.
  destruct (in_office cfg l turns (taking_over cfg node_ID) w2) as [o w']. by apply (elected_before _ _ w w2).
Qed.

(** The logs in etcd ask for single point mode: somebody has led before, and
    among the logs with this node's own its log is the only one of the latest
    term. *)
Definition must_be_alone (leader : Leader) (w : world D) : bool :=
  negb (meta_term (meta leader) =? 0) &&
  (isLatestLog node_ID (logs_of cfg (uploaded cfg node_ID (AgentSpec.own_log w) (etcd w)))).2.

(** C8. Failover ends: an agent that reads that there is no leader, may lead and
    was not the former master, whose requests are answered and which nobody but
    the clock and its keep-alive goroutine disturbs, ends the iteration of its
    loop in office.  It does so in single point mode exactly if somebody has
    led before and the logs in etcd, with its own, ask for it.  The leader key
    holds its ID, in single point mode without a lease, else under a lease that
    etcd has; it has asked its database to accept writes; and if the database
    does, the agent has won the single point transaction, or is a leader,
    writable, that has renewed its lease at every tick, however ticks and
    promotion interleave. *)
Theorem failover_completes (Watch : nat -> Z -> list WatchResponse) (turns : list (turn D)) (fuel : nat) (leader : Leader) (t : Z)
    (w w1 : world D) :
  calm_world vacant w -> LeaderLeaseTTL cfg <= MaxLeaseTTL -> OnlyFollow cfg = false -> Forall working turns ->
  getLeaderAndMyTerm cfg node_ID w = (Ret (inl (leader, t)), w1) -> name leader = "" ->
  isPreviousMaster node_ID (set_term t (srv w1)) leader = false ->
  let r := leaderLoop_body cfg node_ID Watch turns fuel w in
  elected (must_be_alone leader (with_srv (set_term t) w1)) (ticks turns) w r.1 r.2.
Proof.
  intros Hw Httl Hof Hts Eg Hn Hp. cbn zeta. set (w2 := with_srv (set_term t) w1).
  enough (let '(o, w') := leaderLoop_body cfg node_ID Watch turns fuel w in elected (must_be_alone leader w2) (ticks turns) w o w') as He
    by (by destruct (leaderLoop_body cfg node_ID Watch turns fuel w)). assert (keeps (stays vacant) (getLeaderAndMyTerm cfg node_ID)) as Hg.
  { unfold getLeaderAndMyTerm, commit. repeat keeps_step; auto with moha. apply stays_etcd_call. intros st Hv.
    unfold getLeader_txn. change (Concatenate _) with (Success (getLeader_txn cfg node_ID)). by rewrite get_keys, Txn_gets. }
  specialize (Hg w Hw). rewrite Eg in Hg. cbn [snd] in Hg.
  assert (adds any_event w w2) as Hadd.
  { pose proof (adds_getLeader cfg node_ID any_event w) as Ha. by rewrite Eg in Ha. }
  unfold leaderLoop_body. unfold bind at 1. rewrite Eg. unfold bind at 1, modify. rewrite Hn. cbn [String.eqb negb].
  change (with_srv _ w1) with w2. assert (calm_world vacant w2) as Hw2 by exact Hg.
  unfold loop_campaign. unfold bind at 1, gets at 1. cbn [id].
  assert (isOnlyFollow cfg (srv w2) = false) as -> by (unfold isOnlyFollow; destruct Hw2 as (_ & _ & -> & _); done).
  change (srv w2) with (set_term t (srv w1)). rewrite Hp. unfold must_be_alone.
  destruct (negb (meta_term (meta leader) =? 0)).
  - destruct (preCampaign_ends cfg node_ID eq fuel w2) as (b & w3 & st0 & st1 & E3 & -> & H0 & H1 & Hup); [apply Hw2|..].
    { destruct Hw2 as (-> & _). cbn. lia. }
    { destruct Hw2 as (-> & _). constructor. }
    assert (etcd w3 = uploaded cfg node_ID (AgentSpec.own_log w2) (etcd w2)) as Eu.
    { destruct Hup as [->|[_ Hex]]; [by subst st0|]. destruct Hw2 as (Ho & _). rewrite Ho in Hex. by inversion Hex. }
    rewrite Eu in E3. pose proof (stays_preCampaign fuel w2 Hw2) as Hw3. rewrite E3 in Hw3. cbn [snd] in Hw3.
    assert (adds any_event w w3) as Ha.
    { etrans; [exact Hadd|]. pose proof (adds_preCampaign cfg node_ID any_event fuel false w2) as Hc. by rewrite E3 in Hc. }
    unfold bind at 1. rewrite E3. cbn [andb].
    destruct (isLatestLog node_ID (logs_of cfg (uploaded cfg node_ID (AgentSpec.own_log w2) (etcd w2)))).2.
    + pose proof (single_point_elected fuel (ticks turns) w3 Hw3) as He. destruct (bind _ _ w3). by apply (elected_before _ _ w w3).
    + pose proof (campaign_elected turns w3 Hw3 Httl Hts) as He. destruct (bind _ _ w3). by apply (elected_before _ _ w w3).
  - unfold bind at 1, ret at 1. cbn [andb].
    pose proof (campaign_elected turns w2 Hw2 Httl Hts) as He. destruct (bind _ _ w2). by apply (elected_before _ _ w w2).
Qed.
End Failover.

#[local] Existing Instance list_order.

(** The demonstration agent after the death of a leader of term 4: the keys of
    the election are there, the leader key is not, and another candidate has
    uploaded its log. *)
Definition orphaned : Store :=
  (Client.Put (rootPath demo_cfg) "election/nodes/10.0.0.2:3306" (Marshal_Log (demo_log 5 40)) 0
    (Revoke 1 (Txn (campaign_txn demo_cfg other_id (set_term 3 new_Server) 1) (Grant 10 empty_store).2).2).2).2.

Lemma orphaned_wf : store_wf orphaned.
Proof. apply Put_wf, Revoke_wf, Txn_wf, Grant_wf, empty_store_wf. Qed.

(** Two ticks of the keep-alive goroutine, one of them during the promotion. *)
Definition orphan_turns : list (turn demo_service) :=
  [(pause Second, CaseMain); (pause Second, CaseTick); (pause 0, CaseMain); (pause 0, CaseMain); (pause 0, CaseMain);
   (pause 0, CaseMain); (pause 0, CaseMain); (pause Second, CaseTick)].

Lemma orphan_working : Forall working orphan_turns.
Proof. repeat (constructor; [eexists; auto|]). constructor. Qed.

Definition orphan_round : outcome bool * world demo_service :=
  leaderLoop_body demo_cfg demo_id no_watch orphan_turns 5 (demo_world orphaned []).

Lemma failover_completes_witness :
  orphan_round.1 = Blocked /\ elected demo_cfg demo_id false 2 (demo_world orphaned []) orphan_round.1 orphan_round.2.
Proof.
  split; [vm_compute; reflexivity|].
  assert (match getLeaderAndMyTerm demo_cfg demo_id (demo_world orphaned []) with
          | (Ret (inl (leader, t)), w1) =>
              String.eqb (name leader) "" && negb (isPreviousMaster demo_id (set_term t (srv w1)) leader)
              && negb (must_be_alone demo_cfg demo_id leader (with_srv (set_term t) w1))
          | _ => false
          end = true) as Hl by (vm_compute; reflexivity).
  destruct (getLeaderAndMyTerm demo_cfg demo_id (demo_world orphaned [])) as [[[[leader t]|e]| | |] w1] eqn:E; try discriminate Hl.
  apply andb_true_iff in Hl as ((Hn%String.eqb_eq & Hp%negb_true_iff)%andb_true_iff & Ha%negb_true_iff).
  assert (calm_world (vacant demo_cfg) (demo_world orphaned [])) as Hw.
  { split_and!; [reflexivity..|]. split; [exact orphaned_wf|]. vm_compute. reflexivity. }
  assert (LeaderLeaseTTL demo_cfg <= MaxLeaseTTL) as Httl by (vm_compute; discriminate).
  rewrite <- Ha.
  exact (failover_completes demo_cfg demo_id demo_id_plain no_watch orphan_turns 5 leader t (demo_world orphaned []) w1
           Hw Httl eq_refl orphan_working E Hn Hp).
Defined.
