(* ===== verification/Startup.v ===== *)
(** * Starting an agent: its identity and its connection

    [agent/node.go] gives a node its ID, which names it in every key of the
    cluster: the ID of an earlier start, kept in a file of the data directory,
    or a configured one, or the address of the service.  The operations on
    files are those of [LocalFiles]; what the agent relies on is that a file
    that was written is read back.

    [NewMySQLServiceManager] of [agent/service_manager.go] tries to reach the
    database until a time limit. *)

From stdpp Require Import gmap strings list.
From Stdlib Require Import ZArith Lia.
From S2P Require Import Prelude GoStrings Etcd World ServiceManager Demo Leader.

(** ** The data directory *)

(** [Stat] answers whether the path is a directory; [Flock] is [TryLockFile]. *)
Class LocalFiles (F : Type) := {
  MkdirAll : string -> F -> option error * F;
  Stat : string -> F -> result bool;
  ReadFile : string -> F -> result string;
  WriteFile : string -> string -> F -> option error * F;
  Flock : string -> F -> option error * F
}.

Class LocalFilesOk (F : Type) `{LocalFiles F} := {
  written_read (path text : string) (f f' : F) :
    WriteFile path text f = (None, f') -> Stat path f' = inl false /\ ReadFile path f' = inl text;
  mkdir_keeps (dir path : string) (f f' : F) (e : option error) :
    MkdirAll dir f = (e, f') -> Stat path f = inl false ->
    Stat path f' = inl false /\ ReadFile path f' = ReadFile path f;
  flock_keeps (lock path : string) (f f' : F) (e : option error) :
    Flock lock f = (e, f') -> Stat path f = inl false ->
    Stat path f' = inl false /\ ReadFile path f' = ReadFile path f
}.

Definition nodeIDFile : string := ".node".
Definition lockFile : string := ".lock".

(** The fields of [agentNode] that [NewAgentNode] fills. *)
Record agentNode := mkAgentNode {
  node_id : string;
  internalHost : string;
  externalHost : string;
  registerTTL : Z
}.

Section Identity.
Context {F : Type} `{LocalFiles F}.

Definition checkFileExist (fpath : string) (f : F) : result string :=
  match Stat fpath f with
  | inr e => inr e
  | inl true => inr (Errorf "is a directory, not a file")
  | inl false => inl fpath
  end.

(** A missing file is the error [errors.IsNotFound] recognizes. *)
Definition readLocalNodeID (dataDir : string) (f : F) : result string :=
  let nodeIDPath := path_Join [dataDir; nodeIDFile] in
  match checkFileExist nodeIDPath f with
  | inr _ => inr NotFoundf
  | inl _ => ReadFile nodeIDPath f
  end.

Definition generateLocalNodeID (cfg : Config) (f : F) : result string * F :=
  match MkdirAll (DataDir cfg) f with
  | (Some e, f1) => (inr e, f1)
  | (None, f1) =>
      match WriteFile (path_Join [DataDir cfg; nodeIDFile]) (ExternalServiceHost cfg) f1 with
      | (Some e, f2) => (inr e, f2)
      | (None, f2) => (inl (ExternalServiceHost cfg), f2)
      end
  end.

Definition checkExclusive (dataDir : string) (f : F) : option error * F :=
  match MkdirAll dataDir f with
  | (Some e, f1) => (Some e, f1)
  | (None, f1) => Flock (path_Join [dataDir; lockFile]) f1
  end.

(** [NewAgentNode]; [client] is the error of the URLs or of the etcd client. *)
Definition NewAgentNode (cfg : Config) (client : option error) (f : F) : result agentNode * F :=
  match checkExclusive (DataDir cfg) f with
  | (Some e, f1) => (inr e, f1)
  | (None, f1) =>
      match client with
      | Some e => (inr e, f1)
      | None =>
          let '(nodeID, f2) :=
            match readLocalNodeID (DataDir cfg) f1 with
            | inl nodeID => (inl nodeID, f1)
            | inr err =>
                if negb (String.eqb (NodeID cfg) "") then (inl (NodeID cfg), f1)
                else if IsNotFound err then generateLocalNodeID cfg f1
                else (inr err, f1)
            end in
          (match nodeID with
           | inr e => inr e
           | inl id => inl (mkAgentNode id (InternalServiceHost cfg) (ExternalServiceHost cfg) (RegisterTTL cfg))
           end, f2)
      end
  end.

Context `{!LocalFilesOk F}.

Lemma readLocalNodeID_inl (dataDir id : string) (f : F) :
  readLocalNodeID dataDir f = inl id ->
  Stat (path_Join [dataDir; nodeIDFile]) f = inl false /\ ReadFile (path_Join [dataDir; nodeIDFile]) f = inl id.
Proof.
  unfold readLocalNodeID, checkFileExist. destruct (Stat _ f) as [[]|]; done.
Qed.

Lemma readLocalNodeID_stored (dataDir id : string) (f : F) :
  Stat (path_Join [dataDir; nodeIDFile]) f = inl false -> ReadFile (path_Join [dataDir; nodeIDFile]) f = inl id ->
  readLocalNodeID dataDir f = inl id.
Proof. intros H1 H2. unfold readLocalNodeID, checkFileExist. by rewrite H1, H2. Qed.

(** Taking the lock keeps a stored ID. *)
Lemma checkExclusive_keeps (dataDir id : string) (f f' : F) (e : option error) :
  checkExclusive dataDir f = (e, f') -> readLocalNodeID dataDir f = inl id -> readLocalNodeID dataDir f' = inl id.
Proof.
  unfold checkExclusive. intros E [H1 H2]%readLocalNodeID_inl. destruct (MkdirAll dataDir f) as [[e1|] f1] eqn:Em.
  - injection E as <- <-. edestruct mkdir_keeps as [S1 R1]; [exact Em|exact H1|].
    apply readLocalNodeID_stored; [done|]. by rewrite R1.
  - edestruct mkdir_keeps as [S1 R1]; [exact Em|exact H1|].
    edestruct flock_keeps as [S2 R2]; [exact E|exact S1|].
    apply readLocalNodeID_stored; [done|]. by rewrite R2, R1.
Qed.

(** C31. An agent keeps its identity: when a start without a configured ID gave
    the node an ID, the file has it, and every later start on the same data
    directory that gets its lock and its client gives the same ID, whatever
    the address of the service or a configured ID is by then. *)
Theorem node_ID_stable (cfg cfg' : Config) (c : option error) (f f' : F) (n : agentNode) :
  NodeID cfg = "" -> NewAgentNode cfg c f = (inl n, f') -> DataDir cfg' = DataDir cfg ->
  readLocalNodeID (DataDir cfg) f' = inl (node_id n) /\
  forall n' f'', NewAgentNode cfg' None f' = (inl n', f'') -> node_id n' = node_id n.
Proof.
  intros Hid E Hdir.
  assert (readLocalNodeID (DataDir cfg) f' = inl (node_id n)) as Hr.
  { revert E. unfold NewAgentNode. destruct (checkExclusive _ f) as [[e|] f1]; [done|]. destruct c; [done|].
    destruct (readLocalNodeID (DataDir cfg) f1) as [id|e] eqn:Er; [by intros [= <- <-]|].
    rewrite Hid. cbn [String.eqb negb]. destruct (IsNotFound e); [|done]. unfold generateLocalNodeID.
    destruct (MkdirAll _ f1) as [[e1|] f2]; [done|]. destruct (WriteFile _ _ f2) as [[e2|] f3] eqn:Ew; [done|].
    intros [= <- <-]. apply written_read in Ew as [H1 H2]. by apply readLocalNodeID_stored. }
  split; [done|]. intros n' f''. unfold NewAgentNode. rewrite Hdir.
  destruct (checkExclusive (DataDir cfg) f') as [[e|] f1] eqn:Ec; [done|].
  rewrite (checkExclusive_keeps _ _ _ _ _ Ec Hr). by intros [= <- <-].
Qed.
End Identity.

(** ** The connection loops

    [NewMySQLServiceManager] and [NewPostgreSQLServiceManager] have the same
    loop, from time [now]: after the limit the error, else an attempt and,
    when it fails, a pause.  [None] when the attempts run out. *)
Section Loop.
Context {A R : Type} (expired : error) (try : A -> option R) (cost : A -> Z).

Fixpoint connect (timeout startTime now : Z) (attempts : list A) : option (result R) * Z :=
  match attempts with
  | [] => (None, now)
  | a :: rest =>
      if timeout <? now - startTime then (Some (inr expired), now)
      else
        match try a with
        | None => connect timeout startTime (now + cost a + 100 * Millisecond) rest
        | Some r => (Some (inl r), now + cost a)
        end
  end.

Lemma connect_spec (timeout start now c : Z) (attempts : list A) :
  Forall (fun a => 0 <= cost a <= c) attempts -> attempts <> [] ->
  timeout - (now - start) < (Z.of_nat (length attempts) - 1) * (100 * Millisecond) ->
  now - start <= timeout + c + 100 * Millisecond ->
  exists r T, connect timeout start now attempts = (Some r, T) /\
    T - start <= timeout + c + 100 * Millisecond /\
    match r with
    | inl m => exists a, a ∈ attempts /\ try a = Some m
    | inr _ => timeout < T - start
    end.
Proof.
  intros Hc. revert now. assert (Hms : 100 * Millisecond = 100000000) by reflexivity. rewrite Hms.
  induction Hc as [|a rest Ha _ IH]; intros now Hne Hlen Hnow; [done|]. cbn [length] in Hlen.
  cbn [connect]. rewrite Hms. destruct (Z.ltb_spec timeout (now - start)) as [Hlt|Hge]; [eauto 10|].
  destruct (try a) as [q|] eqn:Eq.
  - eexists _, _. split; [done|]. split; [lia|]. exists a. split; [left|done].
  - destruct (IH (now + cost a + 100000000)) as (r & T & E & HT & Hr); [|lia|lia|].
    { intros ->. cbn in Hlen. lia. }
    exists r, T. split_and!; [done|done|]. destruct r as [m|e]; [|done].
    destruct Hr as (a0 & Hin & Hr). exists a0. split; [by right|done].
Qed.

Lemma connect_returns (timeout now c : Z) (attempts : list A) :
  0 <= timeout -> Forall (fun a => 0 <= cost a <= c) attempts ->
  timeout < (Z.of_nat (length attempts) - 1) * (100 * Millisecond) ->
  exists r T, connect timeout now now attempts = (Some r, T) /\
    T - now <= timeout + c + 100 * Millisecond /\
    match r with
    | inl m => exists a, a ∈ attempts /\ try a = Some m
    | inr _ => timeout < T - now
    end.
Proof.
  intros Ht Hc Hlen. assert (Hms : 100 * Millisecond = 100000000) by reflexivity.
  destruct attempts as [|a rest]; [cbn [length] in Hlen; lia|].
  assert (0 <= c) by (apply Forall_cons in Hc as [? _]; lia).
  apply connect_spec; [done|done|lia|lia].
Qed.
End Loop.

(** ** The connection to MySQL *)
Section Connect.
Context {Q : Type} `{SQLServer Q}.

(** [DBConfig] of [pkg/types]. *)
Record DBConfig := mkDBConfig {
  db_Host : string;
  db_User : string;
  db_Password : string;
  db_Port : Z;
  db_Timeout : string;
  db_ReplicationUser : string;
  db_ReplicationPassword : string;
  db_ReplicationNet : string
}.

Definition dsn (cfg : DBConfig) : string :=
  db_User cfg +:+ ":" +:+ db_Password cfg +:+ "@tcp(" +:+ db_Host cfg +:+ ":" +:+ FormatInt (db_Port cfg)
  +:+ ")/?charset=utf8&interpolateParams=true&readTimeout=" +:+ db_Timeout cfg +:+ "&writeTimeout=" +:+
  db_Timeout cfg +:+ "&timeout=" +:+ db_Timeout cfg.

(** One attempt: what [sql.Open] answers for a name, and how long opening and
    the test query take. *)
Record attempt := mkAttempt { at_open : string -> result Q; at_cost : Z }.

Definition CreateDB (cfg : DBConfig) (a : attempt) : result Q := at_open a (dsn cfg).

(** The database answers [SELECT 1]. *)
Definition reached (cfg : DBConfig) (a : attempt) : option Q :=
  match CreateDB cfg a with
  | inr _ => None
  | inl q => match Mysql.Select1 q with (None, q') => Some q' | (Some _, _) => None end
  end.

(** The manager for a database that was reached; it takes it as writable. *)
Definition mysql_manager (cfg : DBConfig) (q : Q) : MySQL.mysqlServiceManager Q :=
  MySQL.mkMySQL q (db_ReplicationNet cfg) (db_ReplicationUser cfg) (db_ReplicationPassword cfg) false.

Definition NewMySQLServiceManager (cfg : DBConfig) (timeout now : Z) (attempts : list attempt)
    : option (result (MySQL.mysqlServiceManager Q)) * Z :=
  connect (Errorf "timeout to connect to MySQL") (fun a => mysql_manager cfg <$> reached cfg a) at_cost
    timeout now now attempts.

(** Connecting ends: if no attempt takes longer than [c], then
    [NewMySQLServiceManager] returns at most [c] and one pause after the time
    limit, however the attempts turn out; it returns a service manager only
    for a database that answered the test query (and takes it as writable,
    which is why [Start] stops writes first), and the error only after the
    time limit. *)
Theorem NewMySQLServiceManager_returns (cfg : DBConfig) (timeout now c : Z) (attempts : list attempt) :
  0 <= timeout -> Forall (fun a => 0 <= at_cost a <= c) attempts ->
  timeout < (Z.of_nat (length attempts) - 1) * (100 * Millisecond) ->
  exists r T, NewMySQLServiceManager cfg timeout now attempts = (Some r, T) /\
    T - now <= timeout + c + 100 * Millisecond /\
    match r with
    | inl m => exists a, a ∈ attempts /\ reached cfg a = Some (MySQL.db m) /\ MySQL.readonly m = false
    | inr _ => timeout < T - now
    end.
Proof.
  intros Ht Hc Hlen.
  destruct (connect_returns (Errorf "timeout to connect to MySQL") (fun a => mysql_manager cfg <$> reached cfg a)
              at_cost timeout now c attempts Ht Hc Hlen) as (r & T & E & HT & Hr).
  exists r, T. split_and!; [done..|]. destruct r as [m|e]; [|done].
  destruct Hr as (a & Ha & (q & Hq & ->)%fmap_Some). by exists a.
Qed.
End Connect.

(** ** Concrete starts *)

(** A disk with one optional file per path, and no errors. *)
Abbreviation disk := (gmap string string).

#[local] Instance disk_files : LocalFiles disk := {|
  MkdirAll _ f := (None, f);
  Stat path f := match f !! path with Some _ => inl false | None => inr ErrNotExist end;
  ReadFile path f := match f !! path with Some t => inl t | None => inr ErrNotExist end;
  WriteFile path text f := (None, <[path := text]> f);
  Flock _ f := (None, f)
|}.

#[local] Instance disk_ok : LocalFilesOk disk.
Proof.
  split; cbn.
  - intros path text f f' [= <-]. by rewrite lookup_insert_eq.
  - intros dir path f f' e [= _ <-]. auto.
  - intros lock path f f' e [= _ <-]. auto.
Qed.

Definition moved_cfg : Config :=
  mkConfig "orders" 10 3 "/data" "other" false "/dbproxy/" "root" 5 "mysql"
           "10.0.0.9:3306" "10.0.0.9:3306" (500 * Millisecond).

Lemma node_ID_stable_witness :
  exists n n' : agentNode, (NewAgentNode demo_cfg None (∅ : disk)).1 = inl n /\
    (NewAgentNode moved_cfg None (NewAgentNode demo_cfg None (∅ : disk)).2).1 = inl n' /\
    node_id n' = node_id n.
Proof.
  destruct (NewAgentNode demo_cfg None (∅ : disk)) as [r f'] eqn:E.
  destruct r as [n|e]; [|vm_compute in E; discriminate E].
  destruct (NewAgentNode moved_cfg None f') as [r2 f2] eqn:E2.
  destruct r2 as [n'|e]; [|exfalso; revert E2; injection E as _ <-; vm_compute; discriminate].
  exists n, n'. split; [reflexivity|]. split; [exact (f_equal fst E2)|].
  exact (proj2 (node_ID_stable demo_cfg moved_cfg None ∅ f' n eq_refl E eq_refl) n' f2 E2).
Defined.

(** The third attempt finds the database. *)
Definition demo_attempts : list (@attempt ToyMySQL.server) :=
  let up := mkAttempt (fun _ => inl (MySQL.db (demo_db 0))) 0 in
  let down := mkAttempt (fun _ => inr ErrBadConn) 0 in
  [down; down; up; up; up].

Definition demo_dbconfig : DBConfig := mkDBConfig "10.0.0.1" "agent" "pw" 3306 "1s" "repl" "pw" "%".

Lemma NewMySQLServiceManager_witness :
  exists m T, NewMySQLServiceManager demo_dbconfig (300 * Millisecond) 0 demo_attempts = (Some (inl m), T) /\
    T - 0 <= 300 * Millisecond + 0 + 100 * Millisecond.
Proof.
  destruct (NewMySQLServiceManager_returns demo_dbconfig (300 * Millisecond) 0 0 demo_attempts)
    as (r & T & E & HT & _).
  - vm_compute. discriminate.
  - repeat constructor; vm_compute; discriminate.
  - vm_compute. reflexivity.
  - destruct r as [m|e]; [exists m, T; split; [exact E|exact HT]|vm_compute in E; discriminate E].
Defined.
