(* ===== verification/Flags.v ===== *)
(** * Flags and configuration files: package [flag], [agent/config.go], [checker/config.go]

    The first part is [FlagSet.Parse] of the standard library with the kinds
    of flags the sources register.  A configuration is parsed twice, before
    and after its file is read; the theorem says what the values of the flags
    are in the end: what the command line gives, else what the file gives,
    else the default.  The TOML decoder is an argument. *)

From stdpp Require Import gmap strings list.
From Stdlib Require Import ZArith Lia Ascii.
From S2P Require Import Prelude GoStrings Urls World Startup.

Module Flags.

(** ** Values *)

Inductive kind := KString | KInt | KBool.
Inductive value := VString (s : string) | VInt (z : Z) | VBool (b : bool).

Definition digit_value (a : ascii) : Z :=
  if is_digit a then Z.of_nat (nat_of_ascii a) - 48
  else if in_range "a" "z" a then Z.of_nat (nat_of_ascii a) - 87
  else if in_range "A" "Z" a then Z.of_nat (nat_of_ascii a) - 55
  else 255.

Fixpoint parse_base (base acc : Z) (s : string) : option Z :=
  match s with
  | "" => Some acc
  | String a s' => if digit_value a <? base then parse_base base (acc * base + digit_value a) s' else None
  end.

(** [strconv.ParseUint(s, 0, 64)] before its range check: octal after a 0,
    hexadecimal after 0x. *)
Definition parse_unsigned (s : string) : option Z :=
  match s with
  | "" => None
  | String "0" (String x h) =>
      if in_cutset x "xX" then (if String.eqb h "" then None else parse_base 16 0 h)
      else parse_base 8 0 (String x h)
  | _ => parse_base 10 0 s
  end.

(** [strconv.ParseInt(s, 0, strconv.IntSize)] *)
Definition parse_int (s : string) : option Z :=
  let '(neg, digits) := match s with
                        | String "+" t => (false, t)
                        | String "-" t => (true, t)
                        | _ => (false, s)
                        end in
  match parse_unsigned digits with
  | None => None
  | Some n => let z := if neg then - n else n in
              if (- two63 <=? z) && (z <? two63) then Some z else None
  end.

(** [strconv.ParseBool] *)
Definition parse_bool (s : string) : option bool :=
  if bool_decide (s ∈ ["1"; "t"; "T"; "TRUE"; "true"; "True"]) then Some true
  else if bool_decide (s ∈ ["0"; "f"; "F"; "FALSE"; "false"; "False"]) then Some false
  else None.

Definition value_kind (v : value) : kind :=
  match v with VString _ => KString | VInt _ => KInt | VBool _ => KBool end.

Definition parse_value (k : kind) (s : string) : option value :=
  match k with
  | KString => Some (VString s)
  | KInt => VInt <$> parse_int s
  | KBool => VBool <$> parse_bool s
  end.

Lemma parse_value_kind (k : kind) (s : string) (v : value) : parse_value k s = Some v -> value_kind v = k.
Proof. destruct k; cbn; [by intros [= <-]|intros (x & _ & ->)%fmap_Some; done..]. Qed.

(** ** Flag sets *)

(** A flag of a configuration [C]: [fs.StringVar(&cfg.X, ...)] and the like. *)
Record flag (C : Type) := mkFlag {
  f_name : string;
  f_kind : kind;
  f_get : C -> value;
  f_set : value -> C -> C
}.
Arguments mkFlag {C}. Arguments f_name {C}. Arguments f_kind {C}. Arguments f_get {C}. Arguments f_set {C}.

Inductive flag_error := ErrHelp | ErrFlag.

(** An argument: not a flag, the end of the flags, or the text of one. *)
Inductive argument := NotFlag | Terminator | FlagText (name : string).

Definition argument_of (s : string) : argument :=
  match s with
  | String a (String b t) =>
      if negb (Ascii.eqb a "-") then NotFlag
      else if Ascii.eqb b "-" then (if String.eqb t "" then Terminator else FlagText t)
      else FlagText (String b t)
  | _ => NotFlag
  end.

Definition bad_name (name : string) : bool :=
  match name with
  | "" => true
  | String a _ => Ascii.eqb a "-" || Ascii.eqb a "="
  end.

(** [name=value]; the first byte of a name is never the sign. *)
Definition split_value (name : string) : string * option string :=
  match name with
  | "" => ("", None)
  | String a t => match cut "=" t with
                  | Some (p, v) => (String a p, Some v)
                  | None => (name, None)
                  end
  end.

Section FlagSet.
Context {C : Type} (flags : list (flag C)).

Definition find_flag (name : string) : option (flag C) := snd <$> list_find (fun f => f_name f = name) flags.

Definition is_bool (f : flag C) : bool := match f_kind f with KBool => true | _ => false end.

(** [FlagSet.Parse] with [parseOne]: the arguments that are left, and the
    configuration with the flags set so far. *)
Fixpoint parse (args : list string) (c : C) : (list string + flag_error) * C :=
  match args with
  | [] => (inl [], c)
  | s :: rest =>
      match argument_of s with
      | NotFlag => (inl args, c)
      | Terminator => (inl rest, c)
      | FlagText text =>
          if bad_name text then (inr ErrFlag, c)
          else
            let '(name, given) := split_value text in
            match find_flag name with
            | None => (inr (if bool_decide (name = "help" \/ name = "h") then ErrHelp else ErrFlag), c)
            | Some f =>
                if is_bool f then
                  match parse_value KBool (default "true" given) with
                  | None => (inr ErrFlag, c)
                  | Some v => parse rest (f_set f v c)
                  end
                else
                  match given with
                  | Some t => match parse_value (f_kind f) t with
                              | None => (inr ErrFlag, c)
                              | Some v => parse rest (f_set f v c)
                              end
                  | None =>
                      match rest with
                      | [] => (inr ErrFlag, c)
                      | t :: rest' => match parse_value (f_kind f) t with
                                      | None => (inr ErrFlag, c)
                                      | Some v => parse rest' (f_set f v c)
                                      end
                      end
                  end
            end
      end
  end.

(** ** [Config.Parse] *)

Context (config_file : C -> string) (print_version : C -> bool) (DecodeFile : string -> C -> result C).

Definition configFromFile (path : string) (c : C) : result C := DecodeFile path c.

Definition Parse (args : list string) (c : C) : outcome (result C) :=
  match parse args c with
  | (inr ErrHelp, _) => Exited 0
  | (inr ErrFlag, _) => Exited 2
  | (inl _, c1) =>
      if print_version c1 then Exited 0
      else
        match (if negb (String.eqb (config_file c1) "") then configFromFile (config_file c1) c1 else inl c1) with
        | inr e => Ret (inr e)
        | inl c2 =>
            match parse args c2 with
            | (inl (_ :: _), _) => Ret (inr (Errorf "not a valid flag"))
            | (_, c3) => Ret (inl c3)
            end
        end
  end.

(** ** The assignments of a command line *)

(** What the arguments set, in order; it does not depend on the configuration. *)
Definition assign (c : C) (asg : list (flag C * value)) : C := foldl (fun c '(f, v) => f_set f v c) c asg.

Lemma parse_assigns (args : list string) :
  exists r asg, Forall (fun '(f, v) => f ∈ flags /\ value_kind v = f_kind f) asg /\ forall c, parse args c = (r, assign c asg).
Proof.
  induction args as [args IH] using (induction_ltof1 _ (@length string)). unfold ltof in IH.
  destruct args as [|s rest]; [by exists (inl []), []|]. cbn [parse].
  destruct (argument_of s) as [| |text]; [by eexists _, []..|]. destruct (bad_name text); [by eexists _, []|].
  destruct (split_value text) as [name given]. destruct (find_flag name) as [f|] eqn:Ef; [|by eexists _, []].
  assert (f ∈ flags) as Hf.
  { unfold find_flag in Ef. apply fmap_Some in Ef as ([i g] & Hl & ->).
    apply list_find_Some in Hl as (Hi & _ & _). by apply list_elem_of_lookup_2 in Hi. }
  assert (forall v args', value_kind v = f_kind f -> (length args' < length (s :: rest))%nat -> exists r asg,
    Forall (fun '(f, v) => f ∈ flags /\ value_kind v = f_kind f) asg /\ forall c, parse args' (f_set f v c) = (r, assign c asg)) as Hstep.
  { intros v args' Hk Hl. destruct (IH args' Hl) as (r & asg & Ha & He). exists r, ((f, v) :: asg).
    split; [by constructor|]. intros c. by rewrite He. }
  destruct (is_bool f) eqn:Eb.
  - destruct (parse_value KBool (default "true" given)) as [v|] eqn:Ev; [|by eexists _, []].
    apply Hstep; [|cbn; lia]. apply parse_value_kind in Ev as ->. unfold is_bool in Eb. by destruct (f_kind f).
  - destruct given as [t|].
    + destruct (parse_value (f_kind f) t) as [v|] eqn:Ev; [|by eexists _, []].
      apply Hstep; [by eapply parse_value_kind|cbn; lia].
    + destruct rest as [|t rest']; [by eexists _, []|].
      destruct (parse_value (f_kind f) t) as [v|] eqn:Ev; [|by eexists _, []].
      apply Hstep; [by eapply parse_value_kind|cbn; lia].
Qed.

(** The flags are the fields of a record. *)
Record lawful : Prop := {
  set_get : forall f v c, f ∈ flags -> value_kind v = f_kind f -> f_get f (f_set f v c) = v;
  set_other : forall f g v c, f ∈ flags -> g ∈ flags -> f_name f <> f_name g -> f_get f (f_set g v c) = f_get f c;
  same_name : forall f g, f ∈ flags -> g ∈ flags -> f_name f = f_name g -> f = g
}.

(** The last value that a list of assignments gives to a flag. *)
Definition given (f : flag C) (asg : list (flag C * value)) : option value :=
  last (omap (fun '(g, v) => if bool_decide (f_name g = f_name f) then Some v else None) asg).

Lemma assign_get (f : flag C) (asg : list (flag C * value)) (c : C) :
  lawful -> f ∈ flags -> Forall (fun '(g, v) => g ∈ flags /\ value_kind v = f_kind g) asg ->
  f_get f (assign c asg) = default (f_get f c) (given f asg).
Proof.
  intros HL Hf Ha. unfold given. revert c. induction Ha as [|[g v] asg [Hg Hk] Ha IH]; intros c; [done|].
  change (assign c ((g, v) :: asg)) with (assign (f_set g v c) asg). rewrite IH. cbn [omap list_omap].
  case_bool_decide as Hn.
  - apply (same_name HL) in Hn as ->; [|done..]. rewrite (set_get HL) by done.
    rewrite last_cons. by destruct (last _).
  - rewrite (set_other HL) by (done || congruence). done.
Qed.

Lemma Parse_precedence (args : list string) (c0 c : C) :
  lawful -> Parse args c0 = Ret (inl c) ->
  exists asg c2, (forall c', parse args c' = (inl [], assign c' asg)) /\
    (let c1 := assign c0 asg in
     if String.eqb (config_file c1) "" then c2 = c1 else DecodeFile (config_file c1) c1 = inl c2) /\
    forall f, f ∈ flags -> f_get f c = default (f_get f c2) (given f asg) /\
      (config_file (assign c0 asg) = "" -> f_get f c = default (f_get f c0) (given f asg)).
Proof.
  intros HL. destruct (parse_assigns args) as (r & asg & Ha & He). unfold Parse. rewrite He.
  destruct r as [rest|[]]; [|done..]. destruct (print_version _); [done|].
  destruct (if negb _ then _ else _) as [c2|e] eqn:E2; [|done]. rewrite He.
  destruct rest as [|x rest]; [|done]. intros [= <-]. exists asg, c2. split_and!; [done| |].
  - unfold configFromFile in E2. cbn. destruct (String.eqb _ ""); cbn in E2; congruence.
  - intros f Hf. rewrite (assign_get f asg c2 HL Hf Ha). split; [done|]. intros Hfile.
    rewrite Hfile in E2. cbn in E2. injection E2 as <-. rewrite (assign_get f asg c0 HL Hf Ha).
    by destruct (given f asg).
Qed.
End FlagSet.

(** Flags of the three kinds, from the field and its setter. *)
Definition str_flag {C} (name : string) (get : C -> string) (put : string -> C -> C) : flag C :=
  mkFlag name KString (fun c => VString (get c)) (fun v c => match v with VString s => put s c | _ => c end).
Definition int_flag {C} (name : string) (get : C -> Z) (put : Z -> C -> C) : flag C :=
  mkFlag name KInt (fun c => VInt (get c)) (fun v c => match v with VInt z => put z c | _ => c end).
Definition bool_flag {C} (name : string) (get : C -> bool) (put : bool -> C -> C) : flag C :=
  mkFlag name KBool (fun c => VBool (get c)) (fun v c => match v with VBool b => put b c | _ => c end).

Ltac each_flag H := repeat (apply elem_of_cons in H as [->|H]); [..|by apply elem_of_nil in H].
Ltac prove_lawful :=
  split;
  [ intros f v c Hf; each_flag Hf; by destruct v
  | intros f g v c Hf Hg; each_flag Hf; each_flag Hg; by destruct v
  | intros f g Hf Hg; each_flag Hf; each_flag Hg; done ].

(** ** The agent *)
Module Agent.

Record Config := mkConfig {
  ClusterName : string;
  LeaderLeaseTTL : Z;
  ShutdownThreshold : Z;
  DataDir : string;
  NodeID : string;
  ListenAddr : string;
  OnlyFollow : bool;
  EtcdURLs : string;
  EtcdDialTimeout : Z;
  RefreshInterval : Z;
  RegisterTTL : Z;
  EtcdRootPath : string;
  EtcdUsername : string;
  EtcdPassword : string;
  LogLevel : string;
  LogFile : string;
  ErrorLog : string;
  LogMaxSize : Z;
  LogMaxDays : Z;
  LogCompress : bool;
  ServiceType : string;
  DBConfig : Startup.DBConfig;
  LockTTL : Z;
  InternalServiceHost : string;
  ExternalServiceHost : string;
  ForkProcessFile : string;
  ForkProcessArgs : list string;
  ForkProcessWaitSecond : Z;
  CampaignWaitTime : Z;
  fd : Z;
  configFile : string;
  printVersion : bool
}.

(** One setter per flag variable. *)
Definition set_DataDir (v : string) (c : Config) : Config :=
  mkConfig (ClusterName c) (LeaderLeaseTTL c) (ShutdownThreshold c) v (NodeID c) (ListenAddr c) (OnlyFollow c)
    (EtcdURLs c) (EtcdDialTimeout c) (RefreshInterval c) (RegisterTTL c) (EtcdRootPath c) (EtcdUsername c)
    (EtcdPassword c) (LogLevel c) (LogFile c) (ErrorLog c) (LogMaxSize c) (LogMaxDays c) (LogCompress c)
    (ServiceType c) (DBConfig c) (LockTTL c) (InternalServiceHost c) (ExternalServiceHost c)
    (ForkProcessFile c) (ForkProcessArgs c) (ForkProcessWaitSecond c) (CampaignWaitTime c) (fd c)
    (configFile c) (printVersion c).
Definition set_NodeID (v : string) (c : Config) : Config :=
  mkConfig (ClusterName c) (LeaderLeaseTTL c) (ShutdownThreshold c) (DataDir c) v (ListenAddr c)
    (OnlyFollow c) (EtcdURLs c) (EtcdDialTimeout c) (RefreshInterval c) (RegisterTTL c) (EtcdRootPath c)
    (EtcdUsername c) (EtcdPassword c) (LogLevel c) (LogFile c) (ErrorLog c) (LogMaxSize c) (LogMaxDays c)
    (LogCompress c) (ServiceType c) (DBConfig c) (LockTTL c) (InternalServiceHost c) (ExternalServiceHost c)
    (ForkProcessFile c) (ForkProcessArgs c) (ForkProcessWaitSecond c) (CampaignWaitTime c) (fd c)
    (configFile c) (printVersion c).
Definition set_ListenAddr (v : string) (c : Config) : Config :=
  mkConfig (ClusterName c) (LeaderLeaseTTL c) (ShutdownThreshold c) (DataDir c) (NodeID c) v (OnlyFollow c)
    (EtcdURLs c) (EtcdDialTimeout c) (RefreshInterval c) (RegisterTTL c) (EtcdRootPath c) (EtcdUsername c)
    (EtcdPassword c) (LogLevel c) (LogFile c) (ErrorLog c) (LogMaxSize c) (LogMaxDays c) (LogCompress c)
    (ServiceType c) (DBConfig c) (LockTTL c) (InternalServiceHost c) (ExternalServiceHost c)
    (ForkProcessFile c) (ForkProcessArgs c) (ForkProcessWaitSecond c) (CampaignWaitTime c) (fd c)
    (configFile c) (printVersion c).
Definition set_EtcdURLs (v : string) (c : Config) : Config :=
  mkConfig (ClusterName c) (LeaderLeaseTTL c) (ShutdownThreshold c) (DataDir c) (NodeID c) (ListenAddr c)
    (OnlyFollow c) v (EtcdDialTimeout c) (RefreshInterval c) (RegisterTTL c) (EtcdRootPath c) (EtcdUsername c)
    (EtcdPassword c) (LogLevel c) (LogFile c) (ErrorLog c) (LogMaxSize c) (LogMaxDays c) (LogCompress c)
    (ServiceType c) (DBConfig c) (LockTTL c) (InternalServiceHost c) (ExternalServiceHost c)
    (ForkProcessFile c) (ForkProcessArgs c) (ForkProcessWaitSecond c) (CampaignWaitTime c) (fd c)
    (configFile c) (printVersion c).
Definition set_RefreshInterval (v : Z) (c : Config) : Config :=
  mkConfig (ClusterName c) (LeaderLeaseTTL c) (ShutdownThreshold c) (DataDir c) (NodeID c) (ListenAddr c)
    (OnlyFollow c) (EtcdURLs c) (EtcdDialTimeout c) v (RegisterTTL c) (EtcdRootPath c) (EtcdUsername c)
    (EtcdPassword c) (LogLevel c) (LogFile c) (ErrorLog c) (LogMaxSize c) (LogMaxDays c) (LogCompress c)
    (ServiceType c) (DBConfig c) (LockTTL c) (InternalServiceHost c) (ExternalServiceHost c)
    (ForkProcessFile c) (ForkProcessArgs c) (ForkProcessWaitSecond c) (CampaignWaitTime c) (fd c)
    (configFile c) (printVersion c).
Definition set_RegisterTTL (v : Z) (c : Config) : Config :=
  mkConfig (ClusterName c) (LeaderLeaseTTL c) (ShutdownThreshold c) (DataDir c) (NodeID c) (ListenAddr c)
    (OnlyFollow c) (EtcdURLs c) (EtcdDialTimeout c) (RefreshInterval c) v (EtcdRootPath c) (EtcdUsername c)
    (EtcdPassword c) (LogLevel c) (LogFile c) (ErrorLog c) (LogMaxSize c) (LogMaxDays c) (LogCompress c)
    (ServiceType c) (DBConfig c) (LockTTL c) (InternalServiceHost c) (ExternalServiceHost c)
    (ForkProcessFile c) (ForkProcessArgs c) (ForkProcessWaitSecond c) (CampaignWaitTime c) (fd c)
    (configFile c) (printVersion c).
Definition set_LogLevel (v : string) (c : Config) : Config :=
  mkConfig (ClusterName c) (LeaderLeaseTTL c) (ShutdownThreshold c) (DataDir c) (NodeID c) (ListenAddr c)
    (OnlyFollow c) (EtcdURLs c) (EtcdDialTimeout c) (RefreshInterval c) (RegisterTTL c) (EtcdRootPath c)
    (EtcdUsername c) (EtcdPassword c) v (LogFile c) (ErrorLog c) (LogMaxSize c) (LogMaxDays c) (LogCompress c)
    (ServiceType c) (DBConfig c) (LockTTL c) (InternalServiceHost c) (ExternalServiceHost c)
    (ForkProcessFile c) (ForkProcessArgs c) (ForkProcessWaitSecond c) (CampaignWaitTime c) (fd c)
    (configFile c) (printVersion c).
Definition set_LogFile (v : string) (c : Config) : Config :=
  mkConfig (ClusterName c) (LeaderLeaseTTL c) (ShutdownThreshold c) (DataDir c) (NodeID c) (ListenAddr c)
    (OnlyFollow c) (EtcdURLs c) (EtcdDialTimeout c) (RefreshInterval c) (RegisterTTL c) (EtcdRootPath c)
    (EtcdUsername c) (EtcdPassword c) (LogLevel c) v (ErrorLog c) (LogMaxSize c) (LogMaxDays c)
    (LogCompress c) (ServiceType c) (DBConfig c) (LockTTL c) (InternalServiceHost c) (ExternalServiceHost c)
    (ForkProcessFile c) (ForkProcessArgs c) (ForkProcessWaitSecond c) (CampaignWaitTime c) (fd c)
    (configFile c) (printVersion c).
Definition set_configFile (v : string) (c : Config) : Config :=
  mkConfig (ClusterName c) (LeaderLeaseTTL c) (ShutdownThreshold c) (DataDir c) (NodeID c) (ListenAddr c)
    (OnlyFollow c) (EtcdURLs c) (EtcdDialTimeout c) (RefreshInterval c) (RegisterTTL c) (EtcdRootPath c)
    (EtcdUsername c) (EtcdPassword c) (LogLevel c) (LogFile c) (ErrorLog c) (LogMaxSize c) (LogMaxDays c)
    (LogCompress c) (ServiceType c) (DBConfig c) (LockTTL c) (InternalServiceHost c) (ExternalServiceHost c)
    (ForkProcessFile c) (ForkProcessArgs c) (ForkProcessWaitSecond c) (CampaignWaitTime c) (fd c) v
    (printVersion c).
Definition set_printVersion (v : bool) (c : Config) : Config :=
  mkConfig (ClusterName c) (LeaderLeaseTTL c) (ShutdownThreshold c) (DataDir c) (NodeID c) (ListenAddr c)
    (OnlyFollow c) (EtcdURLs c) (EtcdDialTimeout c) (RefreshInterval c) (RegisterTTL c) (EtcdRootPath c)
    (EtcdUsername c) (EtcdPassword c) (LogLevel c) (LogFile c) (ErrorLog c) (LogMaxSize c) (LogMaxDays c)
    (LogCompress c) (ServiceType c) (DBConfig c) (LockTTL c) (InternalServiceHost c) (ExternalServiceHost c)
    (ForkProcessFile c) (ForkProcessArgs c) (ForkProcessWaitSecond c) (CampaignWaitTime c) (fd c)
    (configFile c) v.
Definition set_fd (v : Z) (c : Config) : Config :=
  mkConfig (ClusterName c) (LeaderLeaseTTL c) (ShutdownThreshold c) (DataDir c) (NodeID c) (ListenAddr c)
    (OnlyFollow c) (EtcdURLs c) (EtcdDialTimeout c) (RefreshInterval c) (RegisterTTL c) (EtcdRootPath c)
    (EtcdUsername c) (EtcdPassword c) (LogLevel c) (LogFile c) (ErrorLog c) (LogMaxSize c) (LogMaxDays c)
    (LogCompress c) (ServiceType c) (DBConfig c) (LockTTL c) (InternalServiceHost c) (ExternalServiceHost c)
    (ForkProcessFile c) (ForkProcessArgs c) (ForkProcessWaitSecond c) (CampaignWaitTime c) v (configFile c)
    (printVersion c).

(** The logger fills the size of its files. *)
Definition set_LogMaxSize (v : Z) (c : Config) : Config :=
  mkConfig (ClusterName c) (LeaderLeaseTTL c) (ShutdownThreshold c) (DataDir c) (NodeID c) (ListenAddr c)
    (OnlyFollow c) (EtcdURLs c) (EtcdDialTimeout c) (RefreshInterval c) (RegisterTTL c) (EtcdRootPath c)
    (EtcdUsername c) (EtcdPassword c) (LogLevel c) (LogFile c) (ErrorLog c) v (LogMaxDays c)
    (LogCompress c) (ServiceType c) (DBConfig c) (LockTTL c) (InternalServiceHost c) (ExternalServiceHost c)
    (ForkProcessFile c) (ForkProcessArgs c) (ForkProcessWaitSecond c) (CampaignWaitTime c) (fd c) (configFile c)
    (printVersion c).

(** The flags of [NewConfig]. *)
Definition flags : list (flag Config) :=
  [str_flag "data-dir" DataDir set_DataDir;
   str_flag "node-id" NodeID set_NodeID;
   str_flag "addr" ListenAddr set_ListenAddr;
   str_flag "etcd-urls" EtcdURLs set_EtcdURLs;
   int_flag "refresh-interval" RefreshInterval set_RefreshInterval;
   int_flag "heartbeat-interval" RegisterTTL set_RegisterTTL;
   str_flag "L" LogLevel set_LogLevel;
   str_flag "log-file" LogFile set_LogFile;
   str_flag "config" configFile set_configFile;
   bool_flag "V" printVersion set_printVersion;
   int_flag "fd" fd set_fd].

(** [NewConfig]: the defaults of the flags, zero values elsewhere. *)
Definition NewConfig : Config :=
  mkConfig "" 0 0 "" "" "127.0.0.1:9527" false "http://127.0.0.1:2379" (5 * Second) 2 30 "" "" "" "info" "" ""
    0 0 false "" (mkDBConfig "" "" "" 0 "" "" "" "") 0 "" "" "" [] 0 (2 * Second) 1 "" false.

Lemma agent_flags_lawful : lawful flags.
Proof. prove_lawful. Qed.

(** [Parse] *)
Definition Parse (DecodeFile : string -> Config -> result Config) (arguments : list string) : outcome (result Config) :=
  Flags.Parse flags configFile printVersion DecodeFile arguments NewConfig.

(** C37. The configuration of an agent that starts: nothing is left on the
    command line; a flag that the command line gives has the last value given
    there; any other flag has the value of the configuration file (whose name
    is the last one given), or without a file its default. *)
Theorem agent_config_precedence (DecodeFile : string -> Config -> result Config) (arguments : list string) (c : Config) :
  Parse DecodeFile arguments = Ret (inl c) ->
  exists asg c2, (forall c', parse flags arguments c' = (inl [], assign c' asg)) /\
    (let c1 := assign NewConfig asg in
     if String.eqb (configFile c1) "" then c2 = c1 else DecodeFile (configFile c1) c1 = inl c2) /\
    forall f, f ∈ flags -> f_get f c = default (f_get f c2) (given f asg) /\
      (configFile (assign NewConfig asg) = "" -> f_get f c = default (f_get f NewConfig) (given f asg)).
Proof. apply Parse_precedence, agent_flags_lawful. Qed.

(** A decoder that sets one field, for an agent started with a file and a flag. *)
Definition toy_decode (_ : string) (c : Config) : result Config :=
  inl (set_ListenAddr "http://127.0.0.1:13306" (set_RefreshInterval 9 c)).

Lemma agent_config_precedence_witness :
  exists c, Parse toy_decode ["-config=agent.toml"; "--refresh-interval"; "0x10"] = Ret (inl c) /\
    exists asg c2, (forall c', parse flags ["-config=agent.toml"; "--refresh-interval"; "0x10"] c' = (inl [], assign c' asg)) /\
      toy_decode "agent.toml" (assign NewConfig asg) = inl c2 /\
      VInt (RefreshInterval c) = default (VInt (RefreshInterval c2))
        (given (int_flag "refresh-interval" RefreshInterval set_RefreshInterval) asg) /\
      RefreshInterval c2 = 9 /\ RefreshInterval c = 16.
Proof.
  eexists. split; [vm_compute; reflexivity|].
  destruct (agent_config_precedence toy_decode ["-config=agent.toml"; "--refresh-interval"; "0x10"] _ eq_refl)
    as (asg & c2 & Hp & Hd & Hf).
  assert (configFile (assign NewConfig asg) = "agent.toml") as Hfile.
  { pose proof (f_equal snd (Hp NewConfig)) as E. cbn [snd] in E. rewrite <- E. reflexivity. }
  cbv zeta in Hd. rewrite Hfile in Hd. cbn [String.eqb Ascii.eqb Bool.eqb] in Hd.
  exists asg, c2. split; [exact Hp|]. split; [exact Hd|]. split.
  - apply (Hf (int_flag "refresh-interval" RefreshInterval set_RefreshInterval)). apply list_elem_of_lookup. by exists 4%nat.
  - injection Hd as <-. split; reflexivity.
Defined.
End Agent.

(** ** The checker *)
Module Checker.

Record Config := mkConfig {
  ClusterName : string;
  EtcdURLs : string;
  EtcdDialTimeout : Z;
  EtcdRootPath : string;
  EtcdUsername : string;
  EtcdPassword : string;
  MaxCounter : Z;
  LogLevel : string;
  LogFile : string;
  LogRotate : string;
  DBConfig : Startup.DBConfig;
  RootUser : string;
  RootPassword : string;
  IDContainerMapping : gmap string string;
  ContainerAZMapping : gmap string string;
  PartitionTemplate : string;
  PartitionType : string;
  ChaosJob : string;
  configFile : string;
  printVersion : bool
}.

(** One setter per flag variable. *)
Definition set_EtcdURLs (v : string) (c : Config) : Config :=
  mkConfig (ClusterName c) v (EtcdDialTimeout c) (EtcdRootPath c) (EtcdUsername c) (EtcdPassword c)
    (MaxCounter c) (LogLevel c) (LogFile c) (LogRotate c) (DBConfig c) (RootUser c) (RootPassword c)
    (IDContainerMapping c) (ContainerAZMapping c) (PartitionTemplate c) (PartitionType c) (ChaosJob c)
    (configFile c) (printVersion c).
Definition set_LogLevel (v : string) (c : Config) : Config :=
  mkConfig (ClusterName c) (EtcdURLs c) (EtcdDialTimeout c) (EtcdRootPath c) (EtcdUsername c) (EtcdPassword c)
    (MaxCounter c) v (LogFile c) (LogRotate c) (DBConfig c) (RootUser c) (RootPassword c)
    (IDContainerMapping c) (ContainerAZMapping c) (PartitionTemplate c) (PartitionType c) (ChaosJob c)
    (configFile c) (printVersion c).
Definition set_LogFile (v : string) (c : Config) : Config :=
  mkConfig (ClusterName c) (EtcdURLs c) (EtcdDialTimeout c) (EtcdRootPath c) (EtcdUsername c) (EtcdPassword c)
    (MaxCounter c) (LogLevel c) v (LogRotate c) (DBConfig c) (RootUser c) (RootPassword c)
    (IDContainerMapping c) (ContainerAZMapping c) (PartitionTemplate c) (PartitionType c) (ChaosJob c)
    (configFile c) (printVersion c).
Definition set_LogRotate (v : string) (c : Config) : Config :=
  mkConfig (ClusterName c) (EtcdURLs c) (EtcdDialTimeout c) (EtcdRootPath c) (EtcdUsername c) (EtcdPassword c)
    (MaxCounter c) (LogLevel c) (LogFile c) v (DBConfig c) (RootUser c) (RootPassword c)
    (IDContainerMapping c) (ContainerAZMapping c) (PartitionTemplate c) (PartitionType c) (ChaosJob c)
    (configFile c) (printVersion c).
Definition set_ChaosJob (v : string) (c : Config) : Config :=
  mkConfig (ClusterName c) (EtcdURLs c) (EtcdDialTimeout c) (EtcdRootPath c) (EtcdUsername c) (EtcdPassword c)
    (MaxCounter c) (LogLevel c) (LogFile c) (LogRotate c) (DBConfig c) (RootUser c) (RootPassword c)
    (IDContainerMapping c) (ContainerAZMapping c) (PartitionTemplate c) (PartitionType c) v (configFile c)
    (printVersion c).
Definition set_configFile (v : string) (c : Config) : Config :=
  mkConfig (ClusterName c) (EtcdURLs c) (EtcdDialTimeout c) (EtcdRootPath c) (EtcdUsername c) (EtcdPassword c)
    (MaxCounter c) (LogLevel c) (LogFile c) (LogRotate c) (DBConfig c) (RootUser c) (RootPassword c)
    (IDContainerMapping c) (ContainerAZMapping c) (PartitionTemplate c) (PartitionType c) (ChaosJob c) v
    (printVersion c).
Definition set_printVersion (v : bool) (c : Config) : Config :=
  mkConfig (ClusterName c) (EtcdURLs c) (EtcdDialTimeout c) (EtcdRootPath c) (EtcdUsername c) (EtcdPassword c)
    (MaxCounter c) (LogLevel c) (LogFile c) (LogRotate c) (DBConfig c) (RootUser c) (RootPassword c)
    (IDContainerMapping c) (ContainerAZMapping c) (PartitionTemplate c) (PartitionType c) (ChaosJob c)
    (configFile c) v.

(** The flags of [NewConfig]. *)
Definition flags : list (flag Config) :=
  [str_flag "etcd-urls" EtcdURLs set_EtcdURLs;
   str_flag "L" LogLevel set_LogLevel;
   str_flag "log-file" LogFile set_LogFile;
   str_flag "log-rotate" LogRotate set_LogRotate;
   str_flag "chaos" ChaosJob set_ChaosJob;
   str_flag "config" configFile set_configFile;
   bool_flag "V" printVersion set_printVersion].

(** [NewConfig]: the defaults of the flags, zero values elsewhere. *)
Definition NewConfig : Config :=
  mkConfig "" "http://127.0.0.1:2379" (2 * Second) "" "" "" 0 "info" "" "" (mkDBConfig "" "" "" 0 "" "" "" "")
    "" "" ∅ ∅ "" "" "change_master" "" false.

Lemma checker_flags_lawful : lawful flags.
Proof. prove_lawful. Qed.

(** [Parse] *)
Definition Parse (DecodeFile : string -> Config -> result Config) (arguments : list string) : outcome (result Config) :=
  Flags.Parse flags configFile printVersion DecodeFile arguments NewConfig.

(** The same precedence for the flags of the checker. *)
Lemma checker_config_precedence (DecodeFile : string -> Config -> result Config) (arguments : list string) (c : Config) :
  Parse DecodeFile arguments = Ret (inl c) ->
  exists asg c2, (forall c', parse flags arguments c' = (inl [], assign c' asg)) /\
    (let c1 := assign NewConfig asg in
     if String.eqb (configFile c1) "" then c2 = c1 else DecodeFile (configFile c1) c1 = inl c2) /\
    forall f, f ∈ flags -> f_get f c = default (f_get f c2) (given f asg) /\
      (configFile (assign NewConfig asg) = "" -> f_get f c = default (f_get f NewConfig) (given f asg)).
Proof. apply Parse_precedence, checker_flags_lawful. Qed.

End Checker.

End Flags.
