(* ===== verification/Logging.v ===== *)
(** * Logging: [agent/logutil.go], [pkg/log/log.go]

    A logger writes the lines of the enabled levels to one destination, and
    its hook those of the level warning and above to a second one, the error
    log.  The model has the levels, the line format, the initialisation from
    the configuration and a call of a log function, with the part of logrus
    ([vendor/github.com/sirupsen/logrus]) between them; the lemmas say which
    destination gets which line. *)

From stdpp Require Import gmap strings list.
From Stdlib Require Import ZArith Lia Ascii.
From S2P Require Import Prelude GoStrings Urls World ServiceManager Election Startup Flags.
Import Flags.

Module Logging.

(** ** Levels *)

Inductive Level := PanicLevel | FatalLevel | ErrorLevel | WarnLevel | InfoLevel | DebugLevel.

#[global] Instance Level_eq_dec : EqDecision Level.
Proof. solve_decision. Defined.

Definition severity (l : Level) : nat :=
  match l with
  | PanicLevel => 0 | FatalLevel => 1 | ErrorLevel => 2 | WarnLevel => 3 | InfoLevel => 4 | DebugLevel => 5
  end.

Definition Level_String (l : Level) : string :=
  match l with
  | DebugLevel => "debug" | InfoLevel => "info" | WarnLevel => "warning"
  | ErrorLevel => "error" | FatalLevel => "fatal" | PanicLevel => "panic"
  end.

(** [stringToLogLevel] *)
Definition stringToLogLevel (level : string) : Level :=
  let s := ToLower level in
  if String.eqb s "fatal" then FatalLevel
  else if String.eqb s "error" then ErrorLevel
  else if String.eqb s "warn" || String.eqb s "warning" then WarnLevel
  else if String.eqb s "debug" then DebugLevel
  else InfoLevel.

(** ** Lines *)

Record Entry := mkEntry { e_time : string; e_level : Level; e_message : string; e_data : gmap string string }.

Definition line_end : string := String "010" "".

(** [textFormatter.Format] *)
Definition Format `{RangeOrder} (DisableTimestamp : bool) (e : Entry) : string :=
  (if DisableTimestamp then "" else e_time e +:+ " ") +:+
  (match e_data e !! "file" with
   | Some file => file +:+ ":" +:+ default "<nil>" (e_data e !! "line") +:+ " "
   | None => ""
   end) +:+
  "[" +:+ Level_String (e_level e) +:+ "] " +:+ e_message e +:+
  foldr (fun '(k, v) rest => if bool_decide (k <> "file" /\ k <> "line") then " " +:+ k +:+ "=" +:+ v +:+ rest else rest)
        "" (range _ (e_data e)) +:+
  line_end.

(** [stringToLogFormatter]: the formatters it can return. *)
Inductive formatter := TextFormatter (DisableTimestamp : bool) | JSONFormatter (DisableTimestamp : bool)
                     | ConsoleFormatter (DisableTimestamp : bool).
Definition stringToLogFormatter (format : string) (disableTimestamp : bool) : formatter :=
  let s := ToLower format in
  if String.eqb s "text" then TextFormatter disableTimestamp
  else if String.eqb s "json" then JSONFormatter disableTimestamp
  else if String.eqb s "console" then ConsoleFormatter disableTimestamp
  else TextFormatter false.

(** ** The logger *)

(** A destination: standard output or a rotated file. *)
Inductive writer := Stdout | File (filename : string) (maxSize maxBackups maxAge : Z).

#[global] Instance writer_eq_dec : EqDecision writer.
Proof. solve_decision. Defined.

Record Logger := mkLogger { lg_level : Level; lg_out : writer; lg_hooks : list writer }.

(** [WarnHook.Levels] *)
Definition WarnHook_Levels : list Level := [WarnLevel; ErrorLevel; FatalLevel; PanicLevel].

(** [os.Stat]: [None] for an error, else whether it is a directory. *)
Definition stat := string -> option bool.

(** [initFileLog]; it fills the size in the configuration. *)
Definition initFileLog (st : stat) (filename : string) (cfg : Agent.Config) : result writer * Agent.Config :=
  match st filename with
  | Some true => (inr (Errorf "can't use directory as log file name"), cfg)
  | _ =>
      let size := if Agent.LogMaxSize cfg =? 0 then 300 else Agent.LogMaxSize cfg in
      (inl (File filename size 30 (Agent.LogMaxDays cfg)), Agent.set_LogMaxSize size cfg)
  end.

(** [InitLogger] *)
Definition InitLogger (st : stat) (cfg : Agent.Config) : result Logger * Agent.Config :=
  let level := stringToLogLevel (Agent.LogLevel cfg) in
  let '(out, cfg1) := if String.eqb (Agent.LogFile cfg) "" then (inl Stdout, cfg)
                      else initFileLog st (Agent.LogFile cfg) cfg in
  match out with
  | inr e => (inr e, cfg1)
  | inl output =>
      if String.eqb (Agent.ErrorLog cfg1) "" then (inl (mkLogger level output []), cfg1)
      else
        match initFileLog st (Agent.ErrorLog cfg1) cfg1 with
        | (inl w, cfg2) => (inl (mkLogger level output [w]), cfg2)
        | (inr _, cfg2) => (inl (mkLogger level output []), cfg2)
        end
  end.

(** ** A log call *)

(** [logWithFilename]: the last two elements of the path of the caller. *)
Definition short_file (caller : option (string * Z)) : string * Z :=
  match caller with
  | None => ("<???>", 0)
  | Some (file, line) =>
      match rev (Split "/" file) with
      | b :: a :: _ => (a +:+ "/" +:+ b, line)
      | _ => (file, line)
      end
  end.

(** The functions of [pkg/log] for each level, with [entry.log] of logrus: the
    hooks first, then the output; a fatal message ends the process, a panic
    panics, enabled or not. *)
Definition log_call `{RangeOrder} (lg : Logger) (time : string) (caller : option (string * Z)) (level : Level)
    (msg : string) : outcome unit * list (writer * string) :=
  let '(file, line) := short_file caller in
  let e := mkEntry time level msg (<["line" := FormatInt line]> (<["file" := file]> ∅)) in
  let text := Format false e in
  let lines := if (severity level <=? severity (lg_level lg))%nat then
                 (if bool_decide (level ∈ WarnHook_Levels) then map (fun w => (w, text)) (lg_hooks lg) else [])
                 ++ [(lg_out lg, text)]
               else [] in
  (match level with FatalLevel => Exited 1 | PanicLevel => Panicked | _ => Ret tt end, lines).

(** ** Where the lines go *)

Lemma warn_levels (l : Level) : l ∈ WarnHook_Levels <-> (severity l <= severity WarnLevel)%nat.
Proof.
  unfold WarnHook_Levels. rewrite !elem_of_cons, elem_of_nil.
  destruct l; cbn; split; intros Hl; (lia || naive_solver lia).
Qed.

Lemma initFileLog_spec (st : stat) (filename : string) (cfg cfg' : Agent.Config) (w : writer) :
  initFileLog st filename cfg = (inl w, cfg') ->
  st filename <> Some true /\ (exists size age, w = File filename size 30 age) /\
  Agent.ErrorLog cfg' = Agent.ErrorLog cfg.
Proof.
  unfold initFileLog. destruct (st filename) as [[]|]; [done|..]; intros [= <- <-]; (split_and!; [done|eauto|done]).
Qed.

Lemma InitLogger_spec (st : stat) (cfg cfg' : Agent.Config) (lg : Logger) :
  InitLogger st cfg = (inl lg, cfg') -> Agent.ErrorLog cfg <> Agent.LogFile cfg ->
  lg_level lg = stringToLogLevel (Agent.LogLevel cfg) /\
  (forall s b a, lg_out lg <> File (Agent.ErrorLog cfg) s b a) /\
  (lg_hooks lg <> [] -> Agent.ErrorLog cfg <> "" /\ st (Agent.ErrorLog cfg) <> Some true).
Proof.
  unfold InitLogger. intros Hi Hne.
  assert (exists output cfg1, Agent.ErrorLog cfg1 = Agent.ErrorLog cfg /\
    (forall s b a, output <> File (Agent.ErrorLog cfg) s b a) /\
    (if String.eqb (Agent.LogFile cfg) "" then (inl Stdout, cfg) else initFileLog st (Agent.LogFile cfg) cfg)
    = (inl output, cfg1)) as (output & cfg1 & He & Ho & E).
  { destruct (String.eqb _ "") in Hi |- *; [by exists Stdout, cfg|].
    destruct (initFileLog st (Agent.LogFile cfg) cfg) as [[w|] c] eqn:E; [|done].
    destruct (initFileLog_spec _ _ _ _ _ E) as (_ & (size & age & ->) & Hc). exists (File (Agent.LogFile cfg) size 30 age), c.
    split_and!; [done|intros s b a [= ? _ _ _]; congruence|done]. }
  rewrite E in Hi. rewrite He in Hi. destruct (String.eqb_spec (Agent.ErrorLog cfg) "") as [Hn|Hn].
  { by injection Hi as <- <-. }
  destruct (initFileLog st (Agent.ErrorLog cfg) cfg1) as [[w|] c] eqn:E2; injection Hi as <- <-; [|done].
  by destruct (initFileLog_spec _ _ _ _ _ E2) as (? & _ & _).
Qed.

(** The error log has the lines of the level warning and above that are
    enabled, when its name is set and is not that of a directory; a directory
    there is not reported, while one for the main log is. *)
Lemma error_log_lines `{RangeOrder} (st : stat) (cfg cfg' : Agent.Config) (lg : Logger) (time : string)
    (caller : option (string * Z)) (level : Level) (msg text : string) (size age backups : Z) :
  InitLogger st cfg = (inl lg, cfg') -> Agent.ErrorLog cfg <> Agent.LogFile cfg ->
  (File (Agent.ErrorLog cfg) size backups age, text) ∈ (log_call lg time caller level msg).2 ->
  Agent.ErrorLog cfg <> "" /\ st (Agent.ErrorLog cfg) <> Some true /\
  (severity level <= severity WarnLevel)%nat /\ (severity level <= severity (stringToLogLevel (Agent.LogLevel cfg)))%nat.
Proof.
  intros Hi Hne. unfold log_call. destruct (short_file caller) as [file line]. cbn [snd].
  assert (lg_level lg = stringToLogLevel (Agent.LogLevel cfg) /\
          (forall s b a, lg_out lg <> File (Agent.ErrorLog cfg) s b a) /\
          (lg_hooks lg <> [] -> Agent.ErrorLog cfg <> "" /\ st (Agent.ErrorLog cfg) <> Some true)) as (Hl & Ho & Hh).
  { by apply (InitLogger_spec st cfg cfg'). }
  rewrite Hl. destruct (Nat.leb_spec (severity level) (severity (stringToLogLevel (Agent.LogLevel cfg)))) as [Hs|Hs];
    [|by intros ?%elem_of_nil].
  rewrite elem_of_app, list_elem_of_singleton. intros [Hin|[= E _]]; [|by symmetry in E; apply Ho in E].
  case_bool_decide as Hw; [|by apply elem_of_nil in Hin]. apply warn_levels in Hw.
  destruct Hh as [? ?]; [|done]. intros Hnil. rewrite Hnil in Hin. by apply elem_of_nil in Hin.
Qed.

(** A main log that is a directory stops the start of the logger. *)
Lemma log_directory_rejected (st : stat) (cfg : Agent.Config) :
  Agent.LogFile cfg <> "" -> st (Agent.LogFile cfg) = Some true -> exists e, (InitLogger st cfg).1 = inr e.
Proof.
  intros Hf Hd. unfold InitLogger, initFileLog. apply String.eqb_neq in Hf as ->. rewrite Hd. by eexists.
Qed.
End Logging.
