(* ===== verification/Background.v ===== *)
(** * The goroutines beside the leader loop

    [Start] runs, besides the leader loop, the heartbeat, which keeps the
    registration of the node alive, and the monitor of the binary log, which
    keeps [latestPos] up to date ([agent/server.go], [agent/node.go]).  A
    goroutine is a loop over what wakes it; between two of its steps the other
    goroutines change the fields of the server and [latestPos]. *)

From stdpp Require Import gmap strings list.
From Stdlib Require Import ZArith Lia.
From S2P Require Import Prelude GoStrings Json Gtid Etcd World ServiceManager Demo Leader Node Election ServerLoop ServerProofs AgentSpec.
Import Mvcc.

(** What the others did since the last step, and the case of the [select] that
    fires. *)
Inductive beat_case := BeatTick | BeatStop | BeatDone.

Record beat := mkBeat {
  bt_srv : Server -> Server;
  bt_pos : Position -> Position;
  bt_case : beat_case
}.

Section Background.
Context {D : Type} `{ServiceManager D}.
Context (cfg : Config) (node_ID : string).

Definition pause (b : beat) : M D unit :=
  do! modify (bt_srv b) in modify_latestPos (bt_pos b).

(** ** The heartbeat *)

(** The ticker of [agentNode.Heartbeat]: [registerTTL/3 + 1] seconds. *)
Definition heartbeat_interval (ttl : Z) : Z := (ttl ÷ 3 + 1) * Second.

(** The loop of [agentNode.Heartbeat], with the errors it sends to its channel. *)
Fixpoint Heartbeat (beats : list beat) : M D (list error) :=
  match beats with
  | [] => block
  | b :: rest =>
      do! pause b in
      match bt_case b with
      | BeatTick =>
          let! err := Register cfg node_ID in
          let! errs := Heartbeat rest in
          ret (match err with Some e => e :: errs | None => errs end)
      | BeatStop =>
          let! ch := gets registerStopCh in
          match ch with
          | ChClosed => ret []
          | _ => Heartbeat rest
          end
      | BeatDone =>
          let! done := gets ctxDone in
          if done then ret [] else Heartbeat rest
      end
  end.

(** The two waits of [startHeartbeatLoop]: for the condition to register, and
    for the first registration. *)
Fixpoint await_ready (pauses : list beat) : M D unit :=
  let! s := gets id in
  let! p := get_latestPos in
  if ready_to_register s p then ret tt
  else
    match pauses with
    | [] => block
    | b :: rest =>
        do! sleep (1 * Second) in
        do! pause b in
        await_ready rest
    end.

Definition startHeartbeatLoop (pauses : list beat) (fuel : nat) (beats : list beat) : M D (list error) :=
  do! await_ready pauses in
  do! retry_err fuel (1 * Second) (Register cfg node_ID) in
  Heartbeat beats.

(** ** The monitor of the binary log *)

Definition fetchBinlogInterval : Z := 1 * Second.

Fixpoint monitor_iter (beats : list beat) : M D unit :=
  match beats with
  | [] => block
  | b :: rest =>
      do! pause b in
      match bt_case b with
      | BeatDone =>
          let! done := gets ctxDone in
          if done then ret tt else monitor_iter rest
      | BeatTick =>
          let! _ := DoWithRetry updateBinlogPos 0 (fetchBinlogInterval ÷ 2) in
          monitor_iter rest
      | BeatStop => monitor_iter rest
      end
  end.

Definition startBinlogMonitorLoop (beats : list beat) : M D unit :=
  do! recovered (ret tt) (monitor_iter beats) in
  Close cfg node_ID.

(** ** After [Close] *)

(** The others do not take the cancellation of the context back. *)
Definition beat_ok (b : beat) : Prop := forall s, ctxDone s = true -> ctxDone (bt_srv b s) = true.

(** With the context done, no request reaches etcd, so that whatever the other
    agents keep is kept. *)
Definition done_inv (I : Store -> Prop) : relation (world D) := fun w w' =>
  ctxDone (srv w) = true /\ I (etcd w) /\ Forall (tick_keeps I) (oracle w) ->
  ctxDone (srv w') = true /\ I (etcd w') /\ Forall (tick_keeps I) (oracle w').

#[local] Instance done_inv_preorder (I : Store -> Prop) : PreOrder (done_inv I).
Proof. split; [intros w Hw; exact Hw|intros a b c H1 H2 Ha; auto]. Qed.

Lemma done_etcd_call {A} (I : Store -> Prop) (f : Store -> result A * Store) :
  keeps (done_inv I) (etcd_call f).
Proof.
  intros w (Hc & HI & Ho). unfold etcd_call. rewrite Hc. cbn [snd].
  destruct (arrival_keeps I w Ho HI) as [H1 H2]. split_and!; [exact Hc|exact H1|exact H2].
Qed.

Lemma done_Register (I : Store -> Prop) : keeps (done_inv I) (Register (D := D) cfg node_ID).
Proof. unfold Register, RegisterNode, register. repeat keeps_step; apply done_etcd_call. Qed.

Lemma done_pause (I : Store -> Prop) (b : beat) : beat_ok b -> keeps (done_inv I) (pause b).
Proof. intros Hb w (Hc & HI & Ho). split_and!; [by apply Hb|exact HI|exact Ho]. Qed.

(** No registration after [Close]: once the context is cancelled, the
    heartbeat goroutine changes nothing in etcd any more, however often its
    ticker fires before it notices; whatever property of the store the other
    agents keep, such as that this node is not registered, holds afterwards. *)
Theorem heartbeat_silent_after_Close (I : Store -> Prop) (beats : list beat) (w : world D) :
  ctxDone (srv w) = true -> Forall beat_ok beats ->
  I (etcd w) -> Forall (tick_keeps I) (oracle w) -> I (etcd (Heartbeat beats w).2).
Proof.
  intros Hc Hb HI Ho. enough (keeps (done_inv I) (Heartbeat beats)) as Hk by (by apply (Hk w)).
  clear - Hb. induction Hb as [|b rest Hok _ IH]; cbn [Heartbeat]; repeat keeps_step;
    auto using done_pause, done_Register.
Qed.

(** ** Waiting *)

(** A node announces itself only when it is of use: while neither the node
    is the leader nor its replication runs less than a minute behind, the
    heartbeat goroutine sends no request; when the wait ends, one of the two
    holds. *)
Theorem await_ready_spec (pauses : list beat) (w : world D) :
  let '(o, w') := await_ready pauses w in
  etcd w' = etcd w /\ oracle w' = oracle w /\
  match o with
  | Ret _ => isLeader (srv w') = true \/
             (SlaveIORunning (latestPos w') = true /\ SlaveSQLRunning (latestPos w') = true /\
              SecondsBehindMaster (latestPos w') < 60)
  | _ => o = Blocked
  end.
Proof.
  revert w. induction pauses as [|b rest IH]; intros w; cbn [await_ready]; unfold bind at 1 2, gets, get_latestPos;
    destruct (ready_to_register (id (srv w)) (latestPos w)) eqn:Er; cbn.
  1,3: unfold ready_to_register, id in Er; (split_and!; [done|done|]);
    apply orb_true_iff in Er as [?|Er]; [by left|right]; bool_to_prop; auto.
  - done.
  - specialize (IH (with_latestPos (bt_pos b) (with_srv (bt_srv b) (sleep (1 * Second) w).2))).
    exact IH.
Qed.
End Background.

(** ** A monitor that panics *)
Section Panic.
Context {D : Type} `{HS : ServiceManager D} `{HOk : !ServiceManagerOk D}.
Context (cfg : Config) (node_ID : string).

(** One failed tick of the monitor of a leader whose master status has no row. *)
Lemma monitor_panics (b : beat) (rest : list beat) (w : world D) (d : D) :
  bt_case b = BeatTick -> isLeader (bt_srv b (srv w)) = true ->
  LoadMasterStatusFromDB (svc w) = (None, d) ->
  exists w1, monitor_iter (b :: rest) w = (Panicked, w1) /\ srv w1 = bt_srv b (srv w).
Proof.
  intros Hb Hl Hd. cbn [monitor_iter]. rewrite Hb. unfold pause, DoWithRetry.
  change (Z.to_nat (0 + 1)) with 1%nat. cbn [DoWithRetry_loop].
  unfold updateBinlogPos, amILeader, bind, gets, modify, modify_latestPos, svc_call.
  unfold with_latestPos, with_srv. cbn [srv svc]. rewrite Hl. cbn [svc]. rewrite Hd.
  eexists. split; reflexivity.
Qed.

(** A master status without a row takes the agent down: the monitor of a
    leader dereferences the missing GTID set and panics, and what it deferred
    closes the server, so that the leader stops serving (or exits, or dies of
    the panic of a busy [Shutdown]) although nothing is wrong with its lease. *)
Theorem monitor_panic_closes (b : beat) (rest : list beat) (w : world D) (d : D) :
  bt_case b = BeatTick -> isLeader (bt_srv b (srv w)) = true ->
  LoadMasterStatusFromDB (svc w) = (None, d) ->
  isClosed (bt_srv b (srv w)) = false -> registerStopCh (bt_srv b (srv w)) = ChOpen ->
  shutdownCh (bt_srv b (srv w)) = ChOpen ->
  exists w', (startBinlogMonitorLoop cfg node_ID (b :: rest) w = (Ret tt, w') /\ taken_down w') \/
             (startBinlogMonitorLoop cfg node_ID (b :: rest) w = (Panicked, w') /\ cut_short w') \/
             startBinlogMonitorLoop cfg node_ID (b :: rest) w = (Exited 3, w').
Proof.
  intros Hb Hl Hd Hc Hr Hs. destruct (monitor_panics b rest w d Hb Hl Hd) as (w1 & E & Hw1).
  destruct (Close_ends cfg node_ID w1) as (w' & Hend); [by rewrite Hw1..|].
  exists w'. unfold startBinlogMonitorLoop, bind, recovered, ret. rewrite E.
  destruct Hend as [[-> ?]|[(-> & ? & _)|[-> _]]]; auto.
Qed.
End Panic.

(** ** On the concrete cluster *)

Definition tick_beat : beat := mkBeat id id BeatTick.
Definition done_beat : beat := mkBeat id id BeatDone.

Definition closed_world : world demo_service := with_srv (set_ctxDone true) (demo_world empty_store []).

Lemma heartbeat_silent_witness :
  kvs (etcd (Heartbeat demo_cfg demo_id [tick_beat; tick_beat; done_beat] closed_world).2) = ∅.
Proof.
  apply (heartbeat_silent_after_Close demo_cfg demo_id (fun st => kvs st = ∅)).
  - reflexivity.
  - repeat constructor; intros s Hs; exact Hs.
  - reflexivity.
  - constructor.
Defined.

Example heartbeat_errors :
  (Heartbeat demo_cfg demo_id [tick_beat; tick_beat; done_beat] closed_world).1
  = Ret [ErrCanceled; ErrCanceled].
Proof. vm_compute. reflexivity. Qed.

(** A leader whose server reports no binary log. *)
Definition no_binlog : world demo_service :=
  mkWorld (set_isLeader true new_Server) init_latestPos empty_store
    (MySQL.mkMySQL (ToyMySQL.mkToy false 0 ∅ "" demo_uuid) "" "repl" "secret" false) 0 [] [].

Lemma monitor_panic_witness :
  exists w', (startBinlogMonitorLoop demo_cfg demo_id [tick_beat] no_binlog = (Ret tt, w') /\ taken_down w') \/
             (startBinlogMonitorLoop demo_cfg demo_id [tick_beat] no_binlog = (Panicked, w') /\ cut_short w') \/
             startBinlogMonitorLoop demo_cfg demo_id [tick_beat] no_binlog = (Exited 3, w').
Proof.
  apply (monitor_panic_closes demo_cfg demo_id tick_beat [] no_binlog (svc no_binlog));
    [reflexivity|reflexivity|vm_compute; reflexivity|reflexivity|reflexivity|reflexivity].
Defined.
