(* ===== verification/Typing.v ===== *)
(** * The counters of the cluster stay readable

    [Server.term] and [Server.lastTxnID] are [uint64] in the source and
    integers in the model; the arithmetic on them wraps where the source's
    does.  The agents print them into etcd (the term and the last transaction of
    the leader, the term of every agent) and read them back: an agent that
    cannot read its own term closes itself.  The invariant is that the server's
    counters are in the range of the type and that every counter in etcd is the
    decimal text of a [uint64]; one iteration of the leader loop keeps it,
    whatever the database answers and however the calls interleave; file
    [Lifecycle] has the whole run.  What the agent relies on is the interface
    [ReplicationTyped], which the service managers discharge. *)

From stdpp Require Import gmap strings list.
From Stdlib Require Import ZArith Lia DecimalString.
From S2P Require Import Prelude GoStrings Json Gtid Etcd World ServiceManager Demo Leader Node Election ServerLoop Threads ServerProofs AgentSpec Cluster.
Import Mvcc.

(** The transaction numbers a service manager returns are [uint64]. *)
Class ReplicationTyped (D : Type) `{ServiceManager D} := {
  master_info_u64 (d d' : D) (u g : string) (e : Z) :
    LoadReplicationInfoOfMaster d = (Some (inl (u, g, e)), d') -> is_u64 e;
  slave_info_u64 (d d' : D) (u g : string) (e : Z) :
    LoadReplicationInfoOfSlave d = (inl (u, g, e), d') -> is_u64 e
}.

#[global] Instance mysql_typed {Q} `{SQLServer Q} : ReplicationTyped (@MySQL.mysqlServiceManager Q).
Proof.
  split; intros d d' u g e; cbn.
  - unfold MySQL.LoadReplicationInfoOfMaster. repeat case_match; intros; simplify_eq; apply u64_range.
  - unfold MySQL.LoadReplicationInfoOfSlave. repeat case_match; intros; simplify_eq; apply u64_range.
Qed.

(** The fields of the types [Server] and [LeaderMeta] in their ranges. *)
Definition server_ok (s : Server) : Prop := is_u64 (term s) /\ is_u64 (lastTxnID s).

Definition leader_ok (l : Leader) : Prop := is_u64 (meta_term (meta l)) /\ is_u64 (meta_lastTxnID (meta l)).

Lemma zero_u64 : is_u64 0.
Proof. unfold is_u64, two64. lia. Qed.

Lemma ParseUint_range (s : string) (z : Z) : ParseUint s = inl z -> is_u64 z.
Proof.
  unfold ParseUint, parse_digits. destruct (NilZero.uint_of_string s) as [d|]; [|done].
  destruct (Z.ltb_spec (Z.of_N (N.of_uint d)) two64); [|done]. intros [= <-]. unfold is_u64. lia.
Qed.
#[export] Hint Resolve zero_u64 ParseUint_range : moha.

(** Reading the keys of the leader. *)
Lemma read_response_ok (cfg : Config) (node_ID : string) (l l' : Leader) (t t' : Z) (r : Response) :
  leader_ok l -> is_u64 t -> read_response cfg node_ID (l, t) r = inl (l', t') -> leader_ok l' /\ is_u64 t'.
Proof.
  intros [Hm Hx] Ht. unfold read_response, set_meta.
  repeat case_match; intros; simplify_eq; unfold leader_ok; cbn; split_and?; eauto with moha.
Qed.

Lemma read_responses_ok (cfg : Config) (node_ID : string) (rs : list Response) (l l' : Leader) (t t' : Z) :
  leader_ok l -> is_u64 t -> read_responses cfg node_ID (l, t) rs = inl (l', t') -> leader_ok l' /\ is_u64 t'.
Proof.
  revert l t. induction rs as [|r rs IH]; intros l t Hl Ht; cbn [read_responses]; [by intros [= <- <-]|].
  destruct (read_response cfg node_ID (l, t) r) as [[l1 t1]|] eqn:E; [|done].
  destruct (read_response_ok _ _ _ _ _ _ _ Hl Ht E). by apply IH.
Qed.

(** ** The counters in etcd *)
Section Counters.
Context (cfg : Config).

(** The keys that hold a number, as path elements. *)
Inductive counter : list string -> Prop :=
| counter_leader : counter ["election"; "master"; "term"]
| counter_txn : counter ["election"; "master"; "last_txnid"]
| counter_agent (n : string) : plain_elem n = true -> counter ["election"; "terms"; n].

Definition number (v : string) : Prop := exists z, is_u64 z /\ v = FormatUint z.

Definition map_readable (m : gmap string KeyValue) : Prop :=
  forall c x, counter c -> m !! key_of cfg c = Some x -> number (Value x).

Definition readable (st : Store) : Prop := map_readable (kvs st).

Lemma counter_plain (c : list string) : counter c -> plain_key c.
Proof. intros []; (split; [done|repeat constructor; auto]). Qed.

(** A put to a counter writes a number. *)
Definition op_ok (op : Op) : Prop :=
  match op with
  | OpPut k v _ => forall c, counter c -> k = key_of cfg c -> number v
  | _ => True
  end.

Lemma put_ok (k : list string) (v : string) (l : Z) :
  plain_key k -> (counter k -> number v) -> op_ok (OpPut (key_of cfg k) v l).
Proof. intros Hk Hv c Hc E. apply key_of_inj in E as ->; auto using counter_plain. Qed.

Lemma put_number (k v : string) (l z : Z) : is_u64 z -> v = FormatUint z -> op_ok (OpPut k v l).
Proof. intros Hz -> c _ _. by exists z. Qed.

Lemma applyOp_readable (b : Z) (op : Op) (m : gmap string KeyValue) :
  op_ok op -> map_readable m -> map_readable (applyOp b op m).2.
Proof.
  intros Hop Hm c x Hc. destruct op; cbn [applyOp snd].
  - by apply Hm.
  - destruct (decide (key = key_of cfg c)) as [->|Hne]; [|rewrite tw_put_lookup_ne by done; by apply Hm].
    destruct (tw_put_lookup b (key_of cfg c) value lease m) as (y & -> & Hy & _). intros [= <-]. rewrite Hy. by apply (Hop c).
  - unfold tw_delete. destruct (m !! key); cbn; [|by apply Hm]. intros [_ Hx]%lookup_delete_Some. by apply (Hm c).
  - intros [Hx _]%map_lookup_filter_Some. by apply (Hm c).
Qed.

Lemma applyOps_readable (b : Z) (ops : list Op) (m : gmap string KeyValue) :
  Forall op_ok ops -> map_readable m -> map_readable (applyOps b ops m).2.
Proof.
  intros Hops. revert m. induction Hops as [|op ops Hop _ IH]; intros m Hm; cbn; [done|].
  pose proof (applyOp_readable b op m Hop Hm) as H1. destruct (applyOp b op m) as [[r n] m1].
  specialize (IH m1 H1). by destruct (applyOps b ops m1) as [[? ?] ?].
Qed.

Lemma Txn_readable (rt : TxnRequest) (st : Store) : Forall op_ok (Success rt) -> readable st -> readable (Txn rt st).2.
Proof.
  intros Hops Hst. unfold Txn. destruct (negb _); [done|].
  assert (Forall op_ok (if applyCompares (kvs st) (Compare rt) then Success rt else [])) as Ho by (by case_match).
  pose proof (applyOps_readable (currentRev st) _ (kvs st) Ho Hst) as Hm.
  by destruct (applyOps (currentRev st) _ (kvs st)) as [[? ?] ?].
Qed.

Lemma Put_readable (k v : string) (l : Z) (st : Store) : op_ok (OpPut k v l) -> readable st -> readable (Mvcc.Put k v l st).2.
Proof.
  intros Hop Hst. unfold Mvcc.Put. destruct (negb _); [done|].
  exact (applyOp_readable (currentRev st) (OpPut k v l) (kvs st) Hop Hst).
Qed.

Lemma Delete_readable (op : Op) (st : Store) : op_ok op -> readable st -> readable (DeleteRange op st).
Proof.
  intros Hop Hst. unfold DeleteRange. pose proof (applyOp_readable (currentRev st) op (kvs st) Hop Hst) as Hm.
  by destruct (applyOp (currentRev st) op (kvs st)) as [[? ?] ?].
Qed.

Lemma Grant_readable (ttl : Z) (st : Store) : readable st -> readable (Grant ttl st).2.
Proof. unfold Grant. by case_match. Qed.
Lemma Renew_readable (l : Z) (st : Store) : readable st -> readable (Renew l st).2.
Proof. unfold Renew. by case_match. Qed.
Lemma Revoke_readable (l : Z) (st : Store) : readable st -> readable (Revoke l st).2.
Proof.
  unfold Revoke. case_match; [|done]. intros Hst c x Hc. cbn. intros [Hx _]%map_lookup_filter_Some. by apply (Hst c).
Qed.

(** The puts of the leader transactions. *)
Context (n : string) (Hn : plain_elem n = true).

Lemma leaderPutOps_ok (s : Server) (l t : Z) : server_ok s -> is_u64 t -> Forall op_ok (leaderPutOps cfg n s l t).
Proof.
  intros [_ Hx] Ht. unfold leaderPutOps. repeat constructor.
  2: by apply (put_number _ _ _ t). 4: by apply (put_number _ _ _ (lastTxnID s)).
  1: apply (put_ok ["master"]). 3: apply (put_ok ["election"; "master"; "id"]).
  5: apply (put_ok ["election"; "master"; "meta_version"]). 7: apply (put_ok ["election"; "master"; "last_uuid"]).
  9: apply (put_ok ["election"; "master"; "last_gtid"]).
  all: first [split; [done|by repeat constructor]|intros Hc; inversion Hc].
Qed.

Lemma myTermPutOps_ok (s : Server) (b : bool) : Forall op_ok (myTermPutOps cfg n s b).
Proof. repeat constructor. destruct b; eapply put_number; try reflexivity; [apply u64_range|apply zero_u64]. Qed.

Lemma spmPutOps_ok : Forall op_ok (spmPutOps cfg n).
Proof.
  repeat constructor. apply (put_ok ["single_point_master"]); [split; [done|by repeat constructor]|intros Hc; inversion Hc].
Qed.

Lemma number_read (st : Store) (path : string) :
  (forall x, kvs st !! fullPathOf cfg path = Some x -> number (Value x)) ->
  exists z, is_u64 z /\ number_at cfg ParseUint (kvs st) path = inl z /\
    number_at cfg Atoi (kvs st) path = (if z <? two63 then inl z else inr ErrRange) /\
    (value_at cfg (kvs st) path = FormatUint z \/ z = 0).
Proof.
  unfold number_at, value_at. destruct (kvs st !! fullPathOf cfg path) as [x|].
  - intros Hx. destruct (Hx x eq_refl) as (z & Hz & ->). exists z. rewrite ParseUint_FormatUint, Atoi_FormatUint by (done || apply Hz). auto.
  - intros _. exists 0. split; [apply zero_u64|]. auto.
Qed.

(** What an agent reads of a readable store: the one number it may fail on is
    the term of the leader from 2^63 on, which is printed as unsigned and read
    as signed. *)
Lemma readable_view (st : Store) : readable st ->
  match leader_view cfg n (kvs st) with
  | inl (l, t) => is_u64 (meta_term (meta l)) /\ is_u64 (meta_lastTxnID (meta l)) /\ is_u64 t
  | inr e => e = ErrRange /\ exists t, two63 <= t /\ value_at cfg (kvs st) termPath = FormatUint t
  end.
Proof.
  intros Hst.
  destruct (number_read st termPath (fun x => Hst _ x counter_leader)) as (z1 & _ & _ & E1 & Hv).
  destruct (number_read st lastTxnIDPath (fun x => Hst _ x counter_txn)) as (z2 & Hz2 & E2 & _).
  destruct (number_read st (myTermPath n)) as (z3 & Hz3 & E3 & _).
  { rewrite (myTermPath_elems n Hn). exact (fun x => Hst _ x (counter_agent n Hn)). }
  unfold leader_view. rewrite E1, E2, E3. destruct (Z.ltb_spec z1 two63).
  - cbn. auto using u64_range.
  - split; [done|]. exists z1. destruct Hv as [?|Hv]; [done|]. unfold two63 in *. lia.
Qed.
End Counters.

(** ** The agent keeps them *)
Section Typing.
Context {D : Type} `{ServiceManager D} `{!ReplicationTyped D} `{RangeOrder}.
Context (cfg : Config) (node_ID : string) (Hid : plain_elem node_ID = true).

(** The counters are in range here and readable in etcd, where the others keep
    them readable. *)
Definition well_typed (w : world D) : Prop :=
  server_ok (srv w) /\ readable cfg (etcd w) /\ Forall (tick_keeps (readable cfg)) (oracle w).

Definition typed : relation (world D) := fun w w' => well_typed w -> well_typed w'.

#[export] Instance typed_preorder : PreOrder typed.
Proof. split; [intros w Hw; exact Hw|intros a b c H1 H2 Ha; auto]. Qed.

Lemma typed_same {A} (m : M D A) :
  (forall w, srv (m w).2 = srv w /\ etcd (m w).2 = etcd w /\ oracle (m w).2 = oracle w) -> keeps typed m.
Proof. intros Hm w Hw. destruct (Hm w) as (E1 & E2 & E3). unfold well_typed. by rewrite E1, E2, E3. Qed.

Lemma typed_etcd_call {A} (f : Store -> result A * Store) :
  (forall st, readable cfg st -> readable cfg (f st).2) -> keeps typed (etcd_call f).
Proof.
  intros Hf w (Hs & Hst & Ho). destruct (arrival_keeps _ w Ho Hst) as [H1 H2].
  destruct (etcd_call_ret f w) as (r & st & -> & Hr). unfold well_typed. cbn. split_and!; [done| |done].
  destruct Hr as [->|[_ ->]]; auto.
Qed.
Lemma typed_svc_call {A} (f : D -> A * D) : keeps typed (svc_call f).
Proof. apply typed_same. intros w. unfold svc_call. by destruct (f (svc w)). Qed.
Lemma typed_Shutdown : keeps typed (http_Shutdown (D := D)).
Proof.
  intros w (Hs & Hst & Ho). destruct (arrival_keeps _ w Ho Hst) as [H1 H2]. unfold http_Shutdown.
  by destruct (t_busy (next_tick w)).
Qed.
Lemma typed_sleep (d : Z) : keeps typed (sleep (D := D) d).
Proof. by apply typed_same. Qed.
Lemma typed_log_event (e : event) : keeps typed (log_event (D := D) e).
Proof. by apply typed_same. Qed.
Lemma typed_modify (f : Server -> Server) :
  (forall s, server_ok s -> server_ok (f s)) -> keeps typed (modify (D := D) f).
Proof. intros Hf w (Hs & Hst & Ho). split_and!; [by apply Hf|done|done]. Qed.
Lemma typed_close_chan (g : Server -> chan) (set : chan -> Server -> Server) :
  (forall c s, server_ok s -> server_ok (set c s)) -> keeps typed (close_chan (D := D) g set).
Proof. intros Hf w (Hs & Hst & Ho). unfold close_chan. destruct (g (srv w)); [done| |done]. split_and!; [by apply Hf|done|done]. Qed.
Hint Resolve typed_svc_call typed_sleep typed_log_event typed_Shutdown : moha.

(** A step that reads the server. *)
Lemma typed_gets {A B} (f : Server -> A) (k : A -> M D B) :
  (forall s, server_ok s -> keeps typed (k (f s))) -> keeps typed (bind (gets f) k).
Proof. intros Hk w Hw. apply (Hk (srv w)); [apply Hw|exact Hw]. Qed.

(** A step whose value satisfies [Q], and a continuation that uses it. *)
Definition gives {A} (Q : A -> Prop) (m : M D A) : Prop := forall w a w', m w = (Ret a, w') -> Q a.

Lemma typed_bind {A B} (Q : A -> Prop) (m : M D A) (k : A -> M D B) :
  gives Q m -> keeps typed m -> (forall a, Q a -> keeps typed (k a)) -> keeps typed (bind m k).
Proof.
  intros Hg Hm Hk w. specialize (Hm w). unfold bind. destruct (m w) as [[a| | |] w'] eqn:E; cbn in *; try done.
  etrans; [exact Hm|]. apply Hk. by apply (Hg w a w').
Qed.

Ltac typed_solve :=
  repeat keeps_step; eauto with moha;
  try (apply typed_close_chan; by intros ? ? [? ?]);
  try (apply typed_modify; by intros ? [? ?]);
  try (apply typed_etcd_call; by intros).

Lemma typed_commit (rt : TxnRequest) : Forall (op_ok cfg) (Success rt) -> keeps typed (commit (D := D) rt).
Proof. intros Ho. unfold commit. typed_solve. apply typed_etcd_call. intros st. by apply Txn_readable. Qed.

Lemma typed_put (k : list string) (path v : string) (l : Z) :
  plain_key k -> path = Client.elems_key k -> (counter k -> number v) ->
  keeps typed (etcd_call (Client.Put (rootPath cfg) path v l)).
Proof. intros Hk -> Hv. apply typed_etcd_call. intros st. apply Put_readable. by apply put_ok. Qed.

Lemma typed_getLeader : keeps typed (getLeaderAndMyTerm (D := D) cfg node_ID).
Proof. unfold getLeaderAndMyTerm. typed_solve. apply typed_commit. by repeat constructor. Qed.

Lemma typed_grant : keeps typed (etcd_call (D := D) (Grant (LeaderLeaseTTL cfg))).
Proof. apply typed_etcd_call. intros st. apply Grant_readable. Qed.

Lemma typed_campaign : keeps typed (campaignLeader (D := D) cfg node_ID).
Proof.
  unfold campaignLeader. apply keeps_bind; [exact _|apply typed_grant|]. intros [l|e]; [|typed_solve].
  apply typed_gets. intros s Hs. typed_solve. apply typed_commit. apply Forall_app. split; [|apply myTermPutOps_ok].
  apply leaderPutOps_ok; [exact Hs|apply u64_range].
Qed.

Lemma typed_updateLease : keeps typed (updateLeaseExpireTS (D := D) cfg).
Proof. by intros w ([? ?] & ?). Qed.
Hint Resolve typed_updateLease : moha.

Lemma typed_resume : keeps typed (resumeLeader (D := D) cfg node_ID).
Proof.
  unfold resumeLeader. apply keeps_bind; [exact _|apply typed_grant|]. intros [l|e]; [|typed_solve].
  apply typed_gets. intros s Hs. typed_solve. apply typed_commit. apply leaderPutOps_ok; [exact Hs|apply Hs].
Qed.

Lemma typed_campaign_sp : keeps typed (campaignLeaderAsSinglePoint (D := D) cfg node_ID).
Proof.
  unfold campaignLeaderAsSinglePoint. apply typed_gets. intros s Hs. typed_solve. apply typed_commit.
  cbn [Success campaignSinglePoint_txn Concatenate fold_left]. rewrite !Forall_app.
  split_and!; [apply leaderPutOps_ok; [exact Hs|apply u64_range]|apply myTermPutOps_ok|apply spmPutOps_ok].
Qed.

Lemma typed_resume_sp : keeps typed (resumeLeaderAsSinglePoint (D := D) cfg node_ID).
Proof.
  unfold resumeLeaderAsSinglePoint. apply typed_gets. intros s Hs. typed_solve. apply typed_commit.
  cbn [Success resumeSinglePoint_txn Concatenate fold_left]. rewrite !Forall_app.
  split_and!; [apply leaderPutOps_ok; [exact Hs|apply Hs]|apply myTermPutOps_ok|apply spmPutOps_ok].
Qed.

Lemma typed_delete : keeps typed (deleteLeaderKey (D := D) cfg node_ID).
Proof. unfold deleteLeaderKey. typed_solve. apply typed_commit. by repeat constructor. Qed.

Lemma typed_persist : keeps typed (persistMyTerm (D := D) cfg node_ID).
Proof.
  unfold persistMyTerm. apply typed_gets. intros s Hs. typed_solve.
  apply (typed_put ["election"; "terms"; node_ID]); [split; [done|by repeat constructor]|by apply myTermPath_elems|].
  intros _. exists (term s). split; [apply Hs|done].
Qed.
Hint Resolve typed_campaign typed_resume typed_campaign_sp typed_resume_sp typed_delete typed_persist : moha.

Lemma gives_getLeader :
  gives (fun r => match r with inl (l, t) => leader_ok l /\ is_u64 t | inr _ => True end)
    (getLeaderAndMyTerm (D := D) cfg node_ID).
Proof.
  intros w r w'. unfold getLeaderAndMyTerm, bind.
  destruct (commit (getLeader_txn cfg node_ID) w) as [[[resp|e]| | |] w1]; try done; intros [= <- <-]; [|done].
  destruct (read_responses cfg node_ID (zero_Leader, 0) (Responses resp)) as [[l t]|] eqn:E; [|done].
  eapply read_responses_ok in E; [exact E|split; exact zero_u64|exact zero_u64].
Qed.

(** *** Loading the log *)

Lemma set_log_ok (u g : string) (e : Z) (s : Server) : is_u64 e -> server_ok s -> server_ok (set_log u g e s).
Proof. intros He [Ht _]. by split. Qed.

Lemma gives_master_info :
  gives (fun r => match r with Some (inl (_, _, e)) => is_u64 e | _ => True end)
    (svc_call (D := D) LoadReplicationInfoOfMaster).
Proof.
  intros w r w'. unfold svc_call. destruct (LoadReplicationInfoOfMaster (svc w)) as [r1 d] eqn:E.
  intros [= <- <-]. destruct r1 as [[[[u g] e]|]|]; try done. by eapply master_info_u64.
Qed.

Lemma gives_slave_info :
  gives (fun r => match r with inl (_, _, e) => is_u64 e | _ => True end)
    (svc_call (D := D) LoadReplicationInfoOfSlave).
Proof.
  intros w r w'. unfold svc_call. destruct (LoadReplicationInfoOfSlave (svc w)) as [r1 d] eqn:E.
  intros [= <- <-]. destruct r1 as [[[u g] e]|]; [|done]. by eapply slave_info_u64.
Qed.

(** Start with the loaded information and go on as usual. *)
Ltac typed_master :=
  eapply typed_bind; [apply gives_master_info|apply typed_svc_call|];
  intros [[[[u g] e]|]|] He; typed_solve; try (by apply typed_modify; intros; apply set_log_ok).
Ltac typed_slave :=
  eapply typed_bind; [apply gives_slave_info|apply typed_svc_call|];
  intros [[[u g] e]|] He; typed_solve; try (apply typed_modify; intros; apply set_log_ok; auto with moha).

Lemma typed_load_master : keeps typed (loadMasterLogFromMySQL (D := D)).
Proof. unfold loadMasterLogFromMySQL. typed_master. Qed.
Lemma typed_load_slave : keeps typed (loadSlaveLogFromMySQL (D := D)).
Proof. unfold loadSlaveLogFromMySQL. typed_slave. Qed.
Lemma typed_uploadLog (l : LogForElection) : keeps typed (uploadLogForElection (D := D) cfg node_ID l).
Proof.
  unfold uploadLogForElection. typed_solve. apply (typed_put ["election"; "nodes"; node_ID]).
  - split; [done|by repeat constructor].
  - apply join_elems; [done|by repeat constructor].
  - intros Hc. inversion Hc.
Qed.
Hint Resolve typed_uploadLog : moha.
Lemma typed_upload_master : keeps typed (uploadLogForElectionAsFormerMaster (D := D) cfg node_ID).
Proof. unfold uploadLogForElectionAsFormerMaster. typed_master. Qed.
Lemma typed_upload_slave : keeps typed (uploadLogForElectionAsSlave (D := D) cfg node_ID).
Proof. unfold uploadLogForElectionAsSlave. typed_slave. Qed.
Hint Resolve typed_load_master typed_load_slave typed_upload_master typed_upload_slave : moha.

Lemma typed_preCampaign (fuel : nat) (b : bool) : keeps typed (preCampaign (D := D) cfg node_ID fuel b).
Proof. unfold preCampaign, getAllLogsForElection. typed_solve. Qed.
Hint Resolve typed_preCampaign : moha.

(** *** The rest of the loop *)

Lemma typed_Close : keeps typed (Close (D := D) cfg node_ID).
Proof.
  unfold Close, setServiceReadonlyOrShutdown, sm_SetReadOnly, forceClose, Unregister, UnregisterNode. typed_solve.
  apply typed_etcd_call. intros st. by apply Delete_readable.
Qed.

(** The record of the switch is at a key of its own. *)
Lemma typed_switch (t : Z) (v : string) :
  keeps typed (etcd_call (D := D) (Client.Put (rootPath cfg) (join ["switch"; FormatUint (u64 (t - 1)); node_ID]) v 0)).
Proof.
  apply (typed_put ["switch"; FormatUint (u64 (t - 1)); node_ID]).
  - split; [done|]. repeat constructor; auto using FormatUint_plain.
  - apply join_elems; [done|]. repeat constructor; auto using FormatUint_plain.
  - intros Hc. inversion Hc.
Qed.
Hint Resolve typed_switch : moha.

Lemma typed_promote : keeps typed (promoteToMaster (D := D) cfg node_ID).
Proof.
  unfold promoteToMaster, amILeader, setIsLeaderToTrue, sm_SetReadWrite, sm_PromoteToMaster,
    uploadPromotionBinlog. typed_solve.
Qed.

Lemma typed_becomeSlave (h p : string) : keeps typed (becomeSlave (D := D) h p).
Proof.
  unfold becomeSlave. apply keeps_bind; [exact _|unfold sm_RedirectMaster; typed_solve|].
  generalize 10%nat as n. induction n as [|n IH]; intros [e|]; cbn; unfold sm_RedirectMaster; typed_solve.
Qed.

Lemma typed_set_term (t : Z) : is_u64 t -> keeps typed (modify (D := D) (set_term t)).
Proof. intros Ht. apply typed_modify. intros s [_ Hs]. by split. Qed.

Lemma typed_preWatch (l : Leader) : leader_ok l -> keeps typed (preWatch (D := D) cfg node_ID l).
Proof.
  intros [Ht _]. pose proof (typed_set_term _ Ht) as Hset.
  assert (keeps typed (preWatch_body (D := D) node_ID l)) as H1 by (unfold preWatch_body; typed_solve).
  intros w. unfold preWatch. specialize (H1 w).
  destruct (preWatch_body node_ID l w) as [[[e|]| | |] w']; cbn [snd] in *; try done;
    (etrans; [exact H1|]); apply keeps_bind; try exact _; typed_solve.
Qed.

Lemma typed_watch (Watch : nat -> Z -> list WatchResponse) (fuel : nat) (rev : Z) :
  keeps typed (watchLeader (D := D) Watch fuel rev).
Proof. revert rev. induction fuel as [|n IH]; intros rev; cbn; typed_solve. Qed.

(** The remaining goroutines keep the counters in range and readable. *)
Definition typed_disturbance (d : disturbance D) : Prop :=
  (forall s, server_ok s -> server_ok (d_srv d s)) /\ (forall st, readable cfg st -> readable cfg (d_etcd d st)).

Lemma typed_disturb (d : disturbance D) : typed_disturbance d -> keeps typed (disturb d).
Proof. intros [H1 H2] w (Hs & Hst & Ho). split_and!; [by apply H1|by apply H2|exact Ho]. Qed.

Lemma typed_helpers (l : Z) (c : select_case) (h : helpers) : keeps typed (helpers_turn (D := D) cfg l c h).
Proof.
  apply keeps_helpers; [exact _|unfold KeepAliveOnce, setServiceReadonlyOrShutdown, sm_SetReadOnly, forceClose; typed_solve..].
  apply typed_etcd_call. intros st. apply Renew_readable.
Qed.

Lemma typed_in_office (l : Z) (turns : list (turn D)) (t : thread D bool) :
  Forall (fun x => typed_disturbance x.1) turns -> thread_keeps typed t -> keeps typed (in_office cfg l turns t).
Proof.
  intros Ht Hk. apply keeps_in_office; [exact _|apply typed_helpers| |done].
  eapply Forall_impl; [exact Ht|]. intros x. apply typed_disturb.
Qed.

Ltac typed_threads :=
  repeat thread_step; eauto with moha;
  try (apply typed_close_chan; by intros ? ? [? ?]); try (apply typed_modify; by intros ? [? ?]).

Lemma typed_taking_over : thread_keeps typed (taking_over (D := D) cfg node_ID).
Proof.
  unfold taking_over, promoting, amILeader, setIsLeaderToTrue, sm_SetReadWrite, sm_PromoteToMaster,
    setServiceReadonlyOrShutdown, sm_SetReadOnly, forceClose. typed_threads.
Qed.

Lemma typed_resuming : thread_keeps typed (resuming (D := D)).
Proof. unfold resuming, setIsLeaderToTrue, sm_SetReadWrite, sm_SetReadOnly. typed_threads. Qed.
Hint Resolve typed_Close typed_promote typed_becomeSlave typed_watch : moha.

Lemma typed_single_point (fuel : nat) (resume : bool) :
  keeps typed (becomeSinglePointMaster (D := D) cfg node_ID fuel resume).
Proof.
  unfold becomeSinglePointMaster, setIsLeaderToTrue, ignore, removeSPMFromEtcd, sm_SetReadOnly, setIsSPMToTrue,
    setIsSPMToFalse, waitUntilSlaveAppears. typed_solve.
  1: apply typed_etcd_call; intros st; by apply Delete_readable.
  induction fuel as [|n IH]; cbn; unfold pollAllRegisteredAgents; typed_solve.
Qed.
Hint Resolve typed_single_point : moha.

Context (Watch : nat -> Z -> list WatchResponse) (turns : list (turn D)) (fuel : nat).
Context (Hturns : Forall (fun x => typed_disturbance x.1) turns).

Lemma typed_office_here (l : Z) (t : thread D bool) : thread_keeps typed t -> keeps typed (in_office cfg l turns t).
Proof. by apply typed_in_office. Qed.
Hint Resolve typed_office_here typed_taking_over typed_resuming : moha.

Lemma typed_loop_resume (l : Leader) : leader_ok l -> keeps typed (loop_resume cfg node_ID turns fuel l).
Proof.
  intros [Ht Hx]. pose proof (typed_set_term _ Ht) as Hset.
  unfold loop_resume. typed_solve; try (apply typed_modify; intros; by apply set_log_ok).
Qed.

Lemma typed_loop_follow (l : Leader) : leader_ok l -> keeps typed (loop_follow (D := D) cfg node_ID Watch fuel l).
Proof.
  intros Hl. pose proof (typed_preWatch l Hl) as Hp.
  unfold loop_follow, doChangeMaster, get_NodeStatus, setIsLeaderToFalse. typed_solve.
Qed.

Lemma typed_loop_campaign (l : Leader) : keeps typed (loop_campaign cfg node_ID turns fuel l).
Proof.
  unfold loop_campaign, after_win. typed_solve; apply typed_modify; intros s [_ Hs]; split; cbn; auto using u64_range.
Qed.

(** One iteration, whatever etcd answers: a term or a number that is not one is
    an error or 0, never a value out of range. *)
Lemma typed_body : keeps typed (leaderLoop_body cfg node_ID Watch turns fuel).
Proof.
  unfold leaderLoop_body. eapply typed_bind; [apply gives_getLeader|apply typed_getLeader|].
  intros [[l t]|e] Hr; [destruct Hr as [Hl Ht]|typed_solve].
  apply keeps_bind; [exact _|by apply typed_set_term|intros _].
  destruct (negb _); [destruct (isSameLeader _ _)|];
    auto using typed_loop_resume, typed_loop_follow, typed_loop_campaign.
Qed.
End Typing.
