(* ===== verification/Lease.v ===== *)
(** * The lease monitor: [leaseExpireMonitorLoop] of [agent/leader.go]

    A leader that cannot renew its lease must stop before etcd lets somebody
    else take over.  A timer goroutine compares the clock with the deadline
    that [updateLeaseExpireTS] left in [leaseExpireTS] and exits the process
    when it is reached; it ends when the stop channel of the leader is closed or
    the server is closed.  Times are in nanoseconds; [leaseExpireTS] and the
    clock it is compared with are in whole seconds, rounded down. *)

From stdpp Require Import gmap strings list.
From Stdlib Require Import ZArith Lia.
From S2P Require Import Prelude GoStrings Etcd World ServiceManager Demo Leader ServerLoop.

Section Monitor.
Context (cfg : Config).

(** What [updateLeaseExpireTS] stores at time [t]. *)
Definition deadline (t : Z) : Z :=
  (t + LeaderLeaseTTL cfg * Second - ShutdownThreshold cfg * Second) / Second.

(** How the goroutine ends: it exits the process, or it was told to stop. *)
Inductive monitor_end := Forced (t : Z) | Told (t : Z).

(** The loop, that enters its [select] at [entry] with a timer that is due at
    [due]; the body of [case <-timer.C] is [monitor_fire].  [expireTS] is the
    value of [leaseExpireTS] over time, [lat] how late the goroutine runs, [stop]
    the moment from which [leaderStopCh] is closed or the context done, and
    [pick] what [select] does when it finds both ready. *)
Fixpoint leaseExpireMonitorLoop (fuel : nat) (expireTS lat : Z -> Z) (stop : option Z) (pick : Z -> bool) (entry due : Z)
    : option monitor_end :=
  match fuel with
  | O => None
  | S n =>
      let fire :=
        let t := due + lat due in
        match monitor_fire (expireTS t) t with
        | None => Some (Forced t)
        | Some d => leaseExpireMonitorLoop n expireTS lat stop pick t (t + d)
        end in
      match stop with
      | None => fire
      | Some s =>
          if (if s <=? entry then if due <=? entry then pick entry else true
              else if s =? due then pick due else s <? due)
          then Some (Told (Z.max s entry))
          else fire
      end
  end.

Lemma Second_pos : 0 < Second.
Proof. reflexivity. Qed.

(** The deadline in the code is the one of the model. *)
Lemma updateLeaseExpireTS_deadline {D} (w : world D) :
  leaseExpireTS (srv (snd (updateLeaseExpireTS cfg w))) = deadline (now w).
Proof. reflexivity. Qed.

Lemma deadline_mono (t t' : Z) : t <= t' -> deadline t <= deadline t'.
Proof. intros Ht. apply Z.div_le_mono; [exact Second_pos|]. lia. Qed.

Lemma deadline_bound (t : Z) :
  (deadline t + 1) * Second <= t + (LeaderLeaseTTL cfg - ShutdownThreshold cfg) * Second + Second.
Proof.
  unfold deadline. pose proof (Z.mul_div_le (t + LeaderLeaseTTL cfg * Second - ShutdownThreshold cfg * Second)
    Second Second_pos). lia.
Qed.

(** A timer reset by [monitor_fire] is due within the second of the deadline. *)
Lemma reset_due (expire t d : Z) :
  monitor_fire expire t = Some d ->
  (t + d) / Second = expire /\ t / Second < expire /\ t + d < (expire + 1) * Second.
Proof.
  unfold monitor_fire. destruct (Z.leb_spec (expire - t / Second) 0); [done|]. intros [= <-].
  pose proof Second_pos. rewrite Z.div_add by lia. split_and!; [lia|lia|].
  pose proof (Z.mul_succ_div_gt t Second Second_pos). lia.
Qed.

(** It ends within the second of the deadline, for the reason the loop gives. *)
Definition ended_by (stop : option Z) (bound : Z) (r : monitor_end) : Prop :=
  match r with
  | Forced t => t < bound
  | Told t => t < bound /\ exists s, stop = Some s /\ s <= t
  end.

Lemma monitor_loop_ends (expireTS lat : Z -> Z) (stop : option Z) (pick : Z -> bool) (E eps : Z) (fuel : nat) (entry due : Z) :
  (forall t, expireTS t <= E) -> (forall t, 0 <= lat t <= eps) ->
  entry <= due -> due < (E + 1) * Second -> E - due / Second < Z.of_nat fuel ->
  exists r, leaseExpireMonitorLoop fuel expireTS lat stop pick entry due = Some r /\
    ended_by stop ((E + 1) * Second + eps) r.
Proof.
  intros HE Hlat. assert (0 <= eps) as He by (specialize (Hlat 0); lia). revert entry due.
  induction fuel as [|n IH]; intros entry due Hen Hdue Hf.
  { exfalso. pose proof Second_pos. assert (due / Second < E + 1) by (apply Z.div_lt_upper_bound; lia). lia. }
  cbn [leaseExpireMonitorLoop].
  assert (exists r, (match monitor_fire (expireTS (due + lat due)) (due + lat due) with
                     | None => Some (Forced (due + lat due))
                     | Some d => leaseExpireMonitorLoop n expireTS lat stop pick (due + lat due) (due + lat due + d)
                     end) = Some r /\ ended_by stop ((E + 1) * Second + eps) r) as Hfire.
  { destruct (monitor_fire (expireTS (due + lat due)) (due + lat due)) as [d|] eqn:Em.
    - destruct (reset_due _ _ _ Em) as (H1 & H2 & H3). specialize (HE (due + lat due)). pose proof Second_pos.
      assert (0 <= d).
      { revert Em. unfold monitor_fire. destruct (Z.leb_spec (expireTS (due + lat due) - (due + lat due) / Second) 0); [done|].
        intros [= <-]. nia. }
      apply IH; [lia|nia|]. rewrite H1.
      assert (due / Second <= (due + lat due) / Second)
        by (apply Z.div_le_mono; [exact Second_pos|specialize (Hlat due); lia]). lia.
    - eexists. split; [reflexivity|]. cbn. specialize (Hlat due). lia. }
  destruct stop as [s|]; [|exact Hfire].
  destruct (Z.leb_spec s entry), (Z.leb_spec due entry), (Z.eqb_spec s due), (Z.ltb_spec s due);
    try destruct (pick entry); try destruct (pick due); try exact Hfire;
    (eexists; split; [reflexivity|]; cbn; split; [lia|exists s; split; [done|lia]]).
Qed.
End Monitor.

(** C10. A leader cut off from etcd is gone before its lease is.  If no renewal is
    recorded after time [last], the goroutine ends before the lease expires at
    etcd, and it ends by exiting the process unless the stop channel or the
    server was closed before; provided that the lease was renewed at most
    [delay] before [last], that the goroutine runs at most [eps] late, and that
    the shutdown threshold covers both and one second of rounding, and is not
    above the life of the lease. *)
Theorem monitor_exits_before_expiry (cfg : Config) (expireTS lat : Z -> Z) (stop : option Z) (pick : Z -> bool)
    (start last renewed eps delay : Z) :
  (forall t, expireTS t <= deadline cfg last) -> (forall t, 0 <= lat t <= eps) ->
  last - delay <= renewed -> start <= last ->
  Second + eps + delay <= ShutdownThreshold cfg * Second ->
  ShutdownThreshold cfg <= LeaderLeaseTTL cfg ->
  exists fuel r, leaseExpireMonitorLoop fuel expireTS lat stop pick start start = Some r /\
    match r with
    | Forced T => T < renewed + LeaderLeaseTTL cfg * Second
    | Told T => T < renewed + LeaderLeaseTTL cfg * Second /\ exists s, stop = Some s /\ s <= T
    end.
Proof.
  intros HE Hlat Hren Hstart Hthr Httl.
  assert (Hlast : last < (deadline cfg last + 1) * Second).
  { unfold deadline. pose proof Second_pos.
    pose proof (Z.mul_succ_div_gt
      (last + LeaderLeaseTTL cfg * Second - ShutdownThreshold cfg * Second) Second Second_pos). nia. }
  destruct (monitor_loop_ends expireTS lat stop pick (deadline cfg last) eps
              (Z.to_nat (deadline cfg last - start / Second + 1)) start start HE Hlat) as (r & E & Hr); [lia..|].
  eexists. exists r. split; [exact E|]. pose proof (deadline_bound cfg last).
  destruct r as [T|T]; cbn in Hr; [lia|]. split; [lia|apply Hr].
Qed.

Lemma monitor_exits_witness :
  exists fuel r, leaseExpireMonitorLoop fuel (fun _ => deadline demo_cfg 0) (fun _ => 0) None (fun _ => true) 0 0 = Some r /\
    match r with
    | Forced T => T < 0 + LeaderLeaseTTL demo_cfg * Second
    | Told T => T < 0 + LeaderLeaseTTL demo_cfg * Second /\ exists s, @None Z = Some s /\ s <= T
    end.
Proof.
  apply (monitor_exits_before_expiry demo_cfg (fun _ => deadline demo_cfg 0) (fun _ => 0) None (fun _ => true) 0 0 0 0 Second);
    try (vm_compute; congruence); intros; split; reflexivity || lia.
Defined.
