(* ===== verification/Http.v ===== *)
(** * The HTTP handlers: [agent/http.go]

    Each handler is a computation on the memory of the process that returns
    the status code and the lines it writes.  The theorems: what the health
    checks tell a load balancer, that a leader stops writes before it gives
    the leader key up, and three requests that do harm: [ChangeMaster] where the
    stop channel is not open, [SetReadWrite] after [ChangeMaster], and
    [SetReadWrite] after a failed return to single point mode. *)

From stdpp Require Import gmap strings list.
From Stdlib Require Import ZArith Lia.
From S2P Require Import Prelude GoStrings Json Gtid Etcd World ServiceManager Demo Leader Node Election ServerLoop ServerProofs AgentSpec.
Import Mvcc.

Record Response := mkHttpResponse { Code : Z; Body : list string }.

Definition StatusOK : Z := 200.
Definition StatusTeapot : Z := 418.

Section Handlers.
Context {D : Type} `{ServiceManager D}.
Context (cfg : Config) (node_ID : string).

Definition teapot : Response := mkHttpResponse StatusTeapot ["I'm a teapot"].

(** [MasterCheck]: 200 for the load balancer exactly on the leader. *)
Definition MasterCheck : M D Response :=
  let! leader := amILeader in
  ret (if leader then mkHttpResponse StatusOK ["ok"] else teapot).

(** [SlaveCheck]: reads may go to followers, and to a single point master. *)
Definition SlaveCheck : M D Response :=
  let! leader := amILeader in
  let! sp := amISPM in
  ret (if negb leader || sp then mkHttpResponse StatusOK ["ok"] else teapot).

Definition ChangeMaster : M D Response :=
  let! leader := amILeader in
  if leader then
    do! setServiceReadonlyOrShutdown in
    let! _ := deleteLeaderKey cfg node_ID in
    do! sleep (500 * Millisecond) in
    do! close_chan leaderStopCh set_leaderStopCh in
    ret (mkHttpResponse StatusOK ["current node is leader and has given up leader successfully"])
  else
    ret (mkHttpResponse StatusOK ["current node is not leader, change master should be applied on leader"]).

Definition http_SetReadOnly : M D Response :=
  let! leader := amILeader in
  if leader then
    let! r := svc_call SetReadOnlyManually in
    match r with
    | (_, Some _) => ret (mkHttpResponse StatusOK ["set current node readonly fail";
                                                  "error when set current node readonly"])
    | (true, None) => ret (mkHttpResponse StatusOK ["set current node readonly success"])
    | (false, None) => ret (mkHttpResponse StatusOK ["set current node readonly fail"])
    end
  else ret (mkHttpResponse StatusOK ["set current node readonly fail";
              "current node is not leader, so no need to set readonly"]).

Definition http_SetReadWrite : M D Response :=
  let! leader := amILeader in
  if leader then
    let! err := sm_SetReadWrite in
    match err with
    | Some _ => ret (mkHttpResponse StatusOK ["set current node readwrite fail";
                                             "error when set current node readwrite"])
    | None => ret (mkHttpResponse StatusOK ["set current node readwrite success"])
    end
  else ret (mkHttpResponse StatusOK ["set current node readwrite fail";
              "current node is not leader, so no need to set readwrite"]).

(** [SetOnlyFollow]; the argument is [r.URL.Query()["onlyFollow"]]. *)
Definition SetOnlyFollow (operation : option (list string)) : M D Response :=
  match operation with
  | None | Some [] => ret (mkHttpResponse StatusOK ["has no onlyFollow in query"])
  | Some (op :: _) =>
      if String.eqb op "true" then
        do! modify (set_onlyFollow true) in ret (mkHttpResponse StatusOK ["set onlyFollow to true"])
      else if String.eqb op "false" then
        do! modify (set_onlyFollow false) in ret (mkHttpResponse StatusOK ["set onlyFollow to false"])
      else ret (mkHttpResponse StatusOK ["set onlyFollow operation is undefined " +:+ op])
  end.

(** [Status]: the fields of [agentStatus] in the order of the struct. *)
Definition Status_json (s : agentStatus) : json :=
  JObj [("id", JStr (st_ID s)); ("master", JBool (st_Master s)); ("only_follow", JBool (st_OnlyFollow s));
        ("io_thread_ok", JBool (st_IOThreadOK s)); ("sql_thread_ok", JBool (st_SQLThreadOK s));
        ("readonly", JBool (st_Readonly s));
        ("seconds_behind_master", JNum (FormatInt (st_SecondsBehindMaster s)));
        ("term", JNum (FormatUint (st_Term s))); ("single_point_master", JBool (st_SinglePointMaster s))].

Definition Status : M D Response :=
  let! s := getServerStatus cfg node_ID in
  ret (mkHttpResponse StatusOK [print_json (Status_json s)]).

End Handlers.

(** ** Theorems *)

(** The health checks partition the nodes for a load balancer: a node takes
    writes exactly when it is the leader, and every node takes reads or is a
    leader with followers. *)
Theorem checks_partition {D} `{ServiceManager D} (w : world D) :
  exists m s, MasterCheck w = (Ret m, w) /\ SlaveCheck w = (Ret s, w) /\
    (Code m = StatusOK <-> isLeader (srv w) = true) /\
    (Code s = StatusOK <-> isLeader (srv w) = false \/ isSinglePointMaster (srv w) = true) /\
    (isSinglePointMaster (srv w) = false -> Code m = StatusOK <-> Code s = StatusTeapot).
Proof.
  unfold MasterCheck, SlaveCheck, amILeader, amISPM, bind, gets, ret.
  do 2 eexists. split; [reflexivity|]. split; [reflexivity|]. destruct (isLeader (srv w)), (isSinglePointMaster (srv w));
    cbn; intuition (try done; try discriminate).
Qed.

Section ChangeMasterSpec.
Context {D : Type} `{HS : ServiceManager D} `{HOk : !ServiceManagerOk D}.
Context (cfg : Config) (node_ID : string).

(** C18. [ChangeMaster] on a leader with an open stop channel stops writes before
    it gives the key up: when it answers, the service accepts no writes, the
    keep-alive loop has been told to stop, and the write stop came before the
    request that deletes the key.  When writes cannot be stopped the process
    exits with the key untouched. *)
Theorem ChangeMaster_stops_writes_first (w : world D) :
  isLeader (srv w) = true -> leaderStopCh (srv w) = ChOpen ->
  exists o w', ChangeMaster cfg node_ID w = (o, w') /\
    match o with
    | Ret _ => accepts_writes (svc w') = false /\ leaderStopCh (srv w') = ChClosed /\
               exists b, trace w' = ESleep (500 * Millisecond) :: ETxn (deleteLeader_txn cfg node_ID) b
                                      :: ESetReadOnly None :: trace w
    | Exited c => c = 3 /\ etcd w' = etcd w
    | _ => False
    end.
Proof.
  intros Hl Hc. unfold ChangeMaster, amILeader. unfold bind at 1, gets. rewrite Hl.
  unfold bind at 1, setServiceReadonlyOrShutdown. unfold bind at 1.
  unfold sm_SetReadOnly, svc_call, bind, log_event, ret.
  destruct (SetReadOnly (svc w)) as [[e|] d] eqn:Es.
  { do 2 eexists. split; [reflexivity|]. by split. }
  apply SetReadOnly_ok in Es as [Hw _]. unfold deleteLeaderKey, bind.
  set (w1 := with_event (ESetReadOnly None) (with_svc d w)).
  destruct (commit_ret (deleteLeader_txn cfg node_ID) w1) as (r & w2 & -> & Hs2 & Hv2 & _ & _ & _ & Ht2 & _).
  subst w1. destruct r as [[[] rs]|e]; cbn; rewrite Hs2; unfold close_chan; cbn; rewrite Hc; do 2 eexists; (split; [reflexivity|]);
    cbn; rewrite Hv2, Ht2; cbn; eauto.
Qed.

(** [ChangeMaster] panics, after it stopped writes, on a leader whose stop
    channel is not open: in single point mode, where no channel is made, and
    when it is asked twice. *)
Theorem ChangeMaster_panics (w w' : world D) (o : outcome Response) :
  isLeader (srv w) = true -> leaderStopCh (srv w) <> ChOpen ->
  ChangeMaster cfg node_ID w = (o, w') -> o = Panicked \/ o = Exited 3.
Proof.
  intros Hl Hc. unfold ChangeMaster, amILeader. unfold bind at 1, gets. rewrite Hl.
  unfold bind at 1, setServiceReadonlyOrShutdown. unfold bind at 1.
  unfold sm_SetReadOnly, svc_call, bind, log_event, ret.
  destruct (SetReadOnly (svc w)) as [[e|] d] eqn:Es; [intros [= <- <-]; auto|].
  unfold deleteLeaderKey, bind.
  set (w1 := with_event (ESetReadOnly None) (with_svc d w)).
  destruct (commit_ret (deleteLeader_txn cfg node_ID) w1) as (r & w2 & -> & Hs2 & _).
  subst w1. destruct r as [[[] rs]|e]; cbn; rewrite Hs2; unfold close_chan; cbn; destruct (leaderStopCh (srv w)); try done;
    intros [= <- <-]; auto.
Qed.

(** [SetReadWrite] looks only at the flag [isLeader], and asks the service to
    accept writes whatever etcd holds. *)
Lemma SetReadWrite_granted (w : world D) :
  isLeader (srv w) = true ->
  exists e r w', http_SetReadWrite w = (Ret r, w') /\ etcd w' = etcd w /\
    trace w' = ESetReadWrite e :: trace w /\ (e = None -> IsReadOnly (svc w') = false).
Proof.
  intros Hl. unfold http_SetReadWrite, amILeader, bind, gets. rewrite Hl.
  unfold sm_SetReadWrite, bind, svc_call, log_event, ret.
  destruct (SetReadWrite (svc w)) as [e d] eqn:Es. exists e.
  destruct e; do 2 eexists; (split; [reflexivity|]); split_and!; try done.
  intros _. cbn. by apply SetReadWrite_ok in Es.
Qed.

(** Writes without a won transaction: a single point master that comes back
    counts as leader before it asks etcd.  When etcd answers that another node
    has the key, [becomeSinglePointMaster] returns with the flag set, and
    [SetReadWrite] is not refused. *)
Theorem failed_resume_grants_writes (fuel : nat) (w w1 : world D) :
  resumeLeaderAsSinglePoint cfg node_ID (with_srv (set_isLeader true) w) = (Ret (inl false), w1) ->
  becomeSinglePointMaster cfg node_ID fuel true w = (Ret tt, w1) /\
  exists e r2 w2, http_SetReadWrite w1 = (Ret r2, w2) /\ etcd w2 = etcd w1 /\
    trace w2 = ESetReadWrite e :: trace w1 /\ (e = None -> IsReadOnly (svc w2) = false).
Proof.
  intros E. split.
  - unfold becomeSinglePointMaster, setIsLeaderToTrue. unfold bind at 1, modify.
    destruct fuel; cbn [retry]; unfold bind; by rewrite E.
  - apply SetReadWrite_granted. revert E. unfold resumeLeaderAsSinglePoint, bind at 1, gets. unfold bind, ret.
    match goal with |- context [commit ?rt ?v] => destruct (commit_ret rt v) as (r & w2 & -> & Hs & _) end.
    destruct r as [resp|e]; [|done]. intros [= _ <-]. by rewrite Hs.
Qed.

(** Writes without leadership: right after a [ChangeMaster] that gave the
    leader key up, [SetReadWrite] on the same node is not refused.  It looks
    only at the flag [isLeader], which the change does not clear, and asks the
    service to accept writes whatever etcd holds. *)
Theorem SetReadWrite_after_ChangeMaster (w w1 : world D) (r : Response) :
  isLeader (srv w) = true -> ChangeMaster cfg node_ID w = (Ret r, w1) ->
  exists e r2 w2, http_SetReadWrite w1 = (Ret r2, w2) /\ etcd w2 = etcd w1 /\
    trace w2 = ESetReadWrite e :: trace w1 /\ (e = None -> IsReadOnly (svc w2) = false).
Proof.
  intros Hl E. assert (isLeader (srv w1) = true) as Hl1.
  { revert E. unfold ChangeMaster, amILeader. unfold bind at 1, gets. rewrite Hl.
    unfold bind at 1, setServiceReadonlyOrShutdown. unfold bind at 1.
    unfold sm_SetReadOnly, svc_call, bind, log_event, ret.
    destruct (SetReadOnly (svc w)) as [[e|] d]; [done|]. unfold deleteLeaderKey, bind.
    set (w0 := with_event (ESetReadOnly None) (with_svc d w)).
    destruct (commit_ret (deleteLeader_txn cfg node_ID) w0) as (r0 & w2 & -> & Hs2 & _).
    subst w0. destruct r0 as [[[] rs]|e]; cbn; rewrite Hs2; unfold close_chan; cbn;
      destruct (leaderStopCh (srv w)); try done; intros; simplify_eq/=; by rewrite ?Hs2. }
  by apply SetReadWrite_granted.
Qed.
End ChangeMasterSpec.

(** The theorems on a node that leads the concrete cluster. *)
Definition demo_serving : world demo_service :=
  with_srv (fun s => set_isLeader true (set_leaderStopCh ChOpen s)) demo_leading.
Definition demo_single_point : world demo_service :=
  with_srv (fun s => set_isLeader true (set_isSinglePointMaster true s)) demo_leading.

Lemma ChangeMaster_witness :
  exists o w', ChangeMaster demo_cfg demo_id demo_serving = (o, w') /\
    match o with
    | Ret _ => accepts_writes (svc w') = false /\ leaderStopCh (srv w') = ChClosed /\
               exists b, trace w' = ESleep (500 * Millisecond) :: ETxn (deleteLeader_txn demo_cfg demo_id) b
                                      :: ESetReadOnly None :: trace demo_serving
    | Exited c => c = 3 /\ etcd w' = etcd demo_serving
    | _ => False
    end.
Proof. apply (ChangeMaster_stops_writes_first demo_cfg demo_id demo_serving); reflexivity. Defined.

Lemma ChangeMaster_panics_witness :
  let r := ChangeMaster demo_cfg demo_id demo_single_point in r.1 = Panicked \/ r.1 = Exited 3.
Proof.
  apply (ChangeMaster_panics demo_cfg demo_id demo_single_point
           (ChangeMaster demo_cfg demo_id demo_single_point).2); [reflexivity|discriminate|].
  apply surjective_pairing.
Defined.

Lemma SetReadWrite_after_witness :
  exists e r2 w2, http_SetReadWrite (ChangeMaster demo_cfg demo_id demo_serving).2 = (Ret r2, w2) /\
    etcd w2 = etcd (ChangeMaster demo_cfg demo_id demo_serving).2 /\
    trace w2 = ESetReadWrite e :: trace (ChangeMaster demo_cfg demo_id demo_serving).2 /\
    (e = None -> IsReadOnly (svc w2) = false).
Proof.
  eapply (SetReadWrite_after_ChangeMaster demo_cfg demo_id demo_serving); [reflexivity|].
  vm_compute. reflexivity.
Defined.
