(* ===== verification/Race.v ===== *)
(** * The promotion and a change of master

    After a won campaign [leaderLoop] starts [keepLeaderAliveLoop] in a
    goroutine of its own and promotes the node in the main one.  Here the
    handler of [ChangeMaster] runs while the promotion is under way: what it
    does is a disturbance of the schedule, and the keep-alive goroutine takes
    the case of the stop channel. *)

From stdpp Require Import gmap strings list.
From Stdlib Require Import ZArith Lia.
From S2P Require Import Prelude GoStrings Json Gtid Etcd World ServiceManager Demo Leader Node Election ServerLoop Threads ServerProofs AgentSpec Cluster Serving Http.
Import Mvcc.

Section Race.
Context {D : Type} `{HS : ServiceManager D} `{RangeOrder} `{HOk : !ServiceManagerOk D}.
Context (cfg : Config) (node_ID : string) (Hid : plain_elem node_ID = true).

Abbreviation L := (fullLeaderPath cfg).

(** What [ChangeMaster] does on a leader: the write stop, the removal of the
    leader key, half a second, and the stop channel. *)
Definition change_master : disturbance D :=
  mkDist (set_leaderStopCh ChClosed) (fun d => (SetReadOnly d).2)
    (fun st => (Txn (deleteLeader_txn cfg node_ID) st).2) (500 * Millisecond).

Lemma ChangeMaster_disturbs (w w' : world D) (r : Http.Response) :
  oracle w = [] -> ctxDone (srv w) = false -> isLeader (srv w) = true -> leaderStopCh (srv w) = ChOpen ->
  ChangeMaster cfg node_ID w = (Ret r, w') ->
  let w1 := (disturb change_master w).2 in
  srv w' = srv w1 /\ svc w' = svc w1 /\ etcd w' = etcd w1 /\ now w' = now w1.
Proof.
  intros Ho Hc Hl Hch. unfold ChangeMaster, amILeader. unfold bind at 1, gets. rewrite Hl.
  unfold bind at 1, setServiceReadonlyOrShutdown. unfold bind at 1, sm_SetReadOnly, svc_call. unfold bind, log_event, ret.
  destruct (SetReadOnly (svc w)) as [[e|] d] eqn:Es; [done|]. unfold deleteLeaderKey, commit, bind.
  match goal with |- context [etcd_call ?f ?v] => destruct (etcd_call_quiet f v Ho Hc) as [-> E] end.
  unfold log_event, ret, sleep, close_chan. unfold arrival, next_tick in *. cbn in *. rewrite Ho in *.
  destruct (Txn (deleteLeader_txn cfg node_ID) (etcd w)) as [[[[] rs]|e] st] eqn:Et; cbn; rewrite Hch;
    intros [= _ <-]; unfold disturb; cbn; rewrite ?Es, ?Et; (split_and!; try done); lia.
Qed.

(** Two worlds with the same server, leader key and future. *)
Definition apart (w w' : world D) : Prop :=
  srv w' = srv w /\ kvs (etcd w') !! L = kvs (etcd w) !! L /\ oracle w' = oracle w /\ adds any_event w w'.

#[local] Instance apart_preorder : PreOrder apart.
Proof.
  split; [by intros w; split_and!|]. intros a b c (E1 & E2 & E3 & E4) (F1 & F2 & F3 & F4).
  split_and!; [congruence..|by etrans].
Qed.

Definition step_apart {A} (m : M D A) : Prop :=
  forall w, oracle w = [] -> exists a w', m w = (Ret a, w') /\ apart w w'.

(** A thread that asks for writes in the end, after [n] or more other calls. *)
Inductive asking (k : option error -> thread D bool) : nat -> thread D bool -> Prop :=
| asking_write : asking k 0 (act sm_SetReadWrite k)
| asking_step {A} (n : nat) (m : M D A) (t : A -> thread D bool) :
    step_apart m -> (forall a, asking k (pred n) (t a)) -> asking k n (act m t).

Lemma apart_promote : step_apart sm_PromoteToMaster.
Proof.
  intros w _. unfold sm_PromoteToMaster, svc_call, bind, log_event, ret. destruct (PromoteToMaster (svc w)) as [e d].
  do 2 eexists. split; [reflexivity|]. split_and!; try done. by eapply adds_one.
Qed.

Lemma apart_load : step_apart (let! lp := get_latestPos in svc_call (LoadSlaveStatusFromDB (D := D) lp)).
Proof.
  intros w _. unfold bind, get_latestPos, svc_call. destruct (LoadSlaveStatusFromDB (latestPos w) (svc w)) as [r d].
  do 2 eexists. split; [reflexivity|]. split_and!; try done. by apply adds_none.
Qed.

Lemma apart_record (pos : Position) :
  step_apart (let! t := gets term in
              let key := join ["switch"; FormatUint (u64 (t - 1)); node_ID] in
              etcd_call (Client.Put (rootPath cfg) key (Marshal_Position pos) 0)).
Proof.
  intros w Ho. unfold bind, gets.
  match goal with |- context [etcd_call ?f ?v] => destruct (etcd_call_ret f v) as (r & st & -> & Hst) end.
  assert (etcd (arrival w) = etcd w /\ oracle (arrival w) = oracle w) as [Ea Eo]
    by (unfold arrival, next_tick; by rewrite Ho).
  do 2 eexists. split; [reflexivity|]. split; [done|]. split; [|split; [exact Eo|by apply adds_none]].
  destruct Hst as [->|[_ ->]]; cbn [etcd with_etcd]; rewrite Ea; [done|]. unfold Client.Put.
  rewrite Client.Put_untouched; [done|].
  rewrite join_elems; [|done|repeat constructor; auto using FormatUint_plain].
  apply (own_key_not_leader cfg node_ID); [done|apply own_switch].
Qed.

(** What [taking_over] does with the answer. *)
Definition answered (err : option error) : thread D bool :=
  match err with
  | Some _ =>
      act setServiceReadonlyOrShutdown (fun _ =>
      act (close_chan leaderStopCh set_leaderStopCh) (fun _ =>
      act (sleep (100 * Millisecond)) (fun _ => Fin false)))
  | None => Fin true
  end.

(** The promotion from the moment the node counts as leader. *)
Definition promotion : thread D bool :=
  act sm_PromoteToMaster (fun _ =>
  act (let! lp := get_latestPos in svc_call (LoadSlaveStatusFromDB lp)) (fun r =>
    match r with
    | inr _ => act sm_SetReadWrite answered
    | inl currentPos =>
        act (let! t := gets term in
             let key := join ["switch"; FormatUint (u64 (t - 1)); node_ID] in
             etcd_call (Client.Put (rootPath cfg) key (Marshal_Position currentPos) 0))
            (fun _ => act sm_SetReadWrite answered)
    end)).

Lemma promotion_asks (n : nat) : (n <= 2)%nat -> asking answered n promotion.
Proof.
  intros Hn. apply asking_step; [exact apart_promote|intros _]. apply asking_step; [exact apart_load|].
  replace (pred (pred n)) with O by lia. intros [pos|e]; [|constructor].
  apply asking_step; [exact (apart_record pos)|intros _]. constructor.
Qed.

Lemma alone_asks (k : option error -> thread D bool) (n : nat) (t : thread D bool) : asking k n t ->
  forall w, oracle w = [] -> exists w1 e w2,
  apart w w1 /\ sm_SetReadWrite w1 = (Ret e, w2) /\ run_alone t w = run_alone (k e) w2.
Proof.
  induction 1 as [|A n m t Hm _ IH]; intros w Ho; rewrite alone_act.
  - destruct (SetReadWrite_returns w) as (e & w' & E & _). exists w, e, w'. split_and!; [reflexivity|done|]. unfold bind. by rewrite E.
  - destruct (Hm w Ho) as (a & w' & E & Ha). destruct (IH a w') as (w1 & e & w2 & H1 & H2 & H3); [destruct Ha as (_ & _ & -> & _); done|].
    exists w1, e, w2. split_and!; [by etrans|done|]. unfold bind. by rewrite E.
Qed.

(** ** The race *)
Section Turns.
Context (l : Z).

(** The node leads, undisturbed. *)
Definition leads (w : world D) : Prop :=
  oracle w = [] /\ isClosed (srv w) = false /\ isLeader (srv w) = true /\
  exists x, kvs (etcd w) !! L = Some x /\ Value x = node_ID.

(** It has given the key up, and its keep-alive goroutine is over. *)
Definition gone (w0 w : world D) : Prop :=
  oracle w = [] /\ isLeader (srv w) = true /\ leaderStopCh (srv w) = ChClosed /\ kvs (etcd w) !! L = None /\
  exists new, trace w = EAliveEnd :: new ++ trace w0.

Definition refused (w : world D) : Prop := exists e tr, trace w = ESetReadOnly (Some e) :: tr.

Definition turns_to_change (n : nat) : list (turn D) :=
  repeat (calmly, CaseMain) n ++ [(change_master, CaseLeaderStop)].

Lemma delete_own (st : Store) (x : KeyValue) :
  kvs st !! L = Some x -> Value x = node_ID -> kvs (Txn (deleteLeader_txn cfg node_ID) st).2 !! L = None.
Proof.
  intros Hx Hv. apply (deleteLeader_store cfg node_ID). cbn [applyCompares forallb applyCompare leaderCmp].
  change (Client.KeyWithRootPath (rootPath cfg) leaderPath) with L. rewrite Hx, Hv. by rewrite String.eqb_refl.
Qed.

Lemma alive_end_open (w : world D) : isClosed (srv w) = false ->
  exists w', (alive_end w = (Exited 3, w') /\ refused w') \/
    (alive_end w = (Ret Finished, w') /\ srv w' = srv w /\ etcd w' = etcd w /\ oracle w' = oracle w /\
     trace w' = EAliveEnd :: ESetReadOnly None :: trace w).
Proof.
  intros Hc. unfold alive_end, setServiceReadonlyOrShutdown, sm_SetReadOnly, bind, gets, svc_call, log_event, ret. rewrite Hc.
  destruct (SetReadOnly (svc w)) as [[e|] d]; eexists; [left|right]; (split; [reflexivity|]); [|done]. do 2 eexists. reflexivity.
Qed.

(** The turn of the change: the keep-alive goroutine ends, or the process. *)
Lemma change_turn (w : world D) (m : bool) : leads w ->
  exists w', ((do! disturb change_master in helpers_turn cfg l CaseLeaderStop (mkHelpers Selecting m)) w = (Exited 3, w') /\ refused w') \/
  ((do! disturb change_master in helpers_turn cfg l CaseLeaderStop (mkHelpers Selecting m)) w = (Ret (mkHelpers Finished m), w') /\ gone w w').
Proof.
  intros (Ho & Hc & Hl & x & Hx & Hv). set (w0 := (disturb change_master w).2).
  assert (forall A (k : alive_state -> M D A), (let! a := keepAlive_select cfg l CaseLeaderStop Selecting in k a) w0 = bind alive_end k w0)
    as Ek by (intros; unfold bind; cbn; done).
  destruct (alive_end_open w0 Hc) as (w' & [[E Hr]|(E & Es & Ee & Eo & Et)]); exists w'; [left|right];
    (split; [unfold bind at 1; change (disturb change_master w) with (Ret tt, w0); unfold helpers_turn; rewrite Ek;
             unfold bind, ret; rewrite E; by destruct m|]); [done|].
  unfold gone. rewrite Es, Ee, Eo, Et. split_and!; [exact Ho|exact Hl|done|exact (delete_own _ _ Hx Hv)|]. by exists [ESetReadOnly None].
Qed.

Lemma apart_leads (w w' : world D) : apart w w' -> leads w -> leads w'.
Proof. intros (E1 & E2 & E3 & _). unfold leads. by rewrite E1, E2, E3. Qed.

Lemma apart_gone (w0 w w' : world D) : apart w w' -> gone w0 w ->
  oracle w' = [] /\ isLeader (srv w') = true /\ leaderStopCh (srv w') = ChClosed /\ kvs (etcd w') !! L = None /\
  exists new, trace w' = new ++ trace w0 /\ EAliveEnd ∈ new.
Proof.
  intros (E1 & E2 & E3 & (new & En & _)) (H1 & H2 & H3 & H4 & new' & Hn). rewrite E1, E2, E3. split_and!; auto.
  exists (new ++ EAliveEnd :: new'). rewrite En, Hn, <- app_assoc. split; [done|]. set_solver.
Qed.

(** How the race ends: the process exits, or the request for writes comes after
    the end of the keep-alive goroutine. *)
Definition raced_change (w : world D) (r : outcome (bool * helpers * list (turn D)) * world D) : Prop :=
  (r.1 = Exited 3 /\ refused r.2) \/
  exists w1 w2 w3 e m, gone w w1 /\ apart w1 w2 /\ sm_SetReadWrite w2 = (Ret e, w3) /\
    r = (let! a := run_alone (answered e) in ret (a, mkHelpers Finished m, [])) w3.

Lemma race_change (n : nat) (m : bool) : forall (t : thread D bool) (w : world D),
  asking answered n t -> leads w -> exists w0, adds any_event w w0 /\
  raced_change w0 (race cfg l (mkHelpers Selecting m) (turns_to_change n) t w).
Proof.
  induction n as [|n IH]; intros t w Ha Hw.
  - exists w. split; [reflexivity|]. unfold turns_to_change. cbn [repeat app].
    assert (exists c, t = Act c) as [c ->] by (destruct Ha; eexists; reflexivity). cbn [race].
    set (w0 := (disturb change_master w).2).
    destruct (change_turn w m Hw) as (w' & [[E Hr]|[E Hg]]); unfold bind at 1 in E; unfold bind at 1;
      change (disturb change_master w) with (Ret tt, w0) in E |- *; cbv iota beta in E |- *; unfold bind at 1; rewrite E; [by left|].
    destruct (alone_asks answered 0 (Act c) Ha w') as (w1 & e & w2 & H1 & H2 & H3); [apply Hg|].
    right. exists w', w1, w2, e, m. split_and!; auto. cbn [race]. unfold bind. by rewrite H3.
  - inversion Ha as [|A n' c k Hc Hk]; subst. change (turns_to_change (S n)) with ((calmly (D := D), CaseMain) :: turns_to_change n).
    unfold act. cbn [race]. unfold bind at 1. set (w0 := (disturb calmly w).2). change (disturb calmly w) with (Ret tt, w0).
    destruct (Hc w0) as (a & w1 & E & Hap); [apply Hw|].
    destruct (IH (k a) w1) as (w2 & H1 & H2); [apply Hk|by apply (apart_leads w0)|].
    exists w2. split; [etrans; [|exact H1]; apply Hap|]. unfold bind at 1, ret. unfold bind at 1. rewrite E. exact H2.
Qed.
End Turns.

(** The first two calls of the promotion, up to the flag. *)
Lemma race_start (l : Z) (turns : list (turn D)) (w : world D) : isLeader (srv w) = false ->
  exists w', race cfg l started ((calmly, CaseMain) :: (calmly, CaseMain) :: turns) (taking_over cfg node_ID) w =
    race cfg l started turns promotion w' /\
    srv w' = set_isLeader true (srv w) /\ etcd w' = etcd w /\ oracle w' = oracle w /\ trace w' = trace w.
Proof.
  intros Hl. exists (with_srv (set_isLeader true) (disturb calmly (disturb calmly w).2).2). split; [|done].
  unfold taking_over, promoting, act at 1. cbn [race].
  unfold bind at 1. change (disturb calmly w) with (Ret tt, (disturb calmly w).2). cbv iota beta.
  unfold bind at 1. unfold bind at 1. unfold amILeader, gets at 1, ret at 1. cbv iota beta.
  change (isLeader (srv (disturb calmly w).2)) with (isLeader (srv w)). rewrite Hl. reflexivity.
Qed.

(** The end of the iteration, once the service has answered. *)
Lemma change_ends (w w1 w2 w3 : world D) (e : option error) :
  gone w w1 -> apart w1 w2 -> sm_SetReadWrite w2 = (Ret e, w3) ->
  match run_alone (answered e) w3 with
  | (Ret b, w') => b = true /\ IsReadOnly (svc w') = false /\ isLeader (srv w') = true /\
      leaderStopCh (srv w') = ChClosed /\ kvs (etcd w') !! L = None /\
      exists mid, trace w' = ESetReadWrite None :: mid ++ trace w /\ EAliveEnd ∈ mid
  | (Exited c, w') => c = 3 /\ refused w'
  | (Panicked, w') => exists e, ESetReadWrite (Some e) ∈ trace w'
  | (Blocked, _) => False
  end.
Proof.
  intros Hg Ha E. destruct (apart_gone w w1 w2 Ha Hg) as (Ho & Hl & Hch & Hk & new & Hn & Hin).
  destruct (SetReadWrite_returns w2) as (e' & w3' & E' & Hs & Ht & Hr). rewrite E in E'. injection E' as <- <-.
  destruct e as [e|]; cbn [answered].
  - rewrite alone_act. unfold bind, setServiceReadonlyOrShutdown, bind.
    destruct (SetReadOnly_returns w3) as ([e'|] & w4 & E4 & Hs4 & _ & _ & He4).
    + rewrite E4. split; [done|]. do 2 eexists. exact He4.
    + pose proof (adds_readonly any_event w3) as (tr & Et & _). rewrite E4 in *. cbn [snd] in Et. unfold ret.
      rewrite alone_act. unfold bind, close_chan. rewrite Hs4, Hs, Hch. exists e. rewrite Et, Ht. set_solver.
  - cbn. unfold ret. rewrite Hs. split_and!; auto.
    + assert (etcd w3 = etcd w2) as ->; [|done]. revert E. unfold sm_SetReadWrite, svc_call, bind, log_event, ret.
      destruct (SetReadWrite (svc w2)). by intros [= _ <-].
    + exists new. by rewrite Ht, Hn.
Qed.

End Race.

#[local] Existing Instance list_order.

(** The demonstration node, with the change after the third call of its
    promotion. *)
Definition changed_while_promoted : outcome bool * world demo_service :=
  after_win demo_cfg demo_id (turns_to_change demo_cfg demo_id 3) 1 campaigned.

