(* ===== verification/Postgres.v ===== *)
(** * The PostgreSQL service manager: [agent/postgresql_service_manager.go] and
    [pkg/postgresql/postgresql.go]

    PostgreSQL is driven by commands run on the host as user [postgres], by
    edits of its configuration files and by SQL.  The host is a parameter, the
    class [PgHost] (processes, files, and the lock that [pkg/etcd/locker.go]
    hands out, whose requests to etcd are the programs of file [DistLock]); the
    connection is the one of [SQLServer].  The manager is an instance of [ServiceManager].

    The theorems: [SetReadOnly] reports the error of the reload only, so a
    failed edit of the configuration goes unnoticed and the promise
    [SetReadOnly_ok] of [ServiceManagerOk] has no proof for this manager; and
    the log position it reports for the election is 0 on every server, because
    the failed scan of it is dropped. *)

From stdpp Require Import gmap strings list.
From Stdlib Require Import ZArith Lia Ascii.
From S2P Require Import Prelude GoStrings Gtid Json World ServiceManager.

(** The operating system and the distributed lock.  A command is its name and
    arguments; its output is only logged. *)
Class PgHost (P : Type) := {
  runCommand : string -> list string -> P -> option error * P;
  execCommand : string -> list string -> P -> option error * P;
  RemoveAll : string -> P -> option error * P;
  WriteFile : string -> string -> P -> option error * P;
  NewLocker : P -> option error * P;
  Lock : P -> P;
  Unlock : P -> P
}.

Definition confPath : string := "/var/lib/postgresql/data/postgresql.conf".
Definition recoveryPath : string := "/var/lib/postgresql/data/recovery.conf".
Definition sed_read_only : string := "s/default_transaction_read_only = off/default_transaction_read_only = on/".
Definition sed_read_write : string := "s/default_transaction_read_only = on/default_transaction_read_only = off/".

Definition newline : string := String "010"%char "".

Definition redirectTemplate (user password host port : string) : string :=
  "standby_mode = 'on'" +:+ newline +:+
  "primary_conninfo = 'user=" +:+ user +:+ " password=" +:+ password +:+ " host=" +:+ host +:+
  " port=" +:+ port +:+ "'" +:+ newline +:+
  "recovery_target_timeline = 'latest'" +:+ newline.

Module Postgresql.
Section Postgresql.
Context {P : Type} `{SQLServer P}.

(** [CloseDB], [ReloadConf], [Checkpoint] *)
Definition CloseDB (db : P) : option error * P := Close_db db.

Definition ReloadConf (db : P) : option error * P :=
  match Query "SELECT pg_reload_conf();" db with
  | (inl _, db') => (None, db')
  | (inr e, db') => (Some e, db')
  end.

Definition Checkpoint (db : P) : option error * P := Exec "CHECKPOINT;" db.

(** The result of [rs.Scan(&r)] is dropped: a cell that is no decimal number
    leaves [r] at 0. *)
Definition scan_lsn (rows : list (list (option string))) : Z :=
  match rows with
  | [Some s] :: _ => match ParseUint s with inl z => z | inr _ => 0 end
  | _ => 0
  end.

Definition GetCurrentLSN (db : P) : result Z * P :=
  match Query "SELECT pg_current_wal_lsn();" db with
  | (inr e, db') => (inr e, db')
  | (inl rows, db') => (inl (scan_lsn (Data rows)), db')
  end.

Definition GetLastReplayLSN (db : P) : result Z * P :=
  match Query "SELECT pg_last_wal_replay_lsn();" db with
  | (inr e, db') => (inr e, db')
  | (inl rows, db') => (inl (scan_lsn (Data rows)), db')
  end.
End Postgresql.
End Postgresql.

Module PostgreSQL.
Section PostgreSQL.
Context {P : Type} `{SQLServer P} `{PgHost P}.

(** The manager; [host] is the connection and the machine it runs on. *)
Record postgresqlServiceManager := mkPostgres {
  host : P;
  replicationUser : string;
  replicationPassword : string;
  uniqueID : string;
  readonly : bool
}.

Definition with_host (p : P) (m : postgresqlServiceManager) : postgresqlServiceManager :=
  mkPostgres p (replicationUser m) (replicationPassword m) (uniqueID m) (readonly m).
Definition with_readonly (b : bool) (m : postgresqlServiceManager) : postgresqlServiceManager :=
  mkPostgres (host m) (replicationUser m) (replicationPassword m) (uniqueID m) b.

Definition IsReadOnly (m : postgresqlServiceManager) : bool := readonly m.

(** Both switches: edit the configuration, reload it; the error of the edit is
    overwritten by the one of the reload. *)
Definition switch_mode (sed : string) (flag : bool) (m : postgresqlServiceManager)
    : option error * postgresqlServiceManager :=
  let '(_, p1) := runCommand "sed" ["-i"; sed; confPath] (host m) in
  match Postgresql.ReloadConf p1 with
  | (Some e, p2) => (Some e, with_host p2 m)
  | (None, p2) => (None, with_readonly flag (with_host p2 m))
  end.

Definition SetReadOnly := switch_mode sed_read_only true.
Definition SetReadWrite := switch_mode sed_read_write false.

(** Take the lock if there is one, run, and give it back. *)
Definition locked (f : P -> option error * P) (p : P) : option error * P :=
  match NewLocker p with
  | (Some _, p1) => f p1
  | (None, p1) => let '(e, p2) := f (Lock p1) in (e, Unlock p2)
  end.

Definition PromoteToMaster (m : postgresqlServiceManager) : option error * postgresqlServiceManager :=
  let '(e, p) := locked (fun p =>
      let '(_, p1) := Postgresql.Checkpoint p in
      runCommand "pg_ctl" ["promote"] p1) (host m) in
  (e, with_host p m).

(** [RedirectMaster]: stop, rewind, or copy everything when rewinding fails,
    and start again.  Only a failed write of [recovery.conf] and the error of
    the start are returned. *)
Definition pg_start (p : P) : option error * P :=
  runCommand "pg_ctl" ["start"; "--log=/var/lib/postgresql/data/pg_ctl.log"; "--timeout=10"] p.

Definition redirect (user password masterHost masterPort : string) (p : P) : option error * P :=
  let '(_, p1) := runCommand "pg_ctl" ["stop"] p in
  let '(e2, p2) := runCommand "pg_rewind"
      ["--target-pgdata=/var/lib/postgresql/data";
       "--source-server=host=" +:+ masterHost +:+ " port=" +:+ masterPort +:+
       " user=postgres dbname=postgres"] p1 in
  match e2 with
  | Some _ =>
      let '(_, p3) := RemoveAll "/var/lib/postgresql/data" p2 in
      let '(_, p4) := runCommand "pg_basebackup"
          ["--write-recovery-conf"; "--pgdata=/var/lib/postgresql/data"; "--wal-method=fetch";
           "--username=" +:+ user; "--host=" +:+ masterHost; "--port=" +:+ masterPort;
           "--progress"; "--verbose"] p3 in
      pg_start p4
  | None =>
      let '(e3, p3) := WriteFile recoveryPath (redirectTemplate user password masterHost masterPort) p2 in
      let '(_, p4) := execCommand "chown" ["postgres"; recoveryPath] p3 in
      let '(_, p5) := execCommand "chown" [":postgres"; recoveryPath] p4 in
      match e3 with
      | Some e => (Some e, p5)
      | None => pg_start p5
      end
  end.

Definition RedirectMaster (masterHost masterPort : string) (m : postgresqlServiceManager)
    : option error * postgresqlServiceManager :=
  let '(e, p) := locked (redirect (replicationUser m) (replicationPassword m) masterHost masterPort)
                   (host m) in
  (e, with_host p m).

Definition SetReadOnlyManually (m : postgresqlServiceManager)
    : (bool * option error) * postgresqlServiceManager :=
  match SetReadOnly m with
  | (Some e, m') => ((false, Some e), m')
  | (None, m') => ((true, None), m')
  end.

Definition Close_service (m : postgresqlServiceManager) : option error * postgresqlServiceManager :=
  let '(e, p) := Postgresql.CloseDB (host m) in (e, with_host p m).

Definition LoadMasterStatusFromDB (m : postgresqlServiceManager)
    : option (result Position) * postgresqlServiceManager :=
  match Postgresql.GetCurrentLSN (host m) with
  | (inr e, p) => (Some (inr e), with_host p m)
  | (inl lsn, p) => (Some (inl (set_UUID (uniqueID m) (set_EndTxnID lsn zero_Position))), with_host p m)
  end.

Definition LoadSlaveStatusFromDB (lp : Position) (m : postgresqlServiceManager)
    : result Position * postgresqlServiceManager :=
  match Postgresql.GetLastReplayLSN (host m) with
  | (inr e, p) => (inr e, with_host p m)
  | (inl lsn, p) =>
      (inl (set_SlaveSQLRunning true (set_SlaveIORunning true
              (set_UUID (uniqueID m) (set_EndTxnID lsn zero_Position)))), with_host p m)
  end.

Definition LoadReplicationInfoOfSlave (m : postgresqlServiceManager)
    : result (string * string * Z) * postgresqlServiceManager :=
  match Postgresql.GetLastReplayLSN (host m) with
  | (inr e, p) => (inr e, with_host p m)
  | (inl lsn, p) => (inl (uniqueID m, "", lsn), with_host p m)
  end.

Definition LoadReplicationInfoOfMaster (m : postgresqlServiceManager)
    : option (result (string * string * Z)) * postgresqlServiceManager :=
  match Postgresql.GetCurrentLSN (host m) with
  | (inr e, p) => (Some (inr e), with_host p m)
  | (inl lsn, p) => (Some (inl (uniqueID m, "", lsn)), with_host p m)
  end.

Definition GetServerUUID (m : postgresqlServiceManager) : result string * postgresqlServiceManager :=
  (inl (uniqueID m), m).

#[global] Instance postgres_ServiceManager : ServiceManager postgresqlServiceManager := {|
  ServiceManager.IsReadOnly := IsReadOnly;
  ServiceManager.SetReadOnly := SetReadOnly;
  ServiceManager.SetReadWrite := SetReadWrite;
  ServiceManager.PromoteToMaster := PromoteToMaster;
  ServiceManager.RedirectMaster := RedirectMaster;
  ServiceManager.SetReadOnlyManually := SetReadOnlyManually;
  ServiceManager.LoadSlaveStatusFromDB := LoadSlaveStatusFromDB;
  ServiceManager.LoadMasterStatusFromDB := LoadMasterStatusFromDB;
  ServiceManager.LoadReplicationInfoOfMaster := LoadReplicationInfoOfMaster;
  ServiceManager.LoadReplicationInfoOfSlave := LoadReplicationInfoOfSlave;
  ServiceManager.GetServerUUID := GetServerUUID;
  ServiceManager.Close_service := Close_service
|}.

End PostgreSQL.
Arguments postgresqlServiceManager : clear implicits.
End PostgreSQL.

(** ** Theorems *)
Section PostgresSpec.
Context {P : Type} `{SQLServer P} `{PgHost P}.
Import PostgreSQL.

(** A write stop that is only announced: whatever the edit of the
    configuration answers, [SetReadOnly] reports success and marks the service
    read-only as soon as the reload succeeds. *)
Theorem pg_SetReadOnly_ignores_edit (m : postgresqlServiceManager P) (e : option error) (p1 p2 : P) :
  runCommand "sed" ["-i"; sed_read_only; confPath] (host m) = (e, p1) ->
  Postgresql.ReloadConf p1 = (None, p2) ->
  exists m', SetReadOnly m = (None, m') /\ IsReadOnly m' = true /\ host m' = p2.
Proof.
  intros E1 E2. unfold SetReadOnly, switch_mode. rewrite E1, E2. eexists. split; [reflexivity|done].
Qed.

(** Every PostgreSQL candidate looks equally up to date: a WAL position is
    printed as two hexadecimal numbers and a slash, which the scan into an
    integer refuses, and the refusal is dropped, so that the position read is
    always 0. *)
Theorem pg_lsn_always_zero (db db' : P) (rows : Rows) (lsn : string) (rest : list (list (option string))) :
  Query "SELECT pg_last_wal_replay_lsn();" db = (inl rows, db') ->
  Data rows = [Some lsn] :: rest -> Contains lsn "/" = true ->
  Postgresql.GetLastReplayLSN db = (inl 0, db').
Proof.
  intros E Ed Hc. unfold Postgresql.GetLastReplayLSN. rewrite E, Ed. unfold Postgresql.scan_lsn.
  unfold ParseUint. by rewrite (parse_digits_slash _ Hc).
Qed.
End PostgresSpec.

(** A host on which every command fails, with a server that answers queries. *)
Module ToyPg.
Definition rows : Rows := mkRows ["lsn"] [[Some "0/3000060"]] None.

#[local] Instance toy_sql : SQLServer unit := {|
  Exec _ p := (None, p);
  Query _ p := (inl rows, p);
  Close_db p := (None, p)
|}.

#[local] Instance toy_host : PgHost unit := {|
  runCommand _ _ p := (Some (Errorf "exit status 1"), p);
  execCommand _ _ p := (Some (Errorf "exit status 1"), p);
  RemoveAll _ p := (None, p);
  WriteFile _ _ p := (None, p);
  NewLocker p := (None, p);
  Lock p := p;
  Unlock p := p
|}.

Definition manager : PostgreSQL.postgresqlServiceManager unit :=
  PostgreSQL.mkPostgres tt "repl" "secret" "node-1" false.

Lemma pg_SetReadOnly_witness :
  runCommand "sed" ["-i"; sed_read_only; confPath] tt = (Some (Errorf "exit status 1"), tt) /\
  exists m', PostgreSQL.SetReadOnly manager = (None, m') /\ PostgreSQL.IsReadOnly m' = true.
Proof.
  split; [reflexivity|].
  destruct (pg_SetReadOnly_ignores_edit manager (Some (Errorf "exit status 1")) tt tt)
    as (m' & H1 & H2 & _); [reflexivity|reflexivity|].
  exists m'. split; [exact H1|exact H2].
Defined.

Lemma pg_lsn_witness : Postgresql.GetLastReplayLSN tt = (inl 0, tt).
Proof. by apply (pg_lsn_always_zero tt tt rows "0/3000060" []). Defined.
End ToyPg.
