(* ===== verification/Boot.v ===== *)
(** * Starting and stopping the processes: the boot part of [Start], [cmd/], [pkg/systemcall]

    The agent starts the database when its port does not answer: it forks the
    boot process, which forks the database and tells the supervisor its
    process number through an event file descriptor, and waits for the port.
    The tear-down process waits for the database to end and gives the leader
    key up.  The operating system is the class [Host], the event file
    descriptor the class [EventFD] with what its manual says of it.

    The theorems: what the agent passes to the boot process arrives, and the
    supervisor learns the process number in spite of the heartbeats on the
    same descriptor; the wait for the port ends; the tear-down touches etcd
    only within its time limit. *)

From stdpp Require Import gmap strings list.
From Stdlib Require Import ZArith Lia Ascii.
From S2P Require Import Prelude GoStrings Urls Etcd World ServiceManager Demo Leader Node ServerLoop AgentSpec Postgres Startup Flags.
Import Mvcc Flags.

Module Boot.

(** ** The operating system *)

(** [dial] is [net.DialTimeout] and [Close], [wait4] returns when the process
    has ended, or at once with an error. *)
Class Host (W : Type) := {
  dial : string -> string -> W -> bool * W;
  fork_exec : string -> list string -> W -> result Z * W;
  wait4 : Z -> W -> option error * W;
  read_file : string -> W -> result string;
  getenv : string -> W -> string;
  clock : W -> Z;
  pass : Z -> W -> W
}.

(** ** Event file descriptors *)

(** [binary.LittleEndian.PutUint64] and its inverse *)
Fixpoint le_bytes (n : nat) (v : Z) : list Z :=
  match n with
  | O => []
  | S n' => v mod 256 :: le_bytes n' (v / 256)
  end.
Definition le_value (b : list Z) : Z := foldr (fun x acc => x + 256 * acc) 0 b.

Lemma le_value_bytes (n : nat) (v : Z) : 0 <= v < 256 ^ Z.of_nat n -> le_value (le_bytes n v) = v.
Proof.
  revert v. induction n as [|n IH]; intros v Hv; [cbn in *; lia|]. cbn [le_bytes].
  change (v mod 256 + 256 * le_value (le_bytes n (v / 256)) = v). rewrite IH.
  - pose proof (Z.div_mod v 256). lia.
  - rewrite Nat2Z.inj_succ, Z.pow_succ_r in Hv by lia. split; [apply Z.div_pos; lia|].
    apply Z.div_lt_upper_bound; lia.
Qed.

(** A counter: a write of eight bytes adds their value unless the sum passes
    the limit, a read takes the sum and resets it. *)
Class EventFD (F : Type) := {
  efd_count : F -> Z;
  efd_write : list Z -> F -> option error * F;
  efd_read : F -> result Z * F
}.
Class EventFDOk (F : Type) `{EventFD F} := {
  efd_write_ok : forall b f, length b = 8%nat -> 0 <= le_value b -> efd_count f + le_value b < two64 - 1 ->
    exists f', efd_write b f = (None, f') /\ efd_count f' = efd_count f + le_value b;
  efd_read_ok : forall f, 0 < efd_count f -> exists f', efd_read f = (inl (efd_count f), f') /\ efd_count f' = 0
}.

Section Descriptor.
Context {F : Type} `{EventFD F}.

(** [WriteToEventfd], [writeFD] *)
Definition WriteToEventfd (value : Z) (f : F) : option error * F := efd_write (le_bytes 8 value) f.
Definition writeFD (f : F) : option error * F := WriteToEventfd 1 f.

(** [n] rounds of [startWriteFDLoop] *)
Fixpoint heartbeats (n : nat) (f : F) : F :=
  match n with
  | O => f
  | S n' => heartbeats n' (writeFD f).2
  end.

(** [detect_child_alive] of the supervisor: the process number in the upper
    half, as a C [int]. *)
Definition i32 (z : Z) : Z := (z + 2147483648) mod 4294967296 - 2147483648.
Definition detect_child_alive (servicepid : Z) (f : F) : Z * F :=
  match efd_read f with
  | (inl val, f') =>
      let spid := i32 (Z.shiftr val 32) in
      (if (1 <? val) && (0 <? spid) then spid else servicepid, f')
  | (inr _, f') => (servicepid, f')
  end.

Lemma WriteToEventfd_adds `{!EventFDOk F} (v : Z) (f : F) :
  0 <= v -> efd_count f + v < two64 - 1 -> 0 <= efd_count f -> efd_count (WriteToEventfd v f).2 = efd_count f + v.
Proof.
  intros Hv Hs Hc. assert (le_value (le_bytes 8 v) = v) as E.
  { apply le_value_bytes. change (256 ^ Z.of_nat 8) with two64. lia. }
  unfold WriteToEventfd. destruct (efd_write_ok (le_bytes 8 v) f) as (f' & Ew & Ec); [done|lia|lia|].
  rewrite Ew. cbn. lia.
Qed.

Lemma heartbeats_add `{!EventFDOk F} (n : nat) (f : F) :
  0 <= efd_count f -> efd_count f + Z.of_nat n < two64 - 1 -> efd_count (heartbeats n f) = efd_count f + Z.of_nat n.
Proof.
  revert f. induction n as [|n IH]; intros f Hc Hn; [cbn; lia|]. cbn [heartbeats].
  assert (efd_count (writeFD f).2 = efd_count f + 1) as E by (apply WriteToEventfd_adds; lia).
  rewrite IH; lia.
Qed.
End Descriptor.

(** ** The boot process *)
Section Processes.
Context {W F : Type} `{Host W} `{EventFD F}.
Variable DecodeFile : string -> Agent.Config -> result Agent.Config.

(** [DoubleForkAndExecute]: the arguments of the boot process. *)
Definition boot_program : string := "/agent/mysql-agent-service-boot".
Definition boot_args (fd : Z) (cfgFile : string) : list string :=
  [boot_program; FormatInt fd; "-config=" +:+ cfgFile].
Definition DoubleForkAndExecute (fd : Z) (cfgFile : string) (w : W) : option error * W :=
  match fork_exec boot_program (boot_args fd cfgFile) w with
  | (inl _, w') => (None, w')
  | (inr e, w') => (Some e, w')
  end.

(** [main] of [mysql-agent-service-boot] on its arguments: the descriptor and
    the value it writes there.  A failed fork leaves the process number 0. *)
Definition service_boot (args : list string) (w : W) : outcome (Z * Z) * W :=
  match args with
  | _ :: a1 :: rest =>
      match Agent.Parse DecodeFile rest with
      | Exited c => (Exited c, w)
      | Panicked => (Panicked, w)
      | Blocked => (Blocked, w)
      | Ret (inr _) => (Exited 1, w)
      | Ret (inl cfg) =>
          let '(r, w') := fork_exec (Agent.ForkProcessFile cfg) (Agent.ForkProcessArgs cfg) w in
          let cpid := match r with inl pid => pid | inr _ => 0 end in
          (Ret ((ParseInt_pair a1).1, u64 (Z.shiftl (u64 cpid) 32)), w')
      end
  | _ => (Panicked, w)
  end.

(** ** Waiting for the port *)

(** [isPortAlive] *)
Definition isPortAlive (host port : string) (w : W) : bool * W := dial host port w.

(** The goroutine of [waitUtilPortAlive] beside the timer of [Start]: at the
    time limit the main goroutine sends on [stopCh]; the send is received at
    the next round, and by nobody when the port came up during the last dial. *)
Fixpoint waitUtilPortAlive (n : nat) (host port : string) (deadline : Z) (w : W) : outcome (result unit) * W :=
  match n with
  | O => (Blocked, w)
  | S n' =>
      if deadline <=? clock w then (Ret (inr (Errorf "cannot start mysql, timeout")), w)
      else
        let '(alive, w1) := isPortAlive host port w in
        if alive then (if deadline <=? clock w1 then Blocked else Ret (inl tt), w1)
        else waitUtilPortAlive n' host port deadline (pass (100 * Millisecond) w1)
  end.

(** The part of [Start] before the connection. *)
Definition start_database (n : nat) (cfg : Agent.Config) (w : W) : outcome (result unit) * W :=
  let host := db_Host (Agent.DBConfig cfg) in
  let port := FormatInt (db_Port (Agent.DBConfig cfg)) in
  let '(alive, w1) := isPortAlive host port w in
  if alive then (Ret (inl tt), w1)
  else
    match DoubleForkAndExecute (Agent.fd cfg) (Agent.configFile cfg) w1 with
    | (Some e, w2) => (Ret (inr e), w2)
    | (None, w2) => waitUtilPortAlive n host port (clock w2 + i64 (Agent.ForkProcessWaitSecond cfg * Second)) w2
    end.

(** The choice of the service manager; another type leaves it nil. *)
Inductive service_kind := MySQLManager | PostgreSQLManager | NilManager.
Definition choose_manager (cfg : Agent.Config) : service_kind :=
  let ServiceType := if String.eqb (Agent.ServiceType cfg) "" then "mysql" else Agent.ServiceType cfg in
  if String.eqb ServiceType "mysql" then MySQLManager
  else if String.eqb ServiceType "postgresql" then PostgreSQLManager
  else NilManager.

(** [initHTTPServer]: the address to listen on. *)
Definition initHTTPServer (cfg : Agent.Config) : result string :=
  match url_Parse (Agent.ListenAddr cfg) with
  | inr e => inr e
  | inl u => inl (":" +:+ Port u)
  end.

(** ** The tear-down process *)

Fixpoint TrimRight_byte (c : ascii) (s : string) : string :=
  match s with
  | "" => ""
  | String a s' => match TrimRight_byte c s' with
                   | "" => if Ascii.eqb a c then "" else String a ""
                   | t => String a t
                   end
  end.

Definition waitProcessToStop (pidFile : string) (w : W) : option error * W :=
  match read_file pidFile w with
  | inr e => (Some e, w)
  | inl bs =>
      match Atoi (TrimRight_byte "010" bs) with
      | inr e => (Some e, w)
      | inl pid => wait4 pid w
      end
  end.

(** [main] after the configuration is read: the wait against a timer of three
    seconds, then [StartClean].  The error of the wait is dropped. *)
Definition tear_down (cfg : World.Config) (readLocalNodeID : result string) (w : W) (st : Store)
    : option (option error) * W * Store :=
  let '(_, w1) := waitProcessToStop (getenv "MYSQL_PID_FILE" w) w in
  if clock w1 - clock w <? 3 * Second then
    let '(e, st') := StartClean cfg readLocalNodeID st in (Some e, w1, st')
  else (None, w1, st).

(** ** The exit status *)

(** [main] of [mysql-agent]: what ends the process, from the outcomes of its
    three steps. *)
Definition agent_main {A} (parsed : outcome (result Agent.Config)) (NewServer : Agent.Config -> result A)
    (Start : A -> outcome (result unit)) : outcome unit :=
  match parsed with
  | Exited c => Exited c
  | Panicked => Panicked
  | Blocked => Blocked
  | Ret (inr _) => Exited 1
  | Ret (inl cfg) =>
      match NewServer cfg with
      | inr _ => Exited 3
      | inl svr =>
          match Start svr with
          | Ret (inr _) => Exited 2
          | Ret (inl _) => Ret tt
          | Exited c => Exited c
          | Panicked => Panicked
          | Blocked => Blocked
          end
      end
  end.

(** The goroutine that waits for a signal. *)
Definition on_signal (Close : outcome unit) : outcome unit :=
  match Close with
  | Ret _ => Exited 0
  | o => o
  end.

(** The exit status of a Go process; an uncaught panic is status 2. *)
Definition exit_status (o : outcome unit) : option Z :=
  match o with
  | Ret _ => Some 0
  | Exited c => Some c
  | Panicked => Some 2
  | Blocked => None
  end.

(** [handle_child_exit] of the supervisor: whether the agent is started again. *)
Definition restarted (status : Z) : bool := negb ((status =? 0) || (status =? 3)).
End Processes.

(** ** The connection to PostgreSQL *)
Section Postgres.
Context {P : Type} `{SQLServer P}.

(** [CreateDB] of [pkg/postgresql] *)
Definition pg_dsn (cfg : DBConfig) : string :=
  "postgres://" +:+ db_User cfg +:+ ":" +:+ db_Password cfg +:+ "@" +:+ db_Host cfg +:+ ":" +:+
  FormatInt (db_Port cfg) +:+ "/?sslmode=disable&connect_timeout=" +:+ db_Timeout cfg.

Definition pg_reached (cfg : DBConfig) (a : attempt (Q := P)) : option P :=
  match at_open a (pg_dsn cfg) with
  | inr _ => None
  | inl db => match Mysql.Select1 db with (None, db') => Some db' | (Some _, _) => None end
  end.

Definition pg_manager (cfg : DBConfig) (db : P) : PostgreSQL.postgresqlServiceManager P :=
  PostgreSQL.mkPostgres db (db_ReplicationUser cfg) (db_ReplicationPassword cfg) "" false.

Definition NewPostgreSQLServiceManager (cfg : DBConfig) (timeout now : Z) (attempts : list (attempt (Q := P)))
    : option (result (PostgreSQL.postgresqlServiceManager P)) * Z :=
  connect (Errorf "timeout to connect to PostgreSQL") (fun a => pg_manager cfg <$> pg_reached cfg a) at_cost
    timeout now now attempts.
End Postgres.

(** ** The theorems *)

(** [-config=f] on the command line. *)
Lemma parse_config_flag (f : string) (c : Agent.Config) :
  parse Agent.flags ["-config=" +:+ f] c = (inl [], Agent.set_configFile f c).
Proof. reflexivity. Qed.

Lemma Parse_config_file (DecodeFile : string -> Agent.Config -> result Agent.Config) (f : string) (c : Agent.Config) :
  f <> "" -> DecodeFile f (Agent.set_configFile f Agent.NewConfig) = inl c ->
  Agent.Parse DecodeFile ["-config=" +:+ f] = Ret (inl (Agent.set_configFile f c)).
Proof.
  intros Hf Hd. unfold Agent.Parse, Parse. rewrite parse_config_flag.
  change (Agent.printVersion (Agent.set_configFile f Agent.NewConfig)) with false.
  change (Agent.configFile (Agent.set_configFile f Agent.NewConfig)) with f.
  apply String.eqb_neq in Hf as ->. cbn [negb]. unfold configFromFile. by rewrite Hd, parse_config_flag.
Qed.

Section Theorems.
Context {W F : Type} `{Host W} `{EventFDOk F}.

Lemma shifted_pid (pid : Z) : 0 < pid < 2147483648 -> u64 (Z.shiftl (u64 pid) 32) = pid * 4294967296.
Proof.
  intros Hp. rewrite (u64_small pid) by (unfold is_u64, two64; lia).
  rewrite Z.shiftl_mul_pow2 by lia. change (2 ^ 32) with 4294967296.
  apply u64_small. unfold is_u64, two64. lia.
Qed.

Lemma detect_value (servicepid v : Z) (f : F) :
  efd_count f = v -> 1 < v -> (detect_child_alive servicepid f).1 =
  if 0 <? i32 (Z.shiftr v 32) then i32 (Z.shiftr v 32) else servicepid.
Proof.
  intros Hc Hv. unfold detect_child_alive. destruct (efd_read_ok f) as (f' & -> & _); [lia|].
  rewrite Hc. destruct (Z.ltb_spec 1 v); [|lia]. done.
Qed.

Lemma upper_half (pid k : Z) : 0 <= k < 4294967296 -> Z.shiftr (pid * 4294967296 + k) 32 = pid.
Proof.
  intros Hk. rewrite Z.shiftr_div_pow2 by lia. change (2 ^ 32) with 4294967296.
  rewrite Z.div_add_l, Z.div_small by lia. lia.
Qed.

(** C35. The agent starts the boot process with its descriptor and the name of
    its configuration file; the boot process reads back the same descriptor
    and file, starts the database of that file and writes its process number;
    and the supervisor learns this number from the descriptor however the
    write falls between fewer than 2^32 heartbeats of the agent, which alone
    leave the number it knows unchanged. *)
Theorem boot_handshake (DecodeFile : string -> Agent.Config -> result Agent.Config) (fd pid : Z) (file : string)
    (c : Agent.Config) (w w' : W) :
  is_i64 fd -> file <> "" -> DecodeFile file (Agent.set_configFile file Agent.NewConfig) = inl c ->
  fork_exec (Agent.ForkProcessFile c) (Agent.ForkProcessArgs c) w = (inl pid, w') -> 0 < pid < 2147483648 ->
  exists v, service_boot DecodeFile (boot_args fd file) w = (Ret (fd, v), w') /\
    forall (f : F) (before after : nat) (known : Z), efd_count f = 0 ->
      Z.of_nat before + Z.of_nat after < 4294967296 ->
      (detect_child_alive known (heartbeats after (WriteToEventfd v (heartbeats before f)).2)).1 = pid /\
      ((0 < before)%nat -> (detect_child_alive known (heartbeats before f)).1 = known).
Proof.
  intros Hfd Hf Hd Hfork Hpid. exists (pid * 4294967296). split.
  - unfold service_boot, boot_args. rewrite (Parse_config_file _ _ c Hf Hd).
    change (Agent.ForkProcessFile (Agent.set_configFile file c)) with (Agent.ForkProcessFile c).
    change (Agent.ForkProcessArgs (Agent.set_configFile file c)) with (Agent.ForkProcessArgs c).
    rewrite Hfork, (shifted_pid pid Hpid). unfold ParseInt_pair. by rewrite (ParseInt_FormatInt fd Hfd).
  - intros f n m known Hf0 Hnm.
    assert (efd_count (heartbeats n f) = Z.of_nat n) as En by (rewrite heartbeats_add; unfold two64; lia).
    split.
    + assert (efd_count (heartbeats m (WriteToEventfd (pid * 4294967296) (heartbeats n f)).2) =
                pid * 4294967296 + (Z.of_nat n + Z.of_nat m)) as E.
      { rewrite heartbeats_add; rewrite ?WriteToEventfd_adds; unfold two64; lia. }
      rewrite (detect_value _ _ _ E) by lia. rewrite upper_half by lia.
      unfold i32. rewrite Z.mod_small by lia. destruct (Z.ltb_spec 0 (pid + 2147483648 - 2147483648)); lia.
    + intros Hn. destruct (decide (n = 1%nat)) as [->|Hne].
      * unfold detect_child_alive. destruct (efd_read_ok (heartbeats 1 f)) as (f' & -> & _); [lia|]. by rewrite En.
      * rewrite (detect_value _ _ _ En) by lia.
        change (Z.of_nat n) with (0 * 4294967296 + Z.of_nat n). by rewrite upper_half by lia.
Qed.

(** Two boot processes between two reads add up to a wrong number. *)
Lemma two_boots_add (p1 p2 : Z) (f : F) :
  efd_count f = 0 -> 0 < p1 < 1073741824 -> 0 < p2 < 1073741824 ->
  (detect_child_alive 0 (WriteToEventfd (p2 * 4294967296) (WriteToEventfd (p1 * 4294967296) f).2).2).1 = p1 + p2.
Proof.
  intros Hf Hp1 Hp2.
  assert (efd_count (WriteToEventfd (p2 * 4294967296) (WriteToEventfd (p1 * 4294967296) f).2).2 =
            (p1 + p2) * 4294967296 + 0) as E.
  { rewrite !WriteToEventfd_adds; rewrite ?WriteToEventfd_adds; unfold two64; lia. }
  rewrite (detect_value _ _ _ E) by lia. rewrite upper_half by lia.
  unfold i32. rewrite Z.mod_small by lia. destruct (Z.ltb_spec 0 (p1 + p2 + 2147483648 - 2147483648)); lia.
Qed.
End Theorems.

(** ** The wait for the port ends *)

Class HostOk (W : Type) `{Host W} := {
  pass_clock : forall d w, 0 <= d -> clock (pass d w) = clock w + d;
  dial_clock : forall h p w, clock w <= clock (dial h p w).2
}.

Section Wait.
Context {W : Type} `{HostOk W}.

(** How a wait until [deadline] can end. *)
Definition wait_ended (host port : string) (deadline : Z) (o : outcome (result unit)) (w' : W) : Prop :=
  match o with
  | Ret (inl _) => clock w' < deadline /\ exists w, dial host port w = (true, w')
  | Ret (inr _) => deadline <= clock w'
  | Blocked => exists w, clock w < deadline /\ dial host port w = (true, w') /\ deadline <= clock w'
  | _ => False
  end.

Lemma wait_ends (host port : string) (deadline : Z) (n : nat) (w : W) :
  deadline - clock w < (Z.of_nat n - 1) * (100 * Millisecond) -> (0 < n)%nat ->
  let '(o, w') := waitUtilPortAlive n host port deadline w in wait_ended host port deadline o w'.
Proof.
  assert (Hms : 100 * Millisecond = 100000000) by reflexivity. rewrite Hms.
  revert w. induction n as [|n IH]; intros w Hn Hpos; [lia|]. cbn [waitUtilPortAlive]. rewrite Hms.
  destruct (Z.leb_spec deadline (clock w)) as [Hd|Hd]; [done|].
  unfold isPortAlive. pose proof (dial_clock host port w) as Hc.
  destruct (dial host port w) as [[] w1] eqn:E; cbn [snd] in Hc.
  - destruct (Z.leb_spec deadline (clock w1)); unfold wait_ended; [by exists w|by split; [|exists w]].
  - apply IH; [rewrite pass_clock by lia|]; lia.
Qed.

(** C36. The start of the database before the connection ends: after enough
    rounds for the time limit it reports a port that answered before the
    limit, an error at once when the fork fails, or a time-out after the
    limit; the one exception is a port that comes up during the dial that is
    under way at the limit, after which the agent waits for ever. *)
Theorem start_database_ends (n : nat) (cfg : Agent.Config) (w : W) :
  i64 (Agent.ForkProcessWaitSecond cfg * Second) < (Z.of_nat n - 1) * (100 * Millisecond) -> (0 < n)%nat ->
  let '(o, w') := start_database n cfg w in
  let host := db_Host (Agent.DBConfig cfg) in
  let port := FormatInt (db_Port (Agent.DBConfig cfg)) in
  (o = Ret (inl tt) /\ dial host port w = (true, w')) \/
  (exists e w1, o = Ret (inr e) /\ DoubleForkAndExecute (Agent.fd cfg) (Agent.configFile cfg) w1 = (Some e, w')) \/
  (exists w1 w2, DoubleForkAndExecute (Agent.fd cfg) (Agent.configFile cfg) w1 = (None, w2) /\
     wait_ended host port (clock w2 + i64 (Agent.ForkProcessWaitSecond cfg * Second)) o w').
Proof.
  intros Hn Hpos. unfold start_database, isPortAlive. cbv zeta.
  destruct (dial _ _ w) as [[] w1] eqn:E; [by left|].
  destruct (DoubleForkAndExecute _ _ w1) as [[e|] w2] eqn:Ef; [right; left; by exists e, w1|].
  pose proof (wait_ends (db_Host (Agent.DBConfig cfg)) (FormatInt (db_Port (Agent.DBConfig cfg)))
    (clock w2 + i64 (Agent.ForkProcessWaitSecond cfg * Second)) n w2) as Hw.
  destruct (waitUtilPortAlive _ _ _ _ w2) as [o w']. right. right. exists w1, w2. split; [done|]. apply Hw; lia.
Qed.
End Wait.

(** ** Addresses *)

(** The default address of the HTTP interface is not a URL, so that an agent
    without another one does not start. *)
Lemma default_addr_rejected : exists e, initHTTPServer Agent.NewConfig = inr e.
Proof. eexists. reflexivity. Qed.

(** An unknown service type leaves the manager nil. *)
Lemma unknown_service_nil (cfg : Agent.Config) (t : string) :
  Agent.ServiceType cfg = t -> t ∉ [""; "mysql"; "postgresql"] -> choose_manager cfg = NilManager.
Proof.
  intros <- Ht. unfold choose_manager.
  destruct (String.eqb_spec (Agent.ServiceType cfg) ""); [set_solver|].
  destruct (String.eqb_spec (Agent.ServiceType cfg) "mysql"); [set_solver|].
  by destruct (String.eqb_spec (Agent.ServiceType cfg) "postgresql"); [set_solver|].
Qed.

(** A process file that cannot be read counts as a stopped database. *)
Lemma tear_down_without_pid {W} `{Host W} (cfg : World.Config) (id : result string) (w : W) (st : Store) (e : error) :
  read_file (getenv "MYSQL_PID_FILE" w) w = inr e ->
  tear_down cfg id w st = (Some (StartClean cfg id st).1, w, (StartClean cfg id st).2).
Proof.
  intros Hr. unfold tear_down, waitProcessToStop. rewrite Hr. rewrite Z.sub_diag.
  change (0 <? 3 * Second) with true. by destruct (StartClean cfg id st).
Qed.

(** ** Shutting down *)
Section Shutdown.
Context {D W : Type} `{HS : ServiceManager D} `{HOk : !ServiceManagerOk D} `{Host W}.
Context (cfg : World.Config) (node_ID : string).

Lemma tear_down_store (h h' : W) (st st' : Store) (x : option (option error)) :
  tear_down cfg (inl node_ID) h st = (x, h', st') ->
  if clock h' - clock h <? 3 * Second then x = Some (StartClean cfg (inl node_ID) st).1 /\
    st' = (StartClean cfg (inl node_ID) st).2 else x = None /\ st' = st.
Proof.
  unfold tear_down. destruct (waitProcessToStop _ h) as [e h1].
  destruct (Z.ltb_spec (clock h1 - clock h) (3 * Second)) as [Hl|Hl].
  - destruct (StartClean cfg (inl node_ID) st) as [e' st1]. intros [= <- <- <-].
    destruct (Z.ltb_spec (clock h1 - clock h) (3 * Second)); [done|lia].
  - intros [= <- <- <-]. destruct (Z.ltb_spec (clock h1 - clock h) (3 * Second)); [lia|done].
Qed.

(** The tear-down of a node that holds the leader key. *)
Lemma tear_down_own (w : world D) (v : KeyValue) :
  leader_key cfg (etcd w) = Some v -> Value v = node_ID ->
  forall (h h' : W) x st', tear_down cfg (inl node_ID) h (etcd w) = (x, h', st') ->
    if clock h' - clock h <? 3 * Second
    then x = Some None /\ kvs st' = delete (fullLeaderPath cfg) (kvs (etcd w))
    else st' = etcd w.
Proof.
  intros Hk Hown h h' x st' Ht%tear_down_store. destruct (clock h' - clock h <? 3 * Second); [|apply Ht].
  destruct Ht as [-> ->]. destruct (StartClean cfg (inl node_ID) (etcd w)) as [e st1] eqn:Es. cbn [fst snd].
  destruct (StartClean_own cfg _ _ _ _ Es) as [(-> & _ & Hd)|(_ & _ & Hn)]; [done|].
  exfalso. by apply (Hn v).
Qed.

End Shutdown.

(** ** A concrete machine *)

(** The port answers from the time [up] on; a dial takes [cost]. *)
Record machine := mkMachine { m_clock : Z; m_up : Z; m_cost : N }.
#[local] Instance machine_host : Host machine := {
  dial _ _ w := let t := m_clock w + Z.of_N (m_cost w) in (m_up w <=? t, mkMachine t (m_up w) (m_cost w));
  fork_exec _ _ w := (inl 4242, w);
  wait4 _ w := (None, w);
  read_file _ _ := inr ErrNotExist;
  getenv _ _ := "";
  clock := m_clock;
  pass d w := mkMachine (m_clock w + d) (m_up w) (m_cost w)
}.
#[local] Instance machine_ok : HostOk machine.
Proof. split; cbn; intros; lia. Qed.

#[local] Instance counter_fd : EventFD Z := {
  efd_count f := f;
  efd_write b f := if (length b =? 8)%nat && (f + le_value b <? two64 - 1) then (None, f + le_value b) else (Some ErrRange, f);
  efd_read f := if 0 <? f then (inl f, 0) else (inr (Errorf "EAGAIN"), f)
}.
#[local] Instance counter_fd_ok : EventFDOk Z.
Proof.
  split; cbn.
  - intros b f -> Hv Hs. destruct (Z.ltb_spec (f + le_value b) (two64 - 1)); [cbn; eauto|lia].
  - intros f Hf. destruct (Z.ltb_spec 0 f); [eauto|lia].
Qed.

(** A decoder of a file that names the database. *)
Definition toy_decode (_ : string) (c : Agent.Config) : result Agent.Config := inl (Agent.set_NodeID "10.0.0.1:3306" c).

Lemma boot_handshake_witness :
  exists v, service_boot toy_decode (boot_args 5 "/agent/config.toml") (mkMachine 0 0 0) = (Ret (5, v), mkMachine 0 0 0) /\
    (detect_child_alive 0 (heartbeats 3 (WriteToEventfd v (heartbeats 2 0)).2)).1 = 4242.
Proof.
  destruct (boot_handshake (F := Z) toy_decode 5 4242 "/agent/config.toml"
    (Agent.set_NodeID "10.0.0.1:3306" (Agent.set_configFile "/agent/config.toml" Agent.NewConfig))
    (mkMachine 0 0 0) (mkMachine 0 0 0)) as (v & E & Hd).
  - split; [discriminate|reflexivity].
  - discriminate.
  - reflexivity.
  - reflexivity.
  - split; reflexivity.
  - exists v. split; [exact E|]. apply (Hd 0 2%nat 3%nat 0); reflexivity.
Defined.

Definition wait_cfg : Agent.Config := Agent.NewConfig.

(** The port is up after 150 ms; without a limit the wait times out. *)
Lemma start_database_ends_witness :
  let '(o, w') := start_database 2 wait_cfg (mkMachine 0 150000000 0) in
  let host := db_Host (Agent.DBConfig wait_cfg) in
  let port := FormatInt (db_Port (Agent.DBConfig wait_cfg)) in
  (o = Ret (inl tt) /\ dial host port (mkMachine 0 150000000 0) = (true, w')) \/
  (exists e w1, o = Ret (inr e) /\ DoubleForkAndExecute (Agent.fd wait_cfg) (Agent.configFile wait_cfg) w1 = (Some e, w')) \/
  (exists w1 w2, DoubleForkAndExecute (Agent.fd wait_cfg) (Agent.configFile wait_cfg) w1 = (None, w2) /\
     wait_ended host port (clock w2 + i64 (Agent.ForkProcessWaitSecond wait_cfg * Second)) o w').
Proof. apply (start_database_ends 2 wait_cfg (mkMachine 0 150000000 0)); [reflexivity|lia]. Defined.

(** The port comes up during the dial that passes the limit. *)
Lemma port_race :
  (waitUtilPortAlive 9 "h" "1" 140000000 (mkMachine 0 125000000 30000000)).1 = Blocked.
Proof. reflexivity. Qed.


(** An error of [Start] and a panic lead to a new agent, the exits with 3 and
    0 do not. *)
Lemma exit_policy {A} (cfg : Agent.Config) (new : Agent.Config -> result A) (start : A -> outcome (result unit)) (a : A) (e : error) :
  new cfg = inl a ->
  (start a = Ret (inr e) \/ start a = Panicked ->
     exists s, exit_status (agent_main (Ret (inl cfg)) new start) = Some s /\ restarted s = true) /\
  (start a = Exited 3 \/ start a = Ret (inl tt) ->
     exists s, exit_status (agent_main (Ret (inl cfg)) new start) = Some s /\ restarted s = false).
Proof. intros Hn. unfold agent_main. rewrite Hn. split; intros [-> | ->]; eexists; split; reflexivity. Qed.
End Boot.
