(* ===== verification/Lifecycle.v ===== *)
(** * The life of an agent: [NewServer], [Start], [leaderLoop], the end

    The other files prove the iterations of the leader loop one by one.  This
    file runs a whole agent: the first write stop of [Start], any number of
    iterations, each with its own schedule and its own disturbances by the other
    goroutines, the deferred [Close] of [leaderLoop], and the wait of [Start] for the shutdown channel.  In front
    of it is the rest of [Start]: the HTTP address, the start of the database,
    the choice of the service manager and the connection.

    A rule of [keeps] for the whole life lifts the relations of the components
    (what is written to the trace, the machine of the cluster, the types of the
    counters); the end of the life is a theorem of its own. *)

From stdpp Require Import gmap strings list.
From Stdlib Require Import ZArith Lia.
From S2P Require Import Prelude GoStrings Urls Etcd World ServiceManager Demo Leader Node Election ServerLoop Threads ServerProofs AgentSpec Cluster Startup Flags Typing Postgres Boot.
Import Mvcc.

Section Life.
Context {D : Type} `{ServiceManager D} `{RangeOrder}.
Context (cfg : Config) (node_ID : string) (fuel : nat).

(** [<-s.shutdownCh] at the end of [Start] *)
Definition await_shutdown : M D unit :=
  let! ch := gets shutdownCh in
  match ch with
  | ChClosed => ret tt
  | _ => block
  end.

(** [Start] from the moment the service is reached. *)
Definition serve (rounds : list (round D)) : M D unit :=
  do! Start_service fuel in
  do! leaderLoop cfg node_ID fuel rounds in
  await_shutdown.

(** What the parts of a life keep, the life keeps. *)
Section Keeps.
Context (R : relation (world D)) `{!PreOrder R}.

Definition round_keeps (r : round D) : Prop :=
  keeps R (disturb_all (r_before r)) /\ keeps R (leaderLoop_body cfg node_ID (r_watch r) (r_turns r) fuel).

Lemma keeps_leaderLoop (rounds : list (round D)) :
  Forall round_keeps rounds -> keeps R (Close cfg node_ID) -> keeps R (leaderLoop cfg node_ID fuel rounds).
Proof.
  intros Hb Hc. unfold leaderLoop. repeat keeps_step; [|done].
  induction Hb as [|r rest [H1 H2] _ IH]; cbn [leaderLoop_iter]; repeat keeps_step; done.
Qed.

Lemma keeps_serve (rounds : list (round D)) :
  (forall d, keeps R (sleep d)) -> keeps R sm_SetReadOnly -> keeps R loadUUID ->
  Forall round_keeps rounds -> keeps R (Close cfg node_ID) -> keeps R (serve rounds).
Proof.
  intros Hs Hr Hu Hb Hc. unfold serve, Start_service, await_shutdown.
  repeat keeps_step; auto. by apply keeps_leaderLoop.
Qed.
End Keeps.

Lemma guarded_serve (rounds : list (round D)) : keeps (guarded_run cfg node_ID) (serve rounds).
Proof.
  apply keeps_serve; [exact _| | | |apply Forall_true; intros r; split; [|apply guarded_body]|].
  all: intros; apply guarded_quiet; unfold loadUUID; repeat keeps_step; auto with moha; apply adds_disturb_all.
Qed.

(** What the other goroutines do in a round, before the iteration and during a
    term of office. *)
Definition disturbances (P : disturbance D -> Prop) (r : round D) : Prop :=
  Forall P (r_before r) /\ Forall (fun x => P x.1) (r_turns r).

Lemma run_serve (rounds : list (round D)) :
  plain_elem node_ID = true -> Forall (disturbances (cluster_disturbance cfg)) rounds ->
  keeps (machine_run cfg) (serve rounds).
Proof.
  intros Hid Hr. apply keeps_serve; [exact _|intros; apply run_sleep| | |eapply Forall_impl; [exact Hr|]|by apply run_Close].
  - unfold sm_SetReadOnly. repeat keeps_step; [apply run_svc_call|apply run_log_event].
  - unfold loadUUID. repeat keeps_step; [apply run_svc_call|apply run_modify|by apply run_same].
  - intros r [H1 H2]. split; [|by apply run_body]. apply keeps_disturb_all; [exact _|].
    eapply Forall_impl; [exact H1|]. intros d. apply run_disturb.
Qed.

Lemma typed_serve `{!ReplicationTyped D} (rounds : list (round D)) :
  plain_elem node_ID = true -> Forall (disturbances (typed_disturbance cfg)) rounds -> keeps (typed cfg) (serve rounds).
Proof.
  intros Hid Hr. apply keeps_serve; [exact _|intros; apply typed_sleep| | |eapply Forall_impl; [exact Hr|]|by apply typed_Close].
  - unfold sm_SetReadOnly. repeat keeps_step; [apply typed_svc_call|apply typed_log_event].
  - unfold loadUUID. repeat keeps_step; [apply typed_svc_call| |by apply typed_same].
    apply typed_modify. by intros ? [? ?].
  - intros r [H1 H2]. split; [|by apply typed_body]. apply keeps_disturb_all; [exact _|].
    eapply Forall_impl; [exact H1|]. intros d. apply typed_disturb.
Qed.
End Life.

(** ** How a life ends *)

(** The last request of the loop about writes that counts: [Some true] is a
    request to start them, [Some false] a granted one to stop them. *)
Fixpoint last_request (tr : list event) : option bool :=
  match tr with
  | [] => None
  | ESetReadOnly None :: _ => Some false
  | ESetReadWrite _ :: _ => Some true
  | _ :: rest => last_request rest
  end.

(** A server that nobody has closed, and one that has been. *)
Definition open_server (s : Server) : Prop :=
  isClosed s = false /\ registerStopCh s = ChOpen /\ shutdownCh s = ChOpen.

Definition closed_server (ch : chan) (s : Server) : Prop :=
  isClosed s = true /\ ctxDone s = true /\ shutdownCh s = ch.

Section End.
Context {D : Type} `{HS : ServiceManager D} `{RangeOrder} `{HOk : !ServiceManagerOk D}.
Context (cfg : Config) (node_ID : string).

(** Writes are stopped, or the loop has asked for them after it was overtaken
    by the [Close] of another goroutine. *)
Definition stopped (w : world D) : Prop := accepts_writes (svc w) = false \/ last_request (trace w) = Some true.

Definition down (ch : chan) (w : world D) : Prop := closed_server ch (srv w) /\ stopped w.

(** The other goroutines leave an open server open or close it with writes
    stopped, and leave a closed one alone. *)
Definition orderly (d : disturbance D) : Prop := forall s x,
  (open_server s -> open_server (d_srv d s) \/ closed_server ChClosed (d_srv d s) /\ accepts_writes (d_svc d x) = false) /\
  (forall ch, closed_server ch s -> closed_server ch (d_srv d s) /\ (accepts_writes (d_svc d x) = true -> accepts_writes x = true)).

(** The process exits only with code 3, after the service refused to stop
    writes, or when the monitor finds the lease run out. *)
Definition justified_exit (c : Z) (w : world D) : Prop :=
  c = 3 /\ ((exists e tr, trace w = ESetReadOnly (Some e) :: tr) \/ monitor_fire (leaseExpireTS (srv w)) (now w) = None).

(** The oracle of the beginning. *)
Context (O : list tick).
Definition busy : Prop := Exists (fun t => t_busy t = true) O.

(** The server is open; or it is closed; or the panic of [Close] was caught. *)
Definition standing (w : world D) : Prop :=
  open_server (srv w) /\ oracle w `suffix_of` O \/ down ChClosed w \/ down ChOpen w /\ busy.

Definition sound {A} (m : M D A) : Prop :=
  forall w, standing w ->
  match m w with
  | (Ret _, w') | (Panicked, w') => standing w'
  | (Exited c, w') => justified_exit c w'
  | (Blocked, _) => True
  end.

Lemma sound_bind {A B} (m : M D A) (k : A -> M D B) : sound m -> (forall a, sound (k a)) -> sound (bind m k).
Proof.
  intros Hm Hk w Hw. specialize (Hm w Hw). unfold bind. destruct (m w) as [[a|c| |] w']; try done. by apply Hk.
Qed.

Lemma sound_deferred {A} (d : M D unit) (m : M D A) : sound d -> sound m -> sound (deferred d m).
Proof.
  intros Hd Hm w Hw. specialize (Hm w Hw). unfold deferred, bind, ret, panic.
  destruct (m w) as [[a|c| |] w']; try done; specialize (Hd w' Hm); by destruct (d w') as [[b|c| |] w2].
Qed.

(** A call that leaves the server as it is and starts no writes. *)
Lemma standing_same (w w' : world D) :
  srv w' = srv w -> oracle w' `suffix_of` oracle w -> (stopped w -> stopped w') -> standing w -> standing w'.
Proof.
  intros Es Eo Ht Hw. unfold standing, down in *. rewrite Es. destruct Hw as [[Hu Ho]|[[Hc Hw]|[[Hc Hw] Hb]]].
  - left. split; [done|]. by etrans.
  - right. left. auto.
  - right. right. auto.
Qed.

Lemma arrival_suffix (w : world D) : oracle (arrival w) `suffix_of` oracle w.
Proof. unfold arrival, next_tick. destruct (oracle w) as [|t o]; cbn; [done|]. by exists [t]. Qed.

Lemma sound_etcd_call {A} (f : Store -> result A * Store) : sound (etcd_call f).
Proof.
  intros w Hw. destruct (etcd_call_ret f w) as (r & st & -> & _). apply (standing_same w); auto. apply arrival_suffix.
Qed.

Lemma sound_svc_call {A} (f : D -> A * D) :
  (forall d a d', f d = (a, d') -> accepts_writes d' = true -> accepts_writes d = true) -> sound (svc_call f).
Proof.
  intros Hf w Hw. unfold svc_call. destruct (f (svc w)) as [a d] eqn:E. apply (standing_same w); [done|by exists []| |done].
  unfold stopped. cbn. specialize (Hf _ _ _ E). destruct (accepts_writes d); [|auto].
  intros [Hs|Hs]; [|auto]. by rewrite Hf in Hs.
Qed.

Lemma sound_modify (f : Server -> Server) :
  (forall s, isClosed (f s) = isClosed s /\ registerStopCh (f s) = registerStopCh s /\
             shutdownCh (f s) = shutdownCh s /\ ctxDone (f s) = ctxDone s) -> sound (modify f).
Proof.
  intros Hf w Hw. destruct (Hf (srv w)) as (E1 & E2 & E3 & E4). unfold modify, with_srv, standing, down, open_server, closed_server in *.
  cbn. by rewrite E1, E2, E3, E4.
Qed.

Lemma sound_log_event (e : event) :
  match e with ESetReadOnly None => False | _ => True end -> sound (log_event e).
Proof.
  intros He w Hw. apply (standing_same w); [done|by exists []| |done]. unfold stopped. cbn.
  intros [?|Hr]; [by left|right]. destruct e; try done. by destruct err.
Qed.

Lemma sound_same {A} (a : A) (f : world D -> world D) :
  (forall w, srv (f w) = srv w /\ svc (f w) = svc w /\ oracle (f w) = oracle w /\ last_request (trace (f w)) = last_request (trace w)) ->
  sound (fun w => (Ret a, f w)).
Proof.
  intros Hf w Hw. destruct (Hf w) as (E1 & E2 & E3 & E4). apply (standing_same w); [done|by rewrite E3| |done].
  unfold stopped. by rewrite E2, E4.
Qed.

Lemma sound_SetReadOnly : sound sm_SetReadOnly.
Proof.
  intros w Hw. unfold sm_SetReadOnly, svc_call, bind, log_event, ret. destruct (SetReadOnly (svc w)) as [e d] eqn:E.
  apply (standing_same w); [done|by exists []| |done]. unfold stopped. cbn. destruct e as [e|].
  - pose proof (SetReadOnly_quiet _ _ _ E) as Hq. destruct (accepts_writes d); [|auto]. intros [Hs|Hs]; [|auto]. by rewrite Hq in Hs.
  - intros _. left. apply (SetReadOnly_ok _ _ E).
Qed.

Lemma sound_SetReadWrite : sound sm_SetReadWrite.
Proof.
  intros w Hw. unfold sm_SetReadWrite, svc_call, bind, log_event, ret. destruct (SetReadWrite (svc w)) as [e d].
  apply (standing_same w); [done|by exists []| |done]. intros _. by right.
Qed.

Lemma sound_readonly_or_exit : sound setServiceReadonlyOrShutdown.
Proof.
  intros w Hw. pose proof (sound_SetReadOnly w Hw) as Hs. unfold setServiceReadonlyOrShutdown, bind.
  destruct (SetReadOnly_returns w) as ([e|] & w' & E & _ & _ & _ & He); rewrite E in *; [|exact Hs].
  split; [done|]. left. eauto.
Qed.

Lemma sound_close_leaderStop : sound (close_chan leaderStopCh set_leaderStopCh).
Proof.
  intros w Hw. unfold close_chan. by destruct (leaderStopCh (srv w)).
Qed.

Lemma sound_updateLease : sound (updateLeaseExpireTS cfg).
Proof. intros w Hw. exact (sound_modify (set_leaseExpireTS _) ltac:(by intros []) w Hw). Qed.

Lemma sound_disturb (d : disturbance D) : orderly d -> sound (disturb d).
Proof.
  intros Hd w Hw. destruct (Hd (srv w) (svc w)) as [H1 H2]. unfold disturb, standing, down, stopped in *. cbn.
  destruct Hw as [[Hu Ho]|[[Hc Hw]|[[Hc Hw] Hb]]].
  - destruct (H1 Hu) as [?|[? ?]]; auto.
  - destruct (H2 _ Hc) as [Hc' Hq]. right. left. split; [done|].
    destruct (accepts_writes (d_svc d (svc w))); [|auto]. destruct Hw as [Hw|]; [|auto]. by rewrite Hq in Hw.
  - destruct (H2 _ Hc) as [Hc' Hq]. right. right. split; [|done]. split; [done|].
    destruct (accepts_writes (d_svc d (svc w))); [|auto]. destruct Hw as [Hw|]; [|auto]. by rewrite Hq in Hw.
Qed.

Lemma sound_retry {A} (fuel : nat) (d : Z) (f : M D (result A)) : sound (sleep d) -> sound f -> sound (retry fuel d f).
Proof.
  intros Hs Hf. induction fuel as [|n IH]; cbn; apply sound_bind; auto; intros [a|e]; try (by intros w); by apply sound_bind.
Qed.
Lemma sound_retry_err (fuel : nat) (d : Z) (f : M D (option error)) : sound (sleep d) -> sound f -> sound (retry_err fuel d f).
Proof.
  intros Hs Hf. induction fuel as [|n IH]; cbn; apply sound_bind; auto; intros [e|]; try (by intros w); by apply sound_bind.
Qed.

Lemma sound_sleep (d : Z) : sound (sleep d).
Proof. by apply sound_same. Qed.

#[local] Hint Resolve sound_etcd_call sound_close_leaderStop sound_updateLease sound_readonly_or_exit
  sound_SetReadOnly sound_SetReadWrite sound_sleep : moha.

Ltac sound_step :=
  lazymatch goal with
  | |- sound (bind _ _) => apply sound_bind; [|intros ?]
  | |- sound (deferred _ _) => apply sound_deferred
  | |- sound (retry _ _ _) => apply sound_retry; [apply sound_sleep|]
  | |- sound (retry_err _ _ _) => apply sound_retry_err; [apply sound_sleep|]
  | |- sound (modify _) => apply sound_modify; by intros []
  | |- sound (match ?x with _ => _ end) => destruct x
  | |- sound (ret _) => intros ?; done
  | |- sound panic => intros ?; done
  | |- sound block => intros ?; done
  | |- sound (gets _) => intros ?; done
  | |- sound get_latestPos => intros ?; done
  | |- sound (log_event _) => by apply sound_log_event
  | |- sound (svc_call _) => apply sound_svc_call; intros ???;
      first [apply PromoteToMaster_quiet|apply RedirectMaster_quiet|apply LoadSlaveStatus_quiet|apply LoadMasterInfo_quiet
            |apply LoadSlaveInfo_quiet|apply GetServerUUID_calm|apply Close_service_quiet]
  end.
Ltac sound_solve := repeat sound_step; eauto with moha.

Lemma sound_commit (rt : TxnRequest) : sound (commit rt).
Proof. unfold commit. sound_solve. Qed.
#[local] Hint Resolve sound_commit : moha.

Lemma sound_promote : sound (promoteToMaster cfg node_ID).
Proof.
  unfold promoteToMaster, amILeader, setIsLeaderToTrue, sm_PromoteToMaster, uploadPromotionBinlog. sound_solve.
Qed.

Lemma sound_becomeSlave (h p : string) : sound (becomeSlave h p).
Proof.
  unfold becomeSlave. apply sound_bind; [unfold sm_RedirectMaster; sound_solve|]. generalize 10%nat as n.
  induction n as [|n IH]; intros [e|]; cbn; unfold sm_RedirectMaster; sound_solve.
Qed.

Lemma sound_preWatch (l : Leader) : sound (preWatch cfg node_ID l).
Proof.
  assert (sound (preWatch_body node_ID l)) as H1
    by (unfold preWatch_body, loadMasterLogFromMySQL, loadSlaveLogFromMySQL; sound_solve).
  assert (sound (persistMyTerm cfg node_ID)) as Hp by (unfold persistMyTerm; sound_solve).
  intros w Hw. specialize (H1 w Hw). unfold preWatch, bind, ret, panic.
  destruct (preWatch_body node_ID l w) as [[[e|]|c| |] w']; try done;
    specialize (Hp w' H1); by destruct (persistMyTerm cfg node_ID w') as [[r|c| |] w2].
Qed.

Lemma sound_preCampaign (fuel : nat) (b : bool) : sound (preCampaign cfg node_ID fuel b).
Proof.
  unfold preCampaign, uploadLogForElectionAsFormerMaster, uploadLogForElectionAsSlave,
    getAllLogsForElection, uploadLogForElection. sound_solve.
Qed.

Lemma sound_watch (Watch : nat -> Z -> list WatchResponse) (fuel : nat) (rev : Z) :
  sound (watchLeader Watch fuel rev).
Proof. induction fuel as [|n IH]; cbn; sound_solve. Qed.
#[local] Hint Resolve sound_promote sound_becomeSlave sound_preWatch sound_preCampaign sound_watch : moha.

Lemma sound_single_point (fuel : nat) (resume : bool) : sound (becomeSinglePointMaster cfg node_ID fuel resume).
Proof.
  unfold becomeSinglePointMaster, setIsLeaderToTrue, resumeLeaderAsSinglePoint,
    campaignLeaderAsSinglePoint, ignore, removeSPMFromEtcd, setIsSPMToTrue,
    setIsSPMToFalse, waitUntilSlaveAppears. sound_solve.
  induction fuel as [|n IH]; cbn; unfold pollAllRegisteredAgents; sound_solve.
Qed.

(** *** The goroutines of a leader *)

Lemma sound_monitor (c : select_case) (b : bool) : sound (monitor_select c b).
Proof.
  intros w Hw. unfold monitor_select. destruct b, c; try exact Hw.
  destruct (monitor_fire (leaseExpireTS (srv w)) (now w)) eqn:E; [exact Hw|]. split; [done|by right].
Qed.

Lemma sound_helpers (l : Z) (c : select_case) (h : helpers) : sound (helpers_turn cfg l c h).
Proof.
  unfold helpers_turn. apply sound_bind; [|intros k; apply sound_bind; [apply sound_monitor|by intros ? w]].
  unfold keepAlive_select, renew_lease, KeepAliveOnce, alive_end. sound_solve.
Qed.

Inductive thread_sound {A} : thread D A -> Prop :=
| sound_Fin (a : A) : thread_sound (Fin a)
| sound_Act (m : M D (thread D A)) :
    sound m -> (forall w t w', m w = (Ret t, w') -> thread_sound t) -> thread_sound (Act m).

Lemma sound_act {A B} (m : M D A) (k : A -> thread D B) : sound m -> (forall a, thread_sound (k a)) -> thread_sound (act m k).
Proof.
  intros Hm Hk. constructor; [apply sound_bind; [done|by intros a w]|]. intros w t w'. unfold bind, ret.
  destruct (m w) as [[a| | |] w1]; try done. by intros [= <- _].
Qed.

Lemma sound_alone {A} (t : thread D A) : thread_sound t -> sound (run_alone t).
Proof.
  induction 1 as [a|m Hm _ IH]; [by intros w|]. intros w Hw. specialize (Hm w Hw). cbn.
  destruct (m w) as [[t'| | |] w1] eqn:E; try done. by eapply IH.
Qed.

Lemma sound_race {A} (l : Z) (turns : list (turn D)) (t : thread D A) (h : helpers) :
  Forall (fun x => orderly x.1) turns -> thread_sound t -> sound (race cfg l h turns t).
Proof.
  intros Ht. revert h t. induction Ht as [|[d c] rest Hd _ IH]; intros h t Hk; cbn [race].
  - apply sound_bind; [by apply sound_alone|by intros a w].
  - destruct Hk as [a|m Hm Hk]; [by intros w|]. apply sound_bind; [by apply sound_disturb|intros _].
    assert (forall c', sound (let! h' := helpers_turn cfg l c' h in race cfg l h' rest (Act m))) as Ho.
    { intros c'. apply sound_bind; [apply sound_helpers|]. intros h'. apply IH. by constructor. }
    destruct c; try apply Ho. intros w Hw. specialize (Hm w Hw). unfold bind.
    destruct (m w) as [[t'| | |] w1] eqn:E; try done. apply IH; [by eapply Hk|done].
Qed.

Lemma sound_barrier (l : Z) (turns : list (turn D)) (h : helpers) :
  Forall (fun x => orderly x.1) turns -> sound (barrier cfg l h turns).
Proof.
  intros Ht. revert h. induction Ht as [|[d c] rest Hd _ IH]; intros h; cbn [barrier]; [by destruct (alive h); intros w|].
  destruct (alive h); try by intros w.
  all: apply sound_bind; [by apply sound_disturb|intros _; apply sound_bind; [apply sound_helpers|auto]].
Qed.

Lemma sound_in_office (l : Z) (turns : list (turn D)) (t : thread D bool) :
  Forall (fun x => orderly x.1) turns -> thread_sound t -> sound (in_office cfg l turns t).
Proof.
  intros Ht Hk w Hw. unfold in_office, bind at 1. pose proof (sound_race l turns t started Ht Hk w Hw) as Hr.
  destruct (race cfg l started turns t w) as [[[[b h] rest]| | |] w1] eqn:E; try done. destruct b; [|exact Hr].
  apply sound_bind; [apply sound_barrier; by eapply (race_rest cfg l turns t started)|by intros _ w2|exact Hr].
Qed.

Lemma sound_resuming : thread_sound resuming.
Proof.
  unfold resuming, setIsLeaderToTrue. apply sound_act; [sound_solve|intros _]. apply sound_act; [sound_solve|].
  intros [e|]; [|constructor]. repeat (apply sound_act; [sound_solve|intros _]). constructor.
Qed.

Lemma sound_taking_over : thread_sound (taking_over cfg node_ID).
Proof.
  unfold taking_over, promoting, amILeader, setIsLeaderToTrue, sm_PromoteToMaster.
  match goal with |- context [act sm_SetReadWrite ?k] => set (kk := k) end.
  assert (thread_sound (act sm_SetReadWrite kk)) as Hk.
  { apply sound_act; [sound_solve|]. intros [e|]; [|constructor]. repeat (apply sound_act; [sound_solve|intros _]). constructor. }
  apply sound_act; [sound_solve|]. intros [|]; [done|].
  do 2 (apply sound_act; [sound_solve|intros _]). apply sound_act; [sound_solve|]. intros [pos|e]; [|done].
  apply sound_act; [sound_solve|done].
Qed.

(** *** The loop and its end *)

Definition ended {A} (r : outcome A * world D) : Prop :=
  match r with
  | (Ret _, w') => down ChClosed w' \/ down ChOpen w' /\ busy
  | (Exited c, w') => justified_exit c w'
  | (Panicked, w') => down ChOpen w' /\ busy
  | (Blocked, _) => True
  end.

Lemma Close_standing (w : world D) : standing w -> ended (Close cfg node_ID w).
Proof.
  intros [[(Hc & Hr & Hs) Ho]|Hd].
  - destruct (Close_ends cfg node_ID w Hc Hr Hs) as (w' & [[-> (Ha & H1 & H2 & H3)]|[(-> & (Ha & H1 & H2 & H3) & Hb)|[-> (e & Ht)]]]); cbn.
    + left. split; [done|by left].
    + split; [split; [done|by left]|]. destruct Ho as [k Ek]. unfold busy. rewrite Ek. apply Exists_app. by right.
    + split; [done|]. left. eauto.
  - assert (isClosed (srv w) = true) as Hc by (destruct Hd as [[Hx _]|[[Hx _] _]]; apply Hx).
    unfold Close, bind, gets. rewrite Hc. exact Hd.
Qed.

Lemma sound_Close : sound (Close cfg node_ID).
Proof.
  intros w Hw. pose proof (Close_standing w Hw) as Hc. destruct (Close cfg node_ID w) as [[a|c| |] w']; cbn in *; try done.
  - by right. - by do 2 right.
Qed.

Context (Watch : nat -> Z -> list WatchResponse) (turns : list (turn D)) (fuel : nat).
Context (Hturns : Forall (fun x => orderly x.1) turns).
#[local] Hint Resolve sound_Close sound_single_point : moha.

Lemma sound_loop_follow (l : Leader) : sound (loop_follow cfg node_ID Watch fuel l).
Proof. unfold loop_follow, doChangeMaster, setIsLeaderToFalse, get_NodeStatus. sound_solve. Qed.

Lemma sound_loop_resume (l : Leader) : sound (loop_resume cfg node_ID turns fuel l).
Proof.
  unfold loop_resume, resumeLeader. sound_solve. apply sound_in_office; [done|apply sound_resuming].
Qed.

Lemma sound_loop_campaign (l : Leader) : sound (loop_campaign cfg node_ID turns fuel l).
Proof.
  unfold loop_campaign, campaignLeader, deleteLeaderKey, after_win. sound_solve.
  apply sound_in_office; [done|apply sound_taking_over].
Qed.

Lemma sound_body : sound (leaderLoop_body cfg node_ID Watch turns fuel).
Proof.
  pose proof sound_loop_follow. pose proof sound_loop_resume. pose proof sound_loop_campaign.
  unfold leaderLoop_body, getLeaderAndMyTerm. sound_solve.
Qed.
End End.

(** *** The whole life *)
Section Ends.
Context {D : Type} `{HS : ServiceManager D} `{RangeOrder} `{HOk : !ServiceManagerOk D}.
Context (cfg : Config) (node_ID : string) (fuel : nat).

Lemma sound_iter (O : list tick) (rounds : list (round D)) :
  Forall (disturbances orderly) rounds -> sound O (leaderLoop_iter cfg node_ID fuel rounds).
Proof.
  induction 1 as [|r rest [H1 H2] _ IH]; cbn [leaderLoop_iter]; [by intros w|].
  apply sound_bind.
  { induction H1 as [|d ds Hd _ IHd]; cbn; [by intros w|]. apply sound_bind; [by apply sound_disturb|auto]. }
  intros _. apply sound_bind; [by apply sound_body|]. intros []; [exact IH|by intros w].
Qed.

Lemma leaderLoop_ends (O : list tick) (rounds : list (round D)) (w : world D) :
  Forall (disturbances orderly) rounds -> standing O w -> ended O (leaderLoop cfg node_ID fuel rounds w).
Proof.
  intros Hr Hw. pose proof (sound_iter O rounds Hr w Hw) as Hi. unfold leaderLoop, bind, recovered, ret.
  destruct (leaderLoop_iter cfg node_ID fuel rounds w) as [[a|c| |] w']; try done; by apply Close_standing.
Qed.

Lemma Start_service_sound (O : list tick) : sound O (Start_service (D := D) fuel).
Proof.
  unfold Start_service, loadUUID. apply sound_bind; [apply sound_retry_err; [apply sound_sleep|apply sound_SetReadOnly]|intros _].
  apply sound_bind; [|by intros ? w]. apply sound_bind.
  { apply sound_svc_call. intros ???. apply GetServerUUID_calm. }
  intros [u|e]; [|by intros w]. apply sound_bind; [apply sound_modify; by intros []|intros _].
  apply sound_bind; [by apply sound_same|by intros ? w].
Qed.

Lemma Start_service_no_panic (w : world D) : (Start_service fuel w).1 <> Panicked.
Proof.
  unfold Start_service. unfold bind at 1.
  assert ((retry_err fuel (100 * Millisecond) sm_SetReadOnly w).1 <> Panicked) as Hr.
  { revert w. induction fuel as [|n IH]; intros w; cbn; unfold bind;
      destruct (SetReadOnly_returns w) as ([e|] & w' & -> & _); try done. apply IH. }
  destruct (retry_err fuel (100 * Millisecond) sm_SetReadOnly w) as [[a|c| |] w1]; try done.
  unfold loadUUID, bind, svc_call, modify, modify_latestPos, ret. by destruct (GetServerUUID (svc w1)) as [[u|e] d].
Qed.

End Ends.

(** ** From the configuration to the loop *)

(** The settings the loop reads. *)
Definition settings (c : Flags.Agent.Config) : Config :=
  mkConfig (Flags.Agent.ClusterName c) (Flags.Agent.LeaderLeaseTTL c) (Flags.Agent.ShutdownThreshold c)
    (Flags.Agent.DataDir c) (Flags.Agent.NodeID c) (Flags.Agent.OnlyFollow c) (Flags.Agent.EtcdRootPath c)
    (Flags.Agent.EtcdUsername c) (Flags.Agent.RegisterTTL c) (Flags.Agent.ServiceType c)
    (Flags.Agent.InternalServiceHost c) (Flags.Agent.ExternalServiceHost c) (Flags.Agent.CampaignWaitTime c).

(** A value of the interface type [ServiceManager]: one of the two
    implementations, to which every call is dispatched. *)
Section Dispatch.
Context {A B : Type} `{HA : ServiceManager A} `{HB : ServiceManager B}.

Definition dispatch {X} (f : A -> X * A) (g : B -> X * B) (d : A + B) : X * (A + B) :=
  match d with
  | inl a => let '(x, a') := f a in (x, inl a')
  | inr b => let '(x, b') := g b in (x, inr b')
  end.

#[global] Instance either_ServiceManager : ServiceManager (A + B) := {|
  IsReadOnly d := match d with inl a => IsReadOnly a | inr b => IsReadOnly b end;
  SetReadOnly := dispatch SetReadOnly SetReadOnly;
  SetReadWrite := dispatch SetReadWrite SetReadWrite;
  PromoteToMaster := dispatch PromoteToMaster PromoteToMaster;
  RedirectMaster h p := dispatch (RedirectMaster h p) (RedirectMaster h p);
  SetReadOnlyManually := dispatch SetReadOnlyManually SetReadOnlyManually;
  LoadSlaveStatusFromDB lp := dispatch (LoadSlaveStatusFromDB lp) (LoadSlaveStatusFromDB lp);
  LoadMasterStatusFromDB := dispatch LoadMasterStatusFromDB LoadMasterStatusFromDB;
  LoadReplicationInfoOfMaster := dispatch LoadReplicationInfoOfMaster LoadReplicationInfoOfMaster;
  LoadReplicationInfoOfSlave := dispatch LoadReplicationInfoOfSlave LoadReplicationInfoOfSlave;
  GetServerUUID := dispatch GetServerUUID GetServerUUID;
  Close_service := dispatch Close_service Close_service
|}.
End Dispatch.

(** Both implementations return transaction numbers of the type, so does the
    interface. *)
#[global] Instance postgres_typed {P} `{SQLServer P} `{PgHost P} : ReplicationTyped (PostgreSQL.postgresqlServiceManager P).
Proof.
  assert (forall rows, is_u64 (Postgresql.scan_lsn rows)) as Hs.
  { intros rows. unfold Postgresql.scan_lsn. repeat case_match; eauto with moha. }
  split; intros d d' u g e; cbn.
  - unfold PostgreSQL.LoadReplicationInfoOfMaster, Postgresql.GetCurrentLSN. repeat case_match; intros; simplify_eq; auto.
  - unfold PostgreSQL.LoadReplicationInfoOfSlave, Postgresql.GetLastReplayLSN. repeat case_match; intros; simplify_eq; auto.
Qed.

#[global] Instance either_typed {A B} `{ServiceManager A} `{ServiceManager B} `{!ReplicationTyped A} `{!ReplicationTyped B} :
  ReplicationTyped (A + B).
Proof.
  split; intros [a|b] d' u g e; cbn; unfold dispatch.
  - destruct (LoadReplicationInfoOfMaster a) as [x a'] eqn:E. intros [= -> _]. exact (master_info_u64 _ _ _ _ _ E).
  - destruct (LoadReplicationInfoOfMaster b) as [x b'] eqn:E. intros [= -> _]. exact (master_info_u64 _ _ _ _ _ E).
  - destruct (LoadReplicationInfoOfSlave a) as [x a'] eqn:E. intros [= -> _]. exact (slave_info_u64 _ _ _ _ _ E).
  - destruct (LoadReplicationInfoOfSlave b) as [x b'] eqn:E. intros [= -> _]. exact (slave_info_u64 _ _ _ _ _ E).
Qed.

Section Start.
Context {Q P W F : Type} `{HQ : SQLServer Q} `{HP : SQLServer P} `{HG : PgHost P} `{HW : Boot.Host W} `{HF : LocalFiles F}.
Context `{RangeOrder}.

Definition service : Type := MySQL.mysqlServiceManager Q + PostgreSQL.postgresqlServiceManager P.

(** [NewServer]: the check of the configuration and the node. *)
Definition NewServer (cfg : Flags.Agent.Config) (client : option error) (f : F) : result agentNode * F :=
  match checkConfig (Some (settings cfg)) with
  | Some e => (inr e, f)
  | None => NewAgentNode (settings cfg) client f
  end.

(** The attempts to reach the database, for each kind of it. *)
Record attempts := mkAttempts { to_mysql : list (attempt (Q := Q)); to_postgres : list (attempt (Q := P)) }.

(** The switch over the service type; [Some (inl None)] is the nil interface
    of a type that is neither, [None] a loop that still tries. *)
Definition new_manager (cfg : Flags.Agent.Config) (node_ID : string) (now : Z) (a : attempts)
    : option (result (option service)) * Z :=
  let timeout := i64 (Flags.Agent.ForkProcessWaitSecond cfg * Second) in
  match Boot.choose_manager cfg with
  | Boot.MySQLManager =>
      let '(r, T) := NewMySQLServiceManager (Flags.Agent.DBConfig cfg) timeout now (to_mysql a) in
      (match r with
       | None => None
       | Some (inr e) => Some (inr e)
       | Some (inl m) => Some (inl (Some (inl m)))
       end, T)
  | Boot.PostgreSQLManager =>
      let '(r, T) := Boot.NewPostgreSQLServiceManager (Flags.Agent.DBConfig cfg) timeout now (to_postgres a) in
      (match r with
       | None => None
       | Some (inr e) => Some (inr e)
       | Some (inl m) =>
           Some (inl (Some (inr (PostgreSQL.mkPostgres (PostgreSQL.host m) (PostgreSQL.replicationUser m)
             (PostgreSQL.replicationPassword m) node_ID (PostgreSQL.readonly m)))))
       end, T)
  | Boot.NilManager => (Some (inl None), now)
  end.

(** [Start] of a new server on the store and the oracle it meets, with the
    world of the loop when it gets that far.  [n] bounds the wait for the
    port. *)
Definition Start (n fuel : nat) (cfg : Flags.Agent.Config) (node_ID : string) (a : attempts)
    (rounds : list (round service)) (st : Store) (o : list tick) (h : W)
    : outcome (result unit) * W * option (world service) :=
  match Boot.initHTTPServer cfg with
  | inr e => (Ret (inr e), h, None)
  | inl _ =>
      match Boot.start_database n cfg h with
      | (Ret (inr e), h1) => (Ret (inr e), h1, None)
      | (Exited c, h1) => (Exited c, h1, None)
      | (Panicked, h1) => (Panicked, h1, None)
      | (Blocked, h1) => (Blocked, h1, None)
      | (Ret (inl _), h1) =>
          match new_manager cfg node_ID (Boot.clock h1) a with
          | (None, _) => (Blocked, h1, None)
          | (Some (inr e), _) => (Ret (inr e), h1, None)
          | (Some (inl None), _) => (Panicked, h1, None)
          | (Some (inl (Some sm)), T) =>
              let w0 := mkWorld new_Server init_latestPos st sm T o [] in
              let '(r, w) := serve (settings cfg) node_ID fuel rounds w0 in
              (match r with
               | Ret _ => Ret (inl tt)
               | Exited c => Exited c
               | Panicked => Panicked
               | Blocked => Blocked
               end, h1, Some w)
          end
      end
  end.

(** The loop of a [Start] that gets to it runs on a fresh world. *)
Lemma Start_world (n fuel : nat) (cfg : Flags.Agent.Config) (node_ID : string) (a : attempts)
    (rounds : list (round service)) (st : Store) (o : list tick) (h : W) (w : world service) :
  (Start n fuel cfg node_ID a rounds st o h).2 = Some w ->
  exists sm T, w = (serve (settings cfg) node_ID fuel rounds (mkWorld new_Server init_latestPos st sm T o [])).2.
Proof.
  unfold Start. destruct (Boot.initHTTPServer cfg); [|done].
  destruct (Boot.start_database n cfg h) as [[[u|e]|c| |] h1]; try done.
  destruct (new_manager cfg node_ID (Boot.clock h1) a) as [[[[sm|]|e]|] T]; try done.
  destruct (serve _ _ _ _ _) as [r w1] eqn:E. intros [= <-]. exists sm, T. by rewrite E.
Qed.

(** C2. Leadership before writes, over the whole run of the leader loop of an
    agent of either kind of database, from [Start] to its end: under any
    interleaving with the other agents, any lost answers, any schedule of the
    three goroutines of a leader and any disturbance by the others, every
    request of these three to make the database writable comes after a
    transaction that etcd answered with success and that put this node's ID in
    the leader key.  The requests of the HTTP handlers are not among them (see
    [SetReadWrite_after_ChangeMaster] and [failed_resume_grants_writes]). *)
Theorem writes_need_leadership (n fuel : nat) (cfg : Flags.Agent.Config) (node_ID : string) (a : attempts)
    (rounds : list (round service)) (st : Store) (o : list tick) (h : W) :
  match (Start n fuel cfg node_ID a rounds st o h).2 with
  | Some w => guarded (settings cfg) node_ID (trace w)
  | None => True
  end.
Proof.
  destruct (Start n fuel cfg node_ID a rounds st o h).2 as [w|] eqn:E; [|done].
  apply Start_world in E as (sm & T & ->).
  destruct (guarded_serve (settings cfg) node_ID fuel rounds (mkWorld new_Server init_latestPos st sm T o []))
    as (new & -> & Hg). cbn [trace]. by rewrite app_nil_r.
Qed.

(** C6. The agents refine the machine: if the others, and the remaining
    goroutines of this agent, only act by steps of the cluster machine, then so
    does the whole run of this agent, from [Start] to
    its end: every request it sends to etcd is one of the machine's. *)
Theorem Start_refines_machine (n fuel : nat) (cfg : Flags.Agent.Config) (node_ID : string) (a : attempts)
    (rounds : list (round service)) (st : Store) (o : list tick) (h : W) (w : world service) :
  plain_elem node_ID = true -> Forall (cluster_tick (settings cfg)) o ->
  Forall (disturbances (cluster_disturbance (settings cfg))) rounds ->
  (Start n fuel cfg node_ID a rounds st o h).2 = Some w ->
  rtc (machine_step (settings cfg)) st (etcd w).
Proof.
  intros Hid Ho Hr (sm & T & ->)%Start_world.
  exact (proj2 (run_serve (settings cfg) node_ID fuel rounds Hid Hr (mkWorld new_Server init_latestPos st sm T o []) Ho)).
Qed.

(** C26. The counters in etcd stay readable through the whole run of an agent: if
    the term and last transaction of the leader and the terms of all agents are
    decimal [uint64]s at its beginning, and the others and the remaining
    goroutines of this agent keep them so, then at its end every agent of the
    cluster can read them: it gets values of the type, or fails on a leader's
    term from 2^63 on, which the agents print as unsigned and read as signed;
    it never meets the error (a term of its own that is no number) for which it
    would close itself. *)
Theorem counters_readable (n fuel : nat) (cfg : Flags.Agent.Config) (node_ID : string) (a : attempts)
    (rounds : list (round service)) (st : Store) (o : list tick) (h : W) (w : world service) (m : string) :
  plain_elem node_ID = true -> readable (settings cfg) st -> Forall (tick_keeps (readable (settings cfg))) o ->
  Forall (disturbances (typed_disturbance (settings cfg))) rounds ->
  (Start n fuel cfg node_ID a rounds st o h).2 = Some w -> plain_elem m = true ->
  match leader_view (settings cfg) m (kvs (etcd w)) with
  | inl (l, t) => is_u64 (meta_term (meta l)) /\ is_u64 (meta_lastTxnID (meta l)) /\ is_u64 t
  | inr e => IsNotValid e = false /\ exists t, two63 <= t /\ value_at (settings cfg) (kvs (etcd w)) termPath = FormatUint t
  end.
Proof.
  intros Hid Hst Ho Hr (sm & T & ->)%Start_world Hm.
  destruct (typed_serve (settings cfg) node_ID fuel rounds Hid Hr (mkWorld new_Server init_latestPos st sm T o []))
    as (_ & Hread & _); [split_and!; [split; exact zero_u64|done|done]|].
  pose proof (readable_view (settings cfg) m Hm _ Hread) as Hv.
  destruct (leader_view (settings cfg) m _) as [[l t]|e]; [done|]. by destruct Hv as [-> ?].
Qed.
End Start.

(** ** A concrete agent

    The port of the database answers at once, the third connection succeeds,
    and the agent wins a campaign on an empty store.  In the second iteration it
    finds its own leadership and resumes; then another goroutine takes the
    server down. *)
Definition life_cfg : Flags.Agent.Config :=
  Flags.Agent.mkConfig "orders" 10 3 "/data" "" "http://127.0.0.1:13306" false "http://127.0.0.1:2379" (5 * Second) 2 5
    "/dbproxy/" "root" "" "info" "" "" 0 0 false "mysql" demo_dbconfig 0 "10.0.0.1:3306" "10.0.0.1:3306" "" [] 1
    (500 * Millisecond) 1 "" false.

#[local] Existing Instance Boot.machine_host.
#[local] Existing Instance ToyPg.toy_sql.
#[local] Existing Instance ToyPg.toy_host.
#[local] Existing Instance list_order.

Definition life_service : Type := @service ToyMySQL.server unit.

(** A round that ends by the stop channel. *)
Definition stop_round (D : Type) : round D := mkRound [calmly] no_watch demo_turns.

Definition life : outcome (result unit) * Boot.machine * option (world life_service) :=
  Start 2 5 life_cfg demo_id (mkAttempts demo_attempts []) [stop_round _; stop_round _] empty_store []
    (Boot.mkMachine 0 0 0).

(** The agent won, gave up, found its leadership again, and was stopped twice;
    the loop has no third round. *)
Lemma life_runs :
  life.1.1 = Blocked /\ exists w, life.2 = Some w /\ term (srv w) = 1 /\
    length (filter (fun e => is_read_write e = true) (trace w)) = 2%nat.
Proof.
  split; [vm_compute; reflexivity|].
  assert ((fun w => (term (srv w), length (filter (fun e => is_read_write e = true) (trace w)))) <$> life.2
          = Some (1, 2%nat)) as (w & E & Hw)%fmap_Some by (vm_compute; reflexivity).
  exists w. injection Hw as Ht Hn. exact (conj E (conj (eq_sym Ht) (eq_sym Hn))).
Qed.

Lemma Start_refines_witness :
  exists w, life.2 = Some w /\ rtc (machine_step (settings life_cfg)) empty_store (etcd w).
Proof.
  assert ((fun _ => tt) <$> life.2 = Some tt) as (w & E & _)%fmap_Some by (vm_compute; reflexivity).
  exists w. split; [exact E|].
  refine (Start_refines_machine 2 5 life_cfg demo_id (mkAttempts demo_attempts []) [stop_round _; stop_round _]
            empty_store [] (Boot.mkMachine 0 0 0) w demo_id_plain _ _ E); [constructor|].
  assert (disturbances (cluster_disturbance (settings life_cfg)) (stop_round life_service)) as Hr.
  { split; repeat (constructor; [intros st; reflexivity|]); constructor. }
  constructor; [exact Hr|]. constructor; [exact Hr|constructor].
Defined.

Lemma counters_readable_witness :
  exists w, life.2 = Some w /\ term (srv w) = 1 /\
  exists l t, leader_view (settings life_cfg) other_id (kvs (etcd w)) = inl (l, t) /\ is_u64 (meta_term (meta l)).
Proof.
  assert ((fun w => term (srv w)) <$> life.2 = Some 1) as (w & E & Ht)%fmap_Some by (vm_compute; reflexivity).
  exists w. split; [exact E|]. split; [exact (eq_sym Ht)|].
  assert (readable (settings life_cfg) empty_store) as Hst by (intros c x _ Hx; discriminate Hx).
  assert (disturbances (typed_disturbance (settings life_cfg)) (stop_round life_service)) as Hr.
  { split; repeat (constructor; [split; [intros s Hs; exact Hs|intros st Hs; exact Hs]|]); constructor. }
  assert (match leader_view (settings life_cfg) other_id (kvs (etcd w)) with
          | inl (l, _) => is_u64 (meta_term (meta l)) | inr _ => True end) as Hv.
  { pose proof (counters_readable 2 5 life_cfg demo_id (mkAttempts demo_attempts []) [stop_round _; stop_round _]
      empty_store [] (Boot.mkMachine 0 0 0) w other_id demo_id_plain Hst (Forall_nil_2 _)
      (Forall_cons_2 _ _ _ Hr (Forall_cons_2 _ _ _ Hr (Forall_nil_2 _))) E ltac:(vm_compute; reflexivity)) as Hv.
    destruct (leader_view (settings life_cfg) other_id _) as [[l t]|e]; [exact (proj1 Hv)|exact I]. }
  assert ((fun w => match leader_view (settings life_cfg) other_id (kvs (etcd w)) with inl _ => true | inr _ => false end)
          <$> life.2 = Some true) as Hb by (vm_compute; reflexivity).
  rewrite E in Hb. injection Hb as Hb.
  remember (leader_view (settings life_cfg) other_id (kvs (etcd w))) as v eqn:El.
  destruct v as [[l t]|e]; [|discriminate Hb]. exists l, t. split; [reflexivity|]. exact Hv.
Defined.

(** A node of term 2 that finds a leader of term 5: it closes, and [Start]
    returns. *)
Definition late_world : world demo_service :=
  demo_world (Client.Put (rootPath demo_cfg) (myTermPath demo_id) "2" 0
    (Txn (campaign_txn demo_cfg other_id (set_term 4 new_Server) 1) (Grant 10 empty_store).2).2).2 [].

Definition late_life : outcome unit * world demo_service := serve demo_cfg demo_id 5 [stop_round _] late_world.


(** The same node while an HTTP request is being served: the loop recovers from
    the panic of [Close], the deferred [Close] finds the server closed, and
    nobody closes the channel that [Start] waits for. *)
Lemma serve_hangs :
  let '(o, w') := serve demo_cfg demo_id 5 [stop_round _]
    (mkWorld (srv late_world) (latestPos late_world) (etcd late_world) (svc late_world) 0
       (repeat tick_ok 3 ++ [mkTick id 0 Answered true]) []) in
  o = Blocked /\ isClosed (srv w') = true /\ shutdownCh (srv w') = ChOpen.
Proof. vm_compute. auto. Qed.
