(* ===== verification/DistLock.v ===== *)
(** * The distributed lock of the PostgreSQL manager

    [pkg/etcd/locker.go] hands out locks of etcd's [clientv3/concurrency]
    package: a session is a lease that is kept alive, a lock is a queue of keys
    under a prefix, one per session, and the session with the oldest key holds
    the lock.  [PromoteToMaster] and [RedirectMaster] of the PostgreSQL manager
    run under it.

    A session is a program in the monad of [World], whose oracle says what the
    other sessions and agents do to the store between its requests.  What the
    others may do is the relation [others]: requests of other sessions in any
    order, grants, expiries of any lease, and requests that leave the queue
    alone, among them all requests of the agents.

    The theorems: two sessions whose keys are in etcd do not hold the lock at
    the same time; a session gets the lock when the keys before it are gone;
    what happens when a session expires while it waits; and that the session
    of a lock is never closed. *)

From stdpp Require Import gmap strings list.
From Stdlib Require Import ZArith Lia Ascii HexadecimalString HexadecimalN HexadecimalNat.
From S2P Require Import Prelude GoStrings Etcd World ServiceManager Demo Leader Node ServerLoop ServerProofs AgentSpec Cluster.
Import Mvcc.

Module DistLock.

(** ** Range requests by creation *)

(** [withTop] with [SortByCreateRevision]: the first key of a range after the
    sort.  Keys of the same revision come in the order of the listing; the keys
    of a queue have different ones. *)
Definition choose (before : KeyValue -> KeyValue -> bool) (x : string * KeyValue) (o : option (string * KeyValue))
    : option (string * KeyValue) :=
  match o with
  | Some y => if before x.2 y.2 then Some x else Some y
  | None => Some x
  end.

Definition top (before : KeyValue -> KeyValue -> bool) (l : list (string * KeyValue)) : option (string * KeyValue) :=
  foldr (choose before) None l.

Definition created_first (a b : KeyValue) : bool := CreateRevision a <=? CreateRevision b.
Definition created_last (a b : KeyValue) : bool := CreateRevision b <=? CreateRevision a.

(** [WithFirstCreate] *)
Definition get_first (pfx : string) (m : gmap string KeyValue) : option (string * KeyValue) :=
  top created_first (map_to_list (prefix_range pfx m)).

(** [WithLastCreate] and [WithMaxCreateRev], for which 0 is no bound. *)
Definition within (maxCreateRev : Z) (kv : KeyValue) : bool :=
  (maxCreateRev =? 0) || (CreateRevision kv <=? maxCreateRev).
Definition get_last (pfx : string) (maxCreateRev : Z) (m : gmap string KeyValue) : option (string * KeyValue) :=
  top created_last (map_to_list (filter (fun x => within maxCreateRev x.2 = true) (prefix_range pfx m))).

(** ** Sessions and locks *)

Definition defaultSessionTTL : Z := 60.

(** [%x] of a lease *)
Definition hex (z : Z) : string :=
  if z <? 0 then "-" +:+ NilZero.string_of_uint (N.to_hex_uint (Z.to_N (- z)))
  else NilZero.string_of_uint (N.to_hex_uint (Z.to_N z)).

(** [concurrency.Mutex]; the session is its lease.  The header that [Lock]
    stores is never read. *)
Record Mutex := mkMutex { m_lease : Z; m_pfx : string; myKey : string; myRev : Z }.

Definition NewMutex (lease : Z) (pfx : string) : Mutex := mkMutex lease (pfx +:+ "/") "" (-1).

(** The key [Lock] gives a session. *)
Definition key_in (pfx : string) (lease : Z) : string := pfx +:+ hex lease.

(** The transaction of [Lock]: whether the key was put, the key found in its
    place otherwise, the oldest key of the queue, and the revision. *)
Record Queued := mkQueued { q_put : bool; q_mine : option KeyValue; q_owner : option (string * KeyValue); q_rev : Z }.

Definition lock_txn (pfx : string) (lease : Z) (st : Store) : result Queued * Store :=
  let key := key_in pfx lease in
  if applyCompare (kvs st) (CmpCreateRevision key 0) then
    match Put key "" lease st with
    | (inr e, st') => (inr e, st')
    | (inl _, st') => (inl (mkQueued true None (get_first pfx (kvs st')) (currentRev st')), st')
    end
  else (inl (mkQueued false (kvs st !! key) (get_first pfx (kvs st)) (currentRev st)), st).

Section Programs.
Context {D : Type}.

(** A request with the context of the client, which nobody cancels. *)
Definition client_call {A} (f : Store -> result A * Store) : M D (result A) :=
  fun w =>
    let w1 := arrival w in
    let '(r, st) := f (etcd w1) in
    match t_reply (next_tick w) with
    | Answered => (Ret r, with_etcd st w1)
    | Lost => (Ret (inr ErrEtcd), with_etcd st w1)
    | Refused => (Ret (inr ErrEtcd), w1)
    end.

(** A watch from revision [rev], at which the key existed, has delivered its
    deletion when the key is gone or was created again. *)
Definition deleted (key : string) (rev : Z) (st : Store) : bool :=
  match kvs st !! key with
  | None => true
  | Some kv => rev <? CreateRevision kv
  end.

(** [waitDelete]; each round is a moment at which the others have acted.  A
    watch that breaks ends with an error. *)
Fixpoint waitDelete (fuel : nat) (key : string) (rev : Z) : M D (option error) :=
  match fuel with
  | O => block
  | S n =>
      let! r := client_call (fun st => (inl (deleted key rev st), st)) in
      match r with
      | inr e => ret (Some e)
      | inl true => ret None
      | inl false => waitDelete n key rev
      end
  end.

(** [waitDeletes]: wait for the youngest of the older keys, then look again. *)
Fixpoint waitDeletes (fuel : nat) (pfx : string) (maxCreateRev : Z) : M D (option error) :=
  match fuel with
  | O => block
  | S n =>
      let! r := client_call (fun st => (inl (get_last pfx maxCreateRev (kvs st), currentRev st), st)) in
      match r with
      | inr e => ret (Some e)
      | inl (None, _) => ret None
      | inl (Some (lastKey, _), rev) =>
          let! err := waitDelete fuel lastKey rev in
          match err with
          | Some e => ret (Some e)
          | None => waitDeletes n pfx maxCreateRev
          end
      end
  end.

(** [Mutex.Lock]; the index into an empty answer panics. *)
Definition Lock (fuel : nat) (m : Mutex) : M D (option error * Mutex) :=
  let pfx := m_pfx m in
  let key := key_in pfx (m_lease m) in
  let! r := client_call (lock_txn pfx (m_lease m)) in
  match r with
  | inr e => ret (Some e, mkMutex (m_lease m) pfx key (myRev m))
  | inl q =>
      match (if q_put q then Some (q_rev q) else CreateRevision <$> q_mine q) with
      | None => panic
      | Some rev =>
          let m' := mkMutex (m_lease m) pfx key rev in
          if match q_owner q with None => true | Some (_, kv) => CreateRevision kv =? rev end
          then ret (None, m')
          else
            let! werr := waitDeletes fuel pfx (rev - 1) in
            ret (werr, m')
      end
  end.

(** [Mutex.Unlock] *)
Definition Unlock (m : Mutex) : M D (option error * Mutex) :=
  let! r := client_call (fun st => (inl tt, DeleteRange (OpDelete (myKey m)) st)) in
  match r with
  | inr e => ret (Some e, m)
  | inl _ => ret (None, mkMutex (m_lease m) (m_pfx m) (String "000" "") (-1))
  end.

(** [lockerMutex]: the errors become panics. *)
Definition locker_Lock (fuel : nat) (m : Mutex) : M D Mutex :=
  let! r := Lock fuel m in
  match r with
  | (Some _, _) => panic
  | (None, m') => ret m'
  end.

Definition locker_Unlock (m : Mutex) : M D Mutex :=
  let! r := Unlock m in
  match r with
  | (Some _, _) => panic
  | (None, m') => ret m'
  end.

(** [NewSession] with [WithTTL]: a lease, and the goroutine that keeps it
    alive, whose start is a call of its own. *)
Definition NewSession (ttl : Z) : M D (result Z) :=
  let! r := client_call (Grant (if 0 <? ttl then ttl else defaultSessionTTL)) in
  match r with
  | inr e => ret (inr e)
  | inl id =>
      let! k := client_call (fun st => (inl tt, st)) in
      match k with
      | inr e => ret (inr e)
      | inl _ => ret (inl id)
      end
  end.

(** [NewDistributedLockGenerator] and its [NewLocker] *)
Record DistributedLockGenerator := mkGenerator { lockPrefix : string; lockTTL : Z }.

Definition NewDistributedLockGenerator (rootPath lockPrefix : string) (lockTTL : Z) : DistributedLockGenerator :=
  mkGenerator (Client.KeyWithRootPath rootPath lockPrefix) lockTTL.

Definition NewLocker (g : DistributedLockGenerator) : M D (result Mutex) :=
  let! r := NewSession (lockTTL g) in
  match r with
  | inr e => ret (inr e)
  | inl session => ret (inl (NewMutex session (lockPrefix g)))
  end.

(** [PromoteToMaster] and [RedirectMaster] around what they do: without a lock
    the error is logged and the work is done all the same. *)
Definition with_lock {A} (fuel : nat) (g : DistributedLockGenerator) (work : M D A) : M D A :=
  let! r := NewLocker g in
  match r with
  | inr _ => work
  | inl m =>
      let! m' := locker_Lock fuel m in
      deferred (let! _ := locker_Unlock m' in ret tt) work
  end.
End Programs.

(** ** Keys of the queue *)

Lemma to_hex_uint_nonnil (n : N) : N.to_hex_uint n <> Hexadecimal.Nil.
Proof.
  intros E. pose proof (HexadecimalN.Unsigned.of_to n) as H. rewrite E in H. cbn in H. subst n. discriminate E.
Qed.

Lemma hex_inj (a b : Z) : 0 <= a -> 0 <= b -> hex a = hex b -> a = b.
Proof.
  intros Ha Hb. unfold hex. destruct (Z.ltb_spec a 0); [lia|]. destruct (Z.ltb_spec b 0); [lia|]. intros E.
  assert (Some (N.to_hex_uint (Z.to_N a)) = Some (N.to_hex_uint (Z.to_N b))) as E'.
  { rewrite <- !NilZero.usu by apply to_hex_uint_nonnil. by rewrite E. }
  injection E' as E'. pose proof (HexadecimalN.Unsigned.of_to (Z.to_N a)) as H1.
  rewrite E', HexadecimalN.Unsigned.of_to in H1. lia.
Qed.

Lemma key_in_prefix (pfx : string) (l : Z) : HasPrefix (key_in pfx l) pfx = true.
Proof. unfold key_in, HasPrefix. generalize (hex l). induction pfx as [|c p IH]; intros s; cbn; [by destruct s|]. by destruct (ascii_dec c c). Qed.

Lemma key_in_inj (pfx : string) (a b : Z) : 0 <= a -> 0 <= b -> key_in pfx a = key_in pfx b -> a = b.
Proof. unfold key_in. intros Ha Hb E%(inj (String.app pfx)). by apply hex_inj. Qed.

(** ** The first and the last key *)

Lemma top_cons (before : KeyValue -> KeyValue -> bool) (y : string * KeyValue) (l : list (string * KeyValue)) :
  top before (y :: l) = choose before y (top before l).
Proof. reflexivity. Qed.

Lemma top_in (before : KeyValue -> KeyValue -> bool) (l : list (string * KeyValue)) (x : string * KeyValue) :
  top before l = Some x -> x ∈ l.
Proof.
  revert x. induction l as [|y l IH]; intros x; [done|]. rewrite top_cons. unfold choose.
  destruct (top before l) as [z|]; [destruct (before y.2 z.2)|]; intros [= <-];
    solve [left|right; by apply IH].
Qed.

Lemma top_none (before : KeyValue -> KeyValue -> bool) (l : list (string * KeyValue)) : top before l = None -> l = [].
Proof. destruct l as [|y l]; [done|]. rewrite top_cons. unfold choose. by repeat case_match. Qed.

Lemma get_first_le (pfx k : string) (m : gmap string KeyValue) (x : string * KeyValue) (kv : KeyValue) :
  get_first pfx m = Some x -> HasPrefix k pfx = true -> m !! k = Some kv -> CreateRevision x.2 <= CreateRevision kv.
Proof.
  unfold get_first. intros Hx Hk Hm. assert ((k, kv) ∈ map_to_list (prefix_range pfx m)) as Hin.
  { apply elem_of_map_to_list, map_lookup_filter_Some. done. }
  revert x Hx Hin. generalize (map_to_list (prefix_range pfx m)) as l.
  induction l as [|y l IH]; intros x Hx Hin; [by apply elem_of_nil in Hin|]. rewrite top_cons in Hx.
  destruct (top created_first l) as [z|] eqn:Ez; unfold choose, created_first in Hx.
  - apply elem_of_cons in Hin as [<-|Hin].
    + destruct (Z.leb_spec (CreateRevision (k, kv).2) (CreateRevision z.2)); injection Hx as <-; cbn in *; lia.
    + specialize (IH z eq_refl Hin). destruct (Z.leb_spec (CreateRevision y.2) (CreateRevision z.2)); injection Hx as <-; lia.
  - apply top_none in Ez as ->. injection Hx as <-. by apply list_elem_of_singleton in Hin as <-.
Qed.

Lemma get_first_none (pfx k : string) (m : gmap string KeyValue) :
  get_first pfx m = None -> HasPrefix k pfx = true -> m !! k = None.
Proof.
  intros Hn%top_none Hk. apply map_to_list_empty_iff in Hn. destruct (m !! k) as [kv|] eqn:E; [|done].
  assert (prefix_range pfx m !! k = Some kv) as H by by apply map_lookup_filter_Some. by rewrite Hn in H.
Qed.

Lemma get_last_none (pfx k : string) (mx : Z) (m : gmap string KeyValue) (kv : KeyValue) :
  get_last pfx mx m = None -> mx <> 0 -> HasPrefix k pfx = true -> m !! k = Some kv -> mx < CreateRevision kv.
Proof.
  intros Hn%top_none H0 Hk E. apply map_to_list_empty_iff in Hn.
  destruct (Z.leb_spec (CreateRevision kv) mx); [|done]. exfalso.
  assert (filter (fun x => within mx x.2 = true) (prefix_range pfx m) !! k = Some kv) as H'; [|by rewrite Hn in H'].
  apply map_lookup_filter_Some. split; [by apply map_lookup_filter_Some|]. unfold within. cbn.
  apply orb_true_iff. right. lia.
Qed.

Lemma get_last_some (pfx k : string) (mx : Z) (m : gmap string KeyValue) (kv : KeyValue) :
  get_last pfx mx m = Some (k, kv) -> mx <> 0 ->
  HasPrefix k pfx = true /\ m !! k = Some kv /\ CreateRevision kv <= mx.
Proof.
  intros Hs%top_in H0. apply elem_of_map_to_list, map_lookup_filter_Some in Hs as [Hs Hw].
  apply map_lookup_filter_Some in Hs as [Hs Hp]. unfold within in Hw. cbn in *.
  split_and!; [done|done|]. lia.
Qed.

(** ** What the others do *)
Section Queue.
Context (pfx : string).

(** A request that leaves the queue alone. *)
Definition foreign (st st' : Store) : Prop :=
  (store_wf st -> store_wf st') /\ currentRev st <= currentRev st' /\
  forall k, HasPrefix k pfx = true -> kvs st' !! k = kvs st !! k.

(** The requests of the sessions that are not [mine], the leases, and the rest. *)
Inductive others (mine : list Z) (st : Store) : Store -> Prop :=
| o_lock (l : Z) : l ∉ mine -> 0 <= l -> others mine st (lock_txn pfx l st).2
| o_unlock (l : Z) : l ∉ mine -> 0 <= l -> others mine st (DeleteRange (OpDelete (key_in pfx l)) st)
| o_grant (ttl : Z) : others mine st (Grant ttl st).2
| o_expire (l : Z) : others mine st (Revoke l st).2
| o_foreign (st' : Store) : foreign st st' -> others mine st st'.

(** The first revision of etcd is 1, so that of its first write is 2. *)
Definition numbered (st : Store) : Prop :=
  forall k kv, HasPrefix k pfx = true -> kvs st !! k = Some kv -> 2 <= CreateRevision kv.

(** A queue: no two keys were created in the same revision. *)
Definition queue_ok (st : Store) : Prop :=
  store_wf st /\ 1 <= currentRev st /\ numbered st /\
  forall k1 k2 kv1 kv2, HasPrefix k1 pfx = true -> HasPrefix k2 pfx = true ->
    kvs st !! k1 = Some kv1 -> kvs st !! k2 = Some kv2 -> CreateRevision kv1 = CreateRevision kv2 -> k1 = k2.

(** A step of the queue: keys stay as they are, disappear, or one new key is
    created in a later revision. *)
Definition queue_step (st st' : Store) : Prop :=
  currentRev st <= currentRev st' /\ exists new, forall k kv, HasPrefix k pfx = true -> kvs st' !! k = Some kv ->
    kvs st !! k = Some kv \/ k = new /\ kvs st !! k = None /\ currentRev st < CreateRevision kv.

Lemma queue_step_shrinks (st st' : Store) :
  currentRev st <= currentRev st' ->
  (forall k kv, HasPrefix k pfx = true -> kvs st' !! k = Some kv -> kvs st !! k = Some kv) -> queue_step st st'.
Proof. intros Hr Hk. split; [done|]. exists "". intros k kv Hp E. left. by apply Hk. Qed.

Lemma queue_step_ok (st st' : Store) : queue_ok st -> store_wf st' -> queue_step st st' -> queue_ok st'.
Proof.
  intros (Hwf & Hr & Hn & Hd) Hwf' (Hr' & new & Hk). split_and!; [done|lia| |].
  { intros k kv Hp E. destruct (Hk k kv Hp E) as [O|(_ & _ & N)]; [by apply (Hn k)|lia]. }
  intros k1 k2 kv1 kv2 Hp1 Hp2 E1 E2 Ec.
  assert (forall k kv, kvs st !! k = Some kv -> CreateRevision kv <= currentRev st) as Hold.
  { intros k kv E. destruct Hwf as (_ & _ & Hkv & _). destruct (Hkv k kv E) as (? & ? & _). lia. }
  destruct (Hk k1 kv1 Hp1 E1) as [O1|(-> & _ & N1)], (Hk k2 kv2 Hp2 E2) as [O2|(-> & _ & N2)].
  - by apply (Hd k1 k2 kv1 kv2).
  - specialize (Hold _ _ O1). lia.
  - specialize (Hold _ _ O2). lia.
  - done.
Qed.

Lemma DeleteRange_rev (op : Op) (st : Store) :
  match op with OpPut _ _ _ => False | _ => True end -> currentRev st <= currentRev (DeleteRange op st).
Proof. intros _. unfold DeleteRange. destruct (applyOp _ _ _) as [[r n] m]. cbn. case_match; lia. Qed.

Lemma lock_txn_step (l : Z) (st : Store) : queue_ok st ->
  store_wf (lock_txn pfx l st).2 /\ queue_step st (lock_txn pfx l st).2 /\
  forall k, k <> key_in pfx l -> kvs (lock_txn pfx l st).2 !! k = kvs st !! k.
Proof.
  intros (Hwf & Hr & Hn & Hd). unfold lock_txn.
  destruct (applyCompare (kvs st) (CmpCreateRevision (key_in pfx l) 0)) eqn:Ec.
  2:{ split_and!; [done|by apply queue_step_shrinks|done]. }
  apply (create_revision_zero st (key_in pfx l) Hwf) in Ec.
  pose proof (Put_wf (key_in pfx l) "" l st Hwf) as Hwf'.
  assert (forall k, k <> key_in pfx l -> kvs (Put (key_in pfx l) "" l st).2 !! k = kvs st !! k) as Hu
    by (intros k Hne; apply Client.Put_untouched; congruence).
  assert (queue_step st (Put (key_in pfx l) "" l st).2) as Hq.
  { unfold Put in *. destruct (checkPut st (OpPut (key_in pfx l) "" l)); cbn [negb snd] in *; [|by apply queue_step_shrinks].
    split; [cbn; lia|]. exists (key_in pfx l). intros k kv Hp E. destruct (decide (k = key_in pfx l)) as [->|Hne].
    - right. split_and!; [done|done|]. cbn in E. destruct (tw_put_lookup (currentRev st) (key_in pfx l) "" l (kvs st))
        as (kv0 & E0 & _ & _ & _ & Hc). rewrite E0 in E. injection E as <-. rewrite Ec in Hc. lia.
    - left. rewrite <- Hu by done. exact E. }
  destruct (Put (key_in pfx l) "" l st) as [[u|e] st']; cbn [snd] in *; done.
Qed.

Lemma others_step (mine : list Z) (st st' : Store) : queue_ok st -> others mine st st' ->
  queue_ok st' /\ queue_step st st' /\
  forall l kv, l ∈ mine -> 0 <= l -> kvs st' !! key_in pfx l = Some kv -> kvs st !! key_in pfx l = Some kv.
Proof.
  intros Hq Ho. pose proof Hq as (Hwf & Hr & _ & _).
  assert (store_wf st' /\ queue_step st st' /\
    forall l kv, l ∈ mine -> 0 <= l -> kvs st' !! key_in pfx l = Some kv -> kvs st !! key_in pfx l = Some kv) as (H1 & H2 & H3).
  2:{ split_and!; [by apply (queue_step_ok st)|done..]. }
  destruct Ho as [l Hl H0|l Hl H0|ttl|l|st' (Hf & Hfr & Hfk)].
  - destruct (lock_txn_step l st Hq) as (Hw & Hs & Hu). split_and!; [done|done|].
    intros l' kv Hin H0' E. rewrite <- Hu; [done|]. intros Ek%key_in_inj; [congruence|done..].
  - split_and!; [by apply DeleteRange_wf|apply queue_step_shrinks; [by apply DeleteRange_rev|]|].
    2: intros l' kv Hin H0'.
    1: intros k kv Hp. all: intros E; unfold DeleteRange in E; cbn in E; unfold tw_delete in E;
      destruct (kvs st !! key_in pfx l) eqn:El; cbn in E; try done; by apply lookup_delete_Some in E as [_ E].
  - split_and!; [by apply Grant_wf|apply queue_step_shrinks|]; unfold Grant; destruct (MaxLeaseTTL <? ttl); cbn; auto; lia.
  - assert (forall k kv, kvs (Revoke l st).2 !! k = Some kv -> kvs st !! k = Some kv) as Hk.
    { intros k kv. destruct (leases st !! l) as [t|] eqn:El; [|unfold Revoke; by rewrite El].
      rewrite Revoke_lookup by eauto. repeat case_match; congruence. }
    split_and!; [by apply Revoke_wf|apply queue_step_shrinks; [|by auto]|by auto].
    unfold Revoke. destruct (leases st !! l); cbn; [case_match; lia|lia].
  - split_and!; [by apply Hf|apply queue_step_shrinks; [done|]|].
    + intros k kv Hp E. by rewrite <- Hfk.
    + intros l kv _ _ E. rewrite <- Hfk; [done|apply key_in_prefix].
Qed.

Lemma queue_run (mine : list Z) (st st' : Store) : queue_ok st -> rtc (others mine) st st' -> queue_ok st'.
Proof. intros Hq Hs. induction Hs as [|st st1 st2 Hs _ IH]; [done|]. by apply IH, (others_step mine st st1). Qed.

(** The key of the session [l], created in [rev], is the oldest of the queue. *)
Definition oldest (l rev : Z) (st : Store) : Prop :=
  rev <= currentRev st /\ (forall kv, kvs st !! key_in pfx l = Some kv -> CreateRevision kv = rev) /\
  forall k kv, HasPrefix k pfx = true -> k <> key_in pfx l -> kvs st !! k = Some kv -> rev < CreateRevision kv.

Lemma oldest_stable (mine : list Z) (l rev : Z) (st st' : Store) :
  l ∈ mine -> 0 <= l -> queue_ok st -> oldest l rev st -> rtc (others mine) st st' -> queue_ok st' /\ oldest l rev st'.
Proof.
  intros Hin H0 Hq Ho Hs. induction Hs as [|st st1 st2 Hs _ IH]; [done|].
  destruct (others_step mine st st1 Hq Hs) as (Hq1 & (Hr & new & Hk) & Hm). apply IH; [done|].
  destruct Ho as (Hle & Hmine & Hold). split_and!; [lia|eauto|].
  intros k kv Hp Hne E. destruct (Hk k kv Hp E) as [E0|(_ & _ & Hc)]; [by apply (Hold k)|lia].
Qed.

(** Two sessions whose keys are there are not both the oldest. *)
Lemma oldest_unique (l1 l2 rev1 rev2 : Z) (st : Store) :
  0 <= l1 -> 0 <= l2 -> oldest l1 rev1 st -> oldest l2 rev2 st ->
  is_Some (kvs st !! key_in pfx l1) -> is_Some (kvs st !! key_in pfx l2) -> l1 = l2.
Proof.
  intros H1 H2 (_ & M1 & O1) (_ & M2 & O2) [kv1 E1] [kv2 E2]. destruct (decide (l1 = l2)) as [|Hne]; [done|exfalso].
  assert (key_in pfx l1 <> key_in pfx l2) as Hk by (intros E%key_in_inj; congruence).
  specialize (M1 _ E1). specialize (M2 _ E2).
  pose proof (O1 _ _ (key_in_prefix pfx l2) ltac:(congruence) E2).
  pose proof (O2 _ _ (key_in_prefix pfx l1) ltac:(congruence) E1). lia.
Qed.

(** The session [l] has put its key in the revision [rev]. *)
Definition entered (l rev : Z) (st : Store) : Prop :=
  2 <= rev <= currentRev st /\
  (forall k kv, HasPrefix k pfx = true -> kvs st !! k = Some kv -> CreateRevision kv = rev -> k = key_in pfx l) /\
  forall kv, kvs st !! key_in pfx l = Some kv -> CreateRevision kv = rev.

Lemma entered_stable (mine : list Z) (l rev : Z) (st st' : Store) :
  l ∈ mine -> 0 <= l -> queue_ok st -> entered l rev st -> rtc (others mine) st st' -> queue_ok st' /\ entered l rev st'.
Proof.
  intros Hin H0 Hq He Hs. induction Hs as [|st st1 st2 Hs _ IH]; [done|].
  destruct (others_step mine st st1 Hq Hs) as (Hq1 & (Hr & new & Hk) & Hm). apply IH; [done|].
  destruct He as (Hle & Hu & Hmine). split_and!; [lia|lia| |eauto].
  intros k kv Hp E Ec. destruct (Hk k kv Hp E) as [E0|(_ & _ & Hc)]; [by apply (Hu k kv)|lia].
Qed.

Lemma entered_oldest (l rev : Z) (st : Store) :
  entered l rev st -> get_last pfx (rev - 1) (kvs st) = None -> oldest l rev st.
Proof.
  intros (Hr & Hu & Hm) Hn. split_and!; [lia|done|]. intros k kv Hp Hne E.
  pose proof (get_last_none _ _ _ _ _ Hn ltac:(lia) Hp E).
  destruct (decide (CreateRevision kv = rev)) as [Ec|]; [|lia]. exfalso. by apply Hne, (Hu k kv).
Qed.

(** The answer of the transaction. *)
Lemma lock_txn_enters (l : Z) (q : Queued) (st st' : Store) :
  queue_ok st -> lock_txn pfx l st = (inl q, st') ->
  exists rev, (if q_put q then Some (q_rev q) else CreateRevision <$> q_mine q) = Some rev /\
    entered l rev st' /\ q_owner q = get_first pfx (kvs st').
Proof.
  intros Hq E. pose proof (lock_txn_step l st Hq) as (Hwf' & Hs & Hu). rewrite E in Hwf', Hs, Hu. cbn [snd] in *.
  pose proof (queue_step_ok st st' Hq Hwf' Hs) as Hq'. destruct Hq as (Hwf & Hr & Hn & Hd).
  unfold lock_txn in E. destruct (applyCompare (kvs st) (CmpCreateRevision (key_in pfx l) 0)) eqn:Ec.
  - apply (create_revision_zero st (key_in pfx l) Hwf) in Ec. unfold Put in E.
    destruct (checkPut st (OpPut (key_in pfx l) "" l)); cbn in E; [|done]. injection E as <- <-. cbn.
    exists (currentRev st + 1). split; [done|]. split; [|done].
    destruct (tw_put_lookup (currentRev st) (key_in pfx l) "" l (kvs st)) as (kv0 & E0 & _ & _ & _ & Hc).
    rewrite Ec in Hc. split_and!; [lia|cbn; lia| |].
    + intros k kv Hp Ek Hk. destruct (decide (k = key_in pfx l)) as [|Hne]; [done|].
      rewrite Hu in Ek by done. destruct Hwf as (_ & _ & Hkv & _). destruct (Hkv k kv Ek) as (? & ? & _). lia.
    + intros kv Ek. cbn in Ek. rewrite E0 in Ek. by injection Ek as <-.
  - injection E as <- <-. cbn. destruct (kvs st !! key_in pfx l) as [kv|] eqn:Ek.
    2:{ exfalso. apply (create_revision_zero st (key_in pfx l) Hwf) in Ek. congruence. }
    exists (CreateRevision kv). split; [done|]. split; [|done].
    pose proof (Hn _ _ (key_in_prefix pfx l) Ek). destruct Hwf as (_ & _ & Hkv & _).
    destruct (Hkv _ _ Ek) as (? & ? & _). split_and!; [lia|lia| |].
    + intros k kv' Hp E' Hc. by apply (Hd k _ kv' kv (Hp) (key_in_prefix pfx l)).
    + intros kv' E'. congruence.
Qed.

(** The first key of the queue is the session's own. *)
Lemma first_oldest (l rev : Z) (st : Store) :
  entered l rev st -> match get_first pfx (kvs st) with None => True | Some (_, kv) => CreateRevision kv = rev end ->
  oldest l rev st.
Proof.
  intros (Hr & Hu & Hm) Hf. split_and!; [lia|done|]. intros k kv Hp Hne E.
  destruct (get_first pfx (kvs st)) as [[k0 kv0]|] eqn:Ef.
  - pose proof (get_first_le _ _ _ _ _ Ef Hp E). cbn in *.
    destruct (decide (CreateRevision kv = rev)) as [Ec|]; [|lia]. exfalso. by apply Hne, (Hu k kv).
  - by rewrite (get_first_none _ _ _ Ef Hp) in E.
Qed.
End Queue.

(** ** Acquiring *)
Section Acquire.
Context {D : Type} (pfx : string).

(** Between two requests the others act, any number of times. *)
Definition tick_by (mine : list Z) (t : tick) : Prop := forall st, rtc (others pfx mine) st (t_env t st).

Definition run_by (mine : list Z) : relation (world D) := fun w w' =>
  Forall (tick_by mine) (oracle w) ->
  Forall (tick_by mine) (oracle w') /\ rtc (others pfx mine) (etcd w) (etcd w').

#[local] Instance run_by_preorder (mine : list Z) : PreOrder (run_by mine).
Proof.
  split.
  - intros w Ho. split; [done|reflexivity].
  - intros a b c H1 H2 Ho. destruct (H1 Ho) as [Hb E1]. destruct (H2 Hb) as [Hc E2]. split; [done|by etrans].
Qed.

Lemma others_mono (mine mine' : list Z) (st st' : Store) :
  mine' ⊆ mine -> others pfx mine st st' -> others pfx mine' st st'.
Proof. intros Hs Ho. destruct Ho; constructor; auto; set_solver. Qed.

Lemma tick_mono (mine mine' : list Z) (t : tick) : mine' ⊆ mine -> tick_by mine t -> tick_by mine' t.
Proof. intros Hs Ht st. eapply rtc_subrel; [|apply Ht]. intros a b. by apply others_mono. Qed.

Lemma arrival_by (mine : list Z) (w : world D) : run_by mine w (arrival w).
Proof.
  intros Ho. unfold arrival, next_tick. destruct (oracle w) as [|t o]; cbn; [split; [done|reflexivity]|].
  apply Forall_cons in Ho as [Ht Ho]. split; [done|apply Ht].
Qed.

Lemma client_call_ret {A} (f : Store -> result A * Store) (w : world D) :
  exists r st, client_call f w = (Ret r, with_etcd st (arrival w)) /\
    match r with
    | inl a => f (etcd (arrival w)) = (inl a, st)
    | inr _ => st = etcd (arrival w) \/ st = (f (etcd (arrival w))).2
    end.
Proof.
  unfold client_call. destruct (f (etcd (arrival w))) as [r st] eqn:E. destruct (t_reply (next_tick w)).
  - exists r, st. split; [done|]. destruct r; auto.
  - exists (inr ErrEtcd), st. auto.
  - exists (inr ErrEtcd), (etcd (arrival w)). split; [done|by left].
Qed.

Lemma run_client_call {A} (mine : list Z) (f : Store -> result A * Store) :
  (forall st, others pfx mine st (f st).2 \/ (f st).2 = st) -> keeps (run_by mine) (client_call (D := D) f).
Proof.
  intros Hf w. destruct (client_call_ret f w) as (r & st & -> & Hr). cbn [snd].
  intros Ho. destruct (arrival_by mine w Ho) as [Ho' Hs]. split; [exact Ho'|]. etrans; [exact Hs|]. cbn [etcd with_etcd].
  assert (st = etcd (arrival w) \/ st = (f (etcd (arrival w))).2) as [->| ->]; [|reflexivity|].
  - destruct r; [right; by rewrite Hr|done].
  - destruct (Hf (etcd (arrival w))) as [H1| ->]; [by apply rtc_once|reflexivity].
Qed.

Lemma run_waitDelete (mine : list Z) (fuel : nat) (key : string) (rev : Z) :
  keeps (run_by mine) (waitDelete fuel key rev).
Proof.
  induction fuel as [|n IH]; cbn; repeat keeps_step; auto. apply run_client_call. by right.
Qed.

Lemma run_waitDeletes (mine : list Z) (fuel : nat) (mx : Z) : keeps (run_by mine) (waitDeletes fuel pfx mx).
Proof.
  induction fuel as [|n IH]; cbn [waitDeletes]; repeat keeps_step; auto using run_waitDelete.
  apply run_client_call. by right.
Qed.

Lemma run_Lock (mine : list Z) (fuel : nat) (m : Mutex) :
  m_pfx m = pfx -> m_lease m ∉ mine -> 0 <= m_lease m -> keeps (run_by mine) (Lock fuel m).
Proof.
  intros Hp Hm H0. unfold Lock. rewrite Hp. repeat keeps_step; auto using run_waitDeletes.
  apply run_client_call. intros st. left. by constructor.
Qed.

(** The wait ends with no older key left. *)
Lemma waitDeletes_done (fuel : nat) (mx : Z) (w w' : world D) :
  waitDeletes fuel pfx mx w = (Ret None, w') -> get_last pfx mx (kvs (etcd w')) = None.
Proof.
  revert w. induction fuel as [|n IH]; intros w; [done|]. cbn [waitDeletes]. unfold bind at 1.
  match goal with |- context [client_call ?f w] => destruct (client_call_ret f w) as (r & st & -> & Hr) end.
  destruct r as [[[[k kv]|] rev]|e]; [| |done].
  - unfold bind. destruct (waitDelete (S n) k rev _) as [[[e|]| | |] w1]; try done. apply IH.
  - intros [= <-]. injection Hr as Hn _ <-. exact Hn.
Qed.

(** When [Lock] returns without an error, the key of the session was put, and
    no key of the queue is older. *)
Lemma Lock_acquires (mine : list Z) (fuel : nat) (m m' : Mutex) (w w' : world D) :
  m_pfx m = pfx -> m_lease m ∈ mine -> 0 <= m_lease m -> queue_ok pfx (etcd w) ->
  Forall (tick_by mine) (oracle w) -> Lock fuel m w = (Ret (None, m'), w') ->
  queue_ok pfx (etcd w') /\ oldest pfx (m_lease m) (myRev m') (etcd w').
Proof.
  intros Hp Hin H0 Hq Ho. unfold Lock. rewrite Hp. unfold bind at 1.
  destruct (client_call_ret (lock_txn pfx (m_lease m)) w) as (r & st & -> & Hr).
  destruct r as [q|e]; [|done]. destruct (arrival_by mine w Ho) as [Ho1 Hs1].
  pose proof (queue_run pfx mine _ _ Hq Hs1) as Hq1.
  pose proof (lock_txn_step pfx (m_lease m) _ Hq1) as (Hwf & Hst & _). rewrite Hr in Hwf, Hst. cbn [snd] in Hwf, Hst.
  pose proof (queue_step_ok pfx _ _ Hq1 Hwf Hst) as Hq2.
  destruct (lock_txn_enters pfx _ _ _ _ Hq1 Hr) as (rev & -> & He & ->).
  destruct (match get_first pfx (kvs st) with None => true | Some (_, kv) => CreateRevision kv =? rev end) eqn:Ef.
  - intros [= <- <-]. cbn. split; [done|]. apply first_oldest; [done|].
    destruct (get_first pfx (kvs st)) as [[k kv]|]; [|done]. by apply Z.eqb_eq.
  - unfold bind. pose proof (run_waitDeletes mine fuel (rev - 1) (with_etcd st (arrival w)) Ho1) as [_ Hs2].
    destruct (waitDeletes fuel pfx (rev - 1) (with_etcd st (arrival w))) as [[[e|]| | |] w1] eqn:Ew; try done.
    intros [= <- <-]. cbn in *. apply waitDeletes_done in Ew.
    destruct (entered_stable pfx mine (m_lease m) rev st (etcd w1) Hin H0 Hq2 He Hs2) as [Hq3 He3].
    split; [done|]. by apply entered_oldest.
Qed.

(** C11. The lock excludes: after a session got the lock, another session may
    call [Lock], with the requests of any number of sessions and agents, lost
    answers and expired leases in between; if it gets the lock too while the
    first has not given it up, the key of one of the two is not in etcd any
    more.  So among the sessions whose leases are alive, one holds the lock. *)
Theorem lock_exclusive (fuel : nat) (m1 m1' m2 m2' : Mutex) (w1 w1' w2 w2' : world D) :
  m_pfx m1 = pfx -> m_pfx m2 = pfx -> 0 <= m_lease m1 -> 0 <= m_lease m2 -> m_lease m1 <> m_lease m2 ->
  queue_ok pfx (etcd w1) -> Forall (tick_by [m_lease m1]) (oracle w1) ->
  Lock fuel m1 w1 = (Ret (None, m1'), w1') ->
  rtc (others pfx [m_lease m1]) (etcd w1') (etcd w2) -> Forall (tick_by [m_lease m1; m_lease m2]) (oracle w2) ->
  Lock fuel m2 w2 = (Ret (None, m2'), w2') ->
  kvs (etcd w2') !! key_in pfx (m_lease m1) = None \/ kvs (etcd w2') !! key_in pfx (m_lease m2) = None.
Proof.
  intros P1 P2 L1 L2 Hne Hq Ho1 E1 Hs Ho2 E2.
  destruct (Lock_acquires [m_lease m1] fuel m1 m1' w1 w1' P1 ltac:(set_solver) L1 Hq Ho1 E1) as [Hq1 Hold1].
  pose proof (queue_run pfx _ _ _ Hq1 Hs) as Hq2.
  assert (rtc (others pfx [m_lease m1]) (etcd w2) (etcd w2')) as Hs2.
  { pose proof (run_Lock [m_lease m1] fuel m2 P2 ltac:(set_solver) L2 w2) as Hr. rewrite E2 in Hr.
    apply Hr. eapply Forall_impl; [exact Ho2|]. intros t. apply tick_mono. set_solver. }
  destruct (oldest_stable pfx [m_lease m1] (m_lease m1) (myRev m1') _ (etcd w2') ltac:(set_solver) L1 Hq1 Hold1)
    as [_ Hold]; [by etrans|].
  destruct (Lock_acquires [m_lease m1; m_lease m2] fuel m2 m2' w2 w2' P2 ltac:(set_solver) L2 Hq2 Ho2 E2) as [_ Hold2].
  destruct (kvs (etcd w2') !! key_in pfx (m_lease m1)) eqn:K1; [|by left].
  destruct (kvs (etcd w2') !! key_in pfx (m_lease m2)) eqn:K2; [|by right].
  exfalso. apply Hne. by apply (oldest_unique pfx _ _ _ _ (etcd w2') L1 L2 Hold Hold2).
Qed.
End Acquire.

(** ** Waiting ends *)
Section Returns.
Context {D : Type} (pfx : string) (l : Z).

(** No answer is lost, and the others act. *)
Definition tick_answered (t : tick) : Prop := t_reply t = Answered /\ tick_by pfx [l] t.

(** The store when all that the oracle tells has happened. *)
Definition settled (st : Store) (o : list tick) : Store := foldl (fun st t => t_env t st) st o.

Lemma settled_reached (st : Store) (o : list tick) : Forall tick_answered o -> rtc (others pfx [l]) st (settled st o).
Proof.
  intros Ho. revert st. induction Ho as [|t o [_ Ht] _ IH]; intros st; cbn; [reflexivity|].
  etrans; [apply Ht|apply IH].
Qed.

(** A key that is found later is the one of now, or newer than now. *)
Lemma others_newer (k : string) (kv : KeyValue) (st st' : Store) :
  queue_ok pfx st -> rtc (others pfx [l]) st st' -> HasPrefix k pfx = true -> kvs st' !! k = Some kv ->
  kvs st !! k = Some kv \/ currentRev st < CreateRevision kv.
Proof.
  intros Hq Hs Hp Hk. induction Hs as [|st st1 st2 Hs Hs' IH]; [by left|].
  destruct (others_step pfx [l] st st1 Hq Hs) as (Hq1 & (Hr & new & Hn) & _).
  destruct (IH Hq1 Hk) as [E|E]; [|right; lia]. destruct (Hn k kv Hp E) as [?|(_ & _ & ?)]; auto.
Qed.

(** An answered read. *)
Lemma client_read {A} (f : Store -> A) (w : world D) :
  Forall tick_answered (oracle w) ->
  client_call (fun st => (inl (f st), st)) w = (Ret (inl (f (etcd (arrival w)))), arrival w) /\
  settled (etcd (arrival w)) (oracle (arrival w)) = settled (etcd w) (oracle w) /\
  Forall tick_answered (oracle (arrival w)) /\ oracle (arrival w) = tail (oracle w).
Proof.
  unfold client_call, arrival, next_tick. destruct (oracle w) as [|t o]; intros Ho; cbn; [done|].
  apply Forall_cons in Ho as [[-> _] Ho]. done.
Qed.

Lemma waitDelete_returns (fuel : nat) (k : string) (rev : Z) (w : world D) :
  Forall tick_answered (oracle w) -> (length (oracle w) < fuel)%nat ->
  deleted k rev (settled (etcd w) (oracle w)) = true ->
  exists w', waitDelete fuel k rev w = (Ret None, w') /\ Forall tick_answered (oracle w') /\
    (length (oracle w') <= length (oracle w))%nat /\ settled (etcd w') (oracle w') = settled (etcd w) (oracle w) /\
    rtc (others pfx [l]) (etcd w) (etcd w').
Proof.
  revert w. induction fuel as [|n IH]; intros w Ho Hl Hd; [lia|]. cbn [waitDelete]. unfold bind at 1.
  destruct (client_read (deleted k rev) w Ho) as (-> & Hs & Ho' & Ht).
  pose proof (arrival_by pfx [l] w) as Ha. destruct Ha as [_ Ha]; [eapply Forall_impl; [exact Ho|by intros t [_ ?]]|].
  destruct (deleted k rev (etcd (arrival w))) eqn:Ed.
  - exists (arrival w). split_and!; [done|done|rewrite Ht; destruct (oracle w); cbn; lia|done|done].
  - destruct (oracle w) as [|t o] eqn:Eo.
    { unfold arrival, next_tick in Ed. rewrite Eo in Ed. cbn in *. congruence. }
    destruct (IH (arrival w)) as (w' & E & H1 & H2 & H3 & H4); [done|rewrite Ht; cbn in *; lia|by rewrite Hs|].
    exists w'. split_and!; [done|done|rewrite Ht in H2; cbn in *; lia|by rewrite H3|by etrans].
Qed.

Lemma waitDeletes_returns (fuel : nat) (mx : Z) (w : world D) :
  queue_ok pfx (etcd w) -> mx <> 0 -> Forall tick_answered (oracle w) -> (length (oracle w) < fuel)%nat ->
  get_last pfx mx (kvs (settled (etcd w) (oracle w))) = None ->
  exists w', waitDeletes fuel pfx mx w = (Ret None, w').
Proof.
  revert w. induction fuel as [|n IH]; intros w Hq Hmx Ho Hl Hn; [lia|]. cbn [waitDeletes]. unfold bind at 1.
  destruct (client_read (fun st => (get_last pfx mx (kvs st), currentRev st)) w Ho) as (-> & Hs & Ho' & Ht).
  pose proof (arrival_by pfx [l] w) as Ha. destruct Ha as [_ Ha]; [eapply Forall_impl; [exact Ho|by intros t [_ ?]]|].
  pose proof (queue_run pfx [l] _ _ Hq Ha) as Hq1.
  destruct (get_last pfx mx (kvs (etcd (arrival w)))) as [[k kv]|] eqn:Eg; [|by eexists].
  assert (oracle w <> []) as Hne.
  { intros Eo. unfold arrival, next_tick in Eg. rewrite Eo in *. cbn in *. congruence. }
  destruct (get_last_some _ _ _ _ _ Eg Hmx) as (Hp & Hk & Hc).
  assert (deleted k (currentRev (etcd (arrival w))) (settled (etcd (arrival w)) (oracle (arrival w))) = true) as Hd.
  { unfold deleted. destruct (kvs (settled _ _) !! k) as [kv'|] eqn:E'; [|done].
    destruct (others_newer k kv' _ _ Hq1 (settled_reached _ _ Ho') Hp E') as [E|E]; [|by apply Z.ltb_lt].
    rewrite Hs in E'. pose proof (get_last_none _ _ _ _ _ Hn Hmx Hp E'). rewrite Hk in E. injection E as <-. lia. }
  assert (length (oracle (arrival w)) < n)%nat as Hlen.
  { rewrite Ht. destruct (oracle w); [done|cbn in *; lia]. }
  destruct (waitDelete_returns (S n) k _ (arrival w) Ho' ltac:(lia) Hd) as (w1 & E1 & H1 & H2 & H3 & H4).
  unfold bind. rewrite E1. apply (IH w1); [by eapply queue_run|done|done|lia|by rewrite H3, Hs].
Qed.

(** C12. Waiting ends: a session with a live lease whose requests are answered
    gets the lock, if in the end the keys that stood in the queue when it
    joined are gone; rounds as many as the others take turns are enough,
    whatever new sessions join behind it. *)
Theorem Lock_returns (fuel : nat) (m : Mutex) (w : world D) :
  let st := etcd (arrival w) in
  let joined := (lock_txn pfx l st).2 in
  m_pfx m = pfx -> m_lease m = l -> 0 <= l -> queue_ok pfx (etcd w) -> Forall tick_answered (oracle w) ->
  is_Some (leases st !! l) -> (length (oracle w) < fuel)%nat ->
  (forall k kv, HasPrefix k pfx = true -> kvs (settled joined (tail (oracle w))) !! k = Some kv ->
     k = key_in pfx l \/ currentRev joined < CreateRevision kv) ->
  exists m' w', Lock fuel m w = (Ret (None, m'), w').
Proof.
  intros st joined Hp Hl H0 Hq Ho Hlease Hf Hgone.
  pose proof (arrival_by pfx [l] w) as Ha. destruct Ha as [_ Ha]; [eapply Forall_impl; [exact Ho|by intros t [_ ?]]|].
  pose proof (queue_run pfx [l] _ _ Hq Ha) as Hq1. fold st in Hq1.
  assert (exists q, lock_txn pfx l st = (inl q, joined)) as [q Eq].
  { unfold joined, lock_txn. destruct (applyCompare _ _); [|by eexists]. unfold Put, checkPut.
    rewrite (bool_decide_eq_true_2 _ Hlease), orb_true_r. by eexists. }
  destruct (lock_txn_enters pfx l q st joined Hq1 Eq) as (rev & Er & He & Eo).
  pose proof (lock_txn_step pfx l st Hq1) as (Hwf & Hst & _). rewrite Eq in Hwf, Hst. cbn [snd] in Hwf, Hst.
  pose proof (queue_step_ok pfx _ _ Hq1 Hwf Hst) as Hq2.
  assert (client_call (lock_txn pfx l) w = (Ret (inl q), with_etcd joined (arrival w)) /\
          Forall tick_answered (tail (oracle w)) /\ oracle (arrival w) = tail (oracle w)) as (Ec & Ho' & Ht).
  { unfold client_call. fold st. rewrite Eq. unfold arrival, next_tick.
    destruct (oracle w) as [|t o]; [done|]. apply Forall_cons in Ho as [[-> _] Ho]. done. }
  unfold Lock. rewrite Hp, Hl. unfold bind at 1. rewrite Ec, Er.
  destruct (match q_owner q with None => true | Some (_, kv) => CreateRevision kv =? rev end); [by do 2 eexists|].
  destruct (waitDeletes_returns fuel (rev - 1) (with_etcd joined (arrival w))) as (w' & E'); [done| | | | |].
  - destruct He as (? & _). lia.
  - cbn [oracle with_etcd]. by rewrite Ht.
  - cbn [oracle with_etcd]. rewrite Ht. destruct (oracle w); cbn in *; lia.
  - cbn [oracle etcd with_etcd]. rewrite Ht. destruct (get_last pfx (rev - 1) _) as [[k kv]|] eqn:Eg; [|done]. exfalso.
    destruct (entered_stable pfx [l] l rev joined _ ltac:(set_solver) H0 Hq2 He (settled_reached _ _ Ho')) as [_ (Hr & _ & Hm)].
    destruct (get_last_some _ _ _ _ _ Eg ltac:(lia)) as (Hkp & Hk & Hc).
    destruct (Hgone k kv Hkp Hk) as [->|Hnew]; [specialize (Hm _ Hk); lia|]. destruct He as (? & _). lia.
  - unfold bind. rewrite E'. by do 2 eexists.
Qed.
End Returns.

(** ** The agents leave the queue alone *)
Section Agents.
Context (cfg : Config).

(** The prefix [Start] gives the locks of the PostgreSQL manager. *)
Definition pg_generator (ttl : Z) : DistributedLockGenerator := NewDistributedLockGenerator (rootPath cfg) "lock/pg" ttl.
Definition pg_prefix : string := m_pfx (NewMutex 0 (lockPrefix (pg_generator 0))).

Lemma prefix_app (k p q : string) : HasPrefix k (p +:+ q) = true -> HasPrefix k p = true.
Proof.
  unfold HasPrefix. revert k. induction p as [|c p IH]; intros k; cbn; [by destruct k|].
  destruct k as [|a k]; [done|]. cbn. destruct (ascii_dec c a); [apply IH|done].
Qed.

Lemma prefix_both (k p q : string) :
  HasPrefix k p = true -> HasPrefix k q = true -> HasPrefix p q = true \/ HasPrefix q p = true.
Proof.
  unfold HasPrefix. revert p q. induction k as [|a k IH]; intros p q.
  - destruct p, q; try done; auto.
  - destruct p as [|b p], q as [|c q]; auto. cbn.
    destruct (ascii_dec b a), (ascii_dec c a); try done. subst.
    destruct (ascii_dec a a); [|done]. apply IH.
Qed.

Lemma HasPrefix_refl (k : string) : HasPrefix k k = true.
Proof. unfold HasPrefix. induction k as [|a k IH]; [done|]. cbn. by destruct (ascii_dec a a). Qed.

(** A key of an agent, and the range under it, are outside the queue. *)
Lemma agent_key_off (path : list string) (k : string) :
  plain_key path -> HasPrefix (Client.elems_key path) "lock/pg" = false -> HasPrefix "lock/pg" (Client.elems_key path) = false ->
  HasPrefix k pg_prefix = true ->
  String.eqb (fullPathOf cfg (Client.elems_key path)) k = false /\ HasPrefix k (fullPathOf cfg (Client.elems_key path)) = false.
Proof.
  intros [Hn Hp] H1 H2 Hk. apply prefix_app in Hk.
  change (lockPrefix (pg_generator 0)) with (path_Join [rootPath cfg; Join ["lock"; "pg"] "/"]) in Hk.
  assert (HasPrefix k (fullPathOf cfg (Client.elems_key path)) = false) as Hoff.
  { destruct (HasPrefix k (fullPathOf cfg (Client.elems_key path))) eqn:E; [|done]. exfalso.
    unfold fullPathOf, Client.KeyWithRootPath, Client.keyWithPrefix, Client.elems_key in *.
    destruct (prefix_both _ _ _ Hk E) as [Hb|Hb];
      rewrite path_Join_prefix in Hb; try done; try by repeat constructor.
    - change (Join ["lock"; "pg"] "/") with "lock/pg" in Hb. congruence.
    - change (Join ["lock"; "pg"] "/") with "lock/pg" in Hb. congruence. }
  split; [|done]. apply String.eqb_neq. intros <-. by rewrite HasPrefix_refl in Hoff.
Qed.

Lemma Txn_rev (rt : TxnRequest) (st : Store) : currentRev st <= currentRev (Txn rt st).2.
Proof.
  unfold Txn. destruct (negb _); cbn; [lia|]. destruct (applyOps _ _ _) as [[rs n] m]. cbn. case_match; lia.
Qed.

Lemma Txn_untouched (rt : TxnRequest) (st : Store) (k : string) :
  Forall (fun op => touches op k = false) (Success rt) -> kvs (Txn rt st).2 !! k = kvs st !! k.
Proof.
  intros H. unfold Txn. destruct (applyCompares _ _); cbn; [|done].
  destruct (negb _); [done|]. pose proof (applyOps_untouched (currentRev st) (Success rt) (kvs st) k H) as Hu.
  by destruct (applyOps (currentRev st) (Success rt) (kvs st)) as [[rs n] m].
Qed.

Lemma foreign_txn (rt : TxnRequest) (st : Store) :
  (forall k, HasPrefix k pg_prefix = true -> Forall (fun op => touches op k = false) (Success rt)) ->
  foreign pg_prefix st (Txn rt st).2.
Proof.
  intros H. split_and!; [apply Txn_wf|apply Txn_rev|]. intros k Hk. by apply Txn_untouched, H.
Qed.

Ltac off_key path Hk := apply (agent_key_off path); [split; [done|by repeat constructor]|done|done|exact Hk].

Lemma fixed_keys_off (k : string) : HasPrefix k pg_prefix = true ->
  Forall (fun p => String.eqb (fullPathOf cfg p) k = false)
    [leaderPath; termPath; idPath; metaVersionPath; lastUUIDPath; lastTxnIDPath; lastGTIDPath; spmPath].
Proof.
  intros Hk. repeat constructor.
  - off_key ["master"] Hk.
  - off_key ["election"; "master"; "term"] Hk.
  - off_key ["election"; "master"; "id"] Hk.
  - off_key ["election"; "master"; "meta_version"] Hk.
  - off_key ["election"; "master"; "last_uuid"] Hk.
  - off_key ["election"; "master"; "last_txnid"] Hk.
  - off_key ["election"; "master"; "last_gtid"] Hk.
  - off_key ["single_point_master"] Hk.
Qed.

Lemma term_key_off (n k : string) : plain_elem n = true -> HasPrefix k pg_prefix = true ->
  String.eqb (fullPathOf cfg (myTermPath n)) k = false.
Proof. intros Hn Hk. rewrite myTermPath_elems by done. off_key ["election"; "terms"; n] Hk. Qed.

(** Every request of an agent is one that the sessions tolerate. *)
Theorem agent_request_foreign (n : string) (st st' : Store) :
  plain_elem n = true -> agent_request cfg n st st' -> foreign pg_prefix st st'.
Proof.
  intros Hn Hr. assert (forall k, HasPrefix k pg_prefix = true -> _ /\ _) as Hoff
    by (intros k Hk; exact (conj (fixed_keys_off k Hk) (term_key_off n k Hn Hk))).
  destruct Hr.
  1-5: apply foreign_txn; intros k0 Hk0; destruct (Hoff k0 Hk0) as [Hf Ht];
    repeat (apply Forall_cons in Hf as [? Hf]); repeat constructor; assumption.
  - unfold StartClean. match goal with |- context [Txn ?rt st] => pose proof (foreign_txn rt st) as Hw end.
    destruct (Txn _ st) as [[resp|e] st1]; apply Hw; intros k0 Hk0; destruct (Hoff k0 Hk0) as [Hf _];
      apply Forall_cons in Hf as [? _]; by repeat constructor.
  - apply foreign_txn. intros k0 _. repeat constructor.
  - split_and!; [apply Put_wf|unfold Client.Put, Put; destruct (negb _); cbn; lia|].
    intros k0 Hk0. apply Client.Put_untouched. intros E.
    assert (String.eqb (fullPathOf cfg (Client.elems_key k)) k0 = false) as Ho; [|by apply String.eqb_neq in Ho].
    apply (agent_key_off k k0); [by apply (own_key_plain n)| |destruct H; done|done].
    destruct H; done.
  - split_and!; [by apply DeleteRange_wf|by apply DeleteRange_rev|]. intros k0 Hk0.
    apply Client.DeleteRange_untouched. rewrite join_two by done. off_key ["slave"; n] Hk0.
  - split_and!; [by apply DeleteRange_wf|by apply DeleteRange_rev|]. intros k0 Hk0.
    apply Client.DeleteRange_untouched. off_key ["single_point_master"] Hk0.
  - split_and!; [apply Grant_wf|unfold Grant; destruct (MaxLeaseTTL <? ttl); cbn; lia|].
    intros k0 _. unfold Grant. by destruct (MaxLeaseTTL <? ttl).
  - unfold Renew. destruct (leases st !! l); cbn; split_and!; done.
Qed.
End Agents.

(** ** Concrete sessions

    Three sessions of the locks of the demonstration cluster. *)
Module Toy.
Definition pfx : string := pg_prefix demo_cfg.
Definition mutex (l : Z) : Mutex := NewMutex l (lockPrefix (pg_generator demo_cfg 0)).

Definition granted : Store := (Grant 10 (Grant 10 (Grant 10 empty_store).2).2).2.
Definition quiet (st : Store) : world unit := mkWorld new_Server init_latestPos st tt 0 [] [].
Definition busy (st : Store) (o : list tick) : world unit := mkWorld new_Server init_latestPos st tt 0 o [].

Lemma empty_queue_ok : queue_ok pfx empty_store.
Proof. split_and!; [apply empty_store_wf|done|done|done]. Qed.

Lemma granted_ok : queue_ok pfx granted.
Proof.
  apply (queue_run pfx [] empty_store); [apply empty_queue_ok|].
  do 3 (eapply rtc_l; [apply (o_grant _ _ _ 10)|]). reflexivity.
Qed.

(** The first session gets the lock. *)
Definition held : Store := etcd (Lock 1 (mutex 1) (quiet granted)).2.

Lemma held_ok : queue_ok pfx held.
Proof.
  apply (queue_run pfx [2] granted); [apply granted_ok|]. apply rtc_once.
  exact (o_lock pfx [2] granted 1 ltac:(set_solver) ltac:(done)).
Qed.

(** Its lease expires, and the second one gets it. *)
Lemma lock_exclusive_witness :
  (Lock 1 (mutex 2) (quiet (Revoke 1 held).2)).1 = Ret (None, mkMutex 2 pfx (key_in pfx 2) 4) /\
  (kvs (etcd (Lock 1 (mutex 2) (quiet (Revoke 1 held).2)).2) !! key_in pfx 1 = None \/
   kvs (etcd (Lock 1 (mutex 2) (quiet (Revoke 1 held).2)).2) !! key_in pfx 2 = None).
Proof.
  split; [vm_compute; reflexivity|].
  refine (lock_exclusive pfx 1 (mutex 1) (mkMutex 1 pfx (key_in pfx 1) 2) (mutex 2) (mkMutex 2 pfx (key_in pfx 2) 4)
    (quiet granted) (Lock 1 (mutex 1) (quiet granted)).2 (quiet (Revoke 1 held).2) _
    eq_refl eq_refl _ _ _ granted_ok _ _ _ _ _); try (vm_compute; discriminate).
  - constructor.
  - vm_compute. reflexivity.
  - apply rtc_once. exact (o_expire pfx [1] held 1).
  - constructor.
  - vm_compute. reflexivity.
Defined.

(** The second session waits for two turns until the first one unlocks. *)
Definition wait_turn : tick := mkTick id 0 Answered false.
Definition unlock_turn : tick := mkTick (DeleteRange (OpDelete (key_in pfx 1))) 0 Answered false.

Lemma Lock_returns_witness : exists m' w', Lock 4 (mutex 2) (busy held [wait_turn; wait_turn; unlock_turn]) = (Ret (None, m'), w').
Proof.
  apply (Lock_returns pfx 2 4 (mutex 2) (busy held [wait_turn; wait_turn; unlock_turn])).
  - reflexivity.
  - reflexivity.
  - lia.
  - exact held_ok.
  - repeat constructor; intros st; try reflexivity. apply rtc_once.
    exact (o_unlock pfx [2] st 1 ltac:(set_solver) ltac:(done)).
  - exists 10. vm_compute. reflexivity.
  - cbn. lia.
  - intros k kv _ Hk. left.
    assert (kvs (settled (lock_txn pfx 2 held).2 [wait_turn; unlock_turn]) = {[key_in pfx 2 := mkKV "" 3 3 1 2]}) as E
      by (vm_compute; reflexivity).
    change (tail (oracle (busy held [wait_turn; wait_turn; unlock_turn]))) with [wait_turn; unlock_turn] in Hk.
    change (etcd (arrival (busy held [wait_turn; wait_turn; unlock_turn]))) with held in Hk.
    rewrite E in Hk. by apply lookup_singleton_Some in Hk as [<- _].
Defined.

(** The lease of a waiting session expires, a third session joins, and the
    first one unlocks: the waiting session is told that it holds the lock,
    although its key is gone, and so is the third one. *)
Definition overtake_turn : tick :=
  mkTick (fun st => DeleteRange (OpDelete (key_in pfx 1)) (lock_txn pfx 3 (Revoke 2 st).2).2) 0 Answered false.

Lemma expired_session_holds :
  let '(r, w) := Lock 4 (mutex 2) (busy held [wait_turn; wait_turn; overtake_turn]) in
  (exists m, r = Ret (None, m)) /\ kvs (etcd w) !! key_in pfx 2 = None /\ leases (etcd w) !! 2 = None /\
  exists m, (Lock 1 (mutex 3) (quiet (etcd w))).1 = Ret (None, m).
Proof. vm_compute. split_and!; eauto. Qed.

(** The session of a lock that was taken and given back is still there: nobody
    closes it, and its goroutine keeps the lease alive. *)
Definition take_and_give : M unit unit := with_lock 1 (pg_generator demo_cfg 10) (ret tt).

Lemma session_never_closed :
  let '(r, w) := take_and_give (quiet empty_store) in
  r = Ret tt /\ leases (etcd w) !! 1 = Some 10 /\ kvs (etcd w) = ∅.
Proof. by vm_compute. Qed.

(** A session that cannot be opened does not keep the work from being done. *)
Lemma work_without_lock (work : M unit unit) (w : world unit) (t : tick) (o : list tick) :
  oracle w = t :: o -> t_reply t = Refused -> with_lock 1 (pg_generator demo_cfg 10) work w = work (arrival w).
Proof.
  intros Eo Et. unfold with_lock, NewLocker, NewSession, bind, client_call, next_tick, ret. rewrite Eo, Et.
  by destruct (Grant _ _).
Qed.
End Toy.
End DistLock.
