(* ===== verification/Tool.v ===== *)
(** * The surroundings of the command-line tools in [moctl/]

    A tool is a sequential program that can leave by [os.Exit] and can panic;
    [flow] is the outcome of a step.  What it asks of its surroundings are the
    operations of [ToolEnv]: databases, the HTTP interface of the agents,
    etcd, the shell, files and the clock, none of them code of this
    repository.  A run carries the state of the surroundings and a log, newest
    first, of the events of type [E] that a theorem observes. *)

From stdpp Require Import gmap strings list.
From Stdlib Require Import ZArith Lia Ascii.
From S2P Require Import Prelude GoStrings Gtid Etcd World ServiceManager.
Import Mvcc.

Module Tool.

(** A database handle is its data source name: [sql.Open] only checks the
    name, and connects when the handle is used.  [http_get] answers the status
    and the body, [etcd_read] the keys of the store at the moment of the read,
    [read_lines] the pieces that [bufio.Reader.ReadLine] returns. *)
Class ToolEnv (W : Type) := {
  sql_Open : string -> option error;
  sql_Query : string -> string -> W -> result Rows * W;
  sql_Exec : string -> string -> W -> option error * W;
  http_get : string -> W -> result (Z * string) * W;
  etcd_New : string -> string -> string -> W -> option error;
  etcd_read : W -> result (gmap string KeyValue) * W;
  shell : string -> W -> result string * W;
  os_Stat : string -> W -> option error;
  os_Remove : string -> W -> W;
  os_Create : string -> W -> option error * W;
  read_lines : string -> W -> result (list string) * W;
  write_string : string -> string -> W -> option error * W;
  copy_file : string -> string -> W -> bool * W;
  sleep : Z -> W -> W
}.

(** ** Steps *)

Inductive flow (A : Type) := Val (a : A) | Exit | Panic.
Arguments Val {A} a.
Arguments Exit {A}.
Arguments Panic {A}.

Record run (W E : Type) := mkRun { env : W; log : list E }.
Arguments mkRun {W E} env log.
Arguments env {W E}. Arguments log {W E}.

Definition step (W E A : Type) : Type := run W E -> flow A * run W E.

Definition ret {W E A} (a : A) : step W E A := fun s => (Val a, s).
Definition exit {W E A} : step W E A := fun s => (Exit, s).
Definition panic {W E A} : step W E A := fun s => (Panic, s).
Definition bind {W E A B} (m : step W E A) (k : A -> step W E B) : step W E B := fun s =>
  match m s with
  | (Val a, s') => k a s'
  | (Exit, s') => (Exit, s')
  | (Panic, s') => (Panic, s')
  end.
Definition of_option {W E A} (o : option A) : step W E A :=
  match o with Some a => ret a | None => panic end.
Definition on_env {W E A} (f : W -> A * W) : step W E A := fun s =>
  let '(a, w) := f (env s) in (Val a, mkRun w (log s)).
Definition observe {W E} (e : E) : step W E unit := fun s => (Val tt, mkRun (env s) (e :: log s)).

(** ** Steps that leave the log alone *)

(** A step that is not observed and does not end the tool. *)
Definition silent {W E A} (m : step W E A) : Prop :=
  forall s, log (m s).2 = log s /\ (m s).1 <> Exit.

Lemma silent_ret {W E A} (a : A) : silent (@ret W E A a).
Proof. done. Qed.
Lemma silent_panic {W E A} : silent (@panic W E A).
Proof. done. Qed.
Lemma silent_on_env {W E A} (f : W -> A * W) : silent (@on_env W E A f).
Proof. intros s. unfold on_env. by destruct (f (env s)). Qed.
Lemma silent_bind {W E A B} (m : step W E A) (k : A -> step W E B) :
  silent m -> (forall a, silent (k a)) -> silent (bind m k).
Proof.
  intros Hm Hk s. unfold bind. destruct (Hm s) as [Hl Ho].
  destruct (m s) as [[a| |] s']; cbn in *; [|done..].
  destruct (Hk a s') as [Hl' Ho']. by rewrite Hl'.
Qed.
Lemma silent_of_option {W E A} (o : option A) : silent (@of_option W E A o).
Proof. by destruct o. Qed.

Create HintDb silent.
#[export] Hint Resolve silent_ret silent_panic silent_on_env silent_of_option : silent.

(** Follow the branches of a step and the answers it binds. *)
Ltac silence :=
  repeat first
    [ solve [auto with silent]
    | progress intros
    | apply silent_bind
    | break_match ].

(** ** Steps that add events of a kind *)

(** Whatever its outcome, the step only adds events that satisfy [P]. *)
Definition emits {W E A} (P : E -> Prop) (m : step W E A) : Prop :=
  forall s, exists new, log (m s).2 = new ++ log s /\ Forall P new.

Lemma emits_nothing {W E A} (P : E -> Prop) (m : step W E A) :
  (forall s, log (m s).2 = log s) -> emits P m.
Proof. intros Hm s. exists []. by rewrite Hm. Qed.

Lemma emits_silent {W E A} (P : E -> Prop) (m : step W E A) : silent m -> emits P m.
Proof. intros Hm. apply emits_nothing. apply Hm. Qed.

Lemma emits_exit {W E A} (P : E -> Prop) : emits P (@exit W E A).
Proof. by apply emits_nothing. Qed.

Lemma emits_observe {W E} (P : E -> Prop) (e : E) : P e -> emits P (@observe W E e).
Proof. intros He s. exists [e]. by split; [|apply Forall_singleton]. Qed.

Lemma emits_bind {W E A B} (P : E -> Prop) (m : step W E A) (k : A -> step W E B) :
  emits P m -> (forall a, emits P (k a)) -> emits P (bind m k).
Proof.
  intros Hm Hk s. unfold bind. destruct (Hm s) as (n1 & E1 & H1).
  destruct (m s) as [[a| |] s']; cbn in *; [|eauto..].
  destruct (Hk a s') as (n2 & E2 & H2). exists (n2 ++ n1).
  rewrite E2, E1, app_assoc. split; [done|by apply Forall_app].
Qed.

#[export] Hint Resolve emits_exit emits_observe : silent.
#[export] Hint Extern 2 (emits _ _) => apply emits_silent : silent.

(** Follow the branches of a step that adds events. *)
Ltac emit :=
  repeat first
    [ solve [eauto with silent]
    | progress intros
    | apply emits_bind
    | break_match ].

(** An event that none of the older part of a log satisfies is in the newer
    part, so that the whole older part comes before it. *)
Lemma event_after {E} (P : E -> Prop) (new old l1 l2 : list E) (e : E) :
  new ++ old = l1 ++ e :: l2 -> Forall (fun e => ~ P e) old -> P e -> exists k, l2 = k ++ old.
Proof.
  intros Heq Hold He. apply app_eq_inv in Heq as [(k & -> & Hk)|(k & -> & Hk)].
  - destruct k as [|x k]; cbn in Hk.
    + subst. apply Forall_cons in Hold as [? _]. done.
    + injection Hk as <- ->. eauto.
  - subst. apply Forall_app in Hold as [_ Hold]. apply Forall_cons in Hold as [? _]. done.
Qed.

(** An event [P] after a first step that adds none: the first step has
    returned, and what it had logged is before the event. *)
Lemma after_quiet {W E A B} (P : E -> Prop) (m : step W E A) (k : A -> step W E B) (s : run W E)
    (l1 l2 : list E) (e : E) :
  emits (fun e => ~ P e) m -> (forall a, emits (fun _ => True) (k a)) ->
  Forall (fun e => ~ P e) (log s) -> log (bind m k s).2 = l1 ++ e :: l2 -> P e ->
  exists a s1, m s = (Val a, s1) /\ Forall (fun e => ~ P e) (log s1) /\
    log (k a s1).2 = l1 ++ e :: l2 /\ exists l, l2 = l ++ log s1.
Proof.
  intros Hm Hk Hs Hlog He. destruct (Hm s) as (n & En & Hn). revert Hlog. unfold bind.
  destruct (m s) as [[a| |] s1]; cbn [snd] in *.
  2,3: rewrite En; intros Hx;
    assert (Forall (fun e => ~ P e) (l1 ++ e :: l2)) as Hall by (rewrite <- Hx; by apply Forall_app);
    apply Forall_app in Hall as [_ [? _]%Forall_cons]; done.
  intros Hlog. exists a, s1.
  assert (Forall (fun e => ~ P e) (log s1)) as H1 by (rewrite En; by apply Forall_app).
  destruct (Hk a s1) as (n2 & E2 & _). split_and!; [done..|]. rewrite E2 in Hlog.
  by eapply event_after.
Qed.

(** ** Shared operations *)

(** [strconv.Atoi] with its error dropped. *)
Definition port_of (s : string) : Z := (ParseInt_pair s).1.

Lemma ParseInt_nat (z : Z) : 0 <= z < two63 -> ParseInt (FormatUint z) = inl z.
Proof.
  intros Hz. replace (FormatUint z) with (FormatInt z); [apply ParseInt_FormatInt; unfold is_i64; lia|].
  unfold FormatInt. by destruct (Z.ltb_spec z 0); [lia|].
Qed.

Lemma port_of_FormatUint (z : Z) : 0 <= z < two63 -> port_of (FormatUint z) = z.
Proof. intros Hz. unfold port_of, ParseInt_pair. by rewrite (ParseInt_nat z Hz). Qed.

Section Shared.
Context {W E : Type} `{ToolEnv W}.

(** [db.Query] and [db.Exec]: a nil handle panics. *)
Definition query (db : option string) (stmt : string) : step W E (result Rows) :=
  bind (of_option db) (fun dsn => on_env (sql_Query dsn stmt)).
Definition exec (db : option string) (stmt : string) : step W E (option error) :=
  bind (of_option db) (fun dsn => on_env (sql_Exec dsn stmt)).

(** [strings.Split(x, ":")[0]] and [[1]]; the second panics without a colon. *)
Definition split_addr (x : string) : step W E (string * string) :=
  match Split ":" x with
  | ip :: port :: _ => ret (ip, port)
  | _ => panic
  end.

Definition time_Sleep (d : Z) : step W E unit := on_env (fun w => (tt, sleep d w)).

Lemma silent_query (db : option string) (stmt : string) : silent (query db stmt).
Proof. unfold query. silence. Qed.
Lemma silent_exec (db : option string) (stmt : string) : silent (exec db stmt).
Proof. unfold exec. silence. Qed.
Lemma silent_split_addr (x : string) : silent (split_addr x).
Proof. unfold split_addr. silence. Qed.
End Shared.
#[export] Hint Resolve silent_query silent_exec silent_split_addr : silent.

Declare Scope step_scope.
Delimit Scope step_scope with step.
Notation "x <- m ; k" := (bind m (fun x => k)) (at level 100, m at next level, right associativity) : step_scope.

End Tool.
