(* ===== verification/Switch.v ===== *)
(** * The planned switch-over of [moctl/switch.go]

    The command-line tool a DBA runs to move the master role: it reads the
    master and the slaves of the instance group from etcd, checks that the
    master is not busy and that replication is running, asks the master's
    agent to stop writes, waits until every slave has caught up and only then
    asks for the change of master.

    What an observer sees of a run is the log of the requests to the agents,
    newest first, each with the state of the surroundings in which it was sent
    and whether the tool took the answer as a success. *)

From stdpp Require Import gmap strings list sorting.
From Stdlib Require Import ZArith Lia Ascii.
From S2P Require Import Prelude GoStrings Gtid Json Etcd World ServiceManager Tool.
Import Mvcc Tool.
Open Scope step_scope.

Module Switch.

Definition maxRuningThred : Z := 200.
Definition maxNotExecGtid : Z := 10000.

(** [DBConfig] and [Config]: the fields the tool reads. *)
Record DBConfig := mkDBConfig { MysqlUser : string; MysqlPwd : string }.

Record Config := mkConfig {
  EtcdURLs : string;
  EtcdRootPath : string;
  EtcdUsername : string;
  EtcdPassword : string;
  EtcdCluster : string;
  Db : DBConfig
}.

(** A request to an agent: the state of the surroundings in which it was sent,
    its address, and whether the tool took the answer as a success. *)
Record request (W : Type) := Req { sent_in : W; url : string; success : bool }.
Arguments Req {W} sent_in url success.
Arguments sent_in {W}. Arguments url {W}. Arguments success {W}.

Section Switch.
Context {W : Type} `{ToolEnv W}.

Abbreviation prun := (run W (request W)).
Abbreviation prog := (step W (request W)).


(** ** Databases *)

(** [CreateDB]; [None] is the nil handle that comes with an error. *)
Definition CreateDB (user password host : string) (port : Z) : option string * option error :=
  let dsn := user +:+ ":" +:+ password +:+ "@tcp(" +:+ host +:+ ":" +:+ FormatInt port
             +:+ ")/?charset=utf8&interpolateParams=true&readTimeout=1s&writeTimeout=1s&timeout=1s" in
  match sql_Open dsn with
  | Some e => (None, Some e)
  | None => (Some dsn, None)
  end.

(** [GetSlaveStatus]; on an error the map is nil and reads as empty. *)
Definition GetSlaveStatus (db : option string) : prog (gmap string string * option error) :=
  r <- query db "SHOW SLAVE STATUS ";
  ret (match r with
       | inr e => (∅, Some e)
       | inl rows =>
           (Mysql.zip_row (Columns rows) (match Data rows with [] => [] | c :: _ => c end) ∅, None)
       end).

(** Scanning a cell into an [int]. *)
Definition scan_int (c : option string) : result Z :=
  match c with
  | None => inr (Errorf "sql: Scan error: converting NULL to int is unsupported")
  | Some s => ParseInt s
  end.

(** [threadsRunning] *)
Fixpoint scan_threads (rows : list (list (option string))) (n : Z) : Z * option error :=
  match rows with
  | [] => (n, None)
  | [_; c] :: rest =>
      match scan_int c with
      | inl z => scan_threads rest z
      | inr e => (9999, Some e)
      end
  | _ :: _ => (9999, Some Mysql.scan_arity)
  end.

Definition threadsRunning (masterdb : option string) : prog (Z * option error) :=
  r <- query masterdb ("show global status like " +:+ String dquote ("Threads_running" +:+ String dquote ""));
  ret (match r with
       | inr e => (999, Some e)
       | inl rows => scan_threads (Data rows) 0
       end).

(** [masterStatus] *)
Fixpoint scan_status (rows : list (list (option string))) (acc : string * Z * string)
    : (string * Z * string) * option error :=
  match rows with
  | [] => (acc, None)
  | [f; p; _; _; g] :: rest =>
      match Mysql.scan_string f, scan_int p, Mysql.scan_string g with
      | inl f, inl p, inl g => scan_status rest (f, p, g)
      | inr e, _, _ | inl _, inr e, _ | inl _, inl _, inr e => (("nil", 9999, "nil"), Some e)
      end
  | _ :: _ => (("nil", 9999, "nil"), Some Mysql.scan_arity)
  end.

Definition masterStatus (masterdb : option string) : prog ((string * Z * string) * option error) :=
  r <- query masterdb "show master status";
  ret (match r with
       | inr e => (("nil", 9999, "nil"), Some e)
       | inl rows => scan_status (Data rows) ("", 0, "")
       end).

(** [getServerUUID]: when the rows end with an error, the error returned is
    that of the last scan, which is nil. *)
Definition getServerUUID (db : option string) : prog (string * option error) :=
  r <- query db "SELECT @@server_uuid;";
  ret (match r with
       | inr e => ("", Some e)
       | inl rows =>
           match Mysql.scan_uuid_rows (Data rows) "" with
           | inr e => ("", Some e)
           | inl u => match RowsErr rows with Some _ => ("", None) | None => (u, None) end
           end
       end).

(** [getTxnIDFromGTIDStr]: 0 and no error for a server that is not in the set. *)
Definition getTxnIDFromGTIDStr (gtidStr serverUUID : string) : result Z :=
  match parseGTIDSet gtidStr with
  | inr e => inr e
  | inl sets =>
      match sets !! serverUUID with
      | None => inl 0
      | Some us =>
          match last (Intervals us) with
          | None => inl 0
          | Some i => inl (Stop i)
          end
      end
  end.

(** ** Agents *)

(** [getMysqlAgent]: without a response the tool dereferences nil. *)
Definition getMysqlAgent (agentapi : string) : prog bool := fun s =>
  match http_get agentapi (env s) with
  | (inr _, w) => (Panic, mkRun w (Req (env s) agentapi false :: log s))
  | (inl (code, body), w) =>
      let ok := (code =? 200) && Contains body "success" in
      (Val ok, mkRun w (Req (env s) agentapi ok :: log s))
  end.

(** ** etcd *)

(** [initEtcdClient] and a read with it: every failure ends the tool. *)
Definition read_etcd (cfg : Config) : prog (gmap string KeyValue) := fun s =>
  match etcd_New (EtcdURLs cfg) (EtcdUsername cfg) (EtcdPassword cfg) (env s) with
  | Some _ => (Exit, s)
  | None =>
      match etcd_read (env s) with
      | (inr _, w) => (Exit, mkRun w (log s))
      | (inl m, w) => (Val m, mkRun w (log s))
      end
  end.

(** [getInstanceGroupMaster] *)
Definition getInstanceGroupMaster (cfg : Config) : prog (string * string) :=
  m <- read_etcd cfg;
  match m !! (EtcdRootPath cfg +:+ EtcdCluster cfg +:+ "/master") with
  | None => exit
  | Some kv => split_addr (Value kv)
  end.

(** [getSingleMasterMode] *)
Definition getSingleMasterMode (cfg : Config) : prog bool :=
  m <- read_etcd cfg;
  ret (match m !! (EtcdRootPath cfg +:+ EtcdCluster cfg +:+ "/single_point_master") with
       | None => false
       | Some _ => true
       end).

(** The file part of [path.Split]. *)
Definition path_file (p : string) : string := default "" (last (Split "/" p)).

(** [getInstanceGroupSlave] *)
Definition getInstanceGroupSlave (cfg : Config) : prog (list string) :=
  m <- read_etcd cfg;
  match range_prefix (EtcdRootPath cfg +:+ EtcdCluster cfg +:+ "/slave") m with
  | [] => exit
  | l => ret ((fun kv => path_file kv.1) <$> l)
  end.

(** ** Checks *)

(** [prefixSwitchCheck].  The loop over the slaves returns in its first
    iteration, on every path. *)
Definition prefixSwitchCheck (cfg : Config) (masterNode : string * string) (slaveNode : list string)
    : prog (bool * option error) :=
  let db := (CreateDB (MysqlUser (Db cfg)) (MysqlPwd (Db cfg)) masterNode.1 (port_of masterNode.2)).1 in
  tr <- threadsRunning db;
  match tr with
  | (_, Some e) => ret (false, Some e)
  | (n, None) =>
      if maxRuningThred <? n then ret (false, None)
      else
        uuid <- getServerUUID db;
        st <- masterStatus db;
        match slaveNode with
        | [] => ret (true, None)
        | node :: _ =>
            addr <- split_addr node;
            let sdb := (CreateDB (MysqlUser (Db cfg)) (MysqlPwd (Db cfg)) addr.1 (port_of addr.2)).1 in
            info <- GetSlaveStatus sdb;
            if String.eqb (Mysql.column info.1 "Slave_IO_Running") "Yes" &&
               String.eqb (Mysql.column info.1 "Slave_SQL_Running") "Yes"
            then
              match getTxnIDFromGTIDStr st.1.2 uuid.1,
                    getTxnIDFromGTIDStr (Mysql.column info.1 "Executed_Gtid_Set") uuid.1 with
              | inl master, inl executed =>
                  if maxNotExecGtid <=? i64 (master - executed) then ret (false, None)
                  else ret (true, None)
              | _, _ => ret (false, None)
              end
            else ret (false, None)
        end
  end.

(** One slave of [checkConsistency] against the position of the master;
    [None] is "go on to the next one". *)
Definition checkSlave (cfg : Config) (file pos uuid : string) (master : Z) (node : string)
    : prog (option (bool * option error)) :=
  addr <- split_addr node;
  match CreateDB (MysqlUser (Db cfg)) (MysqlPwd (Db cfg)) addr.1 (port_of addr.2) with
  | (_, Some e) => ret (Some (false, Some e))
  | (sdb, None) =>
      info <- GetSlaveStatus sdb;
      match info with
      | (_, Some e) => ret (Some (false, Some e))
      | (slaveinfo, None) =>
          let executed :=
            match getTxnIDFromGTIDStr (Mysql.column slaveinfo "Executed_Gtid_Set") uuid with
            | inl z => z
            | inr _ => 0
            end in
          if String.eqb (Mysql.column slaveinfo "Relay_Master_Log_File") file &&
             String.eqb (Mysql.column slaveinfo "Exec_Master_Log_Pos") pos &&
             (i64 (master - executed) =? 0)
          then ret None else ret (Some (false, None))
      end
  end.

Fixpoint checkSlaves (cfg : Config) (file pos uuid : string) (master : Z) (slaveNode : list string)
    : prog (bool * option error) :=
  match slaveNode with
  | [] => ret (true, None)
  | node :: rest =>
      r <- checkSlave cfg file pos uuid master node;
      match r with
      | Some answer => ret answer
      | None => checkSlaves cfg file pos uuid master rest
      end
  end.

(** [checkConsistency]: the error of [masterStatus] is overwritten. *)
Definition checkConsistency (cfg : Config) (masterNode : string * string) (slaveNode : list string)
    : prog (bool * option error) :=
  let db := (CreateDB (MysqlUser (Db cfg)) (MysqlPwd (Db cfg)) masterNode.1 (port_of masterNode.2)).1 in
  st <- masterStatus db;
  uuid <- getServerUUID db;
  match uuid with
  | (_, Some e) => ret (false, Some e)
  | (serverUUID, None) =>
      match getTxnIDFromGTIDStr st.1.2 serverUUID with
      | inr e => ret (false, Some e)
      | inl intMasterGtid =>
          checkSlaves cfg st.1.1.1 (FormatInt st.1.1.2) serverUUID intMasterGtid slaveNode
      end
  end.

(** ** The plan *)

Definition setReadOnlyAPI (m : string * string) : string :=
  "http://" +:+ m.1 +:+ ":1" +:+ m.2 +:+ "/setReadOnly".
Definition setChangeMaster (m : string * string) : string :=
  "http://" +:+ m.1 +:+ ":1" +:+ m.2 +:+ "/changeMaster".
Definition setReadWrite (m : string * string) : string :=
  "http://" +:+ m.1 +:+ ":1" +:+ m.2 +:+ "//setReadWrite".


(** The loop that waits for the slaves, [i] rounds before its end. *)
Fixpoint wait_loop (i : nat) (cfg : Config) (masterNode : string * string) (slaves : list string)
    : prog unit :=
  match i with
  | O => ret tt
  | S i' =>
      c <- checkConsistency cfg masterNode slaves;
      match c with
      | (_, Some _) => _ <- getMysqlAgent (setReadWrite masterNode); exit
      | (getconsistency, None) =>
          _ <- (if getconsistency then
                  getchangeResult <- getMysqlAgent (setChangeMaster masterNode);
                  if getchangeResult then exit
                  else _ <- getMysqlAgent (setReadWrite masterNode); ret tt
                else ret tt);
          _ <- time_Sleep (1 * Second);
          wait_loop i' cfg masterNode slaves
      end
  end.

(** The end of [main]: the preliminary check, the write stop, the wait. *)
Definition plan_switch (cfg : Config) (masterNode : string * string) (realSlaveInfo : list string)
    : prog unit :=
  checkResult <- prefixSwitchCheck cfg masterNode realSlaveInfo;
  if checkResult.1 then
    getreadResult <- getMysqlAgent (setReadOnlyAPI masterNode);
    if getreadResult then
      _ <- wait_loop 10 cfg masterNode realSlaveInfo;
      _ <- getMysqlAgent (setReadWrite masterNode); ret tt
    else ret tt
  else ret tt.

(** The slaves that are not the master itself. *)
Fixpoint real_slaves (masterNode : string * string) (slaveNode : list string) : prog (list string) :=
  match slaveNode with
  | [] => ret []
  | node :: rest =>
      addr <- split_addr node;
      l <- real_slaves masterNode rest;
      ret (if String.eqb masterNode.1 addr.1 && String.eqb masterNode.2 addr.2 then l else node :: l)
  end.

(** [main], after the flags and the configuration file are read. *)
Definition switch_main (cfg : Config) : prog unit :=
  isSingleMode <- getSingleMasterMode cfg;
  if (isSingleMode : bool) then exit
  else
    masterNode <- getInstanceGroupMaster cfg;
    slaveNode <- getInstanceGroupSlave cfg;
    realSlaveInfo <- real_slaves masterNode slaveNode;
    plan_switch cfg masterNode realSlaveInfo.

(** ** Theorems *)

Lemma silent_checkConsistency (cfg : Config) (m : string * string) (slaves : list string) :
  silent (checkConsistency cfg m slaves).
Proof.
  assert (forall file pos uuid master, silent (checkSlaves cfg file pos uuid master slaves)) as Hs.
  { intros. induction slaves as [|node rest IH]; cbn [checkSlaves]; [done|].
    apply silent_bind; [unfold checkSlave, GetSlaveStatus|]; silence. }
  unfold checkConsistency, masterStatus, getServerUUID. silence.
Qed.

Lemma silent_prefixSwitchCheck (cfg : Config) (m : string * string) (slaves : list string) :
  silent (prefixSwitchCheck cfg m slaves).
Proof.
  unfold prefixSwitchCheck, threadsRunning, getServerUUID, masterStatus, GetSlaveStatus. silence.
Qed.

(** What a request to an agent leaves in the log. *)
Lemma getMysqlAgent_log (u : string) (s s' : prun) (o : flow bool) :
  getMysqlAgent u s = (o, s') ->
  exists ok, log s' = Req (env s) u ok :: log s /\ (o = Panic \/ o = Val ok).
Proof.
  unfold getMysqlAgent. destruct (http_get u (env s)) as [[[code body]|e] w]; intros ?; simplify_eq; eauto.
Qed.

Section Plan.
Context (cfg : Config) (m : string * string) (slaves : list string).

(** The slaves were found consistent right before the request sent in [w]. *)
Definition consistent_before (w : W) (l : list (request W)) : Prop :=
  exists s0 s1, checkConsistency cfg m slaves s0 = (Val (true, None), s1) /\ env s1 = w /\ log s1 = l.

Definition no_change (l : list (request W)) : Prop :=
  Forall (fun r => url r <> setChangeMaster m) l.

(** The log of a run so far: every change request follows a check. *)
Inductive justified : list (request W) -> Prop :=
| J_nil : justified []
| J_other (r : request W) (l : list (request W)) :
    url r <> setChangeMaster m -> justified l -> justified (r :: l)
| J_change (w : W) (ok : bool) (l : list (request W)) :
    consistent_before w l ->
    (no_change l -> exists w0, l = [Req w0 (setReadOnlyAPI m) true]) ->
    justified l -> justified (Req w (setChangeMaster m) ok :: l).

(** The log at the head of the waiting loop. *)
Definition waiting (l : list (request W)) : Prop :=
  (exists w0, l = [Req w0 (setReadOnlyAPI m) true]) \/ ~ no_change l.

(** The log of a run that has given the master back or away. *)
Definition settled (l : list (request W)) : Prop :=
  match l with
  | r :: _ => url r = setReadWrite m \/ (url r = setChangeMaster m /\ success r = true)
  | [] => False
  end.

Lemma read_write_no_change : setReadWrite m <> setChangeMaster m.
Proof. unfold setReadWrite, setChangeMaster. intros Heq. by simplify_eq. Qed.
Lemma read_only_no_change : setReadOnlyAPI m <> setChangeMaster m.
Proof. unfold setReadOnlyAPI, setChangeMaster. intros Heq. by simplify_eq. Qed.

Lemma not_no_change (r : request W) (l : list (request W)) : ~ no_change l -> ~ no_change (r :: l).
Proof. unfold no_change. rewrite Forall_cons. tauto. Qed.

(** What every step of the waiting loop guarantees. *)
Definition loop_post (o : flow unit) (s : prun) : Prop :=
  justified (log s) /\
  match o with
  | Val _ => waiting (log s)
  | Exit => settled (log s)
  | Panic => True
  end.

Lemma ask_read_write (s s' : prun) (o : flow bool) :
  justified (log s) -> getMysqlAgent (setReadWrite m) s = (o, s') ->
  justified (log s') /\ settled (log s') /\ (~ no_change (log s) -> ~ no_change (log s')).
Proof.
  intros Hj (ok & Hl & _)%getMysqlAgent_log. rewrite Hl. split_and!.
  - apply J_other; [apply read_write_no_change|done].
  - by left.
  - apply not_no_change.
Qed.

(** One change request after a successful check, with its recovery. *)
Lemma ask_change (s0 s s' : prun) (o : flow unit) :
  checkConsistency cfg m slaves s0 = (Val (true, None), s) ->
  justified (log s) -> waiting (log s) ->
  bind (getMysqlAgent (setChangeMaster m)) (fun r => if r : bool then exit else
    bind (getMysqlAgent (setReadWrite m)) (fun _ => ret tt)) s = (o, s') ->
  loop_post o s'.
Proof.
  intros Hc Hj Hw. unfold bind at 1.
  destruct (getMysqlAgent (setChangeMaster m) s) as [r s1] eqn:E1.
  destruct (getMysqlAgent_log _ _ _ _ E1) as (ok & Hl & Hr).
  assert (justified (log s1)) as Hj1.
  { rewrite Hl. apply J_change; [by exists s0, s| |done]. by destruct Hw. }
  assert (~ no_change (log s1)) as Hn1.
  { rewrite Hl. unfold no_change. rewrite Forall_cons. tauto. }
  destruct Hr as [-> | ->]; [intros; simplify_eq; by split|].
  destruct ok.
  { unfold exit. intros; simplify_eq. split; [done|]. rewrite Hl. by right. }
  unfold bind, ret. destruct (getMysqlAgent (setReadWrite m) s1) as [r2 s2] eqn:E2.
  destruct (ask_read_write _ _ _ Hj1 E2) as (Hj2 & Hs2 & Hn2).
  destruct r2; intros; simplify_eq; (split; [done|]); [right; auto|done..].
Qed.

Lemma wait_loop_post (i : nat) (s s' : prun) (o : flow unit) :
  justified (log s) -> waiting (log s) -> wait_loop i cfg m slaves s = (o, s') -> loop_post o s'.
Proof.
  revert s. induction i as [|i IH]; intros s Hj Hw; cbn [wait_loop].
  { unfold ret. intros ?; simplify_eq. by split. }
  unfold bind at 1. pose proof (silent_checkConsistency cfg m slaves s) as [Hc He].
  destruct (checkConsistency cfg m slaves s) as [[[b [e|]]| |] s1] eqn:Ec; cbn in Hc, He.
  - rewrite <- Hc in *. unfold bind.
    destruct (getMysqlAgent (setReadWrite m) s1) as [r s2] eqn:E2.
    destruct (ask_read_write _ _ _ Hj E2) as (Hj2 & Hs2 & _).
    unfold exit. destruct r; intros; simplify_eq; by split.
  - rewrite <- Hc in *. unfold bind at 1.
    set (body := if b then _ else _).
    destruct (body s1) as [r s2] eqn:Eb.
    assert (loop_post r s2) as [Hj2 Hw2].
    { subst body. destruct b; [by eapply ask_change|]. unfold ret in Eb. simplify_eq. by split. }
    destruct r as [[]| |]; [|intros; by simplify_eq..].
    unfold bind at 1, time_Sleep, on_env. by apply IH.
  - done.
  - intros; simplify_eq. split; [by rewrite Hc|done].
Qed.

(** The whole plan: nothing, a refused write stop, or the loop and its end. *)
Lemma plan_switch_post (s s' : prun) (o : flow unit) :
  log s = [] -> plan_switch cfg m slaves s = (o, s') ->
  justified (log s') /\ (o = Panic \/ settled (log s') \/ forall r, r ∈ log s' -> success r = false).
Proof.
  intros Hl0. unfold plan_switch. unfold bind at 1.
  pose proof (silent_prefixSwitchCheck cfg m slaves s) as [Hl _].
  destruct (prefixSwitchCheck cfg m slaves s) as [[[b e]| |] s1]; cbn in Hl; rewrite Hl0 in Hl.
  2,3: intros; simplify_eq; rewrite Hl; (split; [constructor|]); right; right; by intros ? ?%elem_of_nil.
  destruct b; cbn [fst].
  2: { unfold ret. intros; simplify_eq. rewrite Hl. split; [constructor|].
       right; right; by intros ? ?%elem_of_nil. }
  unfold bind at 1. destruct (getMysqlAgent (setReadOnlyAPI m) s1) as [r s2] eqn:E2.
  destruct (getMysqlAgent_log _ _ _ _ E2) as (ok & Hl2 & Hr). rewrite Hl in Hl2.
  assert (justified (log s2)) as Hj2.
  { rewrite Hl2. apply J_other; [apply read_only_no_change|constructor]. }
  destruct Hr as [-> | ->]; [intros; simplify_eq; auto|].
  destruct ok.
  2: { unfold ret. intros; simplify_eq. split; [done|]. right; right. rewrite Hl2.
       by intros ? ->%list_elem_of_singleton. }
  unfold bind at 1. destruct (wait_loop 10 cfg m slaves s2) as [r3 s3] eqn:E3.
  apply wait_loop_post in E3 as [Hj3 Hp3]; [|done|left; by eexists].
  destruct r3 as [[]| |]; [|intros; simplify_eq; auto..].
  unfold bind, ret. destruct (getMysqlAgent (setReadWrite m) s3) as [r4 s4] eqn:E4.
  destruct (ask_read_write _ _ _ Hj3 E4) as (Hj4 & Hs4 & _).
  destruct r4; intros; simplify_eq; auto.
Qed.

Lemma justified_change (l1 l2 : list (request W)) (w : W) (ok : bool) :
  justified (l1 ++ Req w (setChangeMaster m) ok :: l2) ->
  consistent_before w l2 /\ (no_change l2 -> exists w0, l2 = [Req w0 (setReadOnlyAPI m) true]).
Proof.
  induction l1 as [|r l1 IH]; intros Hj; inversion Hj; subst; auto; done.
Qed.
End Plan.

(** ** What a consistent slave is *)

Lemma getTxnID_i64 (g u : string) (t : Z) : getTxnIDFromGTIDStr g u = inl t -> is_i64 t.
Proof.
  unfold getTxnIDFromGTIDStr. destruct (parseGTIDSet g) as [sets|] eqn:E; [|done].
  destruct (sets !! u) as [us|] eqn:Eu; [|intros; simplify_eq; unfold is_i64, two63; lia].
  destruct (last (Intervals us)) as [i|] eqn:El; intros; simplify_eq; [|unfold is_i64, two63; lia].
  pose proof (parseGTIDSet_i64 _ _ E _ _ Eu) as Hs. unfold stops_i64 in Hs. rewrite Forall_forall in Hs.
  apply Hs. apply last_Some in El as (k & ->). apply elem_of_app. right. by apply list_elem_of_singleton.
Qed.

Lemma i64_sub_zero (a b : Z) : is_i64 a -> is_i64 b -> i64 (a - b) = 0 -> a = b.
Proof.
  unfold is_i64, i64, two63, two64. intros Ha Hb H0.
  pose proof (Z.div_mod (a - b + 9223372036854775808) 18446744073709551616 ltac:(lia)). lia.
Qed.

(** The slave [node] answered that it has applied the master's binary log up to
    [file] and [pos] and, when the master has transactions of its own, its
    last one. *)
Definition caught_up (cfg : Config) (file : string) (pos : Z) (uuid : string) (t : Z) (node : string) : Prop :=
  exists ip port rest sdb s0 s1 info,
    Split ":" node = ip :: port :: rest /\
    CreateDB (MysqlUser (Db cfg)) (MysqlPwd (Db cfg)) ip (port_of port) = (sdb, None) /\
    GetSlaveStatus sdb s0 = (Val (info, None), s1) /\
    Mysql.column info "Relay_Master_Log_File" = file /\
    Mysql.column info "Exec_Master_Log_Pos" = FormatInt pos /\
    (getTxnIDFromGTIDStr (Mysql.column info "Executed_Gtid_Set") uuid = inl t \/ t = 0).

Lemma checkSlave_ok (cfg : Config) (file : string) (pos : Z) (uuid node : string) (t : Z) (s s' : prun) :
  is_i64 t -> checkSlave cfg file (FormatInt pos) uuid t node s = (Val None, s') ->
  caught_up cfg file pos uuid t node.
Proof.
  intros Ht. unfold checkSlave, bind, split_addr, ret, panic.
  destruct (Split ":" node) as [|ip [|port rest]] eqn:Es; [done|done|]. cbn [fst snd].
  destruct (CreateDB _ _ ip _) as [sdb [e|]] eqn:Ec; [done|].
  destruct (GetSlaveStatus sdb s) as [[[info [e|]]| |] s1] eqn:Eg; [done| |done|done].
  destruct (_ && _ && _) eqn:Eb; [|done]. intros _. bool_to_prop.
  exists ip, port, rest, sdb, s, s1, info. split_and!; try done.
  destruct (getTxnIDFromGTIDStr _ uuid) as [z|] eqn:Ez.
  - left. f_equal. symmetry. apply i64_sub_zero; [done|by eapply getTxnID_i64|done].
  - right. apply i64_sub_zero; [done|unfold is_i64, two63; lia|done].
Qed.

Lemma checkSlaves_ok (cfg : Config) (file : string) (pos : Z) (uuid : string) (t : Z)
    (nodes : list string) (s s' : prun) :
  is_i64 t -> checkSlaves cfg file (FormatInt pos) uuid t nodes s = (Val (true, None), s') ->
  Forall (caught_up cfg file pos uuid t) nodes.
Proof.
  intros Ht. revert s. induction nodes as [|node nodes IH]; intros s; cbn [checkSlaves]; [done|].
  unfold bind. destruct (checkSlave _ _ _ _ _ node s) as [[[a|]| |] s1] eqn:Ec; [| |done|done].
  - unfold ret. intros; simplify_eq. exfalso. revert Ec. unfold checkSlave, bind, split_addr, ret, panic.
    repeat (break_match; try done); intros; simplify_eq.
  - intros Hn. apply Forall_cons. split; [by eapply checkSlave_ok|by eapply IH].
Qed.

(** What the tool calls consistent: after the positions of the master were
    read, every slave answered with exactly the master's binary log file and
    position and, unless the master has no transaction of its own, with the
    same last transaction of the master. *)
Theorem checkConsistency_spec (cfg : Config) (ip port : string) (slaves : list string) (s s' : prun) :
  checkConsistency cfg (ip, port) slaves s = (Val (true, None), s') ->
  exists db s1 s2 file pos gtid err uuid t,
    db = (CreateDB (MysqlUser (Db cfg)) (MysqlPwd (Db cfg)) ip (port_of port)).1 /\
    masterStatus db s = (Val ((file, pos, gtid), err), s1) /\
    getServerUUID db s1 = (Val (uuid, None), s2) /\
    getTxnIDFromGTIDStr gtid uuid = inl t /\
    Forall (caught_up cfg file pos uuid t) slaves.
Proof.
  unfold checkConsistency, bind. cbn [fst snd]. set (db := (CreateDB _ _ ip _).1).
  destruct (masterStatus db s) as [[[[[file pos] gtid] err]| |] s1] eqn:Em; [|done|done].
  destruct (getServerUUID db s1) as [[[uuid [e|]]| |] s2] eqn:Eu; [done| |done|done]. cbn [fst snd].
  destruct (getTxnIDFromGTIDStr gtid uuid) as [t|] eqn:Et; [|done]. intros Hc.
  exists db, s1, s2, file, pos, gtid, err, uuid, t. split_and!; try done.
  eapply checkSlaves_ok; [by eapply getTxnID_i64|done].
Qed.

(** C24. The master role moves only when nothing would be lost: every change
    request of a run was sent in a state in which [checkConsistency] had just
    found every slave at the position of the master, and before the first one
    the only request to the agents was the write stop, which succeeded. *)
Theorem switch_changes_when_consistent (cfg : Config) (m : string * string) (slaves : list string)
    (s s' : prun) (o : flow unit) (l1 l2 : list (request W)) (w : W) (ok : bool) :
  log s = [] -> plan_switch cfg m slaves s = (o, s') ->
  log s' = l1 ++ Req w (setChangeMaster m) ok :: l2 ->
  (exists s0 s1, checkConsistency cfg m slaves s0 = (Val (true, None), s1) /\
     env s1 = w /\ log s1 = l2) /\
  (Forall (fun r => url r <> setChangeMaster m) l2 ->
     exists w0, l2 = [Req w0 (setReadOnlyAPI m) true]).
Proof.
  intros Hl Hp He. destruct (plan_switch_post _ _ _ _ _ _ Hl Hp) as [Hj _].
  rewrite He in Hj. apply (justified_change _ _ _ _ _ _ _ Hj).
Qed.

(** C25. The tool does not leave the master silently read-only: a run that ends
    without a panic and whose write stop succeeded ends with a successful
    change of master or with a request to accept writes again. *)
Theorem switch_gives_writes_back (cfg : Config) (m : string * string) (slaves : list string)
    (s s' : prun) (o : flow unit) (w : W) :
  log s = [] -> plan_switch cfg m slaves s = (o, s') -> o <> Panic ->
  Req w (setReadOnlyAPI m) true ∈ log s' ->
  exists r l, log s' = r :: l /\
    (url r = setReadWrite m \/ (url r = setChangeMaster m /\ success r = true)).
Proof.
  intros Hl Hp Ho Hin. destruct (plan_switch_post _ _ _ _ _ _ Hl Hp) as [_ [-> | [Hs|Hf]]]; [done| |].
  - unfold settled in Hs. destruct (log s') as [|r l]; [done|]. eauto.
  - by specialize (Hf _ Hin).
Qed.
End Switch.

(** ** A concrete cluster: one master, one slave that has caught up, and agents
    that answer from a script *)
Module Toy.

Definition master_uuid : string := "53ea0ed1-9bf8-11e6-8bea-64006a897c73".

Definition answer (stmt : string) : result Rows :=
  if String.eqb stmt "SHOW SLAVE STATUS " then
    inl (mkRows ["Slave_IO_Running"; "Slave_SQL_Running"; "Relay_Master_Log_File";
                 "Exec_Master_Log_Pos"; "Executed_Gtid_Set"]
                [[Some "Yes"; Some "Yes"; Some "mysql-bin.000007"; Some "194";
                  Some (master_uuid +:+ ":1-41")]] None)
  else if String.eqb stmt "show master status" then
    inl (mkRows ["File"; "Position"; "Binlog_Do_DB"; "Binlog_Ignore_DB"; "Executed_Gtid_Set"]
                [[Some "mysql-bin.000007"; Some "194"; Some ""; Some "";
                  Some (master_uuid +:+ ":1-41")]] None)
  else if String.eqb stmt "SELECT @@server_uuid;" then
    inl (mkRows ["@@server_uuid"] [[Some master_uuid]] None)
  else inl (mkRows ["Variable_name"; "Value"] [[Some "Threads_running"; Some "2"]] None).

Definition keys : gmap string KeyValue :=
  list_to_map [("/dbproxy/orders/master", mkKV "10.0.0.1:3306" 1 1 1 0);
               ("/dbproxy/orders/slave/10.0.0.1:3306", mkKV "{}" 2 2 1 0);
               ("/dbproxy/orders/slave/10.0.0.2:3306", mkKV "{}" 3 3 1 0)].

(** The state is the rest of the agents' script. *)
#[local] Instance toy_env : ToolEnv (list (Z * string)) := {|
  sql_Open _ := None;
  sql_Query _ stmt w := (answer stmt, w);
  sql_Exec _ _ w := (None, w);
  http_get _ w := match w with [] => (inr ErrBadConn, []) | a :: w' => (inl a, w') end;
  etcd_New _ _ _ _ := None;
  etcd_read w := (inl keys, w);
  shell _ w := (inl "", w);
  os_Stat _ _ := None;
  os_Remove _ w := w;
  os_Create _ w := (None, w);
  read_lines _ w := (inl [], w);
  write_string _ _ w := (None, w);
  copy_file _ _ w := (true, w);
  sleep _ w := w
|}.

Definition cfg : Config := mkConfig "10.0.0.9:2379" "/dbproxy/" "" "" "orders" (mkDBConfig "root" "").
Definition master : string * string := ("10.0.0.1", "3306").
Definition slave : string := "10.0.0.2:3306".

Definition ok_script : list (Z * string) :=
  [(200, "set readonly success"); (200, "change master success")].
Definition start (w : list (Z * string)) : Tool.run (list (Z * string)) (request (list (Z * string))) :=
  mkRun w [].

(** The whole tool on the concrete cluster: the master's own registration is
    left out of the slaves, and the run ends with the change of master. *)
Example switch_main_runs :
  switch_main cfg (start ok_script) =
  (Exit, mkRun [] [Req [(200, "change master success")] (setChangeMaster master) true;
                   Req ok_script (setReadOnlyAPI master) true]).
Proof. vm_compute. reflexivity. Qed.

Lemma switch_changes_witness :
  exists s0 s1, checkConsistency cfg master [slave] s0 = (Val (true, None), s1) /\
    env s1 = [(200, "change master success")].
Proof.
  destruct (switch_changes_when_consistent cfg master [slave] (start ok_script)
              (plan_switch cfg master [slave] (start ok_script)).2 Exit []
              [Req ok_script (setReadOnlyAPI master) true]
              [(200, "change master success")] true) as [(s0 & s1 & H1 & H2 & _) _];
    [reflexivity|vm_compute; reflexivity|vm_compute; reflexivity|].
  exists s0, s1. split; [exact H1|exact H2].
Defined.

Definition refused_script : list (Z * string) :=
  [(200, "set readonly success"); (500, "no"); (200, "set readwrite success");
   (200, "change master success")].

Lemma switch_gives_writes_back_witness :
  exists r l, log (plan_switch cfg master [slave] (start ok_script)).2 = r :: l /\
    (url r = setReadWrite master \/ (url r = setChangeMaster master /\ success r = true)).
Proof.
  apply (switch_gives_writes_back cfg master [slave] (start ok_script) _ Exit ok_script);
    [reflexivity|vm_compute; reflexivity|discriminate|].
  vm_compute. right. left.
Defined.

Lemma checkConsistency_spec_witness :
  exists file pos uuid t, Forall (caught_up cfg file pos uuid t) [slave].
Proof.
  destruct (checkConsistency_spec cfg "10.0.0.1" "3306" [slave] (start []) (start []))
    as (db & s1 & s2 & file & pos & gtid & err & uuid & t & _ & _ & _ & _ & H);
    [vm_compute; reflexivity|].
  exists file, pos, uuid, t. exact H.
Defined.

(** A failed change request gives the writes back and the loop goes on: on
    this script the second change request is sent, and accepted, while the
    master accepts writes again. *)
Theorem switch_retries_while_writable :
  url <$> log (plan_switch cfg master [slave] (start refused_script)).2 =
  [setChangeMaster master; setReadWrite master; setChangeMaster master; setReadOnlyAPI master] /\
  success <$> log (plan_switch cfg master [slave] (start refused_script)).2 = [true; true; false; true].
Proof. vm_compute. split; reflexivity. Qed.

End Toy.
End Switch.
