(* ===== verification/Recovery.v ===== *)
(** * The recovery of a former master: [moctl/recovery.go]

    After a failover the former master may have transactions that the new
    master never got.  The tool finds, in etcd, where the new master took
    over, lists the binary logs of the former master from there on, copies
    them, undoes them with the [flashback] program and writes the
    configuration with which they are replayed on the new master.

    What an observer sees of a run are the shell commands, the file copies and
    the statements sent to the former master, newest first. *)

From stdpp Require Import numbers gmap strings list.
From Stdlib Require Import ZArith Lia Ascii.
From S2P Require Import Prelude GoStrings Decimals Gtid Json Etcd World ServiceManager Tool.
Import Mvcc Tool.
Open Scope step_scope.

Module Recovery.

Definition recoveryComposeFile : string := "/etc/recoverycomposefile.yml".

(** [DBConfig] and [Config]: the fields the tool reads. *)
Record DBConfig := mkDBConfig {
  MysqlHost : string;
  MysqlUser : string;
  MysqlPwd : string;
  MysqlPort : Z
}.

Record Config := mkConfig {
  EtcdURLs : string;
  EtcdRootPath : string;
  EtcdUsername : string;
  EtcdPassword : string;
  EtcdCluster : string;
  EtcdHostPort : string;
  Db : DBConfig
}.

(** [MysqlCurrentStat], what the new master left in etcd. *)
Record MysqlCurrentStat := mkStat {
  BinlogFile : string;
  BinlogPos : string;
  BinlogGtid : string;
  stat_UUID : string
}.

Definition zero_Stat : MysqlCurrentStat := mkStat "" "" "" "".

Definition Stat_fields : list (field (S := MysqlCurrentStat)) :=
  [("File", dec_string (fun v s => mkStat v (BinlogPos s) (BinlogGtid s) (stat_UUID s)));
   ("Pos", dec_string (fun v s => mkStat (BinlogFile s) v (BinlogGtid s) (stat_UUID s)));
   ("GTID", dec_string (fun v s => mkStat (BinlogFile s) (BinlogPos s) v (stat_UUID s)));
   ("UUID", dec_string (fun v s => mkStat (BinlogFile s) (BinlogPos s) (BinlogGtid s) v))].

(** The map [mp] of [main]. *)
Record SwitchInfo := mkInfo {
  MohaSwitchFile : string;
  MohaSwitchPost : string;
  MohaSwitchGtid : string;
  MohaNewMasterIp : string;
  MohaNewMasterPort : string
}.

(** The padder configuration the tool writes. *)
Record PadderConfig := mkPadder {
  BinLogList : list string;
  EnableDelete : bool;
  Target_Host : string;
  Target_Location : string;
  Target_Username : string;
  Target_Password : string;
  Target_Port : Z;
  Target_Schema : string;
  BinLogFileName : string;
  BinLogFilePos : Z
}.

Inductive event :=
| Shell (command : string)
| Copy (source dest : string) (ok : bool)
| Statement (stmt : string)
| WritePadder (cfg : PadderConfig).

(** ** Strings *)

(** [strings.Replace(s, old, new, 1)] *)
Fixpoint Replace1 (s old new : string) : string :=
  if String.prefix old s then new +:+ drop_string (String.length old) s
  else match s with
       | "" => ""
       | String a s' => String a (Replace1 s' old new)
       end.


Definition newline : ascii := "010".

Section Recovery.
Context {W : Type} `{ToolEnv W}.

Abbreviation prog := (step W event).

(** [linuxSystemCommand]; the output is "null" when the command failed. *)
Definition linuxSystemCommand (systemcommand : string) : prog (string * option error) :=
  _ <- observe (Shell systemcommand);
  r <- on_env (shell systemcommand);
  ret (match r with inl out => (out, None) | inr e => ("null", Some e) end).

(** ** The switch point in etcd *)

(** [InitEtcdClient] and a read with it: every failure ends the tool. *)
Definition read_keys (cfg : Config) : prog (gmap string KeyValue) :=
  r <- on_env etcd_read;
  match r with inl m => ret m | inr _ => exit end.

(** [GetEtcdSwitchInfo].  The term of the group is read before the length of
    the answer is tested, and the errors of [strconv.Atoi] and
    [json.Unmarshal] are dropped. *)
Definition GetEtcdSwitchInfo (cfg : Config) : prog (SwitchInfo + error) :=
  bad <- on_env (fun w => (etcd_New (EtcdURLs cfg) (EtcdUsername cfg) (EtcdPassword cfg) w, w));
  match bad with
  | Some _ => exit
  | None =>
      let root := EtcdRootPath cfg +:+ EtcdCluster cfg in
      m1 <- read_keys cfg;
      current <- of_option (m1 !! (root +:+ "/election/master/term"));
      m2 <- read_keys cfg;
      match m2 !! (root +:+ "/election/terms/" +:+ EtcdHostPort cfg) with
      | None => exit
      | Some kv =>
          let strRecoveryTerm := Value kv in
          if negb (port_of strRecoveryTerm =? i64 (port_of (Value current) - 1)) then exit
          else
            m3 <- read_keys cfg;
            match last (range_prefix (root +:+ "/switch/" +:+ strRecoveryTerm) m3) with
            | None => exit
            | Some (key, v) =>
                let stat := Unmarshal_lenient Stat_fields zero_Stat (Value v) in
                let ipPort := default "" (last (Split "/" key)) in
                if String.eqb ipPort "" then ret (inr (Errorf "MohaSwitchIPPort is null"))
                else
                  addr <- split_addr ipPort;
                  ret (inl (mkInfo (BinlogFile stat) (BinlogPos stat) (BinlogGtid stat) addr.1 addr.2))
            end
      end
  end.

(** ** The compose file *)

(** What [CreateRecoveryDockerConf] writes for a line; the line that names the
    entry point gets its line end from the replacement. *)
Definition recovery_line (mysqlport a : string) : option string :=
  if Contains a "entrypoint" then
    Some (Replace1 a "/agent/supervise"
            ("mysqld --defaults-file=/etc/my_" +:+ mysqlport +:+ ".cnf" +:+ String newline ""))
  else if Contains a "agentlog" then None
  else if Contains a "container_name" then Some (a +:+ "_recovery" +:+ String newline "")
  else Some (a +:+ String newline "").

Fixpoint write_lines (mysqlport : string) (lines : list string) : prog (option error) :=
  match lines with
  | [] => ret None
  | a :: rest =>
      match recovery_line mysqlport a with
      | None => write_lines mysqlport rest
      | Some text =>
          e <- on_env (write_string recoveryComposeFile text);
          match e with
          | Some _ => ret (Some (Errorf "write New recovery file fail"))
          | None => write_lines mysqlport rest
          end
      end
  end.

Definition CreateRecoveryDockerConf (sourceComposeFile mysqlport : string) : prog (option error) :=
  found <- on_env (fun w => (os_Stat recoveryComposeFile w, w));
  _ <- on_env (fun w => (tt, match found with None => os_Remove recoveryComposeFile w | Some _ => w end));
  e <- on_env (os_Create recoveryComposeFile);
  match e with
  | Some _ => ret (Some (Errorf "create recoveryComposeFile file fail"))
  | None =>
      found2 <- on_env (fun w => (os_Stat sourceComposeFile w, w));
      match found2 with
      | Some _ => ret (Some (Errorf "sourceComposeFile  not Existed"))
      | None =>
          lines <- on_env (read_lines sourceComposeFile);
          match lines with
          | inr _ => ret (Some (Errorf "sourceComposeFile  Open fail"))
          | inl ls => write_lines mysqlport ls
          end
      end
  end.

(** ** Databases *)

(** [CreateDB] and [createNewMasterDB]; [None] is the nil handle. *)
Definition createNewMasterDB (user passwd host : string) (port : Z) : option string :=
  let dsn := user +:+ ":" +:+ passwd +:+ "@tcp(" +:+ host +:+ ":" +:+ FormatInt port
             +:+ ")/?charset=utf8&interpolateParams=true" in
  match sql_Open dsn with Some _ => None | None => Some dsn end.

Definition CreateDB (cfg : DBConfig) : option string :=
  createNewMasterDB (MysqlUser cfg) (MysqlPwd cfg) (MysqlHost cfg) (MysqlPort cfg).

(** [dbSet] *)
Definition dbSet (db : option string) (setString : string) : prog (option error) :=
  _ <- observe (Statement setString); exec db setString.

(** [getServerDataDir]: an error at the end of the rows is lost. *)
Definition getServerDataDir (db : option string) : prog (result string) :=
  r <- query db "SELECT @@datadir;";
  ret (match r with
       | inr e => inr e
       | inl rows =>
           match Mysql.scan_uuid_rows (Data rows) "" with
           | inr e => inr e
           | inl d => match RowsErr rows with Some _ => inl "" | None => inl d end
           end
       end).

(** [GetMasterStatus], a copy of the one of [pkg/mysql]. *)
Definition GetMasterStatus (db : option string) : prog (result Mysql.BinlogPos) :=
  r <- query db "SHOW MASTER STATUS";
  ret (match r with
       | inr e => inr e
       | inl rows =>
           match Mysql.scan_master_rows (length (Columns rows)) (Data rows) "" (Mysql.mkBinlogPos "" 0) None with
           | inr e => inr e
           | inl (pos, _) => match RowsErr rows with Some e => inr e | None => inl pos end
           end
       end).

(** ** The list of binary logs *)

(** The name the loop of [getBinlogList] builds for number [i]; a number of
    more than six digits gets none. *)
Definition binlog_name (binlogPreName : string) (i : Z) : option string :=
  let iStr := FormatInt i in
  match String.length iStr with
  | 1%nat => Some (binlogPreName +:+ ".00000" +:+ iStr)
  | 2%nat => Some (binlogPreName +:+ ".0000" +:+ iStr)
  | 3%nat => Some (binlogPreName +:+ ".000" +:+ iStr)
  | 4%nat => Some (binlogPreName +:+ ".00" +:+ iStr)
  | 5%nat => Some (binlogPreName +:+ ".0" +:+ iStr)
  | 6%nat => Some (binlogPreName +:+ "." +:+ iStr)
  | _ => None
  end.

(** The loop [for i := start; i <= stop; i++], for [stop] below the largest
    [int64]. *)
Definition binlog_names (binlogPreName : string) (start stop : Z) : list string :=
  omap (binlog_name binlogPreName) (seqZ start (stop - start + 1)).

(** At most [n] more attempts to read the position of the former master, which
    may still be starting. *)
Fixpoint await_master (n : nat) (db : option string) : prog (result Mysql.BinlogPos) :=
  r <- GetMasterStatus db;
  match r with
  | inl pos => ret (inl pos)
  | inr e =>
      _ <- time_Sleep (1 * Second);
      match n with
      | O => ret (inr e)
      | S n' => await_master n' db
      end
  end.

Definition getBinlogList (cfg : Config) (strBinlogFile : string) : prog (result (list string)) :=
  match Split "." strBinlogFile with
  | binlogPreName :: binlogStrStr :: _ =>
      match ParseInt binlogStrStr with
      | inr e => ret (inr e)
      | inl binlogStrNum =>
          r <- await_master 10 (CreateDB (Db cfg));
          match r with
          | inr e => ret (inr e)
          | inl pos =>
              match Split "." (Mysql.Name pos) with
              | _ :: ext :: _ =>
                  match ParseInt (default "" (head (Split dquote ext))) with
                  | inr e => ret (inr e)
                  | inl binlogStpNum => ret (inl (binlog_names binlogPreName binlogStrNum binlogStpNum))
                  end
              | _ => panic
              end
          end
      end
  | _ => panic
  end.

(** ** The plan *)

(** [copyFile]: [false] also for an empty name. *)
Definition copyFile (source dest : string) : prog bool :=
  ok <- (if String.eqb source "" || String.eqb dest "" then ret false else on_env (copy_file source dest));
  _ <- observe (Copy source dest ok);
  ret ok.

(** The copies; the first that fails ends the tool. *)
Fixpoint backup (mysqlDataDir dir : string) (logs : list string) : prog unit :=
  match logs with
  | [] => ret tt
  | i :: rest =>
      ok <- copyFile (mysqlDataDir +:+ i) (dir +:+ i);
      if (ok : bool) then backup mysqlDataDir dir rest else exit
  end.

(** The flashback of each log, [first] for the one where the new master took
    over.  The name under which the output of the others is looked for is
    spelled differently. *)
Definition flashback_cmd (mysqlDataDir dir post : string) (first : bool) (i : string) : string :=
  if first then
    "flashback --binlogFileNames=" +:+ (mysqlDataDir +:+ i) +:+ " --start-position=" +:+ post +:+
    " --outBinlogFileNameBase=" +:+ (dir +:+ i)
  else
    "flashback --binlogFileNames=" +:+ (mysqlDataDir +:+ i) +:+ " --outBinlogFileNameBase=" +:+ (dir +:+ i).

Definition flashback_output (dir : string) (first : bool) (i : string) : string :=
  dir +:+ i +:+ (if first then ".flashback" else ".falshback").

Fixpoint flashbacks (mysqlDataDir dir post : string) (first : bool) (logs : list string) : prog unit :=
  match logs with
  | [] => ret tt
  | i :: rest =>
      _ <- linuxSystemCommand (flashback_cmd mysqlDataDir dir post first i);
      flashbacks mysqlDataDir dir post false rest
  end.

Definition outputs (dir : string) (logs : list string) : list string :=
  match logs with
  | [] => []
  | i :: rest => flashback_output dir true i :: (flashback_output dir false <$> rest)
  end.

Definition replay_cmd (cfg : Config) (instanceport i : string) : string :=
  "mysqlbinlog --skip-gtids " +:+ i +:+ " | mysql -u " +:+ MysqlUser (Db cfg) +:+ " -p" +:+
  MysqlPwd (Db cfg) +:+ " -h" +:+ MysqlHost (Db cfg) +:+ " -P" +:+ instanceport.

Fixpoint replays (cfg : Config) (instanceport : string) (files : list string) : prog unit :=
  match files with
  | [] => ret tt
  | i :: rest =>
      _ <- linuxSystemCommand (replay_cmd cfg instanceport i);
      replays cfg instanceport rest
  end.

Definition padder_config (cfg : Config) (dir : string) (mp : SwitchInfo) (logs : list string) : PadderConfig :=
  mkPadder ((fun i => dir +:+ i) <$> logs) true
    (MohaNewMasterIp mp) "Asia/Shanghai" (MysqlUser (Db cfg)) (MysqlPwd (Db cfg))
    (port_of (MohaNewMasterPort mp)) "test"
    (MohaSwitchFile mp) (port_of (MohaSwitchPost mp) mod 4294967296).

(** [main] after the flags and the configuration file are read, up to the list
    of the binary logs: what the new master left, the directory of the logs and
    the logs. *)
Definition recovery_prepare (cfg : Config) (instanceport : string) : prog (SwitchInfo * string * list string) :=
  match Atoi instanceport with
  | inr _ => exit
  | inl intMysqlPort =>
      productDocker <- linuxSystemCommand ("docker ps | grep " +:+ EtcdCluster cfg +:+ "|wc -l");
      if String.eqb (remove_byte newline productDocker.1) "1" then exit
      else
        info <- GetEtcdSwitchInfo cfg;
        match info with
        | inr _ => exit
        | inl mp =>
            dir <- getServerDataDir (createNewMasterDB (MysqlUser (Db cfg)) (MysqlPwd (Db cfg))
                                       (MohaNewMasterIp mp) intMysqlPort);
            match dir with
            | inr _ => exit
            | inl mysqlDataDir =>
                _ <- CreateRecoveryDockerConf ("/etc/" +:+ instanceport +:+ "_docker-compose.yml") instanceport;
                _ <- linuxSystemCommand ("docker-compose -f " +:+ recoveryComposeFile +:+ " up -d");
                logs <- getBinlogList cfg (MohaSwitchFile mp);
                match logs with
                | inr _ => exit
                | inl binlogRecoverSlice => ret (mp, mysqlDataDir, binlogRecoverSlice)
                end
            end
        end
  end.

(** The rest of [main] after the copies: the logs are undone on the former
    master, which is then given the position of the new master. *)
Definition recovery_undo (cfg : Config) (instanceport binlogbackupdir : string) (mp : SwitchInfo)
    (mysqlDataDir : string) (binlogRecoverSlice : list string) : prog unit :=
  _ <- flashbacks mysqlDataDir binlogbackupdir (MohaSwitchPost mp) true binlogRecoverSlice;
  _ <- replays cfg instanceport (outputs binlogbackupdir binlogRecoverSlice);
  _ <- dbSet (CreateDB (Db cfg)) "reset master";
  _ <- dbSet (CreateDB (Db cfg))
         ("SET @@GLOBAL.GTID_PURGED=" +:+ String dquote (MohaSwitchGtid mp +:+ String dquote ""));
  e <- on_env (os_Create "padder.toml");
  match e with
  | Some _ => panic
  | None => observe (WritePadder (padder_config cfg binlogbackupdir mp binlogRecoverSlice))
  end.

Definition recovery_main (cfg : Config) (instanceport binlogbackupdir : string) : prog unit :=
  r <- recovery_prepare cfg instanceport;
  let '(mp, mysqlDataDir, binlogRecoverSlice) := r in
  _ <- linuxSystemCommand ("mkdir -p " +:+ binlogbackupdir);
  _ <- backup mysqlDataDir binlogbackupdir binlogRecoverSlice;
  recovery_undo cfg instanceport binlogbackupdir mp mysqlDataDir binlogRecoverSlice.

End Recovery.

(** ** The names of the binary logs *)

(** The name MySQL gives the binary log number [i]: six digits at least. *)
Definition mysql_binlog_name (pre : string) (i : Z) : string :=
  pre +:+ "." +:+ zeros (6 - String.length (FormatUint i)) +:+ FormatUint i.

Lemma binlog_name_spec (pre : string) (i : Z) :
  0 <= i -> binlog_name pre i = if i <? 1000000 then Some (mysql_binlog_name pre i) else None.
Proof.
  intros Hi. unfold binlog_name, mysql_binlog_name.
  assert (FormatInt i = FormatUint i) as -> by (unfold FormatInt; by destruct (Z.ltb_spec i 0); [lia|]).
  pose proof (FormatUint_length i 6 Hi ltac:(lia)) as Hlen. change (10 ^ Z.of_nat 6) with 1000000 in Hlen.
  pose proof (FormatUint_not_empty i).
  destruct (Z.ltb_spec i 1000000) as [Hlt|Hge].
  - apply Hlen in Hlt.
    assert (0 < String.length (FormatUint i))%nat as H0 by (destruct (FormatUint i); [done|cbn; lia]).
    clear Hlen. remember (String.length (FormatUint i)) as n eqn:En. clear En.
    do 7 (destruct n as [|n]; [done || lia|]). lia.
  - assert (6 < String.length (FormatUint i))%nat as H6 by (apply Nat.nle_gt; rewrite Hlen; lia).
    clear Hlen. remember (String.length (FormatUint i)) as n eqn:En. clear En.
    do 7 (destruct n as [|n]; [lia|]). done.
Qed.

(** The loop that pads each length by hand builds the names of MySQL, in order,
    and leaves out the numbers of seven digits and more. *)
Lemma binlog_names_spec (pre : string) (start stop : Z) :
  0 <= start ->
  binlog_names pre start stop = mysql_binlog_name pre <$> seqZ start (Z.min stop 999999 - start + 1).
Proof.
  intros Hs. unfold binlog_names.
  remember (Z.to_nat (stop - start + 1)) as n eqn:En. revert start Hs En.
  induction n as [|n IH]; intros start Hs En.
  { rewrite !seqZ_nil by lia. done. }
  rewrite (seqZ_cons start (stop - start + 1)) by lia. cbn [omap list_omap].
  rewrite binlog_name_spec by done.
  replace (Z.pred (stop - start + 1)) with (stop - Z.succ start + 1) by lia.
  rewrite (IH (Z.succ start)) by lia.
  destruct (Z.ltb_spec start 1000000).
  - rewrite (seqZ_cons start (Z.min stop 999999 - start + 1)) by lia. cbn. f_equal. f_equal. f_equal. lia.
  - rewrite !seqZ_nil by lia. done.
Qed.

(** The number in a name of MySQL's, whatever follows it. *)
Lemma ParseInt_binlog (i : Z) :
  0 <= i < two63 -> ParseInt (zeros (6 - String.length (FormatUint i)) +:+ FormatUint i) = inl i.
Proof.
  intros Hi. rewrite ParseInt_unsigned.
  - rewrite parse_digits_padded by lia. destruct (Z.ltb_spec i two63); [done|lia].
  - pose proof (FormatUint_not_empty i). by destruct (zeros _).
  - by rewrite all_digits_app, zeros_digits, FormatUint_digits.
Qed.

Section BinlogList.
Context {W : Type} `{ToolEnv W}.

(** The number of a binary log, as the tool reads it from the name. *)
Definition binlog_number (name : string) : option Z :=
  match Split "." name with
  | _ :: ext :: _ =>
      match ParseInt (default "" (head (Split dquote ext))) with inl z => Some z | inr _ => None end
  | _ => None
  end.

(** C29. The list of binary logs to recover: from the log where the new master
    took over, named by MySQL, to the current log of the former master, the
    list is exactly the names MySQL gave them, in order; the hand-written
    padding agrees with MySQL's for numbers of up to six digits, and names with
    more digits are left out without an error. *)
Theorem getBinlogList_spec (cfg : Config) (pre : string) (i : Z) (s s' : run W event) (l : list string) :
  free_of "." pre = true -> 0 <= i < two63 ->
  getBinlogList cfg (mysql_binlog_name pre i) s = (Val (inl l), s') ->
  exists pos stop, await_master 10 (CreateDB (Db cfg)) s = (Val (inl pos), s') /\
    binlog_number (Mysql.Name pos) = Some stop /\
    l = mysql_binlog_name pre <$> seqZ i (Z.min stop 999999 - i + 1).
Proof.
  intros Hpre Hi. unfold getBinlogList, mysql_binlog_name at 1, binlog_number.
  cbn [String.append]. rewrite Split_app, Split_free, (Split_free "."); [|
    apply all_digits_free; [done|by rewrite all_digits_app, zeros_digits, FormatUint_digits]|done].
  cbn [app]. rewrite ParseInt_binlog by done. unfold bind at 1.
  destruct (await_master 10 (CreateDB (Db cfg)) s) as [[[pos|e]| |] s1] eqn:Ea; try done.
  destruct (Split "." (Mysql.Name pos)) as [|? [|ext rest]] eqn:Es; try done.
  destruct (ParseInt _) as [stop|] eqn:Ep; [|done]. unfold ret. intros [= <- <-].
  exists pos, stop. rewrite Es, Ep. split_and!; [done|done|]. apply binlog_names_spec. lia.
Qed.
End BinlogList.

(** ** Order of the plan *)
Section Plan.
Context {W : Type} `{ToolEnv W}.

(** The events that change the former master: the undoing of its binary logs
    and the statements sent to it. *)
Definition destructive (e : event) : Prop :=
  match e with
  | Shell c => HasPrefix c "flashback" = true \/ HasPrefix c "mysqlbinlog" = true
  | Statement _ => True
  | _ => False
  end.

Abbreviation harmless := (fun e => ~ destructive e).

Lemma emits_shell (P : event -> Prop) (c : string) :
  P (Shell c) -> emits P (linuxSystemCommand (W := W) c).
Proof. intros Hc. unfold linuxSystemCommand. emit. Qed.

Lemma emits_copy (P : event -> Prop) (a b : string) :
  (forall ok, P (Copy a b ok)) -> emits P (copyFile (W := W) a b).
Proof. intros Hc. unfold copyFile. emit. Qed.
#[local] Hint Resolve emits_shell emits_copy : silent.

Lemma emits_switch_info (P : event -> Prop) (cfg : Config) : emits P (GetEtcdSwitchInfo (W := W) cfg).
Proof. unfold GetEtcdSwitchInfo, read_keys. emit. Qed.

Lemma emits_compose (P : event -> Prop) (src port : string) :
  emits P (CreateRecoveryDockerConf (W := W) src port).
Proof.
  assert (forall ls, emits P (write_lines (W := W) port ls)) as Hw.
  { induction ls as [|a ls IH]; cbn [write_lines]; emit. }
  unfold CreateRecoveryDockerConf. emit.
Qed.

Lemma emits_list (P : event -> Prop) (cfg : Config) (f : string) : emits P (getBinlogList (W := W) cfg f).
Proof.
  assert (forall n db, emits P (await_master (W := W) n db)) as Ha.
  { intros n db. unfold time_Sleep. induction n as [|n IH]; cbn [await_master]; unfold GetMasterStatus, time_Sleep; emit. }
  unfold getBinlogList. emit.
Qed.

Lemma emits_backup (P : event -> Prop) (d b : string) (logs : list string) :
  (forall x y ok, P (Copy x y ok)) -> emits P (backup (W := W) d b logs).
Proof. intros Hc. induction logs as [|i logs IH]; cbn [backup]; emit. Qed.

Lemma emits_data_dir (P : event -> Prop) (db : option string) : emits P (getServerDataDir (W := W) db).
Proof. unfold getServerDataDir. emit. Qed.
#[local] Hint Resolve emits_switch_info emits_compose emits_list emits_backup emits_data_dir : silent.

(** A backup that ends has copied every log. *)
Lemma backup_done (d b : string) (logs : list string) (s s' : run W event) :
  backup d b logs s = (Val tt, s') ->
  Forall (fun i => Copy (d +:+ i) (b +:+ i) true ∈ log s') logs.
Proof.
  revert s. induction logs as [|i logs IH]; intros s; cbn [backup]; [done|].
  unfold bind at 1. destruct (copyFile (d +:+ i) (b +:+ i) s) as [[ok| |] s1] eqn:Ec; [|done|done].
  destruct ok; [|done]. intros Hb. apply Forall_cons. split; [|by eapply IH].
  destruct (emits_backup (fun _ => True) d b logs ltac:(done) s1) as (new & El & _).
  rewrite Hb in El. cbn in El. rewrite El. apply elem_of_app. right.
  revert Ec. unfold copyFile, bind, observe, ret.
  destruct (String.eqb _ "" || String.eqb _ ""); [done|]. unfold on_env.
  destruct (copy_file _ _ _) as [ok w]. intros [= -> <-]. left.
Qed.

Lemma emits_undo (cfg : Config) (port b d : string) (mp : SwitchInfo) (logs : list string) :
  emits (fun _ => True) (recovery_undo (W := W) cfg port b mp d logs).
Proof.
  assert (forall first l, emits (fun _ => True) (flashbacks (W := W) d b (MohaSwitchPost mp) first l)) as Hf.
  { intros first l. revert first. induction l as [|i l IH]; intros first; cbn [flashbacks]; emit. }
  assert (forall l, emits (fun _ => True) (replays (W := W) cfg port l)) as Hr.
  { induction l as [|i l IH]; cbn [replays]; emit. }
  unfold recovery_undo, dbSet. emit.
Qed.

Lemma harmless_docker (c : string) : harmless (Shell ("docker" +:+ c)).
Proof. cbn. by intros [?|?]. Qed.

Lemma emits_prepare (cfg : Config) (port : string) : emits harmless (recovery_prepare (W := W) cfg port).
Proof.
  assert (forall c, emits harmless (linuxSystemCommand (W := W) ("docker" +:+ c))) as Hd
    by (intros c; apply emits_shell, harmless_docker).
  unfold recovery_prepare. destruct (Atoi port) as [n|]; [|emit].
  pose proof (Hd (" ps | grep " +:+ EtcdCluster cfg +:+ "|wc -l")) as Hps.
  pose proof (Hd ("-compose -f " +:+ recoveryComposeFile +:+ " up -d")) as Hup.
  cbn [String.append] in Hps, Hup |- *. emit.
Qed.

(** C27. Backup before undo: whenever a run of the tool changes the former master,
    by undoing a binary log, by replaying it or by a statement, the preparation
    has returned a list of binary logs, and every log of that list has been
    copied with success before. *)
Theorem undo_after_backup (cfg : Config) (port dir : string) (s : run W event) (l1 l2 : list event) (e : event) :
  log s = [] -> log (recovery_main cfg port dir s).2 = l1 ++ e :: l2 -> destructive e ->
  exists mp d logs s1, recovery_prepare cfg port s = (Val (mp, d, logs), s1) /\
    Forall (fun i => Copy (d +:+ i) (dir +:+ i) true ∈ l2) logs.
Proof.
  intros Hl Hlog He. pose proof emits_undo as Hu. pose proof (emits_backup (fun _ => True)) as Hb.
  assert (forall c, emits (fun _ => True) (linuxSystemCommand (W := W) c)) as Hc by (intros; by apply emits_shell).
  eapply (after_quiet destructive) in Hlog as ([[mp d] logs] & s1 & Hp & H1 & Hlog & _);
    [|apply emits_prepare|intros [[??]?]; emit|by rewrite Hl|done].
  exists mp, d, logs, s1. split; [done|].
  eapply (after_quiet destructive) in Hlog as (? & s2 & _ & H2 & Hlog & _);
    [|apply emits_shell; by intros [?|?]|emit|done..].
  eapply (after_quiet destructive) in Hlog as ([] & s3 & Hbk & _ & _ & l & ->); [|apply emits_backup; auto|emit|done..].
  eapply Forall_impl; [by eapply backup_done|]. intros i Hi. apply elem_of_app. by right.
Qed.
End Plan.

(** ** A concrete failover: the group is in term 4, this node was master in
    term 3, and [10.0.0.2] took over at position 194 of log 6 *)
Module Toy.

Definition answer (stmt : string) : result Rows :=
  if String.eqb stmt "SHOW MASTER STATUS" then
    inl (mkRows ["File"; "Position"; "Binlog_Do_DB"; "Binlog_Ignore_DB"; "Executed_Gtid_Set"]
                [[Some "mysql-bin.000007"; Some "500"; Some ""; Some "";
                  Some "53ea0ed1-9bf8-11e6-8bea-64006a897c73:1-41"]] None)
  else inl (mkRows ["@@datadir"] [[Some "/data/"]] None).

(** The state is the keys in etcd. *)
#[export] Instance toy_env : ToolEnv (gmap string KeyValue) := {|
  sql_Open _ := None;
  sql_Query _ stmt w := (answer stmt, w);
  sql_Exec _ _ w := (None, w);
  http_get _ w := (inr ErrBadConn, w);
  etcd_New _ _ _ _ := None;
  etcd_read w := (inl w, w);
  shell _ w := (inl (String newline ""), w);
  os_Stat _ _ := None;
  os_Remove _ w := w;
  os_Create _ w := (None, w);
  read_lines _ w := (inl ["entrypoint: /agent/supervise"], w);
  write_string _ _ w := (None, w);
  copy_file _ _ w := (true, w);
  sleep _ w := w
|}.

Definition keys : gmap string KeyValue :=
  list_to_map [("/dbproxy/orders/election/master/term", mkKV "4" 1 1 1 0);
               ("/dbproxy/orders/election/terms/10.0.0.1:3306", mkKV "3" 2 2 1 0);
               ("/dbproxy/orders/switch/3/10.0.0.2:3306",
                 mkKV (print_json (JObj [("File", JStr "mysql-bin.000006"); ("Pos", JStr "194");
                                         ("GTID", JStr "u:1-9"); ("UUID", JStr "u")])) 3 3 1 0)].

Definition cfg : Config :=
  mkConfig "10.0.0.9:2379" "/dbproxy/" "" "" "orders" "10.0.0.1:3306" (mkDBConfig "10.0.0.1" "root" "pw" 3306).

Definition start : Tool.run (gmap string KeyValue) event := mkRun keys [].

(** A whole run, oldest event first. *)
Example recovery_runs :
  reverse (log (recovery_main cfg "3306" "/bak/" start).2) =
  [Shell "docker ps | grep orders|wc -l";
   Shell "docker-compose -f /etc/recoverycomposefile.yml up -d";
   Shell "mkdir -p /bak/";
   Copy "/data/mysql-bin.000006" "/bak/mysql-bin.000006" true;
   Copy "/data/mysql-bin.000007" "/bak/mysql-bin.000007" true;
   Shell "flashback --binlogFileNames=/data/mysql-bin.000006 --start-position=194 --outBinlogFileNameBase=/bak/mysql-bin.000006";
   Shell "flashback --binlogFileNames=/data/mysql-bin.000007 --outBinlogFileNameBase=/bak/mysql-bin.000007";
   Shell "mysqlbinlog --skip-gtids /bak/mysql-bin.000006.flashback | mysql -u root -ppw -h10.0.0.1 -P3306";
   Shell "mysqlbinlog --skip-gtids /bak/mysql-bin.000007.falshback | mysql -u root -ppw -h10.0.0.1 -P3306";
   Statement "reset master";
   Statement ("SET @@GLOBAL.GTID_PURGED=" +:+ String dquote ("u:1-9" +:+ String dquote ""));
   WritePadder (mkPadder ["/bak/mysql-bin.000006"; "/bak/mysql-bin.000007"] true "10.0.0.2" "Asia/Shanghai"
                  "root" "pw" 3306 "test" "mysql-bin.000006" 194)].
Proof. vm_compute. reflexivity. Qed.

Lemma getBinlogList_witness :
  exists pos stop, binlog_number (Mysql.Name pos) = Some stop /\
    ["mysql-bin.000006"; "mysql-bin.000007"] = mysql_binlog_name "mysql-bin" <$> seqZ 6 (Z.min stop 999999 - 6 + 1).
Proof.
  destruct (getBinlogList_spec cfg "mysql-bin" 6 start start ["mysql-bin.000006"; "mysql-bin.000007"])
    as (pos & stop & _ & H1 & H2); [reflexivity|unfold two63; lia|vm_compute; reflexivity|].
  exists pos, stop. split; [exact H1|exact H2].
Defined.

Definition copied : list event := drop 7 (log (recovery_main cfg "3306" "/bak/" start).2).

Lemma undo_after_backup_witness :
  exists mp d logs s1, recovery_prepare cfg "3306" start = (Val (mp, d, logs), s1) /\
    Forall (fun i => Copy (d +:+ i) ("/bak/" +:+ i) true ∈ copied) logs.
Proof.
  apply (undo_after_backup cfg "3306" "/bak/" start
           (take 6 (log (recovery_main cfg "3306" "/bak/" start).2)) copied
           (Shell (flashback_cmd "/data/" "/bak/" "194" true "mysql-bin.000006")));
    [reflexivity|vm_compute; reflexivity|left; reflexivity].
Defined.

End Toy.

End Recovery.
