(* ===== verification/Conf.v ===== *)
(** * The configuration generator: [moctl/conf.go]

    From one description of an instance the tool writes the configuration of
    MySQL, the configuration of the agent and the compose file, each named
    after the port.  A file event carries the value that is encoded; the TOML
    and YAML encoders are libraries.  [agent_view] is what an agent that is
    started with the generated file has in its configuration. *)

From stdpp Require Import numbers gmap strings list.
From Stdlib Require Import ZArith Lia Ascii.
From S2P Require Import Prelude GoStrings Decimals World Tool.
Import Tool.
Open Scope step_scope.

Module Conf.

(** ** The description *)

Record MysqlConf := mkMysqlConf {
  mysql_HostAddress : string;
  mysql_Port : string;
  mysql_InstanceName : string;
  mysql_BufferPool : string;
  mysql_SQLMode : string;
  mysql_DataDir : string
}.

Record AgentConf := mkAgentConf {
  agent_HostAddress : string;
  agent_Port : string;
  agent_InstanceName : string;
  agent_ProxyName : string;
  agent_EtcdURL : string;
  agent_EtcdUser : string;
  agent_EtcdPasswd : string;
  agent_AgentUser : string;
  agent_AgentPasswd : string;
  agent_MysqlReplUser : string;
  agent_MysqlReplPasswd : string
}.

Record DockerConf := mkDockerConf {
  docker_Port : string;
  docker_InstanceName : string;
  docker_Version : string;
  docker_DataDir : string;
  docker_AgentUser : string;
  docker_AgentPasswd : string;
  docker_MysqlReplUser : string;
  docker_MysqlReplPasswd : string;
  docker_MysqlRootPasswd : string
}.

Record AgentConfig := mkAgentConfig {
  mysqlConf : MysqlConf;
  dockerConf : DockerConf;
  agentConf : AgentConf
}.

(** ** The generated files *)

Record Environment := mkEnvironment {
  MySQLDatabase : string;
  MysqlPasswd : string;
  MysqlReplPasswd : string;
  MysqlReplUser : string;
  MysqlRootPasswd : string;
  MysqlUser : string;
  env_MysqlSocket : string
}.

Record ServicesName := mkService {
  Image : string;
  NetworkMode : string;
  EntryPoint : string;
  Volumes : list string;
  svc_ContainerName : string;
  env_of : Environment
}.

Record CreateDockerCfg := mkDockerCfg {
  ComposeVersion : string;
  Services : gmap string ServicesName
}.

Record DBConfig := mkDBConfig {
  Host : string;
  User : string;
  Password : string;
  Port : Z;
  Timeout : string;
  ReplicationUser : string;
  ReplicationPassword : string;
  ReplicationNet : string
}.

Record Config := mkConfig {
  ClusterName : string;
  LeaderLeaseTTL : Z;
  ShutdownThreshold : Z;
  DataDir : string;
  ListenAddr : string;
  EtcdURLs : string;
  RegisterTTL : Z;
  EtcdRootPath : string;
  EtcdUsername : string;
  EtcdPassword : string;
  LogLevel : string;
  LogFile : string;
  LogMaxSize : Z;
  LogMaxDays : Z;
  LogCompress : bool;
  dbConfig : DBConfig;
  InternalServiceHost : string;
  ExternalServiceHost : string;
  ForkProcessFile : string;
  ForkProcessArgs : list string;
  ForkProcessWaitSecond : Z
}.

Record MySQLPara := mkPara {
  para_User : string;
  para_SQLMode : string;
  AutoCommit : Z;
  InitConnect : string;
  CharacterSetServer : string;
  CollationServer : string;
  EventScheduler : Z;
  MaxAllowedPacket : string;
  LowerCaseTableNames : Z;
  para_BindAddress : string;
  ReportHost : string;
  para_ServerID : Z;
  para_Port : Z;
  para_Socket : string;
  para_PidFile : string;
  para_DataDir : string;
  SkipSymbolicLinks : Z;
  ShowCompatibility56 : Z;
  ExplicitDefaultsForTimestamp : Z;
  DefaultStorageEngine : string;
  TransactionIsolation : string;
  ReadOnly : Z;
  SkipNameResolve : Z;
  WaitTimeout : Z;
  InteractiveTimeout : Z;
  LockWaitTimeout : Z;
  MaxConnectErrors : Z;
  MaxConnections : Z;
  BinlogFormat : string;
  BinlogGtidGimpleRecovery : Z;
  BinlogRowsQueryLogEvents : Z;
  ExpireLogsDays : Z;
  BinlogRowImage : string;
  MaxBinlogSize : string;
  BackLog : Z;
  GeneralLogFile : string;
  LogBin : string;
  LogError : string;
  LogQueriesNotUsingIndexes : Z;
  LogSlaveUpdates : Z;
  LogSlowAdminStatements : Z;
  LogSlowSlaveStatements : Z;
  LogThrottleQueriesNotUsingIndexes : Z;
  LogTimestamps : string;
  LongQueryTime : Z;
  MasterInfoRepository : string;
  RelayLogInfoRepository : string;
  RelayLogRecovery : Z;
  RelayLog : string;
  SlowQueryLog : Z;
  SlowQueryLogFile : string;
  SyncBinlog : Z;
  SecureFilePriv : string;
  EnforceGtidConsistency : Z;
  JoinBufferSize : string;
  KeyBufferSize : string;
  MinExaminedRowLimit : Z;
  ReadBufferSize : string;
  ReadRndBufferSize : string;
  SortBufferSize : string;
  TableDefinitionCache : Z;
  TableOpenCache : Z;
  TableOpenCacheInstances : Z;
  ThreadCacheSize : Z;
  TmpTableSize : string;
  GtidMode : string;
  SkipSlaveStart : Z;
  SlaveParallelType : string;
  SlaveParallelWorkers : Z;
  SlavePreserveCommitOrder : Z;
  SlaveRowsSearchAlgorithms : string;
  SlaveTransactionRetries : Z;
  InnodbAutoincLockMode : Z;
  InnodbDataFilePath : string;
  InnodbDataHomeDir : string;
  InnodbLogGroupHomeDir : string;
  InnodbBufferPoolSize : string;
  InnodbBufferPoolDumpAtShutdown : Z;
  InnodbBufferPoolDumpPct : Z;
  InnodbBufferPoolInstances : Z;
  InnodbBufferPoolLoadAtStartup : Z;
  InnodbFilePerTable : Z;
  InnodbFlushLogAtTrxCommit : Z;
  InnodbFlushMethod : string;
  InnodbFlushNeighbors : Z;
  InnodbIOCapacity : Z;
  InnodbIOCapacityMax : Z;
  InnodbLargePrefix : Z;
  InnodbLockWaitTimeout : Z;
  InnodbLogBufferSize : string;
  InnodbLogFilesInGroup : Z;
  InnodbLogFileSize : string;
  InnodbLruScanDepth : Z;
  InnodbMaxUndoLogSize : string;
  InnodbOnlineAlterLogMaxSize : string;
  InnodbOpenFiles : Z;
  InnodbPageCleaners : Z;
  InnodbPageSize : Z;
  InnodbPrintAllDeadlocks : Z;
  InnodbPurgeRsegTruncateFrequency : Z;
  InnodbPurgeThreads : Z;
  InnodbReadIOThreads : Z;
  InnodbSortBufferSize : string;
  InnodbStatsPersistentSamplePages : Z;
  InnodbStrictMode : Z;
  InnodbThreadConcurrency : Z;
  InnodbUndoLogs : Z;
  InnodbUndoLogTruncate : Z;
  InnodbUndoTableSpaces : Z;
  InnodbWriteIOThreads : Z
}.

Inductive content :=
| MySQLFile (para : MySQLPara)
| AgentFile (cfg : Config)
| ComposeFile (text : string).

Inductive event := Written (name : string) (c : content).

(** ** The values that are encoded *)

Definition mysql_file (port : string) : string := "/etc/my_" +:+ port +:+ ".cnf".
Definition agent_file (port : string) : string := "/etc/" +:+ port +:+ "_config.toml".
Definition compose_file (port : string) : string := "/etc/" +:+ port +:+ "_docker-compose.yml".

(** The digits of the server id: the last two numbers of the address and the
    port, one after the other. *)
Definition server_id_text (third fourth port : string) : string :=
  if String.eqb third "0" then "1" +:+ fourth +:+ port else third +:+ fourth +:+ port.

Definition mysql_para (c : MysqlConf) (IntPort IntServerID : Z) : MySQLPara :=
  let SQLMode := mysql_SQLMode c in
  let BindAddress := mysql_HostAddress c in
  let Socket := "/tmp/mysql_" +:+ mysql_Port c +:+ ".sock" in
  let PidFile := "mysql_" +:+ mysql_Port c +:+ ".pid" in
  let Datadir := mysql_DataDir c +:+ mysql_Port c +:+ "_" +:+ mysql_InstanceName c +:+ "/" in
  let BufferSize := mysql_BufferPool c in
  {| para_User := "mysql";
     para_SQLMode := SQLMode;
     AutoCommit := 1;
     InitConnect := "SET NAMES utf8mb4";
     CharacterSetServer := "utf8mb4";
     CollationServer := "utf8mb4_unicode_ci";
     EventScheduler := 1;
     MaxAllowedPacket := "128M";
     LowerCaseTableNames := 1;
     para_BindAddress := BindAddress;
     ReportHost := BindAddress;
     para_ServerID := IntServerID;
     para_Port := IntPort;
     para_Socket := Socket;
     para_PidFile := PidFile;
     para_DataDir := Datadir;
     SkipSymbolicLinks := 1;
     ShowCompatibility56 := 1;
     ExplicitDefaultsForTimestamp := 0;
     DefaultStorageEngine := "InnoDB";
     TransactionIsolation := "READ-COMMITTED";
     ReadOnly := 1;
     SkipNameResolve := 1;
     WaitTimeout := 7200;
     InteractiveTimeout := 7200;
     LockWaitTimeout := 1800;
     MaxConnectErrors := 1000000;
     MaxConnections := 10000;
     BinlogFormat := "row";
     BinlogGtidGimpleRecovery := 1;
     BinlogRowsQueryLogEvents := 1;
     ExpireLogsDays := 7;
     BinlogRowImage := "full";
     MaxBinlogSize := "256M";
     BackLog := 900;
     GeneralLogFile := "mysql.log";
     LogBin := "mysql-bin";
     LogError := "error.log";
     LogQueriesNotUsingIndexes := 0;
     LogSlaveUpdates := 1;
     LogSlowAdminStatements := 1;
     LogSlowSlaveStatements := 1;
     LogThrottleQueriesNotUsingIndexes := 10;
     LogTimestamps := "system";
     LongQueryTime := 1;
     MasterInfoRepository := "TABLE";
     RelayLogInfoRepository := "TABLE";
     RelayLogRecovery := 1;
     RelayLog := "relay-log";
     SlowQueryLog := 1;
     SlowQueryLogFile := "slow.log";
     SyncBinlog := 1;
     SecureFilePriv := "/data1/mysql";
     EnforceGtidConsistency := 1;
     JoinBufferSize := "128M";
     KeyBufferSize := "256M";
     MinExaminedRowLimit := 100;
     ReadBufferSize := "16M";
     ReadRndBufferSize := "32M";
     SortBufferSize := "32M";
     TableDefinitionCache := 4096;
     TableOpenCache := 4096;
     TableOpenCacheInstances := 64;
     ThreadCacheSize := 64;
     TmpTableSize := "64M";
     GtidMode := "on";
     SkipSlaveStart := 1;
     SlaveParallelType := "LOGICAL_CLOCK";
     SlaveParallelWorkers := 16;
     SlavePreserveCommitOrder := 1;
     SlaveRowsSearchAlgorithms := "INDEX_SCAN,HASH_SCAN";
     SlaveTransactionRetries := 128;
     InnodbAutoincLockMode := 2;
     InnodbDataFilePath := "ibdata1:256M:autoextend";
     InnodbDataHomeDir := Datadir;
     InnodbLogGroupHomeDir := Datadir;
     InnodbBufferPoolSize := BufferSize;
     InnodbBufferPoolDumpAtShutdown := 1;
     InnodbBufferPoolDumpPct := 40;
     InnodbBufferPoolInstances := 8;
     InnodbBufferPoolLoadAtStartup := 1;
     InnodbFilePerTable := 1;
     InnodbFlushLogAtTrxCommit := 1;
     InnodbFlushMethod := "O_DIRECT";
     InnodbFlushNeighbors := 0;
     InnodbIOCapacity := 10000;
     InnodbIOCapacityMax := 20000;
     InnodbLargePrefix := 1;
     InnodbLockWaitTimeout := 10;
     InnodbLogBufferSize := "16M";
     InnodbLogFilesInGroup := 2;
     InnodbLogFileSize := "256M";
     InnodbLruScanDepth := 4096;
     InnodbMaxUndoLogSize := "256M";
     InnodbOnlineAlterLogMaxSize := "4G";
     InnodbOpenFiles := 10000;
     InnodbPageCleaners := 16;
     InnodbPageSize := 16384;
     InnodbPrintAllDeadlocks := 1;
     InnodbPurgeRsegTruncateFrequency := 128;
     InnodbPurgeThreads := 4;
     InnodbReadIOThreads := 16;
     InnodbSortBufferSize := "64M";
     InnodbStatsPersistentSamplePages := 64;
     InnodbStrictMode := 1;
     InnodbThreadConcurrency := 64;
     InnodbUndoLogs := 128;
     InnodbUndoLogTruncate := 1;
     InnodbUndoTableSpaces := 3;
     InnodbWriteIOThreads := 16 |}.

Definition agent_cfg (c : AgentConf) : Config :=
  {| ClusterName := agent_Port c +:+ "_" +:+ agent_InstanceName c;
     LeaderLeaseTTL := 30;
     ShutdownThreshold := 5;
     DataDir := "/tmp/" +:+ agent_Port c +:+ "_" +:+ agent_InstanceName c;
     ListenAddr := "http://127.0.0.1:1" +:+ agent_Port c;
     EtcdURLs := agent_EtcdURL c;
     RegisterTTL := 10;
     EtcdRootPath := "/dbproxy/" +:+ agent_ProxyName c +:+ "/ks_cfg/nodes/";
     EtcdUsername := agent_EtcdUser c;
     EtcdPassword := agent_EtcdPasswd c;
     LogLevel := "info";
     LogFile := "/agent/log/mysql-agent.log";
     LogMaxSize := 30;
     LogMaxDays := 5;
     LogCompress := true;
     dbConfig :=
       {| Host := agent_HostAddress c;
          User := agent_AgentUser c;
          Password := agent_AgentPasswd c;
          Port := port_of (agent_Port c);
          Timeout := "1s";
          ReplicationUser := agent_MysqlReplUser c;
          ReplicationPassword := agent_MysqlReplPasswd c;
          ReplicationNet := "%" |};
     InternalServiceHost := agent_HostAddress c +:+ ":" +:+ agent_Port c;
     ExternalServiceHost := agent_HostAddress c +:+ ":" +:+ agent_Port c;
     ForkProcessFile := "/usr/local/bin/docker-entrypoint.sh";
     ForkProcessArgs := ["docker-entrypoint.sh"; "mysqld"; "--defaults-file=/etc/my_" +:+ agent_Port c +:+ ".cnf"];
     ForkProcessWaitSecond := 60 |}.

Definition compose_cfg (c : DockerConf) : CreateDockerCfg :=
  let ContainerName := docker_Port c +:+ "_" +:+ docker_InstanceName c in
  mkDockerCfg "3.3" {[ ContainerName :=
    {| Image := "moiot/moha:" +:+ docker_Version c;
       NetworkMode := "host";
       EntryPoint := "/agent/supervise";
       Volumes :=
         [docker_DataDir c +:+ ContainerName +:+ ":/var/lib/mysql:rw";
          "/etc/" +:+ docker_Port c +:+ "_config.toml:/agent/config.toml";
          docker_DataDir c +:+ docker_Port c +:+ "_agentlog:/agent/log:rw";
          "/etc/my_" +:+ docker_Port c +:+ ".cnf:/etc/my_" +:+ docker_Port c +:+ ".cnf";
          "/tmp:/tmp";
          docker_DataDir c +:+ ":" +:+ docker_DataDir c;
          "/etc/localtime:/etc/localtime:ro"];
       svc_ContainerName := ContainerName;
       env_of :=
         {| MySQLDatabase := docker_InstanceName c;
            MysqlPasswd := docker_AgentPasswd c;
            MysqlReplPasswd := docker_MysqlReplPasswd c;
            MysqlReplUser := docker_MysqlReplUser c;
            MysqlRootPasswd := docker_MysqlRootPasswd c;
            MysqlUser := docker_AgentUser c;
            env_MysqlSocket := "/tmp/mysql_" +:+ docker_Port c +:+ ".sock" |} |} ]}.

(** ** The tool *)
Section Conf.
Context {W : Type} `{ToolEnv W} (yaml_Marshal : CreateDockerCfg -> result string).

Abbreviation prog := (step W event).

(** [os.OpenFile] with [O_CREATE|O_TRUNC]; a failure panics. *)
Definition open_new (name : string) : prog unit :=
  e <- on_env (os_Create name);
  match e with Some _ => panic | None => ret tt end.

Definition CreateMySQLConf (cfg : AgentConfig) : prog (option error) :=
  let c := mysqlConf cfg in
  match Split "." (mysql_HostAddress c) with
  | [_; _; third; fourth] =>
      match Atoi (server_id_text third fourth (mysql_Port c)) with
      | inr _ => exit
      | inl IntServerID =>
          _ <- open_new (mysql_file (mysql_Port c));
          _ <- observe (Written (mysql_file (mysql_Port c))
                          (MySQLFile (mysql_para c (port_of (mysql_Port c)) IntServerID)));
          ret None
      end
  | _ => exit
  end.

Definition CreateAgentConf (cfg : AgentConfig) : prog (option error) :=
  let c := agentConf cfg in
  _ <- open_new (agent_file (agent_Port c));
  _ <- observe (Written (agent_file (agent_Port c)) (AgentFile (agent_cfg c)));
  ret None.

Definition CreateComposeConf (cfg : AgentConfig) : prog (option error) :=
  let c := dockerConf cfg in
  let filename := compose_file (docker_Port c) in
  _ <- open_new filename;
  match yaml_Marshal (compose_cfg c) with
  | inr e => ret (Some e)
  | inl composeinfo =>
      e <- on_env (write_string filename composeinfo);
      match e with
      | Some e => ret (Some e)
      | None => _ <- observe (Written filename (ComposeFile composeinfo)); ret None
      end
  end.

(** [PathExists]: an error other than a missing file is returned. *)
Definition PathExists (path : string) : prog (bool * option error) :=
  r <- on_env (fun w => (os_Stat path w, w));
  ret (match r with
       | None => (true, None)
       | Some ErrNotExist => (false, None)
       | Some e => (false, Some e)
       end).

(** [main] after the flags and the description are read. *)
Definition conf_main (cfg : AgentConfig) : prog unit :=
  fileMySQL <- PathExists (mysql_file (mysql_Port (mysqlConf cfg)));
  fikeAgent <- PathExists (agent_file (agent_Port (agentConf cfg)));
  fileCompose <- PathExists (compose_file (docker_Port (dockerConf cfg)));
  if fileMySQL.1 || fikeAgent.1 || fileCompose.1 then exit
  else
    err <- CreateMySQLConf cfg;
    match err with
    | Some _ => exit
    | None =>
        err2 <- CreateAgentConf cfg;
        match err2 with
        | Some _ => exit
        | None =>
            err3 <- CreateComposeConf cfg;
            match err3 with Some _ => exit | None => ret tt end
        end
    end.
End Conf.

(** ** The files are new *)
Section New.
Context {W : Type} `{ToolEnv W} (yaml_Marshal : CreateDockerCfg -> result string).

(** One test of [main]: the state is the same after it. *)
Lemma PathExists_run (path : string) (s : run W event) :
  PathExists path s = (Val (match os_Stat path (env s) with
                            | None => (true, None)
                            | Some ErrNotExist => (false, None)
                            | Some e => (false, Some e)
                            end), s).
Proof. unfold PathExists, bind, on_env, ret. by destruct s. Qed.

Lemma not_exists (path : string) (s : run W event) :
  (match os_Stat path (env s) with
   | None => (true, None)
   | Some ErrNotExist => (false, None)
   | Some e => (false, Some e)
   end).1 = false -> os_Stat path (env s) <> None.
Proof. by destruct (os_Stat path (env s)). Qed.

(** The generator replaces no configuration: if a run, whatever its outcome,
    has written a file or even created one, then none of the three files was
    there when it started; with one of them there the run ends at once and
    changes nothing. *)
Theorem conf_never_overwrites (cfg : AgentConfig) (s : run W event) :
  (conf_main yaml_Marshal cfg s = (Exit, s)) \/
  (os_Stat (mysql_file (mysql_Port (mysqlConf cfg))) (env s) <> None /\
   os_Stat (agent_file (agent_Port (agentConf cfg))) (env s) <> None /\
   os_Stat (compose_file (docker_Port (dockerConf cfg))) (env s) <> None).
Proof.
  unfold conf_main, bind at 1 2 3. rewrite !PathExists_run.
  match goal with |- context [if ?b then _ else _] => destruct b eqn:Eb end; [by left|right].
  apply orb_false_iff in Eb as [[E1 E2]%orb_false_iff E3]. auto using not_exists.
Qed.
End New.

(** ** Server ids *)

Lemma server_id_value (c d p : Z) :
  0 <= c -> 0 <= d -> 0 <= p ->
  let text := server_id_text (FormatUint c) (FormatUint d) (FormatUint p) in
  all_digits text = true /\ text <> "" /\
  dec_value text = ((if c =? 0 then 1 else c) * 10 ^ Z.of_nat (String.length (FormatUint d)) + d)
                   * 10 ^ Z.of_nat (String.length (FormatUint p)) + p.
Proof.
  intros Hc Hd Hp. unfold server_id_text.
  assert (String.eqb (FormatUint c) "0" = (c =? 0)) as ->.
  { destruct (Z.eqb_spec c 0) as [->|Hne]; [done|]. apply String.eqb_neq. intros E.
    apply Hne. rewrite <- (FormatUint_value c Hc), E. done. }
  assert (forall t v, all_digits t = true -> t <> "" -> dec_value t = v ->
    let text := t +:+ FormatUint d +:+ FormatUint p in
    all_digits text = true /\ text <> "" /\
    dec_value text = (v * 10 ^ Z.of_nat (String.length (FormatUint d)) + d)
                     * 10 ^ Z.of_nat (String.length (FormatUint p)) + p) as Hcat.
  { intros t v Ht Hne Hv text. subst text. split_and!.
    - by rewrite !all_digits_app, Ht, !FormatUint_digits.
    - by destruct t.
    - rewrite append_assoc, !dec_value_app, Hv, !FormatUint_value by done. done. }
  destruct (c =? 0) eqn:E; [by apply Hcat|].
  apply Hcat; [apply FormatUint_digits|apply FormatUint_not_empty|by apply FormatUint_value].
Qed.

(** The number of digits, as a factor. *)
Lemma digits_factor (z : Z) (n : nat) :
  0 <= z < 10 ^ Z.of_nat n -> (0 < n)%nat ->
  1 <= 10 ^ Z.of_nat (String.length (FormatUint z)) <= 10 ^ Z.of_nat n.
Proof.
  intros [Hz Hlt] Hn. split; [apply (Z.pow_le_mono_r 10 0); lia|].
  apply Z.pow_le_mono_r; [lia|]. apply inj_le, FormatUint_length; done.
Qed.

Definition server_id (c d p : Z) : Z :=
  dec_value (server_id_text (FormatUint c) (FormatUint d) (FormatUint p)).

Lemma server_id_range (c d p : Z) :
  0 <= c <= 255 -> 0 <= d <= 255 -> 0 < p < 10000 -> 0 < server_id c d p < 4294967296.
Proof.
  intros Hc Hd Hp. unfold server_id.
  destruct (server_id_value c d p ltac:(lia) ltac:(lia) ltac:(lia)) as (_ & _ & ->).
  pose proof (digits_factor d 3 ltac:(cbn; lia) ltac:(lia)) as H1.
  pose proof (digits_factor p 4 ltac:(cbn; lia) ltac:(lia)) as H2.
  change (10 ^ Z.of_nat 3) with 1000 in H1. change (10 ^ Z.of_nat 4) with 10000 in H2.
  remember (10 ^ Z.of_nat (String.length (FormatUint d))) as x. remember (10 ^ Z.of_nat (String.length (FormatUint p))) as y.
  assert (1 <= (if c =? 0 then 1 else c) <= 255) as Hk by (destruct (Z.eqb_spec c 0); lia).
  remember (if c =? 0 then 1 else c) as k. clear Heqx Heqy Heqk.
  assert (1 <= k * x + d <= 255255) by nia. nia.
Qed.

(** An IPv4 address as the description has it. *)
Definition ipv4 (a b c d : Z) : string :=
  Join [FormatUint a; FormatUint b; FormatUint c; FormatUint d] ".".

Lemma Split_ipv4 (a b c d : Z) :
  Split "." (ipv4 a b c d) = [FormatUint a; FormatUint b; FormatUint c; FormatUint d].
Proof.
  apply Split_Join; [done|]. repeat constructor; apply all_digits_free; done || apply FormatUint_digits.
Qed.

Section Ids.
Context {W : Type} `{ToolEnv W}.

(** What [CreateMySQLConf] writes for an address and a port. *)
Lemma CreateMySQLConf_writes (cfg : AgentConfig) (a b c d p : Z) (s s' : run W event) :
  mysql_HostAddress (mysqlConf cfg) = ipv4 a b c d -> mysql_Port (mysqlConf cfg) = FormatUint p ->
  0 <= c -> 0 <= d -> 0 <= p ->
  CreateMySQLConf cfg s = (Val None, s') ->
  server_id c d p < two63 /\
  log s' = Written (mysql_file (FormatUint p)) (MySQLFile (mysql_para (mysqlConf cfg) (port_of (FormatUint p))
                      (server_id c d p))) :: log s.
Proof.
  intros Ha Hp Hc Hd Hp0. destruct (server_id_value c d p Hc Hd Hp0) as (Hdig & Hne & _).
  unfold CreateMySQLConf. rewrite Ha, Split_ipv4, Hp. unfold Atoi.
  rewrite ParseInt_unsigned, parse_digits_value by done. fold (server_id c d p).
  destruct (Z.ltb_spec (server_id c d p) two63) as [Hlt|]; [|done].
  unfold open_new, bind, on_env, observe, ret. destruct (os_Create _ _) as [[e|] w]; [done|].
  intros [= <-]. done.
Qed.

(** C30. Ranges of the generated numbers: for an IPv4 address and a port of at most
    four digits, the server id that is written fits the 32 bits MySQL has for
    it and is not 0, the written port is the port itself, and the agent is told
    to listen on a port that exists. *)
Theorem generated_numbers_bounds (cfg : AgentConfig) (a b c d p : Z) (s s' : run W event) :
  mysql_HostAddress (mysqlConf cfg) = ipv4 a b c d -> mysql_Port (mysqlConf cfg) = FormatUint p ->
  0 <= c <= 255 -> 0 <= d <= 255 -> 0 < p < 10000 ->
  CreateMySQLConf cfg s = (Val None, s') ->
  exists para, log s' = Written (mysql_file (FormatUint p)) (MySQLFile para) :: log s /\
    0 < para_ServerID para < 4294967296 /\ para_Port para = p /\
    (forall ac, agent_Port ac = FormatUint p -> exists t q,
       ListenAddr (agent_cfg ac) = "http://127.0.0.1:" +:+ t /\ Atoi t = inl q /\ 0 < q < 65536).
Proof.
  intros Ha Hp Hc Hd Hp0 E.
  destruct (CreateMySQLConf_writes cfg a b c d p s s') as [_ Hlog]; [done|done|lia..|done|].
  eexists. split; [exact Hlog|]. split_and!.
  - apply server_id_range; lia.
  - by apply server_id_range.
  - apply port_of_FormatUint. unfold two63. lia.
  - intros ac Hac. exists ("1" +:+ FormatUint p), (10 ^ Z.of_nat (String.length (FormatUint p)) + p).
    split; [unfold agent_cfg; cbn [ListenAddr]; by rewrite Hac|].
    pose proof (digits_factor p 4 ltac:(cbn; lia) ltac:(lia)) as H2. change (10 ^ Z.of_nat 4) with 10000 in H2.
    unfold Atoi. rewrite ParseInt_unsigned, parse_digits_value, dec_value_app, FormatUint_value
      by (done || lia || exact (FormatUint_digits p)).
    change (dec_value "1") with 1. rewrite Z.mul_1_l.
    destruct (Z.ltb_spec (10 ^ Z.of_nat (String.length (FormatUint p)) + p) two63) as [_|Hbig];
      [split; [done|lia]|unfold two63 in Hbig; lia].
Qed.
End Ids.

(** Two hosts of one network get the same server id, although the members of a
    group must have different ones, and a port of five digits can give an id
    that MySQL cannot store. *)
Lemma server_ids_collide (p : Z) :
  server_id 1 23 p = server_id 12 3 p /\ server_id 0 5 p = server_id 1 5 p.
Proof. split; reflexivity. Qed.

Lemma server_id_too_large : 4294967296 < server_id 100 100 33066.
Proof. reflexivity. Qed.

(** ** A concrete instance, on a host where nothing is configured yet *)
Module Toy.

#[export] Instance toy_env : ToolEnv unit := {|
  sql_Open _ := None;
  sql_Query _ _ w := (inr ErrBadConn, w);
  sql_Exec _ _ w := (None, w);
  http_get _ w := (inr ErrBadConn, w);
  etcd_New _ _ _ _ := None;
  etcd_read w := (inl ∅, w);
  shell _ w := (inl "", w);
  os_Stat _ _ := Some ErrNotExist;
  os_Remove _ w := w;
  os_Create _ w := (None, w);
  read_lines _ w := (inl [], w);
  write_string _ _ w := (None, w);
  copy_file _ _ w := (true, w);
  sleep _ w := w
|}.

Definition description : AgentConfig :=
  mkAgentConfig (mkMysqlConf "10.0.1.23" "3306" "orders" "8G" "" "/data/")
    (mkDockerConf "3306" "orders" "2.0" "/data/" "agent" "pw" "repl" "pw" "root")
    (mkAgentConf "10.0.1.23" "3306" "orders" "shop" "10.0.0.9:2379" "etcd" "pw" "agent" "pw" "repl" "pw").

Definition start : Tool.run unit event := mkRun tt [].
Definition marshal (c : CreateDockerCfg) : result string := inl (ComposeVersion c).

Example conf_main_runs :
  conf_main marshal description start =
  (Val tt, mkRun tt [Written "/etc/3306_docker-compose.yml" (ComposeFile "3.3");
                     Written "/etc/3306_config.toml" (AgentFile (agent_cfg (agentConf description)));
                     Written "/etc/my_3306.cnf" (MySQLFile (mysql_para (mysqlConf description) 3306 1233306))]).
Proof. vm_compute. reflexivity. Qed.

Lemma generated_numbers_witness :
  exists para, log (CreateMySQLConf description start).2 = Written (mysql_file "3306") (MySQLFile para) :: [] /\
    0 < para_ServerID para < 4294967296.
Proof.
  destruct (generated_numbers_bounds description 10 0 1 23 3306 start (CreateMySQLConf description start).2)
    as (para & H1 & H2 & _); [reflexivity|reflexivity|lia|lia|lia|vm_compute; reflexivity|].
  exists para. split; [exact H1|exact H2].
Defined.
End Toy.

End Conf.
