(* ===== verification/Handover.v ===== *)
(** * What the agents leave in etcd and the tools find there

    The tools of [moctl/] read the keys of the agents by concatenating strings,
    where the agents use [path.Join].  The theorems compose the two sides: the
    record an agent writes while it is promoted is the one the recovery tool
    of the former master reads, and the key the switch-over tool reads is the
    leader key. *)

From stdpp Require Import numbers gmap strings list sorting.
From Stdlib Require Import ZArith Lia Ascii.
From S2P Require Import Prelude GoStrings Urls Gtid Json Etcd World ServiceManager Demo Leader Node ServerLoop Cluster Lease Tool Switch Recovery Conf.
Import Mvcc Tool.

(** A key of the agent, spelled as the tools spell it. *)
Lemma key_of_concat (acfg : Config) (l : list string) :
  plain_root acfg -> plain_key l -> key_of acfg l = rootPath acfg +:+ "/" +:+ Join l "/".
Proof.
  intros (r & es & Hne & Hp & E) [Hl Hpl]. unfold key_of, fullPathOf, Client.KeyWithRootPath,
    Client.keyWithPrefix, Client.elems_key. rewrite E. by apply path_Join_render.
Qed.

#[local] Instance key_le_trans : Transitive key_le.
Proof.
  intros a b c. unfold key_le. rewrite !leb_cases. intros [H1|E1] [H2|E2]; [left; by etransitivity|left; by rewrite <- E2|left; by rewrite E1|].
  right. congruence.
Qed.

#[local] Instance key_le_total : Total key_le.
Proof. intros a b. apply String.leb_total. Qed.

Lemma sorted_last {A} (R : relation A) `{!Reflexive R} (l : list A) (x y : A) : StronglySorted R l -> last l = Some y -> x ∈ l -> R x y.
Proof.
  induction 1 as [|a l Hs IH Ha]; [done|]. intros Hl Hx. apply elem_of_cons in Hx as [->|Hx].
  - destruct l as [|b l]; [by injection Hl as ->|]. rewrite Forall_forall in Ha. apply Ha. by apply last_Some_elem_of.
  - destruct l as [|b l]; [by apply not_elem_of_nil in Hx|]. by apply IH.
Qed.

(** The last key under a prefix is the one that no other exceeds. *)
Lemma range_prefix_last (p k : string) (v : KeyValue) (m : gmap string KeyValue) :
  m !! k = Some v -> HasPrefix k p = true ->
  (forall k', is_Some (m !! k') -> HasPrefix k' p = true -> String.leb k' k = true) ->
  last (range_prefix p m) = Some (k, v).
Proof.
  intros Hk Hp Hmax. assert (forall kv, kv ∈ range_prefix p m <-> m !! kv.1 = Some kv.2 /\ HasPrefix kv.1 p = true) as Hin.
  { intros [k' v']. rewrite (range_prefix_perm p m), elem_of_map_to_list. unfold prefix_range. by rewrite map_lookup_filter_Some. }
  destruct (last (range_prefix p m)) as [[k' v']|] eqn:El.
  - assert (key_le (k, v) (k', v')) as Hle.
    { assert (Reflexive key_le) as Hr by (intros a; unfold key_le; apply leb_cases; by right).
      apply (sorted_last key_le (range_prefix p m)); [apply StronglySorted_merge_sort; exact _|done|by apply Hin]. }
    assert ((k', v') ∈ range_prefix p m) as [Hv' Hp']%Hin by (by apply last_Some_elem_of).
    assert (k = k') as <- by (apply String.leb_antisym; [exact Hle|by apply Hmax]). cbn in Hv'. congruence.
  - apply last_None in El. assert ((k, v) ∈ range_prefix p m) as Hx by (by apply Hin). rewrite El in Hx. by apply not_elem_of_nil in Hx.
Qed.

(** The tool's reading of a position that an agent has marshalled. *)
Lemma stat_of_position (p : Position) :
  Position_ok p ->
  Unmarshal_lenient Recovery.Stat_fields Recovery.zero_Stat (Marshal_Position p)
  = Recovery.mkStat (File p) (Pos p) (GTID p) (UUID p).
Proof.
  intros Hp. unfold Unmarshal_lenient, Marshal_Position.
  rewrite parse_json_print by (by apply Position_members_wf).
  unfold Position_json, omit_zero, omit_false.
  by destruct (EndTxnID p =? 0), (SlaveIORunning p), (SlaveSQLRunning p), (SecondsBehindMaster p =? 0).
Qed.

Section Handover.
Context {D : Type} `{ServiceManager D} {W : Type} `{ToolEnv W}.

(** The configurations of the agent and of the tool name the same group. *)
Definition same_group (acfg : Config) (tcfg : Recovery.Config) : Prop :=
  plain_root acfg /\ rootPath acfg = Recovery.EtcdRootPath tcfg +:+ Recovery.EtcdCluster tcfg.

(** The tool reaches etcd, and the keys are [m] each time it reads. *)
Definition reads (tcfg : Recovery.Config) (m : gmap string KeyValue) (s : run W Recovery.event) : Prop :=
  etcd_New (Recovery.EtcdURLs tcfg) (Recovery.EtcdUsername tcfg) (Recovery.EtcdPassword tcfg) (env s) = None /\
  etcd_read (env s) = (inl m, env s).

(** The terms in etcd after a failover: the group is in term [t], the node of
    the tool was last master in the term before. *)
Definition one_term_behind (acfg : Config) (tcfg : Recovery.Config) (t : Z) (m : gmap string KeyValue) : Prop :=
  (exists x, m !! key_of acfg ["election"; "master"; "term"] = Some x /\ Value x = FormatUint t) /\
  (exists x, m !! key_of acfg ["election"; "terms"; Recovery.EtcdHostPort tcfg] = Some x /\
             Value x = FormatUint (t - 1)).

Lemma read_keys_reads {A} (tcfg : Recovery.Config) (m : gmap string KeyValue) (s : run W Recovery.event)
    (k : gmap string KeyValue -> step W Recovery.event A) :
  reads tcfg m s -> bind (Recovery.read_keys tcfg) k s = k m s.
Proof.
  intros [_ Hr]. unfold Recovery.read_keys, bind, on_env. rewrite Hr. by destruct s.
Qed.

(** The tool takes the node from the last element of a record's key. *)
Lemma host_of_key (acfg : Config) (l : list string) (host : string) :
  plain_root acfg -> plain_key (l ++ [host]) -> l <> [] -> last (Split "/" (key_of acfg (l ++ [host]))) = Some host.
Proof.
  intros Hroot Hk Hl. rewrite key_of_concat by done.
  replace (rootPath acfg +:+ "/" +:+ Join (l ++ [host]) "/")
    with ((rootPath acfg +:+ "/" +:+ Join l "/") +:+ String "/" host)
    by (rewrite Join_app by done; by rewrite <- !append_assoc).
  rewrite Split_app. destruct Hk as [_ [_ [Hh _]%Forall_cons]%Forall_app].
  rewrite (Split_free "/" host); [by rewrite last_snoc|]. unfold plain_elem in Hh. by destruct (free_of "/" host), (String.eqb host "").
Qed.

Lemma split_host {E} (ip port : string) (s : run W E) :
  free_of ":" ip = true -> free_of ":" port = true -> split_addr (ip +:+ ":" +:+ port) s = (Val (ip, port), s).
Proof.
  intros Hi Hp. unfold split_addr. change (":" +:+ port) with (String ":" port).
  by rewrite Split_app, !Split_free.
Qed.

(** What a promotion in term [t] writes. *)
Lemma uploadPromotionBinlog_writes (acfg : Config) (node_ID : string) (w w' : world D) (t : Z) :
  plain_elem node_ID = true -> term (srv w) = t -> 0 < t < two64 ->
  uploadPromotionBinlog acfg node_ID w = (Ret None, w') ->
  exists p, (LoadSlaveStatusFromDB (latestPos w) (svc w)).1 = inl p /\
    exists x, kvs (etcd w') !! key_of acfg ["switch"; FormatUint (t - 1); node_ID] = Some x /\
              Value x = Marshal_Position p.
Proof.
  intros Hid Ht Hr E. unfold uploadPromotionBinlog, get_latestPos, gets, svc_call in E.
  unfold World.bind at 1 in E. cbn [fst snd] in E. unfold World.bind at 1 in E.
  destruct (LoadSlaveStatusFromDB (latestPos w) (svc w)) as [[p|e] d]; [|discriminate E].
  exists p. split; [done|]. unfold World.bind at 1 in E. cbn [srv with_svc] in E. rewrite Ht in E.
  unfold World.bind in E. unfold u64 in E. rewrite Z.mod_small in E by (unfold two64 in *; lia).
  destruct (etcd_call _ (with_svc d w)) as [[[u|e]| | |] w1] eqn:E1; try discriminate E.
  injection E as <-. apply etcd_call_inl in E1 as (_ & Hput & _).
  assert (plain_key ["switch"; FormatUint (t - 1); node_ID]) as [Hne Hpl].
  { split; [done|]. repeat constructor; [apply FormatUint_plain|done]. }
  unfold Client.Put, Mvcc.Put, join in Hput. rewrite (path_Join_elems _ Hne Hpl) in Hput.
  destruct (checkPut _ _); [|discriminate Hput]. injection Hput as _ <-. cbn [kvs tw_End].
  edestruct tw_put_lookup as (x & Hx & Hv & _). eauto.
Qed.

(** C28. From promotion to recovery: when a node [ip:port] that is promoted in
    term [t] has written its position, and the tool on the master of the term
    before reads the store, it finds exactly that position and that node,
    although it builds the keys by concatenation and decodes into another
    type.  It takes the last of the keys that begin with the text of the
    former term, so no such key (of another node, or of a later term whose
    number begins with the same digits) may sort after the node's own. *)
Theorem recovery_finds_promotion (acfg : Config) (tcfg : Recovery.Config) (ip port : string) (t : Z)
    (w w' : world D) (s : run W Recovery.event) :
  same_group acfg tcfg -> plain_elem (ip +:+ ":" +:+ port) = true ->
  free_of ":" ip = true -> free_of ":" port = true -> plain_elem (Recovery.EtcdHostPort tcfg) = true ->
  term (srv w) = t -> 0 < t < two63 ->
  uploadPromotionBinlog acfg (ip +:+ ":" +:+ port) w = (Ret None, w') ->
  reads tcfg (kvs (etcd w')) s -> one_term_behind acfg tcfg t (kvs (etcd w')) ->
  (forall k, is_Some (kvs (etcd w') !! k) -> HasPrefix k (key_of acfg ["switch"; FormatUint (t - 1)]) = true ->
     String.leb k (key_of acfg ["switch"; FormatUint (t - 1); ip +:+ ":" +:+ port]) = true) ->
  exists p, (LoadSlaveStatusFromDB (latestPos w) (svc w)).1 = inl p /\
    (Position_ok p -> Recovery.GetEtcdSwitchInfo tcfg s
       = (Val (inl (Recovery.mkInfo (File p) (Pos p) (GTID p) ip port)), s)).
Proof.
  intros [Hroot Eroot] Hid Hip Hport Hhp Ht Hr Hup [Hnew Hread] [(x1 & Hx1 & V1) (x2 & Hx2 & V2)] Hone.
  edestruct uploadPromotionBinlog_writes as (p & Hp & x & Hx & Vx);
    [exact Hid|exact Ht|unfold two63, two64 in *; lia|exact Hup|].
  exists p. split; [done|]. intros Hok.
  assert (forall l, plain_key l -> key_of acfg l
    = (Recovery.EtcdRootPath tcfg +:+ Recovery.EtcdCluster tcfg) +:+ "/" +:+ Join l "/") as Hkey
    by (intros l Hl; rewrite <- Eroot; by apply key_of_concat).
  rewrite Hkey in Hx1 by (split; [done|by repeat constructor]).
  rewrite Hkey in Hx2 by (split; [done|by repeat constructor]).
  assert (Hpk : plain_key ["switch"; FormatUint (t - 1)])
    by (split; [done|repeat constructor; apply FormatUint_plain]).
  assert (Hpn : plain_key ["switch"; FormatUint (t - 1); ip +:+ ":" +:+ port])
    by (split; [done|repeat constructor; [apply FormatUint_plain|done]]).
  unfold Recovery.GetEtcdSwitchInfo. unfold bind at 1, on_env at 1. cbv iota beta zeta. rewrite Hnew.
  replace (mkRun (env s) (log s)) with s by (by destruct s).
  change (kvs (etcd w') !! ((Recovery.EtcdRootPath tcfg +:+ Recovery.EtcdCluster tcfg) +:+ "/election/master/term")
          = Some x1) in Hx1.
  change (kvs (etcd w') !! ((Recovery.EtcdRootPath tcfg +:+ Recovery.EtcdCluster tcfg) +:+ "/election/terms/"
            +:+ Recovery.EtcdHostPort tcfg) = Some x2) in Hx2.
  erewrite read_keys_reads by done. rewrite Hx1. cbn [of_option]. unfold bind at 1, ret at 1.
  erewrite read_keys_reads by done.
  rewrite Hx2, V1, V2, !port_of_FormatUint by lia.
  rewrite i64_small, Z.eqb_refl by (unfold is_i64, two63 in *; lia). cbn [negb].
  erewrite read_keys_reads by done.
  replace (_ +:+ "/switch/" +:+ FormatUint (t - 1)) with (key_of acfg ["switch"; FormatUint (t - 1)])
    by (by rewrite Hkey).
  erewrite range_prefix_last; [|exact Hx| |exact Hone].
  2: { apply prefix_spec. exists ("/" +:+ ip +:+ ":" +:+ port). rewrite !Hkey by done. cbn [Join].
       by rewrite <- !append_assoc. }
  rewrite Vx, stat_of_position by done.
  pose proof (host_of_key acfg ["switch"; FormatUint (t - 1)] _ Hroot Hpn ltac:(done)) as Hh.
  cbn [app] in Hh. rewrite Hh. unfold default, id.
  destruct (String.eqb_spec (ip +:+ ":" +:+ port) "") as [E|_]; [by rewrite E in Hid|].
  unfold bind at 1. by rewrite split_host.
Qed.
End Handover.

(** ** One configuration file, three readers *)

(** What the agent, the switch-over tool and the recovery tool read from the
    file the generator writes: the fields with the same TOML key.  A key that
    the file does not have keeps the value [NewConfig] of the agent gives it. *)
Definition agent_view (c : Conf.Config) : Config :=
  mkConfig (Conf.ClusterName c) (Conf.LeaderLeaseTTL c) (Conf.ShutdownThreshold c) (Conf.DataDir c) "" false
    (Conf.EtcdRootPath c) (Conf.EtcdUsername c) (Conf.RegisterTTL c) ""
    (Conf.InternalServiceHost c) (Conf.ExternalServiceHost c) (2 * Second).

Definition switch_view (c : Conf.Config) : Switch.Config :=
  Switch.mkConfig (Conf.EtcdURLs c) (Conf.EtcdRootPath c) (Conf.EtcdUsername c) (Conf.EtcdPassword c)
    (Conf.ClusterName c) (Switch.mkDBConfig (Conf.User (Conf.dbConfig c)) (Conf.Password (Conf.dbConfig c))).

Definition recovery_view (c : Conf.Config) : Recovery.Config :=
  Recovery.mkConfig (Conf.EtcdURLs c) (Conf.EtcdRootPath c) (Conf.EtcdUsername c) (Conf.EtcdPassword c)
    (Conf.ClusterName c) (Conf.InternalServiceHost c)
    (Recovery.mkDBConfig (Conf.Host (Conf.dbConfig c)) (Conf.User (Conf.dbConfig c))
       (Conf.Password (Conf.dbConfig c)) (Conf.Port (Conf.dbConfig c))).

(** Names that can be elements of a path. *)
Definition plain_names (c : Conf.AgentConf) : Prop :=
  plain_elem (Conf.agent_ProxyName c) = true /\ plain_elem (Conf.ClusterName (Conf.agent_cfg c)) = true.

Lemma generated_root (c : Conf.AgentConf) :
  plain_names c ->
  rootPath (agent_view (Conf.agent_cfg c)) =
  render_path true ["dbproxy"; Conf.agent_ProxyName c; "ks_cfg"; "nodes"; Conf.ClusterName (Conf.agent_cfg c)].
Proof.
  intros [Hp Hc]. unfold rootPath, Client.keyWithPrefix.
  cbn [agent_view EtcdRootPath ClusterName Conf.EtcdRootPath].
  remember (Conf.ClusterName (Conf.agent_cfg c)) as cl eqn:Ecl. remember (Conf.agent_ProxyName c) as px.
  assert (Conf.EtcdRootPath (Conf.agent_cfg c) = Join [""; "dbproxy"; px; "ks_cfg"; "nodes"; ""] "/") as ->
    by (subst px; reflexivity).
  pose proof (path_Join_plain (Join [""; "dbproxy"; px; "ks_cfg"; "nodes"; ""] "/") [cl] ltac:(done)
    ltac:(by constructor)) as E. cbn [Join] in E |- *. rewrite E. clear E.
  change (is_rooted _) with true. f_equal.
  assert (Hf : free_of "/" px = true) by (unfold plain_elem in Hp; by destruct (free_of "/" px), (String.eqb px "")).
  pose proof (Split_Join "/" [""; "dbproxy"; px; "ks_cfg"; "nodes"; ""] ltac:(done)
    ltac:(repeat constructor; done)) as Hs. cbn [Join] in Hs.
  unfold clean_stack. change (is_rooted _) with true. rewrite Hs. cbn [foldl].
  rewrite (clean_elem_plain true _ px Hp). reflexivity.
Qed.

(** One generated file serves every reader: for names without a slash and an
    etcd user, the agent accepts the configuration, its keys are spelled the
    way both tools spell them (they concatenate where the agent joins paths),
    and the shutdown threshold leaves the monitor of a leader four seconds of
    delay before the lease can expire. *)
Theorem generated_group (c : Conf.AgentConf) :
  plain_names c -> Conf.agent_EtcdUser c <> "" ->
  let f := Conf.agent_cfg c in
  checkConfig (Some (agent_view f)) = None /\
  same_group (agent_view f) (recovery_view f) /\
  (forall l, plain_key l -> key_of (agent_view f) l
     = Switch.EtcdRootPath (switch_view f) +:+ Switch.EtcdCluster (switch_view f) +:+ "/" +:+ Join l "/") /\
  Second + 4 * Second <= ShutdownThreshold (agent_view f) * Second /\
  ShutdownThreshold (agent_view f) < LeaderLeaseTTL (agent_view f).
Proof.
  intros Hn Hu f. pose proof (generated_root c Hn) as Hroot. destruct Hn as [Hp Hc].
  assert (same_group (agent_view f) (recovery_view f)) as Hg.
  { split.
    { exists true, ["dbproxy"; Conf.agent_ProxyName c; "ks_cfg"; "nodes"; Conf.ClusterName (Conf.agent_cfg c)].
      split; [discriminate|]. split; [|exact Hroot]. repeat (apply Forall_cons; split; [assumption || reflexivity|]).
      constructor. }
    change f with (Conf.agent_cfg c). rewrite Hroot. unfold render_path. cbn [Join].
    change (Recovery.EtcdRootPath _) with ("/dbproxy/" +:+ Conf.agent_ProxyName c +:+ "/ks_cfg/nodes/").
    change (Recovery.EtcdCluster _) with (Conf.ClusterName (Conf.agent_cfg c)).
    by rewrite <- !append_assoc. }
  split_and!; [|exact Hg| |vm_compute; congruence|reflexivity].
  - unfold checkConfig. cbn. destruct (String.eqb_spec (Conf.agent_EtcdUser c) ""); done.
  - intros l Hl. destruct Hg as [Hr Er]. rewrite key_of_concat, Er by done.
    by rewrite <- !append_assoc.
Qed.

(** ** The leader, as the switch-over tool sees it *)
Section Winner.
Context {D : Type} `{ServiceManager D} {W : Type} `{ToolEnv W}.

(** The switch-over tool finds the leader the agents elected: once a node
    [ip:port] has won a campaign, the master the tool reads from that store is
    this node, split at the colon. *)
Theorem switch_finds_leader (acfg : Config) (tcfg : Switch.Config) (ip port : string) (w w' : world D) (l : Z)
    (s : run W (Switch.request W)) :
  plain_root acfg -> rootPath acfg = Switch.EtcdRootPath tcfg +:+ Switch.EtcdCluster tcfg ->
  plain_elem (ip +:+ ":" +:+ port) = true -> free_of ":" ip = true -> free_of ":" port = true ->
  store_wf (etcd w) -> Forall (tick_keeps store_wf) (oracle w) ->
  campaignLeader acfg (ip +:+ ":" +:+ port) w = (Ret (inl (Some l)), w') ->
  etcd_New (Switch.EtcdURLs tcfg) (Switch.EtcdUsername tcfg) (Switch.EtcdPassword tcfg) (env s) = None ->
  etcd_read (env s) = (inl (kvs (etcd w')), env s) ->
  Switch.getInstanceGroupMaster tcfg s = (Val (ip, port), s).
Proof.
  intros Hroot Eroot Hid Hip Hport Hst Ho E Hnew Hread.
  destruct (campaignLeader_won _ _ w w' l E) as (st & rs & _ & _ & Hfound & Htx).
  assert (store_wf st) as Hs by (rewrite Hfound; by apply campaign_found_wf).
  destruct (campaign_won_store _ _ Hid st (etcd w') (srv w) l rs Hs Htx) as (_ & Hput & _).
  destruct (Hput _ _ _ (list_elem_of_here _ _)) as (x & Hx & Vx & _).
  change (fullPathOf acfg leaderPath) with (key_of acfg ["master"]) in Hx.
  rewrite key_of_concat, Eroot, <- append_assoc in Hx by (done || (split; [done|by constructor])).
  change ("/" +:+ Join ["master"] "/") with "/master" in Hx.
  unfold Switch.getInstanceGroupMaster, bind, Switch.read_etcd. rewrite Hnew, Hread.
  replace (mkRun (env s) (log s)) with s by (by destruct s). rewrite Hx, Vx. by apply split_host.
Qed.
End Winner.

(** ** A concrete failover

    A node that was promoted in the same term before has left its record. *)

#[local] Existing Instance Recovery.Toy.toy_env.

Definition failover_store : Store :=
  mkStore (list_to_map [("/dbproxy/orders/election/master/term", mkKV "4" 1 1 1 0);
                        ("/dbproxy/orders/election/terms/10.0.0.1:3306", mkKV "3" 2 2 1 0);
                        ("/dbproxy/orders/switch/3/10.0.0.1:3306", mkKV "{}" 1 1 1 0)]) 2 ∅ 1.

Definition promoted : world demo_service :=
  with_srv (set_term 4) (demo_world failover_store []).

Definition after_promotion : world demo_service :=
  (uploadPromotionBinlog demo_cfg other_id promoted).2.

Lemma demo_root : plain_root demo_cfg.
Proof. exists true, ["dbproxy"; "orders"]. split_and!; [done|by repeat constructor|reflexivity]. Qed.

Lemma recovery_finds_promotion_witness :
  exists p, File p = "mysql-bin.000001" /\
    Recovery.GetEtcdSwitchInfo Recovery.Toy.cfg (mkRun (kvs (etcd after_promotion)) [])
    = (Val (inl (Recovery.mkInfo (File p) (Pos p) (GTID p) "10.0.0.2" "3306")),
       mkRun (kvs (etcd after_promotion)) []).
Proof.
  destruct (recovery_finds_promotion demo_cfg Recovery.Toy.cfg "10.0.0.2" "3306" 4 promoted after_promotion
              (mkRun (kvs (etcd after_promotion)) [])) as (p & Hp & Hinfo);
    [split; [exact demo_root|reflexivity]|reflexivity..|unfold two63; lia|vm_compute; reflexivity|split; reflexivity| | |].
  - split; eexists; (split; [vm_compute; reflexivity|vm_compute; reflexivity]).
  - assert (map_Forall (fun k _ => HasPrefix k (key_of demo_cfg ["switch"; "3"]) = true ->
              String.leb k (key_of demo_cfg ["switch"; "3"; other_id]) = true) (kvs (etcd after_promotion))) as Hall
      by (apply (bool_decide_unpack _); vm_compute; exact I).
    intros k [x Hx]. exact (Hall k x Hx).
  - exists p. vm_compute in Hp. injection Hp as <-. split; [reflexivity|apply Hinfo].
    split; vm_compute; split; congruence.
Defined.

Lemma generated_group_witness :
  let f := Conf.agent_cfg (Conf.agentConf Conf.Toy.description) in
  checkConfig (Some (agent_view f)) = None /\ same_group (agent_view f) (recovery_view f).
Proof.
  destruct (generated_group (Conf.agentConf Conf.Toy.description)) as (H1 & H2 & _);
    [split; reflexivity|discriminate|]. split; [exact H1|exact H2].
Defined.

Definition switch_cfg : Switch.Config :=
  Switch.mkConfig "10.0.0.9:2379" "/dbproxy/" "" "" "orders" (Switch.mkDBConfig "root" "").

Lemma switch_finds_leader_witness :
  Switch.getInstanceGroupMaster switch_cfg (mkRun (kvs (etcd campaigned)) [])
  = (Val ("10.0.0.1", "3306"), mkRun (kvs (etcd campaigned)) []).
Proof.
  apply (switch_finds_leader demo_cfg switch_cfg "10.0.0.1" "3306" (demo_world empty_store []) campaigned 1
           (mkRun (kvs (etcd campaigned)) []));
    [exact demo_root|reflexivity|reflexivity|reflexivity|reflexivity|exact empty_store_wf|constructor
    |vm_compute; reflexivity|reflexivity|reflexivity].
Defined.
