(* ===== verification/Checker.v ===== *)
(** * The chaos checker: [checker/server.go], [checker/agent_maniplate.go], [checker/job.go]

    The checker is a program of several goroutines that share a [Server]: one
    polls the leader key and keeps a connection to the master, one per job
    writes rows through that connection, and one breaks the cluster in the way
    the chaos job says; at the end every job compares the row counts of the
    databases.  A goroutine is a program over a [run]: the surroundings, the
    shared [Server], and a schedule that says what the OTHER goroutines do
    before each of its accesses to the shared state.  The theorems quantify
    over all schedules.  [Chaos] has the chaos jobs. *)

From stdpp Require Import gmap strings list.
From Stdlib Require Import ZArith Lia Ascii.
From S2P Require Import Prelude GoStrings Urls Etcd World ServiceManager Demo Leader Node Election Tool Startup.
Import Mvcc.

Module Checker.

(** ** The surroundings

    A database handle is its data source name, a transaction a number.
    [sql_Count] is [db.QueryRow(q).Scan(&r)] for an integer [r],
    [run_command] is [exec.Command(...).Run()] with what it wrote on standard
    output and standard error, [etcd_New] is [clientv3.New] for the endpoints,
    user and password, [etcd_read] the store at the moment of the read. *)
Class CheckerEnv (W : Type) := {
  sql_Open : string -> option error;
  sql_Query : string -> string -> W -> option error * W;
  sql_Exec : string -> string -> list Z -> W -> option error * W;
  sql_Count : string -> string -> W -> result Z * W;
  sql_Begin : string -> W -> result Z * W;
  tx_Exec : Z -> string -> list Z -> W -> option error * W;
  tx_Commit : Z -> W -> option error * W;
  tx_Rollback : Z -> W -> option error * W;
  run_command : list string -> W -> (option error * string * string) * W;
  http_Get : string -> W -> option error * W;
  etcd_New : list string -> string -> string -> option error;
  etcd_read : W -> result Store * W;
  etcd_write : (Store -> Store) -> W -> option error * W;
  rand_Int : W -> Z * W;
  clock : W -> Z;
  pass : Z -> W -> W
}.

(** ** Configuration and shared state *)

(** The fields of [Config] the checker reads. *)
Record Config := mkConfig {
  EtcdURLs : string;
  EtcdUsername : string;
  EtcdPassword : string;
  EtcdRootPath : string;
  ClusterName : string;
  DB : DBConfig;
  RootUser : string;
  RootPassword : string;
  IDContainerMapping : gmap string string;
  ContainerAZMapping : gmap string string;
  PartitionTemplate : string;
  PartitionType : string;
  ChaosJob : string
}.

(** The package variables that [Start] fills: [azSet], [ipAZMapping],
    [azNodeMapping], [azIPMapping]. *)
Record AZs := mkAZs {
  azSet : gmap string bool;
  ipAZMapping : gmap string string;
  azNodeMapping : gmap string (gmap string bool);
  azIPMapping : gmap string (gmap string bool)
}.

Definition no_AZs : AZs := mkAZs ∅ ∅ ∅ ∅.

(** The fields of [Server] that change. *)
Record Server := mkServer {
  mysqlID : string;
  mysqlConnection : option string;
  chaosJobDone : Z
}.

Definition empty_Server : Server := mkServer "" None 0.

(** [NewServer] *)
Definition NewServer {W} `{CheckerEnv W} (cfg : Config) : result Server :=
  match NewURLsValue (EtcdURLs cfg) with
  | inr e => inr e
  | inl uv =>
      match etcd_New (URLs_StringSlice uv) (EtcdUsername cfg) (EtcdPassword cfg) with
      | Some e => inr e
      | None => inl empty_Server
      end
  end.

(** What [go] starts beside the job itself: a partition whose error is
    dropped or, when [strict], is a panic. *)
Inductive direction := Incoming | Outgoing.
Record goroutine := mkGo {
  go_direction : direction;
  go_template : string;
  go_az : string;
  go_type : string;
  go_strict : bool
}.

(** What other goroutines do before an access: the IDs the poller hands over,
    which of the started goroutines run to their end (the positions of the
    waiting ones), and the value the chaos job stores in [chaosJobDone]. *)
Record tick := mkTick {
  delivered : list string;
  finished : list nat;
  stored : option Z
}.

(** What the theorems observe. *)
Inductive event :=
| Command (argv : list string)
| Request (url : string)
| Statement (dsn stmt : string) (args : list Z)
| Counted (dsn : string) (rows : Z)
| Loaded (done : Z)
| Wrote (counter : Z) (ok : bool)
| Closed (dsn : string).

Record run (W : Type) := mkRun {
  env : W;
  server : Server;
  schedule : list tick;
  waiting : list goroutine;
  log : list event
}.
Arguments mkRun {W}. Arguments env {W}. Arguments server {W}. Arguments schedule {W}.
Arguments waiting {W}. Arguments log {W}.

(** ** Programs *)

Definition step (W A : Type) : Type := run W -> outcome A * run W.

Section Steps.
Context {W : Type}.

Definition ret {A} (a : A) : step W A := fun s => (Ret a, s).
Definition exit {A} (c : Z) : step W A := fun s => (Exited c, s).
Definition panic {A} : step W A := fun s => (Panicked, s).
Definition block {A} : step W A := fun s => (Blocked, s).
Definition bind {A B} (m : step W A) (k : A -> step W B) : step W B := fun s =>
  match m s with
  | (Ret a, s') => k a s'
  | (Exited c, s') => (Exited c, s')
  | (Panicked, s') => (Panicked, s')
  | (Blocked, s') => (Blocked, s')
  end.
Definition on_env {A} (f : W -> A * W) : step W A := fun s =>
  let '(a, w) := f (env s) in (Ret a, mkRun w (server s) (schedule s) (waiting s) (log s)).
Definition on_server {A} (f : Server -> A * Server) : step W A := fun s =>
  let '(a, v) := f (server s) in (Ret a, mkRun (env s) v (schedule s) (waiting s) (log s)).
Definition observe (e : event) : step W unit := fun s =>
  (Ret tt, mkRun (env s) (server s) (schedule s) (waiting s) (e :: log s)).
Definition start (g : goroutine) : step W unit := fun s =>
  (Ret tt, mkRun (env s) (server s) (schedule s) (waiting s ++ [g]) (log s)).
Definition of_option {A} (o : option A) : step W A :=
  match o with Some a => ret a | None => panic end.

(** [for _, x := range l { body }] for a body that can return early. *)
Fixpoint for_each {X R} (l : list X) (body : X -> step W (option R)) : step W (option R) :=
  match l with
  | [] => ret None
  | x :: l' => bind (body x) (fun r => match r with Some r => ret (Some r) | None => for_each l' body end)
  end.

(** A loop that ends when its body answers; [Blocked] after [n] rounds. *)
Fixpoint repeat_until {A} (n : nat) (body : step W (option A)) : step W A :=
  match n with
  | O => block
  | S n' => bind body (fun r => match r with Some a => ret a | None => repeat_until n' body end)
  end.
End Steps.

Declare Scope checker_scope.
Delimit Scope checker_scope with checker.
Notation "x <- m ; k" := (bind m (fun x => k)) (at level 100, m at next level, right associativity) : checker_scope.
#[local] Open Scope checker_scope.

(** ** Commands *)

(** The words [CheckCall] makes of a command. *)
Definition words (s : string) : list string := filter (fun c => c <> "") (Split " " s).


Definition newline : ascii := "010".
Definition apostrophe : ascii := "'".

(** The [for _, ... := range m] loops visit a Go map in some order. *)
Definition keys `{RangeOrder} {A} (m : gmap string A) : list string := (range A m).*1.

Section Commands.
Context {W : Type} `{CheckerEnv W} `{RangeOrder}.

Definition command (argv : list string) : step W (option error * string * string) :=
  _ <- observe (Command argv);
  on_env (run_command argv).

(** [RunStopAgent], [RunStartAgent] *)
Definition RunStopAgent (containerName : string) : step W (option error) :=
  r <- command ["docker"; "stop"; containerName];
  ret r.1.1.
Definition RunStartAgent (containerName : string) : step W (option error) :=
  r <- command ["docker"; "start"; containerName];
  ret r.1.1.

(** [RunKill9Agent]: [out.ReadBytes] gives nothing on an empty output and the
    loop around it never ends; otherwise the first line is the process. *)
Definition RunKill9Agent (containerName : string) : step W (option error) :=
  r <- command ["docker"; "exec"; containerName; "pgrep"; "-f"; "mysql-agent"];
  match r with
  | (Some _, _, _) => ret (Some (Errorf "pgrep"))
  | (None, out, _) =>
      if String.eqb out "" then block
      else
        k <- command ["docker"; "exec"; containerName; "kill"; "-9"; hd "" (Split newline out)];
        match k with
        | (Some _, _, _) => ret (Some (Errorf "kill"))
        | (None, _, _) => ret None
        end
  end.

(** [IPOf] *)
Definition IPOf (node : string) : step W (result string) :=
  r <- command ["docker"; "inspect"; "-f";
                "'{{range .NetworkSettings.Networks}}{{.IPAddress}}{{end}}'"; node];
  match r with
  | (Some _, _, _) => ret (inr (Errorf "docker inspect"))
  | (None, out, _) => ret (inl (remove_byte apostrophe (remove_byte newline out)))
  end.

(** [CheckCall]: [splitCommand[0]] panics when there is no word. *)
Definition CheckCall (cmd : string) : step W (result string) :=
  if String.eqb cmd "" then ret (inr NotValidf)
  else
    match words cmd with
    | [] => panic
    | argv =>
        r <- command argv;
        match r with
        | (Some _, _, _) => ret (inr (Errorf "command"))
        | (None, out, _) => ret (inl out)
        end
    end.

(** [fmt.Sprintf("--target %s ", ip)] for each address. *)
Definition add_targets (query : string) (ips : list string) : string :=
  foldl (fun q ip => q +:+ "--target " +:+ ip +:+ " ") query ips.

(** The command for one node; the loops of the two functions run it for each. *)
Definition partition_node (query partitionType node : string) : step W (option error) :=
  r <- CheckCall (query +:+ " " +:+ partitionType +:+ " " +:+ node);
  match r with
  | inr e => ret (Some e)
  | inl _ => ret None
  end.

(** [PartitionOutgoing] *)
Definition PartitionOutgoing (azs : AZs) (partitionTemplate partitionedAZ partitionType : string)
    : step W (option error) :=
  match azSet azs !! partitionedAZ with
  | None => ret (Some (Errorf "the az is not in azSet"))
  | Some _ =>
      let others := filter (fun '(ip, az) => ~ (ip = "" \/ az = partitionedAZ)) (range _ (ipAZMapping azs)) in
      let query := add_targets partitionTemplate others.*1 in
      for_each (keys (default ∅ (azNodeMapping azs !! partitionedAZ)))
        (partition_node query partitionType)
  end.

(** [PartitionIncoming] *)
Definition PartitionIncoming (azs : AZs) (partitionTemplate partitionedAZ partitionType : string)
    : step W (option error) :=
  match azSet azs !! partitionedAZ with
  | None => ret (Some (Errorf "the az is not in azSet"))
  | Some _ =>
      let query := add_targets partitionTemplate (keys (default ∅ (azIPMapping azs !! partitionedAZ))) in
      for_each (range _ (azNodeMapping azs)) (fun '(az, nodes) =>
        if String.eqb az partitionedAZ then ret None
        else for_each (keys nodes) (partition_node query partitionType))
  end.

(** ** The zones: the first loop of [Start] *)

Definition add_to (az x : string) (m : gmap string (gmap string bool)) : gmap string (gmap string bool) :=
  <[az := <[x := true]> (default ∅ (m !! az))]> m.

Definition add_container (azs : AZs) (container az ip : string) : AZs :=
  mkAZs (<[az := true]> (azSet azs)) (<[ip := az]> (ipAZMapping azs))
        (add_to az container (azNodeMapping azs)) (add_to az ip (azIPMapping azs)).

Fixpoint init_AZs (azs : AZs) (l : list (string * string)) : step W AZs :=
  match l with
  | [] => ret azs
  | (container, az) :: l' =>
      r <- IPOf container;
      match r with
      | inr _ => exit 1
      | inl ip => init_AZs (add_container azs container az ip) l'
      end
  end.

(** The zones and the template with a blank at its end. *)
Definition Start_init (cfg : Config) : step W (AZs * Config) :=
  azs <- init_AZs no_AZs (range _ (ContainerAZMapping cfg));
  let template := if HasSuffix (PartitionTemplate cfg) " " then PartitionTemplate cfg
                  else PartitionTemplate cfg +:+ " " in
  ret (azs, mkConfig (EtcdURLs cfg) (EtcdUsername cfg) (EtcdPassword cfg) (EtcdRootPath cfg) (ClusterName cfg) (DB cfg) (RootUser cfg) (RootPassword cfg)
              (IDContainerMapping cfg) (ContainerAZMapping cfg) template (PartitionType cfg) (ChaosJob cfg)).
End Commands.

(** ** Connections *)

(** The address of [buildDBConnFromID]: the parts around the first colons of
    the ID, 3306 without one. *)
Definition host_port (id : string) : string * Z :=
  match Split ":" id with
  | h :: p :: _ => (h, Tool.port_of p)
  | h :: _ => (h, 3306)
  | [] => ("", 3306)
  end.

Definition dsn_for (cfg : Config) (user password id : string) : string :=
  let '(h, p) := host_port id in
  dsn (mkDBConfig h user password p (db_Timeout (DB cfg)) "" "" "").

Section Connections.
Context {W : Type} `{CheckerEnv W} `{RangeOrder}.
Variables (cfg : Config) (azs : AZs).

Definition sql_open (name : string) : result string :=
  match sql_Open name with Some e => inr e | None => inl name end.

(** [buildDBConnFromID], [buildDBRootConnFromID] *)
Definition buildDBConnFromID (id : string) : result string :=
  sql_open (dsn_for cfg (db_User (DB cfg)) (db_Password (DB cfg)) id).
Definition buildDBRootConnFromID (id : string) : result string :=
  sql_open (dsn_for cfg (RootUser cfg) (RootPassword cfg) id).

(** [setDBConnection] *)
Definition setDBConnection (newMasterID : string) : step W unit :=
  match buildDBConnFromID newMasterID with
  | inr _ => exit 1
  | inl conn =>
      old <- on_server (fun v => (mysqlConnection v, v));
      _ <- match old with Some d => observe (Closed d) | None => ret tt end;
      on_server (fun v => (tt, mkServer newMasterID (Some conn) (chaosJobDone v)))
  end.

(** One of the goroutines that the chaos jobs start. *)
Definition run_goroutine (g : goroutine) : step W unit :=
  e <- match go_direction g with
       | Incoming => PartitionIncoming azs (go_template g) (go_az g) (go_type g)
       | Outgoing => PartitionOutgoing azs (go_template g) (go_az g) (go_type g)
       end;
  match e with
  | Some _ => if go_strict g then panic else ret tt
  | None => ret tt
  end.

Definition take_waiting (n : nat) : step W (option goroutine) := fun s =>
  (Ret (waiting s !! n), mkRun (env s) (server s) (schedule s) (delete n (waiting s)) (log s)).

Definition next_tick : step W tick := fun s =>
  match schedule s with
  | [] => (Ret (mkTick [] [] None), s)
  | t :: l => (Ret t, mkRun (env s) (server s) l (waiting s) (log s))
  end.

(** [for_each] over a body that does not return early. *)
Definition for_all {X} (l : list X) (body : X -> step W unit) : step W unit :=
  _ <- for_each (R := unit) l (fun x => _ <- body x; ret None);
  ret tt.

(** What the other goroutines do before an access to the shared state. *)
Definition interleave : step W unit :=
  t <- next_tick;
  _ <- for_all (delivered t) setDBConnection;
  _ <- for_all (finished t) (fun n =>
         g <- take_waiting n;
         match g with Some g => run_goroutine g | None => ret tt end);
  match stored t with
  | Some d => on_server (fun v => (tt, mkServer (mysqlID v) (mysqlConnection v) d))
  | None => ret tt
  end.

(** [getDBConnection], [atomic.LoadInt32(&s.chaosJobDone)] and
    [atomic.StoreInt32(&s.chaosJobDone, d)] *)
Definition getDBConnection : step W (string * option string) :=
  _ <- interleave;
  on_server (fun v => ((mysqlID v, mysqlConnection v), v)).
Definition load_done : step W Z :=
  _ <- interleave;
  d <- on_server (fun v => (chaosJobDone v, v));
  _ <- observe (Loaded d);
  ret d.
Definition store_done (d : Z) : step W unit :=
  on_server (fun v => (tt, mkServer (mysqlID v) (mysqlConnection v) d)).

Definition time_Sleep (d : Z) : step W unit := on_env (fun w => (tt, pass d w)).
Definition time_Now : step W Z := on_env (fun w => (clock w, w)).

(** Operations on a handle; a nil handle panics. *)
Definition Query (db : option string) (stmt : string) : step W (option error) :=
  name <- of_option db;
  on_env (sql_Query name stmt).
Definition Exec (db : option string) (stmt : string) (args : list Z) : step W (option error) :=
  name <- of_option db;
  _ <- observe (Statement name stmt args);
  on_env (sql_Exec name stmt args).

(** The client of etcd that [NewServer] creates. *)
Definition etcd_root : string := Client.keyWithPrefix (EtcdRootPath cfg) (ClusterName cfg).
Definition etcd_Get (key : string) : step W (result string) :=
  r <- on_env etcd_read;
  match r with
  | inr e => ret (inr e)
  | inl st => match Client.Get etcd_root key st with
              | inr e => ret (inr e)
              | inl (v, _) => ret (inl v)
              end
  end.
Definition etcd_PrefixGet (prefix : string) : step W (result (gmap string string)) :=
  r <- on_env etcd_read;
  match r with
  | inr e => ret (inr e)
  | inl st => ret (inl (Client.PrefixGet etcd_root prefix st))
  end.
Definition etcd_Delete (key : string) : step W (option error) :=
  on_env (etcd_write (Client.Delete etcd_root key false)).

(** ** The jobs *)

(** [DMLJob] *)
Record DMLJob := mkJob {
  Prepare : option string -> step W (option error);
  RunDML : option string -> Z -> step W (option error);
  Check : option string -> step W Z;
  GetInterval : Z;
  GetMaxCounter : Z;
  GetCheckWaitTime : Z
}.

(** [row := db.QueryRow(q); r := -1; row.Scan(&r)] *)
Definition count_rows (q : string) (db : option string) : step W Z :=
  name <- of_option db;
  r <- on_env (sql_Count name q);
  let rows := match r with inl n => n | inr _ => -1 end in
  _ <- observe (Counted name rows);
  ret rows.

(** [SimpleDMLJob] *)
Definition SimpleDMLJob_RunDML (db : option string) (c : Z) : step W (option error) :=
  Exec db "INSERT INTO checker.check(`id`, `value`) VALUES (?, ?)" [c; c].
Definition SimpleDMLJob : DMLJob := {|
  Prepare db := Exec db "
					CREATE TABLE checker.check (
					id INT UNSIGNED NOT NULL,
					value VARCHAR(45) NOT NULL
				    )ENGINE=InnoDB DEFAULT CHARSET=utf8;" [];
  RunDML := SimpleDMLJob_RunDML;
  Check := count_rows "select count(0) from checker.check";
  GetInterval := 100 * Millisecond;
  GetMaxCounter := 500;
  GetCheckWaitTime := 5 * Second
|}.

(** [LongTxnJob] *)
Definition LongTxnJob_RunDML (db : option string) (c : Z) : step W (option error) :=
  name <- of_option db;
  t <- on_env (sql_Begin name);
  match t with
  | inr e => ret (Some e)
  | inl txn =>
      e <- on_env (tx_Exec txn "INSERT INTO checker.long_txn(`id`, `value`) VALUES (?, ?)" [c; c]);
      match e with
      | Some e =>
          _ <- on_env (tx_Rollback txn);
          ret (Some e)
      | None =>
          _ <- on_env (tx_Exec txn "SELECT SLEEP(1)" []);
          e <- on_env (tx_Commit txn);
          match e with
          | Some _ => on_env (tx_Rollback txn)
          | None => ret None
          end
      end
  end.
Definition LongTxnJob : DMLJob := {|
  Prepare db := Exec db "
					CREATE TABLE checker.long_txn (
					id INT UNSIGNED NOT NULL,
					value VARCHAR(45) NOT NULL
				    )ENGINE=InnoDB DEFAULT CHARSET=utf8;" [];
  RunDML := LongTxnJob_RunDML;
  Check := count_rows "select count(0) from checker.long_txn";
  GetInterval := 3 * Second;
  GetMaxCounter := 5;
  GetCheckWaitTime := 30 * Second
|}.

(** The jobs that [Start] registers. *)
Definition dmlJobs : gmap string DMLJob :=
  <["long_txn" := LongTxnJob]> (<["simple" := SimpleDMLJob]> ∅).
End Connections.

(** ** The checks and the writers *)
Section Server.
Context {W : Type} `{CheckerEnv W} `{RangeOrder}.
Variables (cfg : Config) (azs : AZs).

(** One registered node of [check]. *)
Definition check_node (job : DMLJob (W := W)) (masterID : string) (masterRecord : Z) (k : string)
    : step W (option error) :=
  let id := TrimPrefix k "slave/" in
  if String.eqb id masterID then ret None
  else
    match buildDBConnFromID cfg id with
    | inr e => ret (Some e)
    | inl conn =>
        r <- Check job (Some conn);
        if r =? masterRecord then ret None else ret (Some (Errorf "fail to pass the check"))
    end.

(** The first test of [check]: fewer or more rows than were written are
    accepted after a partition only. *)
Definition check_master (job : DMLJob (W := W)) (masterRecord : Z) : step W bool :=
  if masterRecord =? GetMaxCounter job then ret true
  else
    d <- load_done cfg azs;
    if d =? 2 then ret true
    else
      d <- load_done cfg azs;
      ret (d =? 3).

(** [check] *)
Definition check (job : DMLJob (W := W)) : step W (option error) :=
  _ <- time_Sleep Second;
  m <- getDBConnection cfg azs;
  masterRecord <- Check job m.2;
  ok <- check_master job masterRecord;
  if negb ok then ret (Some (Errorf "fail to pass the check"))
  else
    d <- load_done cfg azs;
    if d =? 3 then ret None
    else
      r <- etcd_PrefixGet cfg "slave";
      match r with
      | inr e => ret (Some e)
      | inl registeredNodes => for_each (keys registeredNodes) (check_node job m.1 masterRecord)
      end.

(** The goroutine of a job in [Start]: [n] bounds the ticks of its timer, [k]
    the rounds of its wait for the chaos job. *)
Definition await_chaos (k : nat) : step W unit :=
  repeat_until k
    (d <- load_done cfg azs;
     if d =? 0 then _ <- time_Sleep (500 * Millisecond); ret None else ret (Some tt)).

Definition dml_finish (k : nat) (job : DMLJob (W := W)) : step W unit :=
  _ <- await_chaos k;
  _ <- time_Sleep (GetCheckWaitTime job);
  e <- check job;
  match e with
  | Some _ => exit 2
  | None => ret tt
  end.

(** One write of the job, after a tick of its timer. *)
Definition dml_round (job : DMLJob (W := W)) (c : Z) : step W (option error) :=
  _ <- time_Sleep (GetInterval job);
  m <- getDBConnection cfg azs;
  RunDML job m.2 c.

Fixpoint dml_loop (n k : nat) (job : DMLJob (W := W)) (c : Z) : step W unit :=
  match n with
  | O => block
  | S n' =>
      e <- dml_round job c;
      match e with
      | Some _ => _ <- observe (Wrote c false); dml_loop n' k job c
      | None =>
          _ <- observe (Wrote c true);
          if c + 1 =? GetMaxCounter job then dml_finish k job else dml_loop n' k job (c + 1)
      end
  end.

(** [initDB]; [n] and [k] bound the rounds of its two waits. *)
Definition TenMinutes : Z := 600 * Second.

Definition wait_master (n : nat) (startTime : Z) : step W string :=
  repeat_until n
    (m <- getDBConnection cfg azs;
     if String.eqb m.1 "" then
       now <- time_Now;
       if TenMinutes <? now - startTime then exit 2
       else _ <- time_Sleep (1000 * Millisecond); ret None
     else ret (Some m.1)).

Fixpoint await_mysql (k : nat) (startTime : Z) (conn : option string) : step W (option string) :=
  e <- Query conn "SELECT 1";
  match e with
  | None => ret conn
  | Some _ =>
      match k with
      | O => block
      | S k' =>
          now <- time_Now;
          if TenMinutes <? now - startTime then exit 2
          else
            _ <- time_Sleep (500 * Millisecond);
            m <- getDBConnection cfg azs;
            await_mysql k' startTime m.2
      end
  end.

Definition initDB (n k : nat) : step W (option error) :=
  t0 <- time_Now;
  masterID <- wait_master n t0;
  match buildDBRootConnFromID cfg masterID with
  | inr _ => exit 1
  | inl root =>
      t1 <- time_Now;
      conn <- await_mysql k t1 (Some root);
      e <- Exec conn "DROP SCHEMA IF EXISTS checker;" [];
      match e with
      | Some e => ret (Some e)
      | None =>
          e <- Exec conn "CREATE SCHEMA checker;" [];
          match e with
          | Some e => ret (Some e)
          | None =>
              e <- for_each (range _ dmlJobs) (fun '(_, job) => Prepare job conn);
              match e with
              | Some e => ret (Some e)
              | None => _ <- time_Sleep (5 * Second); ret None
              end
          end
      end
  end.

(** ** The poller *)

(** What a round of [pollMaster] takes for the ID of the master. *)
Definition poll_answer (r : result Store) : string :=
  match r with
  | inr _ => ""
  | inl st => match Client.Get (etcd_root cfg) "master" st with inr _ => "" | inl (v, _) => v end
  end.

(** [pollMaster]: the IDs it sends when the rounds get these answers. *)
Fixpoint pollMaster (masterID : string) (rounds : list (result Store)) : list string :=
  match rounds with
  | [] => []
  | r :: rounds' =>
      let newMasterID := poll_answer r in
      if String.eqb newMasterID masterID then pollMaster masterID rounds'
      else if String.eqb newMasterID "" then pollMaster newMasterID rounds'
      else newMasterID :: pollMaster newMasterID rounds'
  end.
End Server.

(** ** Preorders that programs respect *)

Definition within {W A} (R : relation (run W)) (m : step W A) : Prop := forall s, R s (m s).2.

Create HintDb within.

Section Within.
Context {W : Type} (R : relation (run W)) `{!PreOrder R}.

Lemma within_ret {A} (a : A) : within R (ret a).
Proof. by intros s. Qed.
Lemma within_exit {A} (c : Z) : within R (exit (A := A) c).
Proof. by intros s. Qed.
Lemma within_panic {A} : within R (panic (A := A)).
Proof. by intros s. Qed.
Lemma within_block {A} : within R (block (A := A)).
Proof. by intros s. Qed.
Lemma within_of_option {A} (o : option A) : within R (of_option o).
Proof. by destruct o; intros s. Qed.
Lemma within_bind {A B} (m : step W A) (k : A -> step W B) :
  within R m -> (forall a, within R (k a)) -> within R (bind m k).
Proof.
  intros Hm Hk s. unfold bind. specialize (Hm s). destruct (m s) as [[a| | |] s1]; cbn in *; [|done..].
  etrans; [exact Hm|apply Hk].
Qed.
Lemma within_for_each {X B} (l : list X) (body : X -> step W (option B)) :
  (forall x, within R (body x)) -> within R (for_each l body).
Proof.
  intros Hb. induction l as [|x l IH]; [apply within_ret|]. cbn [for_each].
  apply within_bind; [done|]. intros [r|]; [apply within_ret|exact IH].
Qed.
Lemma within_repeat_until {A} (n : nat) (body : step W (option A)) :
  within R body -> within R (repeat_until n body).
Proof.
  intros Hb. induction n as [|n IH]; [apply within_block|]. cbn [repeat_until].
  apply within_bind; [done|]. intros [a|]; [apply within_ret|exact IH].
Qed.
Lemma within_for_all {X} (l : list X) (body : X -> step W unit) :
  (forall x, within R (body x)) -> within R (for_all l body).
Proof.
  intros Hb. apply within_bind; [|intros; apply within_ret].
  apply within_for_each. intros x. apply within_bind; [done|]. intros. apply within_ret.
Qed.
End Within.
#[export] Hint Resolve within_ret within_exit within_panic within_block within_of_option : within.
#[export] Hint Extern 0 (PreOrder _) => apply _ : within.

(** Follow the branches of a program. *)
Ltac follow :=
  repeat first
    [ solve [eauto with within]
    | progress intros
    | apply within_bind; [apply _|..]
    | apply within_for_each; [apply _|]
    | apply within_for_all; [apply _|]
    | apply within_repeat_until; [apply _|]
    | break_match ].

(** ** The log only grows, and the connection is that of the master's ID *)
Section Growth.
Context {W : Type} `{CheckerEnv W} `{RangeOrder}.
Variables (cfg : Config) (azs : AZs).

Definition connected (v : Server) : Prop :=
  forall conn, mysqlConnection v = Some conn -> buildDBConnFromID cfg (mysqlID v) = inl conn.

(** Only events of [P] are added. *)
Record advance (P : event -> Prop) (s s' : run W) : Prop := {
  adv_log : exists new, log s' = new ++ log s /\ Forall P new;
  adv_conn : connected (server s) -> connected (server s')
}.

#[global] Instance advance_preorder (P : event -> Prop) : PreOrder (advance P).
Proof.
  split.
  - intros s. split; [by exists []|done].
  - intros s1 s2 s3 [(n1 & E1 & F1) C1] [(n2 & E2 & F2) C2]. split; [|auto].
    exists (n2 ++ n1). by rewrite E2, E1, app_assoc, Forall_app.
Qed.

Lemma advance_mono (P Q : event -> Prop) (s s' : run W) :
  (forall e, P e -> Q e) -> advance P s s' -> advance Q s s'.
Proof. intros Hpq [(n & E & F) C]. split; [|done]. exists n. split; [done|by eapply Forall_impl]. Qed.

Lemma within_mono {A} (P Q : event -> Prop) (m : step W A) :
  (forall e, P e -> Q e) -> within (advance P) m -> within (advance Q) m.
Proof. intros Hpq Hm s. by eapply advance_mono. Qed.

Lemma within_on_env {A} (P : event -> Prop) (f : W -> A * W) : within (advance P) (on_env f).
Proof. intros s. unfold on_env. destruct (f (env s)). split; [by exists []|done]. Qed.
Lemma within_observe (P : event -> Prop) (e : event) : P e -> within (advance P) (observe e).
Proof. intros He s. split; [exists [e]; by split; [|apply Forall_singleton]|done]. Qed.
Lemma within_read {A} (P : event -> Prop) (f : Server -> A) :
  within (advance P) (on_server (fun v => (f v, v))).
Proof. intros s. split; [by exists []|done]. Qed.
Lemma within_store_done (P : event -> Prop) (d : Z) : within (advance P) (store_done d).
Proof. intros s. split; [by exists []|done]. Qed.
Lemma within_start (P : event -> Prop) (g : goroutine) : within (advance P) (start g).
Proof. intros s. split; [by exists []|done]. Qed.
Lemma within_take_waiting (P : event -> Prop) (n : nat) : within (advance P) (take_waiting n).
Proof. intros s. split; [by exists []|done]. Qed.
Lemma within_next_tick (P : event -> Prop) : within (advance P) next_tick.
Proof. intros s. unfold next_tick. destruct (schedule s); (split; [by exists []|done]). Qed.

(** What the other goroutines add. *)
Definition foreign (e : event) : Prop :=
  match e with Command _ | Closed _ => True | _ => False end.

#[local] Hint Resolve within_on_env within_observe within_read within_store_done within_start
  within_take_waiting within_next_tick : within.
#[local] Hint Extern 1 (foreign _) => exact I : within.

Lemma within_setDBConnection (id : string) : within (advance foreign) (setDBConnection cfg id).
Proof.
  unfold setDBConnection. destruct (buildDBConnFromID cfg id) as [conn|e] eqn:E; [|apply within_exit, _].
  intros s. cbn. destruct (mysqlConnection (server s)); cbn; split; cbn.
  - eexists [_]. split; [done|by apply Forall_singleton].
  - intros _ c. by intros [= <-].
  - by exists [].
  - intros _ c. by intros [= <-].
Qed.

Lemma within_command (P : event -> Prop) (argv : list string) :
  (forall a, P (Command a)) -> within (advance P) (command argv).
Proof. intros HP. unfold command. apply within_bind; [apply _|by apply within_observe|auto with within]. Qed.

#[local] Hint Resolve within_command within_setDBConnection : within.

Lemma within_partition_node (q t node : string) : within (advance foreign) (partition_node q t node).
Proof. unfold partition_node, CheckCall. follow. Qed.

#[local] Hint Resolve within_partition_node : within.

Lemma within_run_goroutine (g : goroutine) : within (advance foreign) (run_goroutine azs g).
Proof. unfold run_goroutine, PartitionIncoming, PartitionOutgoing. follow. Qed.

#[local] Hint Resolve within_run_goroutine : within.

Lemma within_interleave : within (advance foreign) (interleave cfg azs).
Proof. unfold interleave. follow. Qed.

Lemma within_getDBConnection : within (advance foreign) (getDBConnection cfg azs).
Proof. unfold getDBConnection. apply within_bind; [apply _|apply within_interleave|]. auto with within. Qed.
End Growth.
#[export] Hint Resolve within_on_env within_observe within_read within_store_done within_start : within.

(** ** What a passed check has seen *)
Section Checks.
Context {W : Type} `{CheckerEnv W} `{RangeOrder}.
Variables (cfg : Config) (azs : AZs).

(** The database of the node [id] was counted and had [m] rows. *)
Definition counted (new : list event) (id : string) (m : Z) : Prop :=
  exists conn, buildDBConnFromID cfg id = inl conn /\ Counted conn m ∈ new.

(** Everything but the acknowledgements of the writers. *)
Definition unwritten (e : event) : Prop := match e with Wrote _ _ => False | _ => True end.

Lemma foreign_unwritten (e : event) : foreign e -> unwritten e.
Proof. by destruct e. Qed.

Lemma within_interleave_any : within (advance cfg unwritten) (interleave cfg azs).
Proof. eapply within_mono; [apply foreign_unwritten|apply within_interleave]. Qed.
Lemma within_getDB_any : within (advance cfg unwritten) (getDBConnection cfg azs).
Proof. eapply within_mono; [apply foreign_unwritten|apply within_getDBConnection]. Qed.
#[local] Hint Resolve within_interleave_any within_getDB_any : within.
#[local] Hint Extern 1 (unwritten _) => exact I : within.

Lemma within_load_done : within (advance cfg unwritten) (load_done cfg azs).
Proof. unfold load_done. follow. Qed.
Lemma within_count_rows (q : string) (db : option string) : within (advance cfg unwritten) (count_rows q db).
Proof. unfold count_rows. follow. Qed.
#[local] Hint Resolve within_load_done within_count_rows : within.

(** A program returned: its events, and what holds of the connection. *)
Lemma advanced {A} (P : event -> Prop) (m : step W A) (s s' : run W) (a : A) :
  within (advance cfg P) m -> m s = (Ret a, s') -> connected cfg (server s) ->
  exists new, log s' = new ++ log s /\ Forall P new /\ connected cfg (server s').
Proof. intros Hm E Hc. destruct (Hm s) as [(n & L & F) C]. rewrite E in *. exists n. auto. Qed.

Lemma load_done_event (s s' : run W) (d : Z) :
  load_done cfg azs s = (Ret d, s') -> exists new, log s' = Loaded d :: new ++ log s.
Proof.
  unfold load_done, bind. destruct (interleave cfg azs s) as [[[]| | |] s1] eqn:E; try done.
  cbn. intros [= <- <-]. cbn. pose proof (within_interleave_any s) as [(n & L & _) _]. rewrite E in L.
  cbn in L. exists n. by rewrite L.
Qed.

Lemma count_rows_event (q : string) (db : option string) (s s' : run W) (m : Z) :
  count_rows q db s = (Ret m, s') ->
  exists conn, db = Some conn /\ log s' = Counted conn m :: log s /\ server s' = server s.
Proof.
  unfold count_rows, bind. destruct db as [conn|]; [|done]. cbn. unfold on_env.
  destruct (sql_Count conn q (env s)) as [r w]. cbn. intros [= <- <-]. by exists conn.
Qed.

Lemma getDBConnection_conn (s s' : run W) (id : string) (conn : option string) :
  getDBConnection cfg azs s = (Ret (id, conn), s') -> mysqlID (server s') = id /\ mysqlConnection (server s') = conn.
Proof.
  unfold getDBConnection, bind. destruct (interleave cfg azs s) as [[[]| | |] s1]; try done.
  cbn. by intros [= <- <- <-].
Qed.

Variable job : DMLJob (W := W).
Variable q : string.
Hypothesis Hjob : Check job = count_rows q.

Lemma within_check_node (masterID k : string) (m : Z) : within (advance cfg unwritten) (check_node cfg job masterID m k).
Proof. unfold check_node. rewrite Hjob. follow. Qed.

Lemma check_node_event (masterID k : string) (m : Z) (s s' : run W) :
  check_node cfg job masterID m k s = (Ret None, s') ->
  TrimPrefix k "slave/" = masterID \/ exists conn, buildDBConnFromID cfg (TrimPrefix k "slave/") = inl conn /\
    log s' = Counted conn m :: log s.
Proof.
  unfold check_node. rewrite Hjob. destruct (String.eqb_spec (TrimPrefix k "slave/") masterID); [by left|].
  destruct (buildDBConnFromID cfg _) as [conn|]; [|done]. unfold bind.
  destruct (count_rows q (Some conn) s) as [[r| | |] s1] eqn:E; try done.
  apply count_rows_event in E as (c & [= <-] & L & _).
  destruct (Z.eqb_spec r m) as [->|]; [|done]. intros [= <-]. right. eauto.
Qed.

Lemma check_nodes_event (masterID : string) (m : Z) (ks : list string) (s s' : run W) :
  for_each ks (check_node cfg job masterID m) s = (Ret None, s') ->
  exists new, log s' = new ++ log s /\
    forall k, k ∈ ks -> TrimPrefix k "slave/" = masterID \/ counted new (TrimPrefix k "slave/") m.
Proof.
  revert s. induction ks as [|k ks IH]; intros s; cbn [for_each].
  { intros [= <-]. exists []. split; [done|]. by intros k ?%elem_of_nil. }
  unfold bind. destruct (check_node cfg job masterID m k s) as [[[e|]| | |] s1] eqn:E; try done.
  intros (n2 & L2 & H2)%IH.
  destruct (within_check_node masterID k m s) as [(n1 & L1 & _) _]. rewrite E in L1. cbn in L1.
  exists (n2 ++ n1). split; [by rewrite L2, L1, app_assoc|].
  intros k' [->|Hk]%elem_of_cons.
  - apply check_node_event in E as [?|(conn & Hc & L)]; [by left|right].
    exists conn. split; [done|]. rewrite L in L1. change (Counted conn m :: log s) with ([Counted conn m] ++ log s) in L1.
    apply app_inv_tail in L1 as <-. apply elem_of_app. right. by apply list_elem_of_singleton.
  - destruct (H2 k' Hk) as [?|(conn & Hc & Hin)]; [by left|right].
    exists conn. rewrite elem_of_app. auto.
Qed.

Lemma check_master_event (m : Z) (s s' : run W) :
  check_master cfg azs job m s = (Ret true, s') ->
  exists new, log s' = new ++ log s /\ (m = GetMaxCounter job \/ Loaded 2 ∈ new \/ Loaded 3 ∈ new).
Proof.
  unfold check_master. destruct (Z.eqb_spec m (GetMaxCounter job)).
  { intros [= <-]. exists []. auto. }
  unfold bind. destruct (load_done cfg azs s) as [[d| | |] s1] eqn:E1; try done.
  apply load_done_event in E1 as (n1 & L1). destruct (Z.eqb_spec d 2) as [->|].
  { intros [= <-]. exists (Loaded 2 :: n1). rewrite L1. split; [done|]. set_solver. }
  destruct (load_done cfg azs s1) as [[d'| | |] s2] eqn:E2; try done.
  apply load_done_event in E2 as (n2 & L2). cbn. intros [= E <-]. apply Z.eqb_eq in E as ->.
  exists (Loaded 3 :: n2 ++ Loaded d :: n1). rewrite L2, L1. split; [cbn; by rewrite <- app_assoc|]. set_solver.
Qed.

(** The registered nodes that [check] compares, from the store it read. *)
Definition registered_nodes (st : Store) : gmap string string := Client.PrefixGet (etcd_root cfg) "slave" st.

(** Between [s] and [s'] a check has asked for the connection to the master,
    which was [masterID], has counted [m] rows there (-1 when the count failed),
    and [after] is what happened from then on. *)
Definition checked (s s' : run W) (masterID : string) (m : Z) (after : list event) : Prop :=
  exists r r' conn before, getDBConnection cfg azs r = (Ret (masterID, Some conn), r') /\
    buildDBConnFromID cfg masterID = inl conn /\ log r' = before ++ log s /\ log s' = after ++ Counted conn m :: log r'.

(** What a passed check guarantees. *)
Definition verified (s s' : run W) : Prop :=
  exists masterID m after, checked s s' masterID m after /\
    (m = GetMaxCounter job \/ Loaded 2 ∈ after \/ Loaded 3 ∈ after) /\
    (Loaded 3 ∈ after \/ exists st w w', etcd_read w = (inl st, w') /\
       forall k, k ∈ keys (registered_nodes st) ->
         TrimPrefix k "slave/" = masterID \/ counted after (TrimPrefix k "slave/") m).

Lemma verified_mono (s0 s s' : run W) (new : list event) : log s = new ++ log s0 -> verified s s' -> verified s0 s'.
Proof.
  intros L (id & m & after & (r & r' & conn & before & H1 & H2 & H3 & H4) & Hm). exists id, m, after. split; [|done].
  exists r, r', conn, (before ++ new). split_and!; auto. by rewrite H3, L, app_assoc.
Qed.

Lemma counted_mono (new new' : list event) (id : string) (m : Z) :
  (forall e, e ∈ new -> e ∈ new') -> counted new id m -> counted new' id m.
Proof. intros Hs (c & Hc & Hin). exists c. auto. Qed.

(** The part of [check] after the count on the master. *)
Lemma check_rest (masterID : string) (m : Z) (s s' : run W) :
  (ok <- check_master cfg azs job m;
   if negb ok then ret (Some (Errorf "fail to pass the check"))
   else
     d <- load_done cfg azs;
     if d =? 3 then ret None
     else
       r <- etcd_PrefixGet cfg "slave";
       match r with
       | inr e => ret (Some e)
       | inl registeredNodes => for_each (keys registeredNodes) (check_node cfg job masterID m)
       end) s = (Ret None, s') ->
  exists new, log s' = new ++ log s /\ (m = GetMaxCounter job \/ Loaded 2 ∈ new \/ Loaded 3 ∈ new) /\
    (Loaded 3 ∈ new \/ exists st w w', etcd_read w = (inl st, w') /\
       forall k, k ∈ keys (registered_nodes st) ->
         TrimPrefix k "slave/" = masterID \/ counted new (TrimPrefix k "slave/") m).
Proof.
  unfold bind at 1. destruct (check_master cfg azs job m s) as [[[]| | |] s1] eqn:E1; try done.
  apply check_master_event in E1 as (n1 & L1 & H1). cbn [negb].
  unfold bind at 1. destruct (load_done cfg azs s1) as [[d| | |] s2] eqn:E2; try done.
  apply load_done_event in E2 as (n2 & L2). destruct (Z.eqb_spec d 3) as [->|].
  { intros [= <-]. exists (Loaded 3 :: n2 ++ n1). rewrite L2, L1. split; [cbn; by rewrite app_assoc|].
    split; [set_solver|left; set_solver]. }
  unfold etcd_PrefixGet, bind, on_env. destruct (etcd_read (env s2)) as [[st|e] w'] eqn:Er; [|done].
  cbn [ret]. intros (n3 & L3 & H3)%check_nodes_event. cbn [log] in L3.
  exists (n3 ++ Loaded d :: n2 ++ n1). split_and!.
  - rewrite L3, L2, L1. rewrite <- !app_assoc. cbn. by rewrite <- app_assoc.
  - set_solver.
  - right. exists st, (env s2), w'. split; [done|]. intros k Hk. destruct (H3 k Hk) as [?|Hc]; [by left|right].
    eapply counted_mono; [|exact Hc]. set_solver.
Qed.

Lemma check_verified (s s' : run W) :
  connected cfg (server s) -> check cfg azs job s = (Ret None, s') -> verified s s'.
Proof.
  intros Hc0. unfold check. unfold bind at 1. cbn [time_Sleep on_env].
  set (s0 := mkRun _ _ _ _ _). unfold bind at 1.
  destruct (getDBConnection cfg azs s0) as [[[masterID conn]| | |] s1] eqn:E1; try done.
  destruct (advanced _ _ _ _ _ within_getDB_any E1 Hc0) as (n1 & L1 & _ & C1). cbn [log] in L1.
  pose proof E1 as Eget. apply getDBConnection_conn in E1 as [Hid Hconn]. cbn [fst snd]. rewrite Hjob. unfold bind at 1.
  destruct (count_rows q conn s1) as [[m| | |] s2] eqn:E2; try done.
  apply count_rows_event in E2 as (c & -> & L2 & _).
  intros (n3 & L3 & H3 & H4)%check_rest. exists masterID, m, n3. split; [|done].
  exists s0, s1, c, n1. split_and!; [done| |done|by rewrite L3, L2]. rewrite <- Hid. by apply C1.
Qed.

(** The counters whose write was acknowledged. *)
Definition acked (new : list event) : list Z :=
  omap (fun e => match e with Wrote c true => Some c | _ => None end) new.

Lemma acked_none (new : list event) : Forall unwritten new -> acked (rev new) = [].
Proof.
  intros Hf. unfold acked. apply Forall_rev in Hf. induction Hf as [|e l He Hl IH]; [done|].
  cbn. destruct e; try exact IH. done.
Qed.

Hypothesis Hrun : forall db c, within (advance cfg unwritten) (RunDML job db c).

Lemma within_check : within (advance cfg unwritten) (check cfg azs job).
Proof.
  unfold check, check_master, etcd_PrefixGet. rewrite Hjob. pose proof within_check_node. follow.
Qed.

Lemma dml_finish_verified (k : nat) (s s' : run W) :
  connected cfg (server s) -> dml_finish cfg azs k job s = (Ret tt, s') ->
  exists new, log s' = new ++ log s /\ Forall unwritten new /\ verified s s'.
Proof.
  intros Hc. unfold dml_finish. unfold bind at 1.
  assert (within (advance cfg unwritten) (await_chaos cfg azs k)) as Hw by (unfold await_chaos; follow).
  destruct (await_chaos cfg azs k s) as [[[]| | |] s1] eqn:E1; try done.
  destruct (advanced _ _ _ _ _ Hw E1 Hc) as (n1 & L1 & F1 & C1).
  unfold bind at 1. cbn [time_Sleep on_env]. set (s1' := mkRun _ _ _ _ _).
  unfold bind. destruct (check cfg azs job s1') as [[[e|]| | |] s2] eqn:E2; try done. intros [= <-].
  destruct (advanced _ _ _ _ _ within_check E2 C1) as (n2 & L2 & F2 & _).
  pose proof (check_verified s1' s2 C1 E2) as V.
  exists (n2 ++ n1). cbn [log] in L2. rewrite L2. unfold s1'. cbn [log]. rewrite L1, app_assoc.
  split_and!; [done|by apply Forall_app|]. by eapply (verified_mono s s1').
Qed.

Lemma acked_app (l1 l2 : list event) : acked (l1 ++ l2) = acked l1 ++ acked l2.
Proof. apply omap_app. Qed.

Lemma acked_round (c : Z) (ok : bool) (l1 l2 : list event) :
  Forall unwritten l1 -> acked (rev (l2 ++ Wrote c ok :: l1)) = (if ok then [c] else []) ++ acked (rev l2).
Proof.
  intros Hf. rewrite rev_app_distr. cbn [rev]. rewrite !acked_app, (acked_none l1 Hf). by destruct ok.
Qed.

Lemma dml_loop_writes (n k : nat) (c : Z) (s s' : run W) :
  c < GetMaxCounter job -> connected cfg (server s) -> dml_loop cfg azs n k job c s = (Ret tt, s') ->
  exists new, log s' = new ++ log s /\ acked (rev new) = seqZ c (GetMaxCounter job - c) /\ verified s s'.
Proof.
  revert c s. induction n as [|n IH]; intros c s Hmax Hc; cbn [dml_loop]; [done|]. unfold bind at 1.
  assert (within (advance cfg unwritten) (dml_round cfg azs job c)) as Hw by (unfold dml_round; follow).
  destruct (dml_round cfg azs job c s) as [[e| | |] s1] eqn:E1; try done.
  destruct (advanced _ _ _ _ _ Hw E1 Hc) as (n1 & L1 & F1 & C1).
  assert (forall ok n2 a s2, log s2 = Wrote c ok :: log s1 -> log s' = n2 ++ Wrote c ok :: log s1 -> verified s2 s' ->
            (if ok then [c] else []) ++ acked (rev n2) = a ->
            exists new, log s' = new ++ log s /\ acked (rev new) = a /\ verified s s') as Hround.
  { intros ok n2 a s2 Ls L2 V2 <-. exists (n2 ++ Wrote c ok :: n1). split_and!.
    - by rewrite L2, L1, <- app_assoc.
    - by apply acked_round.
    - eapply (verified_mono s s2 s' (Wrote c ok :: n1)); [by rewrite Ls, L1|exact V2]. }
  destruct e as [e|]; unfold bind at 1; cbn [observe].
  - intros Hr. destruct (IH c (mkRun _ _ _ _ _) Hmax C1 Hr) as (n2 & L2 & A2 & V2). by eapply (Hround false n2 _ (mkRun _ _ _ _ _)); [|exact L2|exact V2|].
  - destruct (Z.eqb_spec (c + 1) (GetMaxCounter job)) as [Em|Em]; intros Hr.
    + destruct (dml_finish_verified k (mkRun _ _ _ _ _) _ C1 Hr) as (n2 & L2 & F2 & V2). eapply (Hround true n2 _ (mkRun _ _ _ _ _)); [|exact L2|exact V2|]; [done|].
      rewrite (acked_none n2 F2), (seqZ_cons c), seqZ_nil by lia. done.
    + destruct (IH (c + 1) (mkRun _ _ _ _ _) ltac:(lia) C1 Hr) as (n2 & L2 & A2 & V2). eapply (Hround true n2 _ (mkRun _ _ _ _ _)); [|exact L2|exact V2|]; [done|].
      rewrite A2, (seqZ_cons c) by lia. cbn. do 2 f_equal; lia.
Qed.
End Checks.

(** ** The theorems *)
Lemma elem_of_range `{RangeOrderOk} {A} (m : gmap string A) (k : string) (v : A) :
  (k, v) ∈ range A m <-> m !! k = Some v.
Proof. rewrite (range_perm A m). apply elem_of_map_to_list. Qed.

Lemma elem_of_keys `{RangeOrderOk} {A} (m : gmap string A) (k : string) : k ∈ keys m <-> is_Some (m !! k).
Proof.
  unfold keys. rewrite list_elem_of_fmap. split.
  - intros ([k' v] & -> & Hin%elem_of_range). by exists v.
  - intros [v Hv]. exists (k, v). by rewrite elem_of_range.
Qed.

Section Theorems.
Context {W : Type} `{CheckerEnv W} `{RangeOrder}.
Variables (cfg : Config) (azs : AZs).
#[local] Hint Extern 1 (unwritten _) => exact I : within.

Lemma within_SimpleDMLJob (db : option string) (c : Z) :
  within (advance cfg unwritten) (RunDML SimpleDMLJob db c).
Proof. cbn [RunDML SimpleDMLJob]. unfold SimpleDMLJob_RunDML, Exec. follow. Qed.

Lemma within_LongTxnJob (db : option string) (c : Z) :
  within (advance cfg unwritten) (RunDML LongTxnJob db c).
Proof. cbn [RunDML LongTxnJob]. unfold LongTxnJob_RunDML. follow. Qed.

(** When the goroutine of a job ends without ending the process, the
    counters 0 to its maximum have been acknowledged by the database once
    each, in order, and its check has passed: one number of rows was counted
    on the master and then on every other node that was registered in etcd
    (unless the chaos job allows no comparison), and it is the maximum unless the
    chaos job allows a loss.  This holds whatever the other goroutines do
    meanwhile. *)
Lemma writer_done (n k : nat) (job : DMLJob (W := W)) (s s' : run W) :
  job = SimpleDMLJob \/ job = LongTxnJob -> connected cfg (server s) ->
  dml_loop cfg azs n k job 0 s = (Ret tt, s') ->
  exists new, log s' = new ++ log s /\ acked (rev new) = seqZ 0 (GetMaxCounter job) /\ verified cfg azs job s s'.
Proof.
  intros Hjob Hc Hr. rewrite <- (Z.sub_0_r (GetMaxCounter job)).
  destruct Hjob as [->| ->].
  - by apply (dml_loop_writes cfg azs SimpleDMLJob _ eq_refl within_SimpleDMLJob n k).
  - by apply (dml_loop_writes cfg azs LongTxnJob _ eq_refl within_LongTxnJob n k).
Qed.

(** ** The nodes that the agents register *)

Lemma registered_key (acfg : World.Config) (id : string) (st : Store) :
  etcd_root cfg = rootPath acfg -> plain_root acfg -> plain_elem id = true ->
  is_Some (kvs st !! key_of acfg ["slave"; id]) -> is_Some (registered_nodes cfg st !! ("slave/" +:+ id)).
Proof.
  intros Er Hroot Hid [kv Hkv]. unfold registered_nodes, Client.PrefixGet. rewrite Er.
  assert (Forall (fun e => plain_elem e = true) ["slave"; id]) as Hp by (repeat constructor; done).
  destruct (list_to_map _ !! _) as [v|] eqn:E; [by exists v|]. exfalso.
  apply not_elem_of_list_to_map in E. apply E. apply list_elem_of_fmap.
  exists ("slave/" +:+ id, Value kv). split; [done|]. apply list_elem_of_fmap.
  exists (key_of acfg ["slave"; id], kv). split.
  - f_equal. symmetry. by apply (trim_root_key acfg ["slave"; id]).
  - apply elem_of_map_to_list, map_lookup_filter_Some. split; [done|]. cbn.
    etrans; [apply (path_Join_prefix (rootPath acfg) ["slave"] ["slave"; id]); by repeat constructor|].
    apply prefix_spec. by exists (String "/" id).
Qed.

(** C39. When the goroutine of a job ends without ending the process, the
    counters 0 to its maximum have been acknowledged by the database once
    each, in order, whatever the other goroutines do meanwhile; and a node that
    its agent keeps registered is not forgotten.  The check took the node the
    connection was to as the master and counted its rows; and unless the chaos
    job allows no comparison, the registered node is that master, or its
    database was counted after the master's and gave the same number, a failed
    count being -1.  This number is that of the acknowledged writes, unless the
    chaos job was a partition. *)
Theorem registered_node_verified (n k : nat) (job : DMLJob (W := W)) (s s' : run W) (acfg : World.Config) (id : string)
    `{!RangeOrderOk} :
  job = SimpleDMLJob \/ job = LongTxnJob -> connected cfg (server s) ->
  etcd_root cfg = rootPath acfg -> plain_root acfg -> plain_elem id = true ->
  (forall st w w', etcd_read w = (inl st, w') -> is_Some (kvs st !! key_of acfg ["slave"; id])) ->
  dml_loop cfg azs n k job 0 s = (Ret tt, s') ->
  exists new, log s' = new ++ log s /\ acked (rev new) = seqZ 0 (GetMaxCounter job) /\
    exists masterID m after, checked cfg azs s s' masterID m after /\
      (Loaded 3 ∈ after \/
       (id = masterID \/ counted cfg after id m) /\
       (m = Z.of_nat (length (acked (rev new))) \/ Loaded 2 ∈ after)).
Proof.
  intros Hjob Hc Er Hroot Hid Hst Hr.
  destruct (writer_done n k job s s' Hjob Hc Hr) as (new & L & Ha & masterID & m & after & Hm & Hmax & Hreg).
  exists new. do 2 (split; [done|]). exists masterID, m, after. split; [done|].
  destruct Hreg as [?|(st & w & w' & E & Hk)]; [by left|].
  destruct Hmax as [Hmax|[?|?]]; [right|right|by left]; split.
  1,3: rewrite <- (TrimPrefix_app "slave/" id); apply Hk, elem_of_keys; by eapply registered_key, Hst.
  - left. rewrite Ha, length_seqZ, Hmax. destruct Hjob as [->| ->]; done.
  - by right.
Qed.

(** A count that fails is the number -1, and two of them agree: after a
    partition, where any number is accepted, a check passes on databases that it
    could not read. *)
Lemma failed_counts_agree (masterID k conn : string) (e : error) (s : run W) :
  TrimPrefix k "slave/" <> masterID -> buildDBConnFromID cfg (TrimPrefix k "slave/") = inl conn ->
  (sql_Count conn "select count(0) from checker.check" (env s)).1 = inr e ->
  (check_node cfg SimpleDMLJob masterID (-1) k s).1 = Ret None.
Proof.
  intros Hne Hb Hf. unfold check_node. apply String.eqb_neq in Hne. rewrite Hne, Hb.
  cbn [Check SimpleDMLJob]. unfold count_rows, bind, of_option, ret, on_env.
  destruct (sql_Count conn _ (env s)) as [r w]. cbn in Hf. by subst r.
Qed.

(** A transaction of [LongTxnJob] whose commit fails counts as written when
    the rollback after it reports no error. *)
Lemma LongTxn_commit_error (db : string) (c txn : Z) (e : error) (s : run W) (w1 w2 w3 w4 w5 : W) :
  sql_Begin db (env s) = (inl txn, w1) ->
  tx_Exec txn "INSERT INTO checker.long_txn(`id`, `value`) VALUES (?, ?)" [c; c] w1 = (None, w2) ->
  (tx_Exec txn "SELECT SLEEP(1)" [] w2).2 = w3 -> tx_Commit txn w3 = (Some e, w4) ->
  tx_Rollback txn w4 = (None, w5) ->
  (LongTxnJob_RunDML (Some db) c s).1 = Ret None.
Proof.
  intros E1 E2 E3 E4 E5. unfold LongTxnJob_RunDML, bind, on_env, of_option, ret. rewrite E1. cbn [env].
  rewrite E2. cbn [env]. destruct (tx_Exec _ "SELECT SLEEP(1)" [] w2) as [? w]. cbn in E3. subst w. cbn [env].
  rewrite E4. cbn [env]. by rewrite E5.
Qed.

(** ** The poller *)

(** The last answer that named a master. *)
Definition last_known (l : list string) : string := default "" (last (filter (fun id => id <> "") l)).

Lemma last_known_cons (a : string) (l : list string) :
  last_known (a :: l) = if String.eqb (last_known l) "" then a else last_known l.
Proof.
  unfold last_known. assert (last (filter (fun id => id <> "") l) <> Some "") as Hne.
  { intros Hl. apply last_Some_elem_of, list_elem_of_filter in Hl as [? _]. done. }
  rewrite filter_cons. destruct (decide (a <> "")) as [Ha|Ha].
  - rewrite last_cons. destruct (last _) as [b|]; cbn; [|done].
    destruct (String.eqb_spec b ""); [congruence|done].
  - destruct (String.eqb_spec (default "" (last (filter (fun id => id <> "") l))) "") as [E|]; [|done].
    rewrite E. symmetry. by apply dec_stable.
Qed.

Lemma for_all_cons {X} (x : X) (l : list X) (body : X -> step W unit) (s s' : run W) :
  for_all (x :: l) body s = (Ret tt, s') ->
  exists s1, body x s = (Ret tt, s1) /\ for_all l body s1 = (Ret tt, s').
Proof.
  unfold for_all, bind. cbn [for_each]. unfold bind. destruct (body x s) as [[[]| | |] s1]; try done.
  cbn. eauto.
Qed.

Definition handles (v : Server) : list string := match mysqlConnection v with Some c => [c] | None => [] end.

Lemma setDBConnection_spec (id : string) (s s' : run W) :
  setDBConnection cfg id s = (Ret tt, s') ->
  mysqlID (server s') = id /\ exists c, buildDBConnFromID cfg id = inl c /\ handles (server s') = [c] /\
    log s' = map Closed (handles (server s)) ++ log s.
Proof.
  unfold setDBConnection, handles. destruct (buildDBConnFromID cfg id) as [c|]; [|done].
  cbn. destruct (mysqlConnection (server s)); cbn; intros [= <-]; eauto.
Qed.

(** The handles before and the new ones are closed in order, except the last. *)
Lemma set_all (ids : list string) (s s' : run W) :
  for_all ids (setDBConnection cfg) s = (Ret tt, s') ->
  mysqlID (server s') = default (mysqlID (server s)) (last ids) /\
  exists conns new, Forall2 (fun id c => buildDBConnFromID cfg id = inl c) ids conns /\
    log s' = map Closed new ++ log s /\ handles (server s) ++ conns = rev new ++ handles (server s').
Proof.
  revert s. induction ids as [|id ids IH]; intros s.
  { intros [= <-]. split; [done|]. exists [], []. by rewrite app_nil_r. }
  intros (s1 & (Hid & c & Hc & Hh & Hl)%setDBConnection_spec & (Hid' & conns & new & F & L & E)%IH)%for_all_cons.
  split.
  { rewrite Hid', last_cons, Hid. by destruct (last ids). }
  exists (c :: conns), (new ++ rev (handles (server s))). split_and!; [by constructor| |].
  - rewrite L, Hl, map_app, <- app_assoc. do 2 f_equal. unfold handles. by destruct (mysqlConnection _).
  - rewrite rev_app_distr, rev_involutive, <- app_assoc. f_equal. by rewrite Hh in E.
Qed.

(** The poller forgets the ID when a round fails, the server keeps it. *)
Lemma pollMaster_last (rounds : list (result Store)) (masterID known : string) :
  masterID = "" \/ masterID = known ->
  default known (last (pollMaster cfg masterID rounds)) = last_known (known :: map (poll_answer cfg) rounds).
Proof.
  revert masterID known. induction rounds as [|r rounds IH]; intros masterID known Hm; cbn [pollMaster map].
  { rewrite last_known_cons. done. }
  rewrite last_known_cons, (last_known_cons (poll_answer cfg r)).
  destruct (String.eqb_spec (poll_answer cfg r) masterID) as [->|Ha].
  { rewrite (IH masterID known Hm), last_known_cons. destruct (String.eqb_spec (last_known (map (poll_answer cfg) rounds)) "") as [E|E];
      [|by apply String.eqb_neq in E as ->].
    destruct Hm as [->| ->]; [done|]. by destruct (String.eqb_spec known ""). }
  destruct (String.eqb_spec (poll_answer cfg r) "") as [->|Hn].
  { rewrite (IH "" known (or_introl eq_refl)), last_known_cons.
    destruct (String.eqb_spec (last_known (map (poll_answer cfg) rounds)) "") as [E|E];
      [done|by apply String.eqb_neq in E as ->]. }
  rewrite last_cons. transitivity (default (poll_answer cfg r) (last (pollMaster cfg (poll_answer cfg r) rounds))).
  { by destruct (last _). }
  rewrite (IH _ _ (or_intror eq_refl)), last_known_cons.
  destruct (String.eqb_spec (last_known (map (poll_answer cfg) rounds)) "") as [E|E];
    [by apply String.eqb_neq in Hn as ->|by apply String.eqb_neq in E as ->].
Qed.

(** Whatever the rounds of the poller get from etcd, the server ends with
    the ID of the last round that named a master, and its only open handle is
    the one for that ID: every other handle that was opened is closed, in the
    order of opening. *)
Theorem poller_tracks_leader (rounds : list (result Store)) (s s' : run W) :
  server s = empty_Server ->
  for_all (pollMaster cfg "" rounds) (setDBConnection cfg) s = (Ret tt, s') ->
  mysqlID (server s') = last_known (map (poll_answer cfg) rounds) /\
  exists conns new, Forall2 (fun id c => buildDBConnFromID cfg id = inl c) (pollMaster cfg "" rounds) conns /\
    log s' = map Closed new ++ log s /\ conns = rev new ++ handles (server s').
Proof.
  intros Hs (Hid & conns & new & F & L & E)%set_all. rewrite Hs in *. split.
  - rewrite Hid. cbn [mysqlID empty_Server]. rewrite pollMaster_last by auto. rewrite last_known_cons.
    by destruct (String.eqb_spec (last_known (map (poll_answer cfg) rounds)) "").
  - by exists conns, new.
Qed.
End Theorems.

(** ** A concrete cluster *)

(** Databases are row counts under their names; [toy_down] queries fail before
    the database answers; docker gives the container [c] the address [ip-c]. *)
Record toy := mkToy { toy_store : Store; toy_rows : gmap string Z; toy_down : nat; toy_clock : Z; toy_rand : list Z }.

Definition toy_insert (db : string) (args : list Z) (w : toy) : toy :=
  match args with
  | [] => w
  | _ => mkToy (toy_store w) (<[db := default 0 (toy_rows w !! db) + 1]> (toy_rows w)) (toy_down w) (toy_clock w) (toy_rand w)
  end.

#[global] Instance toy_env : CheckerEnv toy := {
  sql_Open _ := None;
  sql_Query _ _ w := match toy_down w with
                     | O => (None, w)
                     | S n => (Some ErrBadConn, mkToy (toy_store w) (toy_rows w) n (toy_clock w) (toy_rand w))
                     end;
  sql_Exec db _ args w := (None, toy_insert db args w);
  sql_Count db _ w := (inl (default 0 (toy_rows w !! db)), w);
  sql_Begin _ w := (inl 1, w);
  tx_Exec _ _ _ w := (None, w);
  tx_Commit _ w := (None, w);
  tx_Rollback _ w := (None, w);
  run_command argv w := ((None, "'ip-" +:+ List.last argv "" +:+ "'" +:+ String newline "", ""), w);
  http_Get _ w := (None, w);
  etcd_New _ _ _ := None;
  etcd_read w := (inl (toy_store w), w);
  etcd_write f w := (None, mkToy (f (toy_store w)) (toy_rows w) (toy_down w) (toy_clock w) (toy_rand w));
  rand_Int w := match toy_rand w with
                | [] => (0, w)
                | r :: l => (r, mkToy (toy_store w) (toy_rows w) (toy_down w) (toy_clock w) l)
                end;
  clock w := toy_clock w;
  pass d w := mkToy (toy_store w) (toy_rows w) (toy_down w) (toy_clock w + d) (toy_rand w)
}.

Definition toy_cfg : Config :=
  mkConfig "http://10.0.0.9:2379" "etcd" "pw" "/dbproxy" "orders" (mkDBConfig "" "checker" "pw" 0 "1s" "" "" "") "root" "rootpw"
    (list_to_map [("10.0.0.1:3306", "c1"); ("10.0.0.2:3306", "c2"); ("10.0.0.3:3306", "c3")])
    (list_to_map [("c1", "az1"); ("c2", "az2"); ("c3", "az3")])
    "pumba netem" "loss -p 100" "change_master".

Definition toy_kv (v : string) : KeyValue := mkKV v 1 1 1 0.

Definition toy_kvs : Store :=
  mkStore (list_to_map [("/dbproxy/orders/master", toy_kv "10.0.0.1:3306");
                        ("/dbproxy/orders/slave/10.0.0.1:3306", toy_kv "");
                        ("/dbproxy/orders/slave/10.0.0.2:3306", toy_kv "")]) 1 ∅ 1.

Definition toy_dsn (id : string) : string := dsn_for toy_cfg "checker" "pw" id.

Definition toy_world (down : nat) : toy :=
  mkToy toy_kvs (list_to_map [(toy_dsn "10.0.0.1:3306", 5); (toy_dsn "10.0.0.2:3306", 5)]) down 0 [].

Definition toy_server (done : Z) : Server :=
  mkServer "10.0.0.1:3306" (Some (toy_dsn "10.0.0.1:3306")) done.

Definition toy_run (v : Server) (down : nat) (ticks : list tick) : run toy := mkRun (toy_world down) v ticks [] [].

Lemma toy_connected (done : Z) : connected toy_cfg (toy_server done).
Proof. by intros conn [= <-]. Qed.

#[local] Existing Instance list_order.

Lemma runs_to {A} (m : step toy A) (s : run toy) (a : A) : (m s).1 = Ret a -> m s = (Ret a, (m s).2).
Proof. intros <-. by destruct (m s). Qed.

(** Two rounds without master and a change of it. *)
Lemma poller_tracks_leader_witness :
  let rounds := [inr ErrEtcd; inl toy_kvs; inr ErrEtcd; inl toy_kvs] in
  mysqlID (server (for_all (pollMaster toy_cfg "" rounds) (setDBConnection toy_cfg) (toy_run empty_Server 0 [])).2)
  = "10.0.0.1:3306".
Proof.
  intros rounds.
  destruct (poller_tracks_leader toy_cfg rounds (toy_run empty_Server 0 [])
              (for_all (pollMaster toy_cfg "" rounds) (setDBConnection toy_cfg) (toy_run empty_Server 0 [])).2)
    as [Hid _]; [reflexivity|apply runs_to; vm_compute; reflexivity|]. rewrite Hid. vm_compute. reflexivity.
Defined.

(** The long transactions of a cluster whose chaos job is done. *)
Lemma writer_done_example :
  exists new, log (dml_loop toy_cfg no_AZs 5 1 LongTxnJob 0 (toy_run (toy_server 1) 0 [])).2 = new ++ [] /\
    acked (rev new) = seqZ 0 5 /\
    verified toy_cfg no_AZs LongTxnJob (toy_run (toy_server 1) 0 [])
      (dml_loop toy_cfg no_AZs 5 1 LongTxnJob 0 (toy_run (toy_server 1) 0 [])).2.
Proof.
  apply (writer_done toy_cfg no_AZs 5 1 LongTxnJob (toy_run (toy_server 1) 0 []));
    [by right|apply toy_connected|apply runs_to; vm_compute; reflexivity].
Defined.

(** The same cluster while etcd does not change. *)
Definition steady_env : CheckerEnv toy := {|
  sql_Open := sql_Open; sql_Query := sql_Query; sql_Exec := sql_Exec; sql_Count := sql_Count;
  sql_Begin := sql_Begin; tx_Exec := tx_Exec; tx_Commit := tx_Commit; tx_Rollback := tx_Rollback;
  run_command := run_command; http_Get := http_Get; etcd_New := etcd_New (W := toy);
  etcd_read w := (inl toy_kvs, w);
  etcd_write := etcd_write; rand_Int := rand_Int; clock := clock; pass := pass
|}.

Definition toy_agent : World.Config :=
  World.mkConfig "orders" 10 3 "/data" "10.0.0.2:3306" false "/dbproxy" "root" 5 "mysql"
    "10.0.0.2:3306" "10.0.0.2:3306" (500 * Millisecond).

Lemma registered_node_verified_witness :
  let s := toy_run (toy_server 1) 0 [] in
  exists new, log (@dml_loop toy steady_env list_order toy_cfg no_AZs 5 1 (@LongTxnJob toy steady_env) 0 s).2 = new ++ [] /\
    acked (rev new) = seqZ 0 5 /\
    exists masterID m after,
      @checked toy steady_env list_order toy_cfg no_AZs s
        (@dml_loop toy steady_env list_order toy_cfg no_AZs 5 1 (@LongTxnJob toy steady_env) 0 s).2 masterID m after /\
      (Loaded 3 ∈ after \/
       ("10.0.0.2:3306" = masterID \/ @counted toy steady_env toy_cfg after "10.0.0.2:3306" m) /\
       (m = Z.of_nat (length (acked (rev new))) \/ Loaded 2 ∈ after)).
Proof.
  apply (@registered_node_verified toy steady_env list_order toy_cfg no_AZs 5 1 (@LongTxnJob toy steady_env)
           (toy_run (toy_server 1) 0 []) _ toy_agent "10.0.0.2:3306" list_order_ok).
  - by right.
  - by intros conn [= <-].
  - reflexivity.
  - exists true, ["dbproxy"; "orders"]. split_and!; [done|by repeat constructor|reflexivity].
  - reflexivity.
  - intros st w w' [= <- <-]. vm_compute. by eexists.
  - apply runs_to. vm_compute. reflexivity.
Defined.

(** When the first test query fails, the schema is dropped through the
    handle of the poller, which is not root's. *)
Lemma initDB_loses_root :
  log (initDB toy_cfg no_AZs 1 2 (toy_run (toy_server 0) 1 [])).2 !! 3%nat =
  Some (Statement (toy_dsn "10.0.0.1:3306") "DROP SCHEMA IF EXISTS checker;" []).
Proof. vm_compute. reflexivity. Qed.

End Checker.
