(* ===== verification/Partition.v ===== *)
(** * What the partitions of the checker cut

    [Start] collects the zone and the address of every container;
    [PartitionOutgoing] and [PartitionIncoming] build shell commands from
    them.  The theorems relate the commands to the containers: the outgoing
    partition runs once on each container of the zone and names exactly the
    addresses outside it (a stopped container has none), the incoming one runs
    once on each container outside and names exactly the addresses of the zone,
    where every container has one. *)

From stdpp Require Import gmap strings list.
From Stdlib Require Import ZArith Lia Ascii.
From S2P Require Import Prelude GoStrings Etcd World ServiceManager Election Startup Checker.
Import Checker.

Module Partition.
#[local] Open Scope checker_scope.

(** ** Words *)

Lemma words_app (a b : string) : words (a +:+ " " +:+ b) = words a ++ words b.
Proof. unfold words. change (" " +:+ b) with (String " " b). by rewrite Split_app, filter_app. Qed.

(** A word: not empty and without blanks. *)
Definition is_word (w : string) : bool := negb (String.eqb w "") && free_of " " w.

Lemma words_word (w : string) : is_word w = true -> words w = [w].
Proof.
  unfold is_word, words. intros Hw. bool_to_prop. rewrite Split_free by done.
  by rewrite filter_cons_True.
Qed.

(** A text that ends with a blank: what follows starts a new word. *)
Definition ends_blank (q : string) : Prop := exists p, q = p +:+ " ".

Lemma words_blank (q s : string) : ends_blank q -> words (q +:+ s) = words q ++ words s.
Proof.
  intros [p ->]. rewrite <- append_assoc, words_app. change (words (p +:+ " ")) with (words (p +:+ " " +:+ "")).
  by rewrite (words_app p ""), app_nil_r.
Qed.

Definition targets (ips : list string) : list string := concat (map (fun ip => ["--target"; ip]) ips).

Lemma add_targets_words (ips : list string) (q : string) :
  ends_blank q -> Forall (fun ip => is_word ip = true) ips ->
  ends_blank (add_targets q ips) /\ words (add_targets q ips) = words q ++ targets ips.
Proof.
  intros Hq Hips. revert q Hq. induction Hips as [|ip ips Hip Hips IH]; intros q Hq.
  { cbn. by rewrite app_nil_r. }
  cbn [add_targets foldl]. destruct (IH (q +:+ "--target " +:+ ip +:+ " ")) as [Hb Hw].
  { exists (q +:+ "--target " +:+ ip). by rewrite !append_assoc. }
  split; [exact Hb|]. unfold add_targets in Hw |- *. rewrite Hw.
  rewrite words_blank by done. change ("--target " +:+ ip +:+ " ") with ("--target" +:+ " " +:+ ip +:+ " " +:+ "").
  rewrite !words_app, (words_word ip) by done. cbn. by rewrite <- app_assoc.
Qed.

(** The words of the command for one node. *)
Definition node_command (template partitionType : string) (ips : list string) (node : string) : list string :=
  words template ++ targets ips ++ words partitionType ++ [node].

Lemma node_query_words (template partitionType node : string) (ips : list string) :
  ends_blank template -> Forall (fun ip => is_word ip = true) ips -> is_word node = true ->
  words (add_targets template ips +:+ " " +:+ partitionType +:+ " " +:+ node) =
  node_command template partitionType ips node.
Proof.
  intros Ht Hips Hn. destruct (add_targets_words ips template Ht Hips) as [_ E].
  rewrite !words_app, E, (words_word node Hn). unfold node_command. by rewrite <- app_assoc.
Qed.

(** ** Loops that return nothing *)
Section Loops.
Context {W : Type}.

(** A body that, when it goes on, adds given events: the whole loop adds them
    all. *)
Lemma for_each_log {X R} (body : X -> step W (option R)) (f : X -> list event) (l : list X) :
  (forall x s s', x ∈ l -> body x s = (Ret None, s') -> exists new, log s' = new ++ log s /\ Permutation new (f x)) ->
  forall s s', for_each l body s = (Ret None, s') ->
  exists new, log s' = new ++ log s /\ Permutation new (l ≫= f).
Proof.
  induction l as [|x l IH]; intros Hb s s'; cbn [for_each].
  { intros [= <-]. by exists []. }
  unfold bind. destruct (body x s) as [[[r|]| | |] s1] eqn:E; try done.
  intros E'. destruct (Hb x s s1 (list_elem_of_here _ _) E) as (n1 & L1 & P1).
  destruct (IH (fun y t t' Hy => Hb y t t' (list_elem_of_further _ _ _ Hy)) s1 s' E') as (n2 & L2 & P2).
  exists (n2 ++ n1). split; [by rewrite L2, L1, app_assoc|].
  change ((x :: l) ≫= f) with (f x ++ (l ≫= f)). rewrite P2, P1. apply Permutation_app_comm.
Qed.
End Loops.

Section Commands.
Context {W : Type} `{CheckerEnv W} `{RangeOrder}.

Lemma CheckCall_log (cmd out : string) (s s' : run W) :
  CheckCall cmd s = (Ret (inl out), s') -> log s' = Command (words cmd) :: log s.
Proof.
  unfold CheckCall. destruct (String.eqb cmd ""); [done|]. destruct (words cmd) as [|a l]; [done|].
  unfold bind, command, observe, on_env, ret. cbn -[run_command].
  destruct (run_command (a :: l) (env s)) as [[[[e|] o] er] w']; [done|]. intros E. by injection E as _ <-.
Qed.

Lemma partition_node_log (query partitionType node : string) (s s' : run W) :
  partition_node query partitionType node s = (Ret None, s') ->
  log s' = Command (words (query +:+ " " +:+ partitionType +:+ " " +:+ node)) :: log s.
Proof.
  unfold partition_node, bind.
  destruct (CheckCall _ s) as [[[out|e]| | |] s1] eqn:E; try done.
  intros [= <-]. by apply CheckCall_log in E.
Qed.

Lemma partition_nodes_log (query partitionType : string) (nodes : list string) (s s' : run W) :
  for_each nodes (partition_node query partitionType) s = (Ret None, s') ->
  exists new, log s' = new ++ log s /\
    Permutation new (map (fun node => Command (words (query +:+ " " +:+ partitionType +:+ " " +:+ node))) nodes).
Proof.
  intros E. apply (for_each_log _ (fun node => [Command (words (query +:+ " " +:+ partitionType +:+ " " +:+ node))]))
    in E as (new & L & P).
  - exists new. split; [done|]. rewrite P. clear. induction nodes as [|n ns IH]; [done|].
    cbn. by rewrite IH.
  - intros x t t' _ Ht. apply partition_node_log in Ht. eexists [_]. by split.
Qed.
End Commands.

(** ** Zones *)

(** A container, its zone and its address. *)
Record zone := mkZone { z_container : string; z_az : string; z_ip : string }.

Definition add_zone (azs : AZs) (z : zone) : AZs := add_container azs (z_container z) (z_az z) (z_ip z).

Definition AZs_of (zs : list zone) : AZs := foldl add_zone no_AZs zs.

(** The address is what docker answers for the container, less line ends and
    apostrophes. *)
Definition inspected {W} `{CheckerEnv W} (z : zone) : Prop :=
  exists w w' out err,
    run_command ["docker"; "inspect"; "-f"; "'{{range .NetworkSettings.Networks}}{{.IPAddress}}{{end}}'";
                 z_container z] w = ((None, out, err), w') /\
    z_ip z = remove_byte apostrophe (remove_byte newline out).

Lemma IPOf_answer {W} `{CheckerEnv W} (c az ip : string) (s s' : run W) :
  IPOf c s = (Ret (inl ip), s') -> inspected (W := W) (mkZone c az ip).
Proof.
  unfold IPOf, command, bind, observe, on_env, ret, inspected. cbn -[run_command remove_byte].
  destruct (run_command _ (env s)) as [[[[e|] out] err] w'] eqn:E; [done|].
  intros [= <- _]. by exists (env s), w', out, err.
Qed.

Lemma init_AZs_zones {W} `{CheckerEnv W} (l : list (string * string)) (azs azs' : AZs) (s s' : run W) :
  init_AZs azs l s = (Ret azs', s') ->
  exists zs, map (fun z => (z_container z, z_az z)) zs = l /\ Forall (inspected (W := W)) zs /\
    azs' = foldl add_zone azs zs.
Proof.
  revert azs s. induction l as [|[c az] l IH]; intros azs s; cbn [init_AZs].
  { intros [= <- <-]. exists []. by split_and!; [|constructor|]. }
  unfold bind. destruct (IPOf c s) as [[[ip|e]| | |] s1] eqn:Eip; try done.
  intros E. destruct (IH _ _ E) as (zs & <- & Hzs & ->). exists (mkZone c az ip :: zs).
  split_and!; [done|constructor; [by eapply IPOf_answer|done]|done].
Qed.

(** What the four maps hold. *)
Record zones_ok (azs : AZs) (zs : list zone) : Prop := {
  ok_set : forall az, is_Some (azSet azs !! az) <-> exists z, z ∈ zs /\ z_az z = az;
  ok_nodes : forall az, is_Some (azNodeMapping azs !! az) <-> exists z, z ∈ zs /\ z_az z = az;
  ok_node : forall az c, is_Some (default ∅ (azNodeMapping azs !! az) !! c) <->
    exists z, z ∈ zs /\ z_az z = az /\ z_container z = c;
  ok_ip : forall az ip, is_Some (default ∅ (azIPMapping azs !! az) !! ip) <->
    exists z, z ∈ zs /\ z_az z = az /\ z_ip z = ip;
  ok_ip_az : forall ip az, ipAZMapping azs !! ip = Some az -> exists z, z ∈ zs /\ z_az z = az /\ z_ip z = ip;
  ok_ip_some : forall z, z ∈ zs -> is_Some (ipAZMapping azs !! z_ip z)
}.

Lemma add_to_lookup (az az' x y : string) (m : gmap string (gmap string bool)) :
  is_Some (default ∅ (add_to az x m !! az') !! y) <->
  is_Some (default ∅ (m !! az') !! y) \/ az' = az /\ y = x.
Proof.
  unfold add_to. destruct (decide (az' = az)) as [->|Hne].
  - rewrite lookup_insert_eq. cbn. rewrite (lookup_insert_is_Some' (default ∅ (m !! az))).
    split; [intros [->|?]|intros [?|[_ ->]]]; auto.
  - rewrite lookup_insert_ne by done. split; [by left|by intros [?|[? _]]].
Qed.

Lemma zones_ok_add (azs : AZs) (zs : list zone) (z : zone) :
  zones_ok azs zs -> zones_ok (add_zone azs z) (zs ++ [z]).
Proof.
  intros [H1 H2 H3 H4 H5 H6].
  assert (forall P : zone -> Prop, (exists y, y ∈ zs ++ [z] /\ P y) <-> (exists y, y ∈ zs /\ P y) \/ P z) as Hex.
  { intros P. split.
    - intros (y & [Hy|Hy]%elem_of_app & Hp); [by left; exists y|].
      apply list_elem_of_singleton in Hy as ->. by right.
    - intros [(y & Hy & Hp)|Hp]; [exists y|exists z]; rewrite elem_of_app, list_elem_of_singleton; auto. }
  split; cbn [add_zone add_container azSet azNodeMapping azIPMapping ipAZMapping].
  - intros az. rewrite Hex, <- H1, lookup_insert_is_Some'. naive_solver.
  - intros az. rewrite Hex, <- H2. unfold add_to. rewrite lookup_insert_is_Some'. naive_solver.
  - intros az c. rewrite add_to_lookup, H3, Hex. naive_solver.
  - intros az ip. rewrite add_to_lookup, H4, Hex. naive_solver.
  - intros ip az. rewrite Hex. intros [[<- <-]|[_ E]]%lookup_insert_Some; [by right|].
    left. apply H5, E.
  - intros y. rewrite elem_of_app, list_elem_of_singleton, lookup_insert_is_Some'.
    intros [Hy| ->]; [right; by apply H6|by left].
Qed.

Lemma zones_ok_of (zs : list zone) : zones_ok (AZs_of zs) zs.
Proof.
  unfold AZs_of. induction zs as [|z zs IH] using rev_ind.
  - split; cbn; intros; rewrite ?lookup_empty; cbn; rewrite ?lookup_empty; split_and?;
      rewrite ?is_Some_alt; try naive_solver; set_solver.
  - rewrite foldl_app. cbn. by apply zones_ok_add.
Qed.

(** ** The commands of a partition *)
Section Cuts.
Context {W : Type} `{CheckerEnv W} `{RangeOrderOk}.

Lemma keys_NoDup {A} (m : gmap string A) : NoDup (keys m).
Proof. unfold keys. rewrite (range_perm A m). apply NoDup_fst_map_to_list. Qed.

Lemma range_NoDup {A} (m : gmap string A) : NoDup (range A m).
Proof. apply (NoDup_fmap_1 fst), keys_NoDup. Qed.

(** The containers and addresses of a zone and of the other zones. *)
Definition inside (az : string) (zs : list zone) : list zone := filter (fun z => z_az z = az) zs.
Definition outside (az : string) (zs : list zone) : list zone := filter (fun z => z_az z <> az) zs.

Lemma elem_of_map_filter {B} (f : zone -> B) (P : zone -> Prop) `{forall z, Decision (P z)} (zs : list zone) (b : B) :
  b ∈ map f (filter P zs) <-> exists z, z ∈ zs /\ P z /\ f z = b.
Proof.
  rewrite list_elem_of_fmap. split; intros (z & Hz); exists z; rewrite list_elem_of_filter in *; naive_solver.
Qed.

Lemma NoDup_map_filter {B} (f : zone -> B) (P : zone -> Prop) `{forall z, Decision (P z)} (zs : list zone) :
  NoDup (map f zs) -> NoDup (map f (filter P zs)).
Proof.
  intros Hn. induction zs as [|z zs IH]; [done|]. apply NoDup_cons in Hn as [Hz Hn].
  rewrite filter_cons. destruct (decide (P z)); [|by apply IH].
  cbn. apply NoDup_cons. split; [|by apply IH]. rewrite elem_of_map_filter.
  intros (y & Hy & _ & E). apply Hz, list_elem_of_fmap. by exists y.
Qed.

Lemma NoDup_map_inj {B} (f : zone -> B) (zs : list zone) (y z : zone) :
  NoDup (map f zs) -> y ∈ zs -> z ∈ zs -> f y = f z -> y = z.
Proof.
  intros Hn Hy Hz E. apply list_elem_of_lookup in Hy as [i Hi], Hz as [j Hj].
  rewrite NoDup_alt in Hn. enough (i = j) by congruence.
  apply (Hn i j (f y)); rewrite list_lookup_fmap; [by rewrite Hi|by rewrite Hj, E].
Qed.

(** The containers with an address: docker prints none for a stopped one. *)
Definition running (zs : list zone) : list zone := filter (fun z => z_ip z <> "") zs.

Lemma running_all (zs : list zone) : Forall (fun z => z_ip z <> "") zs -> running zs = zs.
Proof. unfold running. induction 1 as [|z l Hz Hl IH]; [done|]. by rewrite filter_cons_True, IH. Qed.

Section Zones.
Variables (azs : AZs) (zs : list zone).
Hypotheses (Hok : zones_ok azs zs) (Hc : NoDup (map z_container zs)) (Hip : NoDup (map z_ip (running zs))).

Lemma nodes_inside (az : string) :
  Permutation (keys (default ∅ (azNodeMapping azs !! az))) (map z_container (inside az zs)).
Proof.
  apply NoDup_Permutation; [apply keys_NoDup|by apply NoDup_map_filter|].
  intros c. unfold inside. rewrite elem_of_keys, elem_of_map_filter, (ok_node _ _ Hok). done.
Qed.

Lemma ips_inside (az : string) :
  Forall (fun z => z_ip z <> "") (inside az zs) ->
  Permutation (keys (default ∅ (azIPMapping azs !! az))) (map z_ip (inside az zs)).
Proof.
  intros Hr. assert (inside az (running zs) = inside az zs) as Er.
  { unfold inside, running in *. rewrite list_filter_filter. clear Hok Hc Hip. induction zs as [|z l IH]; [done|].
    rewrite !filter_cons in *. destruct (decide (z_az z = az)).
    - apply Forall_cons in Hr as [Hz Hr]. rewrite decide_True by done. by rewrite IH.
    - rewrite decide_False by naive_solver. by apply IH. }
  apply NoDup_Permutation; [apply keys_NoDup|rewrite <- Er; by apply NoDup_map_filter|].
  intros c. unfold inside. rewrite elem_of_keys, elem_of_map_filter, (ok_ip _ _ Hok). done.
Qed.

Lemma ips_outside (az : string) :
  Permutation (filter (fun '(ip, a) => ~ (ip = "" \/ a = az)) (range _ (ipAZMapping azs))).*1
              (map z_ip (outside az (running zs))).
Proof.
  assert (forall z, z ∈ running zs <-> z_ip z <> "" /\ z ∈ zs) as Hr by (intros z; unfold running; by rewrite list_elem_of_filter).
  apply NoDup_Permutation; [|by apply NoDup_map_filter|].
  - apply (sublist_NoDup _ (keys (ipAZMapping azs))); [apply keys_NoDup|].
    apply fmap_sublist, sublist_filter.
  - intros ip. unfold outside. rewrite elem_of_map_filter, list_elem_of_fmap. split.
    + intros ([ip' a] & -> & [Hp Hin%elem_of_range]%list_elem_of_filter).
      destruct (ok_ip_az _ _ Hok _ _ Hin) as (z & Hz & <- & <-). exists z. rewrite Hr. naive_solver.
    + intros (z & [Hne Hz]%Hr & Ha & <-). destruct (ok_ip_some _ _ Hok _ Hz) as [a Ea].
      exists (z_ip z, a). split; [done|]. rewrite list_elem_of_filter, elem_of_range. split; [|done].
      destruct (ok_ip_az _ _ Hok _ _ Ea) as (y & Hy & <- & Eip).
      apply (NoDup_map_inj z_ip (running zs)) in Eip as ->; [|done|rewrite Hr, Eip; done|by rewrite Hr].
      by intros [?|?].
Qed.

(** The nodes that [PartitionIncoming] goes through. *)
Definition other_nodes (az : string) : list string :=
  range _ (azNodeMapping azs) ≫= (fun '(a, nodes) => if String.eqb a az then [] else keys nodes).

Lemma nodes_outside (az : string) : Permutation (other_nodes az) (map z_container (outside az zs)).
Proof.
  assert (forall c a nodes, (a, nodes) ∈ range _ (azNodeMapping azs) -> c ∈ keys nodes <->
            exists z, z ∈ zs /\ z_az z = a /\ z_container z = c) as Hin.
  { intros c a nodes Ha%elem_of_range. rewrite elem_of_keys, <- (ok_node _ _ Hok). by rewrite Ha. }
  apply NoDup_Permutation; [|by apply NoDup_map_filter|].
  - apply NoDup_bind; [|intros [a nodes] _; destruct (String.eqb a az); [constructor|apply keys_NoDup]|apply range_NoDup].
    intros [a nodes] [b nodes'] c Ha Hb Hca Hcb.
    destruct (String.eqb a az); [by apply elem_of_nil in Hca|].
    destruct (String.eqb b az); [by apply elem_of_nil in Hcb|].
    apply (Hin _ _ _ Ha) in Hca as (y & Hy & Hay & Ecy). apply (Hin _ _ _ Hb) in Hcb as (z & Hz & Hbz & Ecz).
    rewrite <- Ecz in Ecy. apply (NoDup_map_inj z_container zs) in Ecy as ->; [|done..].
    apply elem_of_range in Ha, Hb. congruence.
  - intros c. unfold outside, other_nodes. rewrite elem_of_map_filter, list_elem_of_bind. split.
    + intros ([a nodes] & Hca & Ha). destruct (String.eqb_spec a az) as [->|Hne]; [by apply elem_of_nil in Hca|].
      apply (Hin _ _ _ Ha) in Hca as (z & Hz & <- & Ez). by exists z.
    + intros (z & Hz & Hza & <-). destruct (proj2 (ok_nodes _ _ Hok (z_az z))) as [nodes Hn]; [by exists z|].
      apply elem_of_range in Hn. exists (z_az z, nodes). split; [|done].
      apply String.eqb_neq in Hza as ->. apply (Hin _ _ _ Hn). by exists z.
Qed.
End Zones.

(** Addresses that can be told apart, and names that can be written on a command
    line; a container may have no address. *)
Definition usable (zs : list zone) : Prop :=
  NoDup (map z_ip (running zs)) /\
  Forall (fun z => (z_ip z = "" \/ is_word (z_ip z) = true) /\ is_word (z_container z) = true) zs.

(** A partition that names the addresses [to] on the containers of [on]. *)
Definition cut (template partitionType : string) (on to : list zone) (s s' : run W) : Prop :=
  exists ips new, log s' = new ++ log s /\ Permutation ips (map z_ip to) /\
    Permutation new (map (fun z => Command (node_command template partitionType ips (z_container z))) on).

Lemma cut_intro (template partitionType : string) (on to : list zone) (ips nodes : list string) (s s' : run W)
    (new : list event) :
  ends_blank template -> Permutation ips (map z_ip to) -> Permutation nodes (map z_container on) ->
  Forall (fun z => is_word (z_ip z) = true) to -> Forall (fun z => is_word (z_container z) = true) on ->
  log s' = new ++ log s ->
  Permutation new (map (fun node =>
    Command (words (add_targets template ips +:+ " " +:+ partitionType +:+ " " +:+ node))) nodes) ->
  cut template partitionType on to s s'.
Proof.
  intros Hb Hips Hn Wto Won Hl Hp. exists ips, new. split_and!; [done..|]. rewrite Hp, Hn, map_map.
  apply Permutation_refl'. apply map_ext_in. intros z Hz%list_elem_of_In. f_equal.
  rewrite Forall_forall in Won. apply node_query_words; [done| |by apply Won].
  rewrite Hips. by apply Forall_map.
Qed.

Lemma map_bind {A B C} (g : B -> C) (f : A -> list B) (l : list A) :
  map g (l ≫= f) = l ≫= (fun x => map g (f x)).
Proof.
  induction l as [|x l IH]; [done|]. change ((x :: l) ≫= f) with (f x ++ (l ≫= f)).
  by rewrite map_app, IH.
Qed.

Section Usable.
Variables (zs : list zone) (template : string).
Hypotheses (Hc : NoDup (map z_container zs)) (Hu : usable zs) (Hb : ends_blank template).

Lemma container_words (P : zone -> Prop) `{forall z, Decision (P z)} :
  Forall (fun z => is_word (z_container z) = true) (filter P zs).
Proof. destruct Hu as [_ Hw]. rewrite !Forall_forall in *. intros z [_ Hz]%list_elem_of_filter. by apply Hw. Qed.

Lemma address_words (l : list zone) :
  (forall z, z ∈ l -> z ∈ zs /\ z_ip z <> "") -> Forall (fun z => is_word (z_ip z) = true) l.
Proof.
  intros Hl. destruct Hu as [_ Hw]. rewrite !Forall_forall in *. intros z [Hz Hne]%Hl. by destruct (Hw z Hz) as [[?|?] _].
Qed.

Lemma PartitionOutgoing_cut (az partitionType : string) (s s' : run W) :
  PartitionOutgoing (AZs_of zs) template az partitionType s = (Ret None, s') ->
  cut template partitionType (inside az zs) (outside az (running zs)) s s'.
Proof.
  unfold PartitionOutgoing. destruct (azSet _ !! az); [|done].
  intros (new & Hl & Hp)%partition_nodes_log. pose proof Hu as [Hip Hw].
  eapply cut_intro; [done|apply (ips_outside (AZs_of zs) zs (zones_ok_of zs) Hip)
    |apply (nodes_inside (AZs_of zs) zs (zones_ok_of zs) Hc)| |apply container_words|done|exact Hp].
  apply address_words. intros z [_ [Hne Hz]%list_elem_of_filter]%list_elem_of_filter. done.
Qed.

Lemma PartitionIncoming_cut (az partitionType : string) (s s' : run W) :
  Forall (fun z => z_ip z <> "") (inside az zs) ->
  PartitionIncoming (AZs_of zs) template az partitionType s = (Ret None, s') ->
  cut template partitionType (outside az zs) (inside az zs) s s'.
Proof.
  intros Hr. unfold PartitionIncoming. destruct (azSet _ !! az); [|done]. intros E. pose proof Hu as [Hip Hw].
  set (q := add_targets _ _) in E.
  apply (for_each_log _ (fun x => map (fun node => Command (words (q +:+ " " +:+ partitionType +:+ " " +:+ node)))
    ((fun '(a, nodes) => if String.eqb a az then [] else keys nodes) x))) in E as (new & Hl & Hp).
  - eapply cut_intro; [done|apply (ips_inside (AZs_of zs) zs (zones_ok_of zs) Hip az Hr)
      |apply (nodes_outside (AZs_of zs) zs (zones_ok_of zs) Hc)| |apply container_words|done|].
    + apply address_words. intros z Hz. rewrite Forall_forall in Hr. split; [|by apply Hr]. by apply list_elem_of_filter in Hz as [_ ?].
    + rewrite Hp. unfold other_nodes. by rewrite map_bind.
  - intros [a nodes] t t' _. destruct (String.eqb a az); [intros [= <-]; by exists []|].
    apply partition_nodes_log.
Qed.
End Usable.

Lemma Start_init_zones (cfg cfg' : Config) (azs : AZs) (s s' : run W) :
  Start_init cfg s = (Ret (azs, cfg'), s') ->
  exists zs, map (fun z => (z_container z, z_az z)) zs = range _ (ContainerAZMapping cfg) /\
    Forall (inspected (W := W)) zs /\ azs = AZs_of zs /\ ends_blank (PartitionTemplate cfg') /\
    words (PartitionTemplate cfg') = words (PartitionTemplate cfg).
Proof.
  unfold Start_init, bind. destruct (init_AZs _ _ s) as [[a| | |] s1] eqn:E; try done.
  intros [= <- <- <-]. destruct (init_AZs_zones _ _ _ _ _ E) as (zs & Hm & Hi & ->).
  exists zs. split_and!; [done..| |]; cbn [PartitionTemplate]; destruct (HasSuffix _ " ") eqn:Eb; try done.
  - by apply HasSuffix_byte in Eb.
  - by eexists.
  - change (PartitionTemplate cfg +:+ " ") with (PartitionTemplate cfg +:+ " " +:+ "").
    rewrite words_app. apply app_nil_r.
Qed.

(** C40. After the initialisation of the checker, on containers whose names are
    words and whose addresses, where docker gave one, are words and distinct: a
    partition of a zone that reports success has run one command on each
    container, in the outgoing direction on those of the zone with exactly the
    addresses outside as targets, a container without an address being left
    out; and in the incoming direction, where every container of the zone has an
    address, on those outside the zone with exactly the addresses of the zone.
    The words of the command are those of the template, the targets, the
    type and the container.  The containers are those of the configuration,
    each with the address docker gave for it. *)
Theorem partitions_cut_zone (cfg cfg' : Config) (azs : AZs) (s0 s1 : run W) :
  Start_init cfg s0 = (Ret (azs, cfg'), s1) ->
  exists zs, Permutation (map (fun z => (z_container z, z_az z)) zs) (map_to_list (ContainerAZMapping cfg)) /\
    Forall (inspected (W := W)) zs /\ words (PartitionTemplate cfg') = words (PartitionTemplate cfg) /\
    (usable zs -> forall az partitionType s s',
      (PartitionOutgoing azs (PartitionTemplate cfg') az partitionType s = (Ret None, s') ->
         cut (PartitionTemplate cfg') partitionType (inside az zs) (outside az (running zs)) s s') /\
      (Forall (fun z => z_ip z <> "") (inside az zs) ->
       PartitionIncoming azs (PartitionTemplate cfg') az partitionType s = (Ret None, s') ->
         cut (PartitionTemplate cfg') partitionType (outside az zs) (inside az zs) s s')).
Proof.
  intros (zs & Hm & Hi & -> & Hb & Hw)%Start_init_zones. exists zs.
  assert (NoDup (map z_container zs)) as Hc.
  { replace (map z_container zs) with (keys (ContainerAZMapping cfg)); [apply keys_NoDup|].
    unfold keys. rewrite <- Hm. change (fmap (M := list)) with (@map (string * string) string).
    by rewrite map_map. }
  split_and!; [rewrite Hm; apply range_perm|done..|].
  intros Hu az t s s'. split; [by apply PartitionOutgoing_cut|by apply PartitionIncoming_cut].
Qed.
End Cuts.

(** ** On the concrete cluster *)
#[local] Existing Instance list_order.
#[local] Instance list_order_is_ok : RangeOrderOk := list_order_ok.

Lemma toy_usable (zs : list zone) :
  Permutation (map (fun z => (z_container z, z_az z)) zs) (map_to_list (ContainerAZMapping toy_cfg)) ->
  Forall (inspected (W := toy)) zs -> usable zs.
Proof.
  intros Hp Hi. apply (Permutation_map fst) in Hp. rewrite map_map in Hp.
  assert (Forall (fun z => z_container z ∈ ["c1"; "c2"; "c3"]) zs) as Hc.
  { apply Forall_forall. intros z Hz. assert (z_container z ∈ map z_container zs) as Hin by (apply list_elem_of_fmap; by exists z).
    change (map (fun x => (z_container x, z_az x).1) zs) with (map z_container zs) in Hp. rewrite Hp in Hin.
    vm_compute in Hin. set_solver. }
  assert (Forall (fun z => z_ip z = "ip-" +:+ z_container z /\ is_word (z_container z) = true) zs) as Hz.
  { apply Forall_forall. intros z Hz. rewrite Forall_forall in Hi, Hc. specialize (Hi z Hz). specialize (Hc z Hz).
    destruct Hi as (w & w' & out & err & E & ->). cbn [run_command toy_env List.last] in E. injection E as <- _ _.
    repeat (apply elem_of_cons in Hc as [->|Hc]; [by vm_compute|]). by apply elem_of_nil in Hc. }
  split.
  - unfold running. apply NoDup_map_filter. replace (map z_ip zs) with (map (String.append "ip-") (map z_container zs)).
    + change (map (fun x => (z_container x, z_az x).1) zs) with (map z_container zs) in Hp.
      rewrite Hp. apply (bool_decide_unpack _). by vm_compute.
    + rewrite map_map. apply map_ext_in. intros z Hin%list_elem_of_In. rewrite Forall_forall in Hz. by destruct (Hz z Hin) as [-> _].
  - eapply Forall_impl; [exact Hz|]. intros z [-> Hw]. split; [|done]. right. unfold is_word in *. bool_to_prop. by cbn.
Qed.

(** One zone of three: the containers c2 and c3 are told apart from c1. *)
Lemma partitions_cut_zone_witness :
  exists azs cfg' zs s s', Start_init toy_cfg (toy_run empty_Server 0 []) = (Ret (azs, cfg'), s) /\ usable zs /\
    PartitionOutgoing azs (PartitionTemplate cfg') "az1" "loss" s = (Ret None, s') /\
    cut (PartitionTemplate cfg') "loss" (inside "az1" zs) (outside "az1" (running zs)) s s'.
Proof.
  destruct (Start_init toy_cfg (toy_run empty_Server 0 [])) as [[[azs cfg']| | |] s] eqn:E;
    [|exfalso; apply (f_equal (fun x => match x.1 with Ret _ => true | _ => false end)) in E; by vm_compute in E..].
  destruct (partitions_cut_zone _ _ _ _ _ E) as (zs & Hp & Hi & _ & Hcut).
  pose proof (toy_usable zs Hp Hi) as Hu.
  assert ((PartitionOutgoing azs (PartitionTemplate cfg') "az1" "loss" s).1 = Ret None) as Ho.
  { apply (f_equal (fun x => match x with
      | (Ret (a, c), t) => (PartitionOutgoing a (PartitionTemplate c) "az1" "loss" t).1
      | _ => Blocked end)) in E. etrans; [symmetry; exact E|]. by vm_compute. }
  exists azs, cfg', zs, s, (PartitionOutgoing azs (PartitionTemplate cfg') "az1" "loss" s).2.
  split_and!; [reflexivity|exact Hu|by apply runs_to|].
  apply (Hcut Hu "az1" "loss"). by apply runs_to.
Defined.

End Partition.
