(* ===== verification/Chaos.v ===== *)
(** * The chaos jobs: [checker/chaos.go]

    Each job breaks the cluster in one way through the commands and requests
    of [Checker], waits for what it expects of the cluster and stores in
    [chaosJobDone] what the checks of the writers may tolerate afterwards.
    A wait takes the number of its rounds as an argument. *)

From stdpp Require Import gmap strings list.
From Stdlib Require Import ZArith Lia Ascii.
From S2P Require Import Prelude GoStrings Urls Etcd World ServiceManager Demo Election Startup Flags Boot Checker Partition.
Import Mvcc Checker Partition.

Module Chaos.
#[local] Open Scope checker_scope.

Section Jobs.
Context {W : Type} `{CheckerEnv W} `{RangeOrder}.
Variables (cfg : Config) (azs : AZs).

(** ** Actions on the agents *)

(** [runChangeMaster]: [parsedURL] is nil when the ID does not parse. *)
Definition runChangeMaster : step W (option error) :=
  r <- etcd_Get cfg "master";
  match r with
  | inr _ => ret None
  | inl leaderID =>
      match url_Parse ("http://" +:+ leaderID) with
      | inr _ => panic
      | inl parsedURL =>
          let u := Hostname parsedURL in
          let port := "1" +:+ Port parsedURL in
          let setReadOnly := "http://" +:+ u +:+ ":" +:+ port +:+ "/setReadOnly" in
          let changeMaster := "http://" +:+ u +:+ ":" +:+ port +:+ "/changeMaster" in
          _ <- observe (Request setReadOnly);
          _ <- on_env (http_Get setReadOnly);
          _ <- time_Sleep (3 * Second);
          _ <- observe (Request changeMaster);
          on_env (http_Get changeMaster)
      end
  end.

(** [deleteTerm] *)
Definition deleteTerm (agentID : string) : step W (option error) :=
  etcd_Delete cfg (path_Join ["election"; "terms"; agentID]).

(** [getASlave] *)
Definition getASlave : step W string :=
  m <- getDBConnection cfg azs;
  ret (default "" (head (filter (fun id => id <> m.1) (keys (IDContainerMapping cfg))))).

(** [getContainerFromID] *)
Definition getContainerFromID (id : string) : string := default "" (IDContainerMapping cfg !! id).

(** [RunStopSlave] *)
Definition RunStopSlave (rootConn : option string) : step W (option error) := Exec rootConn "STOP SLAVE;" [].

(** ** The jobs *)

Definition changeMasterCheck (n : nat) : step W (option error) :=
  e <- runChangeMaster;
  match e with
  | Some e => ret (Some e)
  | None =>
      _ <- time_Sleep (10 * Second);
      m <- getDBConnection cfg azs;
      slaveID <- getASlave;
      let rootConn := match buildDBRootConnFromID cfg slaveID with inl d => Some d | inr _ => None end in
      _ <- RunStopSlave rootConn;
      _ <- time_Sleep (500 * Millisecond);
      _ <- runChangeMaster;
      newMasterID <- repeat_until n
        (m <- getDBConnection cfg azs;
         if String.eqb m.1 "" then _ <- time_Sleep (500 * Millisecond); ret None
         else ret (Some m.1));
      if String.eqb slaveID newMasterID then exit 1
      else
        _ <- store_done 1;
        ret None
  end.

(** The goroutine of [stopMasterAgentCheck] that waits for a new master, and
    the timer of 60 seconds beside it. *)
Definition await_new_master (n : nat) (masterID newMasterID : string) : step W unit :=
  if negb (String.eqb newMasterID masterID) then ret tt
  else
    t0 <- time_Now;
    repeat_until n
      (now <- time_Now;
       if 60 * Second <=? now - t0 then exit 1
       else
         m <- getDBConnection cfg azs;
         if negb (String.eqb m.1 masterID) then ret (Some tt)
         else _ <- time_Sleep (500 * Millisecond); ret None).

Definition stopMasterAgentCheck (n : nat) : step W (option error) :=
  m <- getDBConnection cfg azs;
  let masterID := m.1 in
  _ <- RunStopAgent (getContainerFromID masterID);
  let newMasterID := "" in
  _ <- await_new_master n masterID newMasterID;
  _ <- time_Sleep (5 * Second);
  _ <- store_done 1;
  ret None.

Definition stopSlaveAgentCheck (n : nat) : step W (option error) :=
  m <- getDBConnection cfg azs;
  slaveID <- getASlave;
  _ <- RunStopAgent (getContainerFromID slaveID);
  _ <- RunStartAgent (getContainerFromID slaveID);
  _ <- time_Sleep (5 * Second);
  m' <- getDBConnection cfg azs;
  if negb (String.eqb m'.1 m.1) then exit 1
  else
    _ <- time_Sleep (5 * Second);
    _ <- store_done 1;
    ret None.

(** The random choice of [partitionOneAZCheck]: the index counts the zones in
    the order of the range; a remainder by zero panics. *)
Definition pick_AZ (n : nat) (masterAZ : string) : step W string :=
  repeat_until n
    (r <- on_env rand_Int;
     if (size (azSet azs) =? 0)%nat then panic
     else
       let azIndex := Z.to_nat (Z.rem r (Z.of_nat (size (azSet azs)))) in
       let partitionedAZ := default masterAZ (keys (azSet azs) !! azIndex) in
       if String.eqb partitionedAZ masterAZ then ret None else ret (Some partitionedAZ)).

Definition partitionOneAZCheck (n : nat) : step W (option error) :=
  m <- getDBConnection cfg azs;
  match IDContainerMapping cfg !! m.1 with
  | None => ret (Some (Errorf "cannot find from IDContainerMapping"))
  | Some container =>
      let masterAZ := default "" (ContainerAZMapping cfg !! container) in
      partitionedAZ <- pick_AZ n masterAZ;
      e <- PartitionIncoming azs (PartitionTemplate cfg) partitionedAZ (PartitionType cfg);
      match e with
      | Some e => ret (Some e)
      | None =>
          e <- PartitionOutgoing azs (PartitionTemplate cfg) partitionedAZ (PartitionType cfg);
          match e with
          | Some e => ret (Some e)
          | None =>
              _ <- time_Sleep (10 * Second);
              _ <- store_done 2;
              ret None
          end
      end
  end.

(** The wait for another master that two jobs have. *)
Definition await_change (n : nat) (masterID : string) : step W string :=
  repeat_until n
    (m <- getDBConnection cfg azs;
     _ <- time_Sleep Second;
     if String.eqb m.1 masterID then ret None else ret (Some m.1)).

Definition partitionMasterAZCheck (n : nat) : step W (option error) :=
  m <- getDBConnection cfg azs;
  match IDContainerMapping cfg !! m.1 with
  | None => ret (Some (Errorf "cannot find from IDContainerMapping"))
  | Some container =>
      let partitionedAZ := default "" (ContainerAZMapping cfg !! container) in
      _ <- start (mkGo Incoming (PartitionTemplate cfg) partitionedAZ (PartitionType cfg) true);
      _ <- start (mkGo Outgoing (PartitionTemplate cfg) partitionedAZ (PartitionType cfg) true);
      _ <- await_change n m.1;
      _ <- time_Sleep (5 * Second);
      _ <- store_done 2;
      ret None
  end.

Definition spm_template : string :=
  "docker run -v /var/run/docker.sock:/var/run/docker.sock --rm -d moiot/pumba:latest netem -d 30s ".
Definition spm_type : string := "loss -p 100 ".

(** Both directions of every zone at once. *)
Definition partition_all : step W unit :=
  for_all (keys (azSet azs)) (fun az =>
    _ <- start (mkGo Incoming spm_template az spm_type false);
    start (mkGo Outgoing spm_template az spm_type false)).

(** One of the two first partitions: the master before and the one after. *)
Definition spm_round (n : nat) (masterID : string) : step W (result string) :=
  r <- etcd_Get cfg "single_point_master";
  match r with
  | inr NotFoundf =>
      _ <- partition_all;
      newMasterID <- await_change n masterID;
      _ <- time_Sleep (30 * Second);
      ret (inl newMasterID)
  | _ => ret (inr (Errorf "should not be in spm mode"))
  end.

(** The end of [singlePointMasterCheck]: bring a node back. *)
Definition spm_leave (masterID : string) : step W (option error) :=
  _ <- deleteTerm masterID;
  e <- RunStartAgent (getContainerFromID masterID);
  match e with
  | Some e => ret (Some e)
  | None =>
      _ <- time_Sleep (60 * Second);
      r <- etcd_PrefixGet cfg "/slave";
      match r with
      | inr e => ret (Some e)
      | inl slaves =>
          bad <- (if (1 <? size slaves)%nat then
                    r <- etcd_Get cfg "single_point_master";
                    match r with inr NotFoundf => ret false | _ => ret true end
                  else ret false);
          if (bad : bool) then ret (Some NotValidf)
          else
            _ <- store_done 3;
            ret None
      end
  end.

Definition singlePointMasterCheck (n : nat) : step W (option error) :=
  m0 <- getDBConnection cfg azs;
  r1 <- spm_round n m0.1;
  match r1 with
  | inr e => ret (Some e)
  | inl m1 =>
      r2 <- spm_round n m1;
      match r2 with
      | inr e => ret (Some e)
      | inl newMasterID =>
          let masterID := m1 in
          r <- etcd_Get cfg "single_point_master";
          let spm := match r with inl v => v | inr _ => "" end in
          if negb (String.eqb newMasterID spm) then ret (Some NotValidf)
          else
            _ <- partition_all;
            _ <- time_Sleep (30 * Second);
            _ <- getDBConnection cfg azs;
            spm_leave masterID
      end
  end.

(** [ChaosRegistry], [runChaosJob] and the goroutine of [Start] that runs it *)
Definition ChaosRegistry : gmap string (nat -> step W (option error)) :=
  list_to_map [("change_master", changeMasterCheck); ("stop_master_agent", stopMasterAgentCheck);
               ("stop_slave_agent", stopSlaveAgentCheck); ("partition_one_az", partitionOneAZCheck);
               ("partition_master_az", partitionMasterAZCheck); ("spm", singlePointMasterCheck)].

Definition runChaosJob (n : nat) : step W (option error) :=
  match ChaosRegistry !! ChaosJob cfg with
  | None => ret (Some (Errorf "cannot find target chaos job"))
  | Some job => job n
  end.

Definition chaos_goroutine (n : nat) : step W unit :=
  e <- runChaosJob n;
  match e with
  | Some _ => exit 1
  | None => ret tt
  end.
End Jobs.

(** ** What a job that succeeds has done *)
Section Verdicts.
Context {W : Type} `{CheckerEnv W} `{RangeOrder}.
Variables (cfg : Config) (azs : AZs).

(** What holds of the value and the state of a program that returns. *)
Definition returns {A} (m : step W A) (Q : A -> run W -> Prop) : Prop :=
  forall s a s', m s = (Ret a, s') -> Q a s'.

Lemma returns_bind {A B} (m : step W A) (k : A -> step W B) (Q : B -> run W -> Prop) :
  (forall a, returns (k a) Q) -> returns (bind m k) Q.
Proof. intros Hk s b s'. unfold bind. destruct (m s) as [[a| | |] s1]; try done. apply Hk. Qed.

Lemma returns_ret {A} (a : A) (Q : A -> run W -> Prop) : (forall s, Q a s) -> returns (ret a) Q.
Proof. intros HQ s b s' [= <- <-]. apply HQ. Qed.

Lemma returns_exit {A} (c : Z) (Q : A -> run W -> Prop) : returns (exit c) Q.
Proof. by intros s a s'. Qed.

Lemma returns_done {A} (d : Z) (a : A) (Q : A -> run W -> Prop) :
  (forall s, chaosJobDone (server s) = d -> Q a s) -> returns (_ <- store_done d; ret a) Q.
Proof. intros HQ s b s' [= <- <-]. by apply HQ. Qed.

(** Follow a job to its end. *)
Ltac to_the_end :=
  repeat first
    [ apply returns_exit
    | apply returns_done; solve [auto]
    | apply returns_ret; done
    | progress intros
    | apply returns_bind
    | break_match ].

(** What the jobs store. *)
Definition verdict (job : string) : Z :=
  if String.eqb job "spm" then 3
  else if HasPrefix job "partition_" then 2
  else 1.

Definition finished_with (d : Z) (e : option error) (s : run W) : Prop :=
  e = None -> chaosJobDone (server s) = d.

Lemma jobs_finish (name : string) (job : nat -> step W (option error)) (n : nat) :
  ChaosRegistry cfg azs !! name = Some job -> returns (job n) (finished_with (verdict name)).
Proof.
  intros Hj. apply elem_of_list_to_map_2 in Hj. unfold finished_with.
  repeat (apply elem_of_cons in Hj as [[= -> ->]|Hj]); [| | | | | |by apply elem_of_nil in Hj].
  - unfold changeMasterCheck. to_the_end.
  - unfold stopMasterAgentCheck. to_the_end.
  - unfold stopSlaveAgentCheck. to_the_end.
  - unfold partitionOneAZCheck. to_the_end.
  - unfold partitionMasterAZCheck. to_the_end.
  - unfold singlePointMasterCheck, spm_leave. to_the_end.
Qed.

(** The goroutine of the chaos job either ends the process or leaves in
    [chaosJobDone] the verdict of a job of the registry: 3 for the single point
    mode, 2 for the partitions and 1 for the others, so that the wait of the
    writers ends, and only a partition lets a check pass with lost rows. *)
Theorem chaos_verdict (n : nat) (s s' : run W) :
  chaos_goroutine cfg azs n s = (Ret tt, s') ->
  is_Some (ChaosRegistry (W := W) cfg azs !! ChaosJob cfg) /\
  chaosJobDone (server s') = verdict (ChaosJob cfg) /\ verdict (ChaosJob cfg) <> 0.
Proof.
  unfold chaos_goroutine, runChaosJob. destruct (ChaosRegistry cfg azs !! ChaosJob cfg) as [job|] eqn:E.
  2:{ done. }
  unfold bind. destruct (job n s) as [[[e|]| | |] s1] eqn:Ej; try done. intros [= <-].
  split_and!; [by exists job|by apply (jobs_finish _ _ n E s None s1 Ej)|].
  unfold verdict. by destruct (String.eqb (ChaosJob cfg) "spm"), (HasPrefix (ChaosJob cfg) "partition_").
Qed.

(** ** The stopped master *)

(** The job that stops the agent of the master does not wait for another
    master: as soon as it knows a master it ends with success, within the same
    access to the connection, while that master is still the one it stopped. *)
Theorem stopped_master_not_awaited (n : nat) (s s1 : run W) (masterID : string) (conn : option string) :
  getDBConnection cfg azs s = (Ret (masterID, conn), s1) -> masterID <> "" ->
  exists s', stopMasterAgentCheck cfg azs n s = (Ret None, s') /\ schedule s' = schedule s1 /\
    mysqlID (server s') = masterID /\ chaosJobDone (server s') = 1.
Proof.
  intros E Hne. pose proof (getDBConnection_conn _ _ _ _ _ _ E) as [Hid _].
  unfold stopMasterAgentCheck, bind at 1. rewrite E. cbn [fst].
  unfold RunStopAgent, command, bind, observe, on_env, time_Sleep, store_done, on_server, ret.
  cbn -[run_command]. destruct (run_command _ _) as [r w]. cbn.
  unfold await_new_master. destruct (String.eqb_spec "" masterID); [congruence|]. cbn. by eexists.
Qed.

(** ** A slave is not the master *)

Lemma getASlave_spec (s s' : run W) (slaveID : string) :
  getASlave cfg azs s = (Ret slaveID, s') ->
  slaveID = "" \/ slaveID <> mysqlID (server s') /\ slaveID ∈ keys (IDContainerMapping cfg).
Proof.
  unfold getASlave, bind. destruct (getDBConnection cfg azs s) as [[[id conn]| | |] s1] eqn:E; try done.
  apply getDBConnection_conn in E as [<- _]. cbn. intros [= <- <-].
  destruct (filter _ _) as [|x l] eqn:Ef; [by left|right]. cbn.
  assert (x ∈ filter (fun id => id <> mysqlID (server s1)) (keys (IDContainerMapping cfg))) as Hx
    by (rewrite Ef; apply list_elem_of_here).
  by apply list_elem_of_filter in Hx.
Qed.
End Verdicts.

(** ** The zone that is partitioned *)
Section OneAZ.
Context {W : Type} `{CheckerEnv W} `{RangeOrderOk}.
Variables (cfg : Config) (azs : AZs).

Lemma repeat_until_returns {A} (n : nat) (body : step W (option A)) (Q : A -> Prop) :
  returns body (fun r _ => match r with Some a => Q a | None => True end) ->
  returns (repeat_until n body) (fun a _ => Q a).
Proof.
  intros Hb. induction n as [|n IH]; intros s a s'; cbn [repeat_until]; [done|].
  unfold bind. destruct (body s) as [[[r|]| | |] s1] eqn:E; try done; [|apply IH].
  intros [= <- <-]. exact (Hb _ _ _ E).
Qed.

Lemma pick_AZ_spec (n : nat) (masterAZ : string) :
  returns (pick_AZ azs n masterAZ) (fun az _ => az <> masterAZ /\ is_Some (azSet azs !! az)).
Proof.
  apply repeat_until_returns. intros s o s'. unfold bind, on_env. destruct (rand_Int (env s)) as [r w].
  destruct (size (azSet azs) =? 0)%nat; [done|].
  destruct (keys (azSet azs) !! Z.to_nat (Z.rem r (Z.of_nat (size (azSet azs))))) as [az|] eqn:Ek; cbn.
  - destruct (String.eqb_spec az masterAZ); intros [= <- <-]; [done|]. split; [done|].
    apply elem_of_keys, list_elem_of_lookup. eauto.
  - rewrite String.eqb_refl. by intros [= <- <-].
Qed.

Lemma repeat_until_blocks {A} (n : nat) (body : step W (option A)) (s : run W) :
  (forall s, exists s', body s = (Ret None, s')) -> (repeat_until n body s).1 = Blocked.
Proof.
  intros Hb. revert s. induction n as [|n IH]; intros s; [done|]. cbn [repeat_until]. unfold bind.
  destruct (Hb s) as [s' ->]. apply IH.
Qed.

(** With the master's zone alone the choice never ends. *)
Lemma pick_AZ_single (n : nat) (masterAZ : string) (s : run W) :
  azSet azs = {[ masterAZ := true ]} -> (pick_AZ azs n masterAZ s).1 = Blocked.
Proof.
  intros Hs. apply repeat_until_blocks. clear s. intros s. unfold bind, on_env.
  destruct (rand_Int (env s)) as [r w]. rewrite !Hs, map_size_singleton. cbn [Nat.eqb].
  destruct (keys _ !! _) as [az|] eqn:Ek; cbn; [|rewrite String.eqb_refl; by eexists].
  apply list_elem_of_lookup_2, elem_of_keys in Ek as [b Hb]. apply lookup_singleton_Some in Hb as [<- _].
  rewrite String.eqb_refl. by eexists.
Qed.

(** When the job that partitions one zone succeeds, the zone is not that
    of the master it read: the container of the master is on the far side of
    both cuts, every container outside the zone was told once to drop what
    comes from the zone, every container of the zone to drop what goes to the
    others, and the checks may then miss rows.  Every container is taken to
    have an address: the incoming cut names the addresses of its zone, empty
    ones too ([checker/agent_maniplate.go:218]). *)
Theorem one_az_spares_master (n : nat) (zs : list zone) (s s' : run W) :
  azs = AZs_of zs -> Permutation (map (fun z => (z_container z, z_az z)) zs) (map_to_list (ContainerAZMapping cfg)) ->
  usable zs -> Forall (fun z => z_ip z <> "") zs -> ends_blank (PartitionTemplate cfg) ->
  partitionOneAZCheck cfg azs n s = (Ret None, s') ->
  exists masterID container az s1 s2,
    IDContainerMapping cfg !! masterID = Some container /\
    (forall z, z ∈ zs -> z_container z = container -> z ∈ outside az zs) /\ inside az zs <> [] /\
    cut (PartitionTemplate cfg) (PartitionType cfg) (outside az zs) (inside az zs) s1 s2 /\
    cut (PartitionTemplate cfg) (PartitionType cfg) (inside az zs) (outside az zs) s2 s' /\
    chaosJobDone (server s') = 2.
Proof.
  intros Hazs Hp Hu Hr Hb. unfold partitionOneAZCheck. unfold bind at 1.
  destruct (getDBConnection cfg azs s) as [[[masterID conn]| | |] s0]; try done. cbn [fst].
  destruct (IDContainerMapping cfg !! masterID) as [container|] eqn:Em; [|done].
  unfold bind at 1. destruct (pick_AZ azs n _ s0) as [[az| | |] s1] eqn:Epick; try done.
  apply pick_AZ_spec in Epick as [Hne Haz].
  unfold bind at 1. destruct (PartitionIncoming azs _ az _ s1) as [[[e|]| | |] s2] eqn:Ein; try done.
  unfold bind at 1. destruct (PartitionOutgoing azs _ az _ s2) as [[[e|]| | |] s3] eqn:Eout; try done.
  cbn. intros [= <-]. subst azs. assert (NoDup (map z_container zs)) as Hc.
  { apply (Permutation_map fst) in Hp. rewrite map_map in Hp.
    change (map (fun x => (z_container x, z_az x).1) zs) with (map z_container zs) in Hp.
    rewrite Hp. apply NoDup_fst_map_to_list. }
  exists masterID, container, az, s1, s2. split_and!; [done| | | | |done].
  - intros z Hz <-. apply list_elem_of_filter. split; [|done]. intros <-. apply Hne.
    assert ((z_container z, z_az z) ∈ map (fun z => (z_container z, z_az z)) zs) as Hin
      by (apply list_elem_of_fmap; by exists z).
    rewrite Hp in Hin. apply elem_of_map_to_list in Hin. by rewrite Hin.
  - apply (ok_set _ _ (zones_ok_of zs)) in Haz as (z & Hz & Ha). intros Hnil.
    assert (z ∈ inside az zs) as Hin by (by apply list_elem_of_filter). rewrite Hnil in Hin. by apply elem_of_nil in Hin.
  - apply PartitionIncoming_cut in Ein; [done..|]. apply Forall_forall. intros z [_ Hz]%list_elem_of_filter.
    rewrite Forall_forall in Hr. by apply Hr.
  - apply PartitionOutgoing_cut in Eout; [|done..]. by rewrite running_all in Eout.
Qed.
End OneAZ.

(** ** The checker and the agents *)
Section Reach.
Context {W : Type} `{CheckerEnv W} `{RangeOrder}.
Variables (cfg : Config) (azs : AZs).

(** The requests of the checker for a change of master go to the host of
    the leader in etcd and to the port on which its agent listens, when the
    agent has the address that the configuration generator writes (a 1 before
    the port of the database): first the writes are stopped, then the master
    is changed. *)
Theorem checker_reaches_agent (host port : string) (acfg : Flags.Agent.Config) (st : Store) (kv : KeyValue)
    (w : W) (s : run W) :
  all_bytes host_byte host = true -> free_of ":" host = true -> all_digits port = true ->
  etcd_read (env s) = (inl st, w) -> Client.Get (etcd_root cfg) "master" st = inl (host +:+ ":" +:+ port, kv) ->
  Flags.Agent.ListenAddr acfg = "http://127.0.0.1:" +:+ "1" +:+ port ->
  exists addr e s', Boot.initHTTPServer acfg = inl addr /\ runChangeMaster cfg s = (Ret e, s') /\
    log s' = Request ("http://" +:+ host +:+ addr +:+ "/changeMaster") ::
             Request ("http://" +:+ host +:+ addr +:+ "/setReadOnly") :: log s.
Proof.
  intros Hh Hc Hp Hr Hg Hl.
  destruct (url_Parse_addr host port Hh Hc Hp) as (u & Eu & Hu & Pu).
  destruct (url_Parse_addr "127.0.0.1" ("1" +:+ port)) as (v & Ev & _ & Pv); [done|done|done|].
  unfold Boot.initHTTPServer. rewrite Hl.
  change ("http://127.0.0.1:" +:+ "1" +:+ port) with ("http://" +:+ "127.0.0.1" +:+ ":" +:+ "1" +:+ port).
  rewrite Ev, Pv. unfold runChangeMaster, etcd_Get, bind, on_env, time_Sleep, observe, ret. rewrite Hr, Hg, Eu, Hu, Pu.
  cbn -[http_Get pass]. destruct (http_Get _ w) as [e1 w1]. cbn -[http_Get pass].
  destruct (http_Get _ (pass _ w1)) as [e2 w2]. do 3 eexists. split_and!; [done..|]. cbn. done.
Qed.
End Reach.

(** ** On the concrete cluster *)
#[local] Existing Instance list_order.
#[local] Instance list_order_is_ok : RangeOrderOk := list_order_ok.

Definition toy_zones : list zone :=
  [mkZone "c3" "az3" "ip-c3"; mkZone "c1" "az1" "ip-c1"; mkZone "c2" "az2" "ip-c2"].

Definition toy_job (job : string) : Config :=
  mkConfig (EtcdURLs toy_cfg) (EtcdUsername toy_cfg) (EtcdPassword toy_cfg) (EtcdRootPath toy_cfg) (ClusterName toy_cfg) (DB toy_cfg) (RootUser toy_cfg) (RootPassword toy_cfg)
    (IDContainerMapping toy_cfg) (ContainerAZMapping toy_cfg) "pumba netem " "loss -p 100" job.

Definition toy_start : run toy := toy_run (toy_server 0) 0 [].

Lemma toy_zones_usable : usable toy_zones.
Proof.
  split; [apply (bool_decide_unpack _); vm_compute; exact I|].
  repeat constructor; by right.
Qed.

Lemma one_az_spares_master_witness :
  exists masterID container az s1 s2,
    IDContainerMapping (toy_job "partition_one_az") !! masterID = Some container /\
    (forall z, z ∈ toy_zones -> z_container z = container -> z ∈ outside az toy_zones) /\
    inside az toy_zones <> [] /\
    cut "pumba netem " "loss -p 100" (outside az toy_zones) (inside az toy_zones) s1 s2 /\
    cut "pumba netem " "loss -p 100" (inside az toy_zones) (outside az toy_zones) s2
      (partitionOneAZCheck (toy_job "partition_one_az") (AZs_of toy_zones) 1 toy_start).2 /\
    chaosJobDone (server (partitionOneAZCheck (toy_job "partition_one_az") (AZs_of toy_zones) 1 toy_start).2) = 2.
Proof.
  apply (one_az_spares_master (toy_job "partition_one_az") (AZs_of toy_zones) 1 toy_zones toy_start).
  - reflexivity.
  - vm_compute. reflexivity.
  - exact toy_zones_usable.
  - repeat constructor; discriminate.
  - by exists "pumba netem".
  - apply runs_to. vm_compute. reflexivity.
Defined.

Lemma chaos_verdict_witness :
  chaosJobDone (server (chaos_goroutine (toy_job "stop_slave_agent") (AZs_of toy_zones) 0 toy_start).2)
  = verdict "stop_slave_agent".
Proof.
  apply (chaos_verdict (toy_job "stop_slave_agent") (AZs_of toy_zones) 0 toy_start).
  apply runs_to. vm_compute. reflexivity.
Defined.

Lemma stopped_master_not_awaited_witness :
  exists s', stopMasterAgentCheck (toy_job "stop_master_agent") (AZs_of toy_zones) 0 toy_start = (Ret None, s') /\
    schedule s' = [] /\ mysqlID (server s') = "10.0.0.1:3306" /\ chaosJobDone (server s') = 1.
Proof.
  apply (stopped_master_not_awaited (toy_job "stop_master_agent") (AZs_of toy_zones) 0 toy_start toy_start
           "10.0.0.1:3306" (Some (toy_dsn "10.0.0.1:3306"))); [reflexivity|done].
Defined.

(** The change of master is not checked: the job succeeds on a cluster that
    answers both requests and keeps its master. *)
Lemma unchanged_master_accepted :
  let '(o, s') := changeMasterCheck (toy_job "change_master") (AZs_of toy_zones) 1 toy_start in
  o = Ret None /\ mysqlID (server s') = mysqlID (server toy_start).
Proof. vm_compute. done. Qed.

Lemma checker_reaches_agent_witness :
  exists addr e s',
    Boot.initHTTPServer (Flags.Agent.set_ListenAddr "http://127.0.0.1:13306" Flags.Agent.NewConfig) = inl addr /\
    runChangeMaster toy_cfg toy_start = (Ret e, s') /\
    log s' = [Request ("http://" +:+ "10.0.0.1" +:+ addr +:+ "/changeMaster");
              Request ("http://" +:+ "10.0.0.1" +:+ addr +:+ "/setReadOnly")].
Proof.
  apply (checker_reaches_agent toy_cfg "10.0.0.1" "3306" (Flags.Agent.set_ListenAddr "http://127.0.0.1:13306" Flags.Agent.NewConfig)
           toy_kvs (toy_kv "10.0.0.1:3306") (toy_world 0) toy_start); reflexivity.
Defined.

End Chaos.
